(* ===== verification/_CoqProject ===== *)
-Q . S2P
Prelude.v
GoStrings.v
GoTime.v
GoNet.v
GoPath.v
Json.v
GoEncoding.v
Box.v
Spec.v
Ports.v
Store.v
World.v
Engine.v
Reconcile.v
Sql.v
Migrate.v
BoxSqlite.v
Lifecycle.v
Agentproto.v
Agenthub.v
Agentssh.v
Agent.v
Boxmeta.v
Agentloop.v
Boxd.v
Workspace.v
WorkspaceSqlite.v
Sshca.v
Api.v
Boxstore.v
Providers.v
Plugin.v
Microvm.v
Firecracker.v
Docker.v
DevEnv.v
ApiConcrete.v
System.v
Sshfront.v
Concrete.v
FrontConcrete.v
Gateway.v
Mcp.v
Mcpfleet.v
McpConcrete.v
Mcpclient.v
Mcpssh.v
Guest.v
Cli.v
CliConcrete.v
Kubernetes.v
Conformance.v
Events.v
GoFlag.v
Config.v
Daemon.v
Mains.v
Startup.v
