(* ===== verification/Prelude.v ===== *)
(** A verification of hopbox: disposable boxes and persistent workspaces over
    SSH, as two daemons (boxd and hopboxd), the agent inside each box, the
    providers that run boxes, and the clients around them.

    * The program and its parts

    A box is a row of a store with a phase.  The engine creates and attaches to
    boxes; the reconciler takes each box, one step at a time, towards running,
    suspended or destroyed, calling a compute provider and the host layer's
    hooks; agents dial out to a hub, which the front door, the API and the
    gateway open streams on; a metadata API lets a box read and tune itself.
    The files, in dependency order, with the source they model:

    - the language: [GoStrings], [GoTime], [GoNet], [GoPath], [Json],
      [GoEncoding], [GoFlag] are the parts of Go's standard library the sources
      use, executable; this file has the error monad [M], its weakest
      preconditions [wp], frames ([moves]) and the shared automation.
    - the box core, [internal/core]: [Box] (phases, lifetime, idleness,
      flavors), [Spec] (the request grammar), [Ports] (provider contracts),
      [Store] (the store contract), [World] (the state the loops share),
      [Engine], [Reconcile], [Lifecycle] (what a step guarantees) and [System]
      (the daemon as a transition system).
    - the stores: [Sql] (tables and the plan of a SELECT), [BoxSqlite]
      ([boxsqlite]), [Workspace] and [WorkspaceSqlite] ([store/sqlite]),
      [Migrate] (opening either database).
    - the dev-environment layer: [Boxstore] (adapter and hooks), [DevEnv]
      (hopboxd's reconciler with all its parts).
    - the agent: [Agentproto] (wire format), [Agenthub] (the control plane's
      end), [Agentssh], [Agent] (streams) and [Agentloop] (connecting and
      heartbeats).
    - the servers: [Boxmeta], [Boxd], [Sshca], [Api], [Sshfront] (with
      [internal/account]), [Gateway], [Mcp] and [Mcpfleet], [Events].
    - the providers: [Providers] (identity, ingress, metering, images, homes),
      [Docker], [Microvm] over [Firecracker], [Kubernetes], [Plugin] (any of
      them over gRPC), and the batteries they must pass, [Conformance].
    - the programs: [Config] and [Daemon] (flags and what the daemons make of
      them), [Startup] (the order of [run]), [Mains] (hopbox-gw,
      hopbox-provider, the modes of hopbox-mcp, the byte bridges), [Cli],
      [Guest], [Mcpclient], [Mcpssh].
    - [Concrete], [ApiConcrete], [FrontConcrete], [McpConcrete] and
      [CliConcrete] put concrete parts together and apply the generic theorems
      to them.

    * How code became definitions

    A function with effects is a value of [M W A], a function from a state [W]
    to a state and a [result]; [;;] and [←] are sequencing with Go's early
    return of an error, [try] and [ignore] the places that inspect or drop one,
    [wrapping] is [fmt.Errorf] with [%w].  A struct is a Record with the
    source's field names under a short prefix; an interface the program
    implements or consumes is a Class, and its contract, where the clients rely
    on one, a second Class of laws ([BoxStoreSpec], [WorkspaceStoreSpec],
    [YamuxSpec], [DockerSpec], [ClusterSpec], ...), proved of the
    implementations that are in the repository and instantiated by a concrete
    function for those that are not.  Instants and durations are int64
    nanosecond counts in [Z], with [Sub]'s saturation; conversions to int32,
    uint16 and uint32 wrap where the code converts; a double is a [spec_float].
    Goroutines are step relations or interleaved runs where the source is
    concurrent: the hub's table and its reports, the relays of the front door,
    the two bridges, the wake-ups of a wait.

    * What the theorems show

    The listed properties carry their number in the doc comment above them.
    - The life of a box.  A reconcile step refines the abstract lifecycle of
      [Reconcile] for every store, provider and hooks that keep their contract;
      every operation of the daemon is, for every box, a move of the
      transition system of [System]; so persistent boxes are torn down only on
      request, names stay unique per owner, attached boxes are not reaped, the
      grace countdown stamps, waits and destroys, and a drain suspends exactly
      the persistent running boxes.  [DevEnv] gives the same for hopboxd, whose
      store, adapter and hooks are other code.
    - Text and bytes.  [ParseSpec] accepts its grammar and yields what it
      denotes; stored rows, exec streams and MCP replies are read back as
      written; frames are bounded; a stream cut after a header is taken for a
      clean end.
    - Who may do what.  A caller of the API, a client of the front door, a
      visitor of the gateway, an agent and an SSH login reach only what is
      theirs; homes stay under their root; the fences leave exactly the ports
      boxes are told to use; the users file guards the API.
    - Providers.  One container per box, exclusive addresses and taps, disks and
      volume claims that survive; a provider behind gRPC behaves as it does in
      process, as far as the wire carries.
    - Streams and loops.  The relays and bridges reorder and invent nothing; an
      exec call ends; [hopbox exec] runs a command as if it were local; a fleet
      that is applied converges; the agent registers again after any outage of
      bounded length; endpoint reconciliation reaches what is desired and rests.
    - Starting and stopping.  The sequence of effects of boxd's and hopboxd's
      [run] under any failures; opening a database of an earlier version.
    Beside the listed ones, theorems without a number state the rest: each
    branch of the smaller operations, frames, round trips of times, JSON, paths
    and durations, and the examples that show where a behaviour surprises.

    * Fuel and bounds

    A loop whose recursion is not structural takes fuel and has the length of
    its input plus one: the JSON parser ([parse_value_print], [parse_print]),
    the stdin pump ([stdin_pump_total]), the exec relay ([exec_relay_total],
    [Exec_terminates]), the authorized-keys file ([parse_keys_total]); each of
    the named lemmas says that this is enough.  [write_chunks] recurs on the
    bytes that are left, by Equations.  Loops over messages recur on the
    messages.  Loops that wait ([waitReady], [agent_loop], [heartbeatLoop],
    sweeps) are given as their first rounds; the theorems about them say how
    many rounds suffice.

    * Not modelled

    - Third-party code is a parameter: SQLite's engine beyond the statements'
      meaning, yamux, gRPC, go-oidc, x/crypto/ssh, the Docker, Kubernetes and
      NATS clients, Firecracker, the reverse proxy, random numbers, keys and
      signatures.  The generated code under [gen/] and the thin adapters
      [internal/k8sclient] and [internal/events/nats_conn.go] only construct or
      forward to it.
    - The operating system below files, commands, sockets and mounts, with the
      one-call files [dial_linux.go], [home_linux.go] and their other-platform
      twins, and the socket options of the agent's dial.
    - Log lines; cobra's parsing and the raw terminal mode of [hopbox]; the
      alignment of its table and the screens of [hopbox-mcp]; the canvas
      stylesheet.
    - Interleavings inside an operation of the daemon other than those named
      above: [System] is for executions whose operations are atomic on the
      store, and [attach_lost] and [sink_race] show what happens otherwise.
    - Build-tag stubs, which return the error that names the missing tag. *)
From stdpp Require Import base option list strings gmap.
From Stdlib Require Import ZArith Lia.

(** * Errors

    Go errors, as far as the code can tell them apart: a sentinel made by
    [errors.New] (compared by identity, hence by its package and text), a text
    made by [fmt.Errorf] without [%w], a wrapping [fmt.Errorf("prefix: %w", e)],
    and a gRPC status. *)
Inductive code : Type :=
| InvalidArgument | NotFound | FailedPrecondition | Unauthenticated | Internal | Unknown.

Inductive error : Type :=
| Sentinel (pkg msg : string)
| Errorf (msg : string)
| ErrWrap (prefix : string) (cause : error)
| ErrStatus (c : code) (msg : string).

Definition code_string (c : code) : string :=
  match c with
  | InvalidArgument => "InvalidArgument" | NotFound => "NotFound" | FailedPrecondition => "FailedPrecondition"
  | Unauthenticated => "Unauthenticated" | Internal => "Internal" | Unknown => "Unknown"
  end.

(** The text [err.Error()] renders. *)
Fixpoint Error (e : error) : string :=
  match e with
  | Sentinel _ m => m
  | Errorf m => m
  | ErrWrap p c => p +:+ ": " +:+ Error c
  | ErrStatus c m => "rpc error: code = " +:+ code_string c +:+ " desc = " +:+ m
  end.

#[export] Instance code_eq_dec : EqDecision code.
Proof. solve_decision. Defined.

#[export] Instance error_eq_dec : EqDecision error.
Proof. solve_decision. Defined.

(** [errors.Is(e, target)] for a sentinel target: walks the [%w] chain. *)
Fixpoint errors_Is (e target : error) : bool :=
  bool_decide (e = target) ||
  match e with ErrWrap _ c => errors_Is c target | _ => false end.

(** The standard library's sentinels the code tests for. *)
Definition io_EOF : error := Sentinel "io" "EOF".
Definition io_ErrUnexpectedEOF : error := Sentinel "io" "unexpected EOF".
Definition sql_ErrNoRows : error := Sentinel "database/sql" "sql: no rows in result set".

(** * Results and the state-and-error monad *)
Inductive result (A : Type) : Type :=
| Ok (a : A)
| Err (e : error).
Arguments Ok {A} _.
Arguments Err {A} _.

Definition is_ok {A} (r : result A) : bool := match r with Ok _ => true | Err _ => false end.

#[export] Instance result_ret : MRet result := fun _ a => Ok a.
#[export] Instance result_bind : MBind result :=
  fun _ _ f r => match r with Ok a => f a | Err e => Err e end.

#[export] Instance result_fmap : FMap result :=
  fun _ _ f r => match r with Ok a => Ok (f a) | Err e => Err e end.

Definition map_err {A} (f : error -> error) (r : result A) : result A :=
  match r with Ok a => Ok a | Err e => Err (f e) end.

(** A fallible operation on a state [W]: it returns the new state whether or
    not it fails, as Go code that fails half way does. *)
Definition M (W A : Type) : Type := W -> W * result A.

#[export] Instance M_ret {W} : MRet (M W) := fun _ a w => (w, Ok a).
#[export] Instance M_bind {W} : MBind (M W) :=
  fun _ _ f m w => match m w with
                   | (w', Ok a) => f a w'
                   | (w', Err e) => (w', Err e)
                   end.

Section monad.
Context {W : Type}.

(** [return ..., err] *)
Definition throw {A} (e : error) : M W A := fun w => (w, Err e).
(** [x, err := m]: the error becomes a value the code inspects. *)
Definition try {A} (m : M W A) : M W (result A) := fun w => let '(w', r) := m w in (w', Ok r).
(** [_ = m]: the error is dropped. *)
Definition ignore {A} (m : M W A) : M W unit := fun w => let '(w', _) := m w in (w', Ok tt).
(** [if err != nil { return fmt.Errorf("prefix: %w", err) }] *)
Definition wrapping {A} (prefix : string) (m : M W A) : M W A :=
  fun w => let '(w', r) := m w in (w', map_err (ErrWrap prefix) r).
Definition of_result {A} (r : result A) : M W A := fun w => (w, r).
Definition gets {A} (f : W -> A) : M W A := fun w => (w, Ok (f w)).
Definition modify (f : W -> W) : M W unit := fun w => (f w, Ok tt).

(** Run [m] once per element, in order, stopping at the first error. *)
Fixpoint mfor {A} (l : list A) (m : A -> M W unit) : M W unit :=
  match l with
  | [] => mret tt
  | x :: l' => m x ;; mfor l' m
  end.
End monad.

(** Run an operation on a component of the state. *)
Definition zoom {W S A} (get : W -> S) (put : S -> W -> W) (m : M S A) : M W A :=
  fun w => let '(s', r) := m (get w) in (put s' w, r).

(** * Record update *)
Class Setter {R T : Type} (proj : R -> T) := set_field : (T -> T) -> R -> R.
Arguments set_field {R T} proj {_} _ _.

Declare Scope go_scope.
Delimit Scope go_scope with go.
Notation "x <| p := v |>" := (set_field p (fun _ => v) x)
  (at level 1, left associativity, v at level 200,
   format "x  <| p  :=  v |>") : go_scope.
Open Scope go_scope.

(** * Machine integers *)
Definition int64_min : Z := - 2 ^ 63.
Definition int64_max : Z := 2 ^ 63 - 1.
(** Truncation of a 64-bit two's-complement result. *)
Definition wrap64 (z : Z) : Z := (z + 2 ^ 63) mod 2 ^ 64 - 2 ^ 63.
(** [uint16(x)], [uint32(x)], [int32(x)]. *)
Definition uint16 (z : Z) : Z := z mod 2 ^ 16.
Definition uint32 (z : Z) : Z := z mod 2 ^ 32.
Definition int32 (z : Z) : Z := (z + 2 ^ 31) mod 2 ^ 32 - 2 ^ 31.
Definition in_int32 (z : Z) : Prop := (- 2 ^ 31 <= z < 2 ^ 31)%Z.
Definition in_int64 (z : Z) : Prop := (int64_min <= z <= int64_max)%Z.

(** * Lemmas *)
Lemma errors_Is_refl e : errors_Is e e = true.
Proof. destruct e; simpl; by rewrite bool_decide_eq_true_2. Qed.

Lemma errors_Is_wrap p e t : errors_Is e t = true -> errors_Is (ErrWrap p e) t = true.
Proof. intros H. simpl. by rewrite H, orb_true_r. Qed.

Lemma int32_id z : in_int32 z -> int32 z = z.
Proof. unfold in_int32, int32. intros. rewrite Z.mod_small; lia. Qed.

Lemma int32_uint32 z : int32 (uint32 z) = int32 z.
Proof. unfold int32, uint32. by rewrite Zplus_mod_idemp_l. Qed.

Lemma wrap64_id z : in_int64 z -> wrap64 z = z.
Proof. unfold in_int64, wrap64, int64_min, int64_max. intros. rewrite Z.mod_small; lia. Qed.

Lemma uint16_id z : (0 <= z < 2 ^ 16)%Z -> uint16 z = z.
Proof. apply Z.mod_small. Qed.

Lemma bind_ok {W A B} (m : M W A) (f : A -> M W B) w w' b :
  (m ≫= f) w = (w', Ok b) ->
  exists w1 a, m w = (w1, Ok a) /\ f a w1 = (w', Ok b).
Proof.
  unfold mbind, M_bind. destruct (m w) as [w1 [a|e]] eqn:Hm; intros H; [by eauto|congruence].
Qed.

Lemma bind_err {W A B} (m : M W A) (f : A -> M W B) w w' e :
  (m ≫= f) w = (w', Err e) ->
  m w = (w', Err e) \/ exists w1 a, m w = (w1, Ok a) /\ f a w1 = (w', Err e).
Proof.
  unfold mbind, M_bind. destruct (m w) as [w1 [a|e']] eqn:Hm; intros H; [right; by eauto|left].
  congruence.
Qed.

Lemma bind_eq_ok {W A B} (m : M W A) (f : A -> M W B) w w1 a :
  m w = (w1, Ok a) -> (m ≫= f) w = f a w1.
Proof. unfold mbind, M_bind. by intros ->. Qed.

Lemma bind_eq_err {W A B} (m : M W A) (f : A -> M W B) w w1 e :
  m w = (w1, Err e) -> (m ≫= f) w = (w1, Err e).
Proof. unfold mbind, M_bind. by intros ->. Qed.

(** * Hoare-style reasoning over [M]: the postcondition sees the final state
    and the outcome, error included. *)
Definition wp {W A} (m : M W A) (Q : W -> result A -> Prop) (w : W) : Prop :=
  let '(w', r) := m w in Q w' r.

Section wp.
Context {W : Type}.
Implicit Types w : W.

Lemma wp_intro {A} (m : M W A) Q w : (forall w' r, m w = (w', r) -> Q w' r) -> wp m Q w.
Proof. unfold wp. destruct (m w) as [w' r]. eauto. Qed.

Lemma wp_elim {A} (m : M W A) Q w w' r : wp m Q w -> m w = (w', r) -> Q w' r.
Proof. unfold wp. intros H E. by rewrite E in H. Qed.

Lemma wp_all {A} (m : M W A) Q w w' r : m w = (w', r) -> wp m Q w -> Q w' r.
Proof. intros E H. by apply (wp_elim m Q w). Qed.

Lemma wp_mono {A} (m : M W A) (P Q : W -> result A -> Prop) w :
  wp m P w -> (forall w' r, P w' r -> Q w' r) -> wp m Q w.
Proof. unfold wp. destruct (m w). eauto. Qed.

Lemma wp_ret {A} (a : A) (Q : W -> result A -> Prop) w : Q w (Ok a) -> wp (mret a) Q w.
Proof. done. Qed.

Lemma wp_throw {A} e (Q : W -> result A -> Prop) w : Q w (Err e) -> wp (throw e) Q w.
Proof. done. Qed.

Lemma wp_of_result {A} (r : result A) (Q : W -> result A -> Prop) w : Q w r -> wp (of_result r) Q w.
Proof. done. Qed.

Lemma wp_gets {A} (f : W -> A) (Q : W -> result A -> Prop) w : Q w (Ok (f w)) -> wp (gets f) Q w.
Proof. done. Qed.

Lemma wp_modify f (Q : W -> result unit -> Prop) w : Q (f w) (Ok tt) -> wp (modify f) Q w.
Proof. done. Qed.

Lemma wp_bind {A B} (m : M W A) (f : A -> M W B) (Q : W -> result B -> Prop) w :
  wp m (fun w' r => match r with Ok a => wp (f a) Q w' | Err e => Q w' (Err e) end) w ->
  wp (m ≫= f) Q w.
Proof. unfold wp, mbind, M_bind. by destruct (m w) as [w' [a|e]]. Qed.

Lemma wp_try {A} (m : M W A) (Q : W -> result (result A) -> Prop) w :
  wp m (fun w' r => Q w' (Ok r)) w -> wp (try m) Q w.
Proof. unfold wp, try. by destruct (m w). Qed.

Lemma wp_ignore {A} (m : M W A) (Q : W -> result unit -> Prop) w :
  wp m (fun w' _ => Q w' (Ok tt)) w -> wp (ignore m) Q w.
Proof. unfold wp, ignore. by destruct (m w). Qed.

Lemma wp_wrapping {A} p (m : M W A) (Q : W -> result A -> Prop) w :
  wp m (fun w' r => Q w' (map_err (ErrWrap p) r)) w -> wp (wrapping p m) Q w.
Proof. unfold wp, wrapping. by destruct (m w). Qed.

(** Loop rule: [I] holds before each iteration and at every exit. *)
Lemma wp_mfor {A} (I : W -> Prop) (l : list A) (m : A -> M W unit) w :
  I w ->
  (forall x w, x ∈ l -> I w -> wp (m x) (fun w' _ => I w') w) ->
  wp (mfor l m) (fun w' _ => I w') w.
Proof.
  revert w. induction l as [|x l IH]; intros w HI Hstep; simpl; [done|].
  apply wp_bind. eapply wp_mono; [apply Hstep; [left|done]|].
  intros w' [[]|e] HI'; [|done]. apply IH; [done|]. intros. apply Hstep; [by right|done].
Qed.
End wp.

Lemma wp_zoom {W S A} (get : W -> S) put (m : M S A) (Q : W -> result A -> Prop) w :
  wp m (fun s' r => Q (put s' w) r) (get w) -> wp (zoom get put m) Q w.
Proof. unfold wp, zoom. by destruct (m (get w)). Qed.

(** Two postconditions of one run. *)
Lemma wp_conj {W A} (m : M W A) (P Q : W -> result A -> Prop) w :
  wp m P w -> wp m Q w -> wp m (fun w' r => P w' r /\ Q w' r) w.
Proof. unfold wp. by destruct (m w). Qed.

(** * Loops *)
Lemma mfor_app {W A} (l k : list A) (m : A -> M W unit) w : mfor (l ++ k) m w = (mfor l m ;; mfor k m) w.
Proof.
  revert w. induction l as [|x l IH]; intros w; [done|]. simpl. unfold mbind, M_bind in *.
  destruct (m x w) as [w' [a|e]]; [apply IH|done].
Qed.

Lemma mfor_map {W A B} (g : A -> B) (l : list A) (m : B -> M W unit) w : mfor (map g l) m w = mfor l (m ∘ g) w.
Proof.
  revert w. induction l as [|x l IH]; intros w; [done|]. simpl. unfold mbind, M_bind, compose.
  destruct (m (g x) w) as [w' [a|e]]; [apply IH|done].
Qed.

(** * Frames: operations that move the state only along a preorder. *)
Section moves.
Context {W : Type} (R : W -> W -> Prop) `{!PreOrder R}.

Definition moves {A} (m : M W A) : Prop := forall w, wp m (fun w' _ => R w w') w.

Lemma moves_ret {A} (a : A) : moves (mret a).
Proof. intros w. by apply wp_ret. Qed.
Lemma moves_throw {A} e : moves (throw (A := A) e).
Proof. intros w. by apply wp_throw. Qed.
Lemma moves_of_result {A} (r : result A) : moves (of_result r).
Proof. intros w. by apply wp_of_result. Qed.
Lemma moves_gets {A} (f : W -> A) : moves (gets f).
Proof. intros w. by apply wp_gets. Qed.
Lemma moves_bind {A B} (m : M W A) (f : A -> M W B) : moves m -> (forall a, moves (f a)) -> moves (m ≫= f).
Proof.
  intros Hm Hf w. apply wp_bind. eapply wp_mono; [apply Hm|]. intros w1 [a|e] H1; [|done].
  eapply wp_mono; [apply Hf|]. intros w2 r H2. by etrans.
Qed.
Lemma moves_try {A} (m : M W A) : moves m -> moves (try m).
Proof. intros Hm w. apply wp_try, Hm. Qed.
Lemma moves_ignore {A} (m : M W A) : moves m -> moves (ignore m).
Proof. intros Hm w. apply wp_ignore, Hm. Qed.
Lemma moves_wrapping {A} p (m : M W A) : moves m -> moves (wrapping p m).
Proof. intros Hm w. apply wp_wrapping, Hm. Qed.
Lemma moves_mfor {A} (l : list A) (m : A -> M W unit) : (forall a, moves (m a)) -> moves (mfor l m).
Proof. intros Hm. induction l as [|a l IH]; [apply moves_ret|]. cbn [mfor]. by apply moves_bind. Qed.
End moves.

Create HintDb go.
Create HintDb moves.
#[export] Hint Resolve moves_ret moves_throw moves_of_result moves_gets moves_bind moves_try moves_ignore moves_wrapping moves_mfor : moves.
Create Rewrite HintDb go.
#[export] Hint Resolve errors_Is_refl : go.
#[export] Hint Resolve wp_ret wp_throw wp_of_result wp_gets wp_modify : go.
#[export] Hint Rewrite @lookup_insert_eq @lookup_delete_eq @lookup_empty : go.

(** * Tactics *)

(** One step of symbolic execution through the monad. *)
Ltac wp_step :=
  lazymatch goal with
  | |- wp (mbind _ _) _ _ => apply wp_bind
  | |- wp (mret _) _ _ => apply wp_ret
  | |- wp (throw _) _ _ => apply wp_throw
  | |- wp (try _) _ _ => apply wp_try
  | |- wp (ignore _) _ _ => apply wp_ignore
  | |- wp (wrapping _ _) _ _ => apply wp_wrapping
  | |- wp (of_result _) _ _ => apply wp_of_result
  | |- wp (gets _) _ _ => apply wp_gets
  | |- wp (modify _) _ _ => apply wp_modify
  | |- wp (zoom _ _ _) _ _ => apply wp_zoom
  | |- wp (if ?b then _ else _) _ _ => destruct b eqn:?
  | |- wp (match ?x with _ => _ end) _ _ => destruct x eqn:?
  end.
(** One step of a frame proof. *)
Ltac moves_step :=
  lazymatch goal with
  | |- moves _ (mbind _ _) => apply moves_bind; [apply _| |intros]
  | |- moves _ (try _) => apply moves_try
  | |- moves _ (ignore _) => apply moves_ignore
  | |- moves _ (wrapping _ _) => apply moves_wrapping
  | |- moves _ (mfor _ _) => apply moves_mfor; [apply _|intros]
  | |- moves _ (match ?x with _ => _ end) => destruct x
  | |- moves _ (if ?x then _ else _) => destruct x
  | |- moves _ _ => progress auto with moves typeclass_instances
  end.
Ltac moves_go := repeat moves_step.
Ltac wp_go := repeat (wp_step; simpl).

(** Turn boolean tests of the code into propositions. *)
Ltac go_bool :=
  repeat match goal with
  | H : _ && _ = true |- _ => apply andb_true_iff in H as [? ?]
  | H : _ || _ = false |- _ => apply orb_false_iff in H as [? ?]
  | H : negb _ = true |- _ => apply negb_true_iff in H
  | H : negb _ = false |- _ => apply negb_false_iff in H
  | H : bool_decide _ = true |- _ => apply bool_decide_eq_true_1 in H
  | H : bool_decide _ = false |- _ => apply bool_decide_eq_false_1 in H
  | H : Z.leb _ _ = true |- _ => apply Z.leb_le in H
  | H : Z.leb _ _ = false |- _ => apply Z.leb_gt in H
  | H : Z.ltb _ _ = true |- _ => apply Z.ltb_lt in H
  | H : Z.ltb _ _ = false |- _ => apply Z.ltb_ge in H
  | H : Z.eqb _ _ = true |- _ => apply Z.eqb_eq in H
  | H : Z.eqb _ _ = false |- _ => apply Z.eqb_neq in H
  end.
