(* ===== verification/GoStrings.v ===== *)
(** The parts of Go's [strings], [strconv] and [fmt] packages the program
    uses, over byte strings: cutting, splitting and joining, trimming, decimal
    numbers and [%q] quoting.  Separators are single bytes, as in the source. *)
From stdpp Require Import base option list strings gmap.
From Stdlib Require Import Ascii ZArith Lia.
From S2P Require Import Prelude.
Local Open Scope Z_scope.

(** * Bytes *)
Definition byte_val (c : ascii) : Z := Z.of_N (N_of_ascii c).
Definition byte_of (z : Z) : ascii := ascii_of_N (Z.to_N (z mod 256)).
Definition ascii_eqb (a b : ascii) : bool := bool_decide (a = b).
Definition is_digit (c : ascii) : bool := (48 <=? byte_val c) && (byte_val c <=? 57).
Definition digit_val (c : ascii) : Z := byte_val c - 48.
Definition digit (n : Z) : ascii := byte_of (48 + n).
(** [unicode.IsSpace] on bytes. *)
Definition is_space (c : ascii) : bool :=
  let v := byte_val c in ((9 <=? v) && (v <=? 13)) || (v =? 32).

(** * strings *)
Fixpoint slen (s : string) : nat := match s with EmptyString => 0 | String _ s' => S (slen s') end.

Fixpoint contains_byte (c : ascii) (s : string) : bool :=
  match s with
  | EmptyString => false
  | String x s' => ascii_eqb x c || contains_byte c s'
  end.

(** [strings.Cut(s, c)]: before, after and whether [c] occurs. *)
Fixpoint cut (c : ascii) (s : string) : string * string * bool :=
  match s with
  | EmptyString => (EmptyString, EmptyString, false)
  | String x s' =>
      if ascii_eqb x c then (EmptyString, s', true)
      else let '(b, a, ok) := cut c s' in (String x b, a, ok)
  end.

(** [strings.LastIndex(s, c)], returned as the two sides of the last [c]. *)
Fixpoint cut_last (c : ascii) (s : string) : option (string * string) :=
  match s with
  | EmptyString => None
  | String x s' =>
      match cut_last c s' with
      | Some (b, a) => Some (String x b, a)
      | None => if ascii_eqb x c then Some (EmptyString, s') else None
      end
  end.

(** [strings.Split(s, c)]: never empty. *)
Fixpoint split (c : ascii) (s : string) : list string :=
  match s with
  | EmptyString => [EmptyString]
  | String x s' =>
      if ascii_eqb x c then EmptyString :: split c s'
      else match split c s' with
           | h :: t => String x h :: t
           | [] => [String x EmptyString]
           end
  end.

(** [strings.CutPrefix(s, p)]. *)
Fixpoint cut_prefix (p s : string) : option string :=
  match p, s with
  | EmptyString, _ => Some s
  | String a p', String b s' => if ascii_eqb a b then cut_prefix p' s' else None
  | String _ _, EmptyString => None
  end.
Definition has_prefix (p s : string) : bool := is_ok (match cut_prefix p s with Some r => Ok r | None => Err io_EOF end).
Definition trim_prefix (p s : string) : string := default s (cut_prefix p s).

(** [strings.Contains]. *)
Fixpoint contains_sub (sub s : string) : bool :=
  has_prefix sub s || match s with EmptyString => false | String _ s' => contains_sub sub s' end.

(** [strings.EqualFold], on ASCII text. *)
Definition lower_byte (c : ascii) : ascii :=
  let v := byte_val c in if (65 <=? v) && (v <=? 90) then byte_of (v + 32) else c.
Fixpoint to_lower (s : string) : string :=
  match s with EmptyString => EmptyString | String c s' => String (lower_byte c) (to_lower s') end.
Definition EqualFold (a b : string) : bool := bool_decide (to_lower a = to_lower b).

(** [strings.CutSuffix(s, suffix)]. *)
Fixpoint cut_suffix (suffix s : string) : option string :=
  if bool_decide (s = suffix) then Some EmptyString
  else match s with EmptyString => None | String c s' => String c <$> cut_suffix suffix s' end.

Fixpoint trim_left (s : string) : string :=
  match s with
  | EmptyString => EmptyString
  | String c s' => if is_space c then trim_left s' else s
  end.
Fixpoint trim_right (s : string) : string :=
  match s with
  | EmptyString => EmptyString
  | String c s' =>
      match trim_right s' with
      | EmptyString => if is_space c then EmptyString else String c EmptyString
      | r => String c r
      end
  end.
(** [strings.TrimSpace]. *)
Definition trim_space (s : string) : string := trim_right (trim_left s).

(** [strings.FieldsFunc]: maximal runs of bytes outside [sep]. *)
Fixpoint fields_func (sep : ascii -> bool) (s : string) : list string :=
  match s with
  | EmptyString => []
  | String c s' =>
      if sep c then fields_func sep s'
      else match s' with
           | EmptyString => [String c EmptyString]
           | String d _ =>
               if sep d then String c EmptyString :: fields_func sep s'
               else match fields_func sep s' with
                    | h :: t => String c h :: t
                    | [] => [String c EmptyString]
                    end
           end
  end.
(** [strings.Fields] *)
Definition string_Fields (s : string) : list string := fields_func is_space s.

(** [strings.Join(l, sep)]. *)
Fixpoint join (sep : string) (l : list string) : string :=
  match l with
  | [] => EmptyString
  | [x] => x
  | x :: l' => x +:+ sep +:+ join sep l'
  end.

(** [fmt.Sprintf("%v", []string)]. *)
Definition sprint_list (l : list string) : string := "[" +:+ join " " l +:+ "]".

(** * Decimal numbers *)

(** [%0wd]: the low [w] decimal digits of [n]. *)
Fixpoint pad_dec (w : nat) (n : Z) : string :=
  match w with
  | O => EmptyString
  | S w' => String (digit ((n / 10 ^ Z.of_nat w') mod 10)) (pad_dec w' n)
  end.

Fixpoint ndigits (fuel : nat) (n : Z) : nat :=
  match fuel with
  | O => 1
  | S f => if n <? 10 then 1 else S (ndigits f (n / 10))
  end.
(** [strconv.Itoa] ([Z.log2] bounds the number of decimal digits). *)
Definition itoa_nonneg (n : Z) : string := pad_dec (ndigits (Z.to_nat (Z.log2 n)) n) n.
Definition itoa (n : Z) : string :=
  if n <? 0 then String "-" (itoa_nonneg (- n)) else itoa_nonneg n.

(** The value of a run of digits, and the rest. *)
Fixpoint take_digits (acc : Z) (s : string) : Z * string :=
  match s with
  | EmptyString => (acc, EmptyString)
  | String c s' => if is_digit c then take_digits (acc * 10 + digit_val c) s' else (acc, s)
  end.

(** Exactly [w] digits. *)
Fixpoint take_fixed (w : nat) (acc : Z) (s : string) : option (Z * string) :=
  match w with
  | O => Some (acc, s)
  | S w' => match s with
            | String c s' => if is_digit c then take_fixed w' (acc * 10 + digit_val c) s' else None
            | EmptyString => None
            end
  end.

(** * Quoting *)
Definition hex_digit (n : Z) : ascii := if n <? 10 then byte_of (48 + n) else byte_of (87 + n).
Definition hex_byte (v : Z) : string := String (hex_digit (v / 16)) (String (hex_digit (v mod 16)) EmptyString).
(** One byte of [strconv.Quote] (bytes of 0x80 and above as [\x..], which is
    what Go prints for invalid UTF-8). *)
Definition quote_byte (c : ascii) : string :=
  let v := byte_val c in
  if v =? 34 then String "\" (String (byte_of 34) EmptyString)
  else if v =? 92 then String "\" (String "\" EmptyString)
  else if v =? 7 then "\a" else if v =? 8 then "\b" else if v =? 9 then "\t"
  else if v =? 10 then "\n" else if v =? 11 then "\v" else if v =? 12 then "\f" else if v =? 13 then "\r"
  else if (32 <=? v) && (v <=? 126) then String c EmptyString
  else "\x" +:+ hex_byte v.
Fixpoint quote_body (s : string) : string :=
  match s with EmptyString => EmptyString | String c s' => quote_byte c +:+ quote_body s' end.
(** [%q] *)
Definition quote (s : string) : string := String (byte_of 34) (quote_body s +:+ String (byte_of 34) EmptyString).

(** * Lemmas: bytes *)
Lemma ascii_eqb_eq a b : ascii_eqb a b = true <-> a = b.
Proof. apply bool_decide_eq_true. Qed.

Lemma ascii_eqb_neq a b : ascii_eqb a b = false <-> a <> b.
Proof. apply bool_decide_eq_false. Qed.

Lemma ascii_eqb_refl a : ascii_eqb a a = true.
Proof. by apply ascii_eqb_eq. Qed.

Lemma byte_val_range c : 0 <= byte_val c < 256.
Proof. unfold byte_val. pose proof (N_ascii_bounded c). lia. Qed.

Lemma byte_val_of z : 0 <= z < 256 -> byte_val (byte_of z) = z.
Proof.
  intros Hz. unfold byte_val, byte_of. rewrite Z.mod_small by done.
  rewrite N_ascii_embedding; lia.
Qed.

Lemma byte_of_val c : byte_of (byte_val c) = c.
Proof.
  pose proof (byte_val_range c). unfold byte_of. rewrite Z.mod_small by done.
  unfold byte_val. by rewrite N2Z.id, ascii_N_embedding.
Qed.

Lemma byte_val_inj a b : byte_val a = byte_val b -> a = b.
Proof. intros H. rewrite <- (byte_of_val a), H. apply byte_of_val. Qed.

Lemma digit_val_digit n : 0 <= n < 10 -> digit_val (digit n) = n.
Proof. intros. unfold digit_val, digit. rewrite byte_val_of; lia. Qed.

Lemma is_digit_digit n : 0 <= n < 10 -> is_digit (digit n) = true.
Proof.
  intros. unfold is_digit, digit. rewrite byte_val_of by lia.
  apply andb_true_iff; split; apply Z.leb_le; lia.
Qed.

Lemma is_digit_range c : is_digit c = true -> 0 <= digit_val c < 10.
Proof. unfold is_digit, digit_val. intros. go_bool. lia. Qed.

(** * Lemmas: strings *)
Lemma string_app_nil_r (s : string) : s +:+ "" = s.
Proof. induction s as [|a s IH]; [done|]. change (String a (s +:+ "") = String a s). by rewrite IH. Qed.

Lemma string_app_cons a (s t : string) : String a s +:+ t = String a (s +:+ t).
Proof. done. Qed.

Lemma string_app_assoc (s t u : string) : s +:+ (t +:+ u) = (s +:+ t) +:+ u.
Proof. induction s as [|a s IH]; [done|]. rewrite !string_app_cons. by f_equal. Qed.

Lemma string_app_nil_l (t : string) : "" +:+ t = t.
Proof. done. Qed.

Lemma slen_app s t : slen (s +:+ t) = (slen s + slen t)%nat.
Proof. induction s; rewrite ?string_app_cons; simpl; [done|]. by rewrite IHs. Qed.

Lemma string_app_inv_r (p q s : string) : p +:+ s = q +:+ s -> p = q.
Proof.
  revert q. induction p as [|a p IH]; intros [|b q]; try done.
  - intros H. apply (f_equal slen) in H. rewrite string_app_cons in H. simpl in H. rewrite string_app_nil_l, slen_app in H. lia.
  - intros H. apply (f_equal slen) in H. rewrite string_app_cons in H. simpl in H. rewrite string_app_nil_l, slen_app in H. lia.
  - rewrite !string_app_cons. intros [= -> H]. f_equal. by apply IH.
Qed.

Lemma contains_byte_app c s t : contains_byte c (s +:+ t) = contains_byte c s || contains_byte c t.
Proof.
  induction s; rewrite ?string_app_cons; simpl; [done|]. by rewrite IHs, orb_assoc.
Qed.

Lemma cut_found c b a : contains_byte c b = false -> cut c (b +:+ String c a) = (b, a, true).
Proof.
  induction b; rewrite ?string_app_cons; simpl; intros H; [by rewrite ascii_eqb_refl|].
  go_bool. by rewrite H, IHb.
Qed.

Lemma cut_absent c s : contains_byte c s = false -> cut c s = (s, EmptyString, false).
Proof. induction s; simpl; intros H; [done|]. go_bool. by rewrite H, IHs. Qed.

Lemma cut_inv c s b a ok :
  cut c s = (b, a, ok) ->
  contains_byte c b = false /\ s = (if ok then b +:+ String c a else b).
Proof.
  revert b a ok. induction s as [|x s IH]; simpl; intros b a ok H; [by simplify_eq|].
  destruct (ascii_eqb x c) eqn:E; [apply ascii_eqb_eq in E; by simplify_eq|].
  destruct (cut c s) as [[b' a'] ok'] eqn:Hc; simplify_eq; simpl.
  destruct (IH _ _ _ eq_refl) as [Hn ->]. rewrite E, Hn. by destruct ok.
Qed.

Lemma cut_last_absent c s : contains_byte c s = false -> cut_last c s = None.
Proof. induction s; simpl; intros H; [done|]. go_bool. by rewrite IHs, H. Qed.

Lemma cut_last_found c b a : contains_byte c a = false -> cut_last c (b +:+ String c a) = Some (b, a).
Proof.
  intros Ha. induction b; rewrite ?string_app_cons; simpl; [|by rewrite IHb].
  by rewrite cut_last_absent, ascii_eqb_refl.
Qed.

Lemma cut_last_inv c s :
  match cut_last c s with
  | Some (b, a) => s = b +:+ String c a /\ contains_byte c a = false
  | None => contains_byte c s = false
  end.
Proof.
  induction s as [|x s IH]; simpl; [done|].
  destruct (cut_last c s) as [[b a]|]; [by destruct IH as [-> ?]|].
  destruct (ascii_eqb x c) eqn:E; [|done]. apply ascii_eqb_eq in E. by subst.
Qed.

Lemma split_absent c s : contains_byte c s = false -> split c s = [s].
Proof. induction s; simpl; intros H; [done|]. go_bool. by rewrite H, IHs. Qed.

Lemma split_app c x s : contains_byte c x = false -> split c (x +:+ String c s) = x :: split c s.
Proof.
  induction x; rewrite ?string_app_cons; simpl; intros H; [by rewrite ascii_eqb_refl|].
  go_bool. by rewrite H, IHx.
Qed.

Lemma split_nonempty c s : split c s <> [].
Proof. destruct s; simpl; [done|]. case_match; [done|]. by destruct (split c s). Qed.

Lemma split_no_sep c s : Forall (fun x => contains_byte c x = false) (split c s).
Proof.
  induction s as [|x s IH]; simpl; [by repeat constructor|].
  destruct (ascii_eqb x c) eqn:E; [by constructor|].
  destruct (split c s) as [|h t]; inversion_clear IH; constructor; try done; simpl; rewrite E; done.
Qed.

Lemma join_split c s : join (String c EmptyString) (split c s) = s.
Proof.
  induction s as [|x s IH]; simpl; [done|].
  pose proof (split_nonempty c s) as Hne.
  destruct (ascii_eqb x c) eqn:E.
  - apply ascii_eqb_eq in E as ->. destruct (split c s); [done|].
    rewrite <- IH. done.
  - destruct (split c s) as [|h t]; [done|]. rewrite <- IH. by destruct t.
Qed.

Lemma join_nil_cons x l : join "" (x :: l) = x +:+ join "" l.
Proof. destruct l; [by rewrite string_app_nil_r|done]. Qed.

Lemma join_nil_app l1 l2 : join "" (l1 ++ l2) = join "" l1 +:+ join "" l2.
Proof. induction l1 as [|x l1 IH]; [done|]. rewrite <- app_comm_cons, !join_nil_cons, IH. by rewrite string_app_assoc. Qed.

Lemma join_nil_snoc l x : join "" (l ++ [x]) = join "" l +:+ x.
Proof. by rewrite join_nil_app. Qed.

Lemma cut_prefix_app p s : cut_prefix p (p +:+ s) = Some s.
Proof. induction p; rewrite ?string_app_cons; simpl; [done|]. by rewrite ascii_eqb_refl. Qed.

Lemma cut_suffix_app sfx s : cut_suffix sfx (s +:+ sfx) = Some s.
Proof.
  induction s as [|c s IH].
  { change (EmptyString +:+ sfx) with sfx. destruct sfx as [|a sfx]; [done|]. cbn [cut_suffix]. by rewrite bool_decide_eq_true_2. }
  rewrite string_app_cons. simpl. rewrite bool_decide_eq_false_2, IH; [done|].
  intros He. apply (f_equal slen) in He. simpl in He. rewrite slen_app in He. lia.
Qed.

Lemma cut_prefix_inv p s r : cut_prefix p s = Some r -> s = p +:+ r.
Proof.
  revert s. induction p as [|a p IH]; intros [|b s]; simpl; intros H; simplify_eq; try done.
  destruct (ascii_eqb a b) eqn:E; [|done]. apply ascii_eqb_eq in E as ->.
  by rewrite string_app_cons, (IH s).
Qed.

(** * Lemmas: decimal numbers *)
Lemma slen_pad_dec w n : slen (pad_dec w n) = w.
Proof. revert n; induction w; simpl; intros; [done|by rewrite IHw]. Qed.

Lemma pow10_mod_succ n w :
  0 <= n -> n mod 10 ^ Z.of_nat (S w) = (n / 10 ^ Z.of_nat w) mod 10 * 10 ^ Z.of_nat w + n mod 10 ^ Z.of_nat w.
Proof.
  intros Hn. assert (0 < 10 ^ Z.of_nat w) by (apply Z.pow_pos_nonneg; lia).
  rewrite Nat2Z.inj_succ, Z.pow_succ_r, (Z.mul_comm 10), Z.rem_mul_r by lia. lia.
Qed.

(** Reading back a fixed-width number reads its low [w] digits. *)
Lemma take_fixed_pad w n acc rest :
  0 <= n -> take_fixed w acc (pad_dec w n +:+ rest) = Some (acc * 10 ^ Z.of_nat w + n mod 10 ^ Z.of_nat w, rest).
Proof.
  intros Hn. revert acc. induction w as [|w IH]; intros acc.
  - simpl. rewrite Z.mod_1_r. do 2 f_equal. lia.
  - cbn [pad_dec take_fixed]. rewrite string_app_cons.
    assert (0 <= (n / 10 ^ Z.of_nat w) mod 10 < 10) by (apply Z.mod_pos_bound; lia).
    cbn [take_fixed]. rewrite is_digit_digit, IH, digit_val_digit by done.
    rewrite pow10_mod_succ, Nat2Z.inj_succ, Z.pow_succ_r by lia. do 2 f_equal. lia.
Qed.

Lemma ndigits_bound fuel n :
  0 <= n < 2 ^ (Z.of_nat fuel + 1) -> n < 10 ^ Z.of_nat (ndigits fuel n).
Proof.
  revert n. induction fuel as [|f IH]; intros n Hn; simpl ndigits.
  - simpl in *. lia.
  - destruct (n <? 10) eqn:E; go_bool; [simpl; lia|].
    rewrite Nat2Z.inj_succ, Z.pow_succ_r by lia.
    assert (n / 10 < 10 ^ Z.of_nat (ndigits f (n / 10))).
    { apply IH. split; [apply Z.div_pos; lia|].
      apply Z.div_lt_upper_bound; [lia|].
      replace (Z.of_nat (S f) + 1) with (Z.succ (Z.of_nat f + 1)) in Hn by lia.
      rewrite Z.pow_succ_r in Hn by lia. lia. }
    pose proof (Z.mul_succ_div_gt n 10). lia.
Qed.

Lemma itoa_width n : 0 <= n -> n < 10 ^ Z.of_nat (ndigits (Z.to_nat (Z.log2 n)) n).
Proof.
  intros Hn. apply ndigits_bound. rewrite Z2Nat.id by apply Z.log2_nonneg.
  split; [done|]. destruct (decide (n = 0)) as [->|]; [done|].
  rewrite Z.add_1_r. apply Z.log2_spec. lia.
Qed.

(** Scanning the digits of [pad_dec], stopping at a non-digit. *)
Lemma take_digits_pad w n acc rest :
  0 <= n -> match rest with String c _ => is_digit c = false | EmptyString => True end ->
  take_digits acc (pad_dec w n +:+ rest) = (acc * 10 ^ Z.of_nat w + n mod 10 ^ Z.of_nat w, rest).
Proof.
  intros Hn Hr. revert acc. induction w as [|w IH]; intros acc.
  - rewrite Z.mod_1_r. replace (acc * _ + _) with acc by lia.
    simpl. rewrite string_app_nil_l. destruct rest; simpl; [done|by rewrite Hr].
  - cbn [pad_dec]. rewrite string_app_cons.
    assert (0 <= (n / 10 ^ Z.of_nat w) mod 10 < 10) by (apply Z.mod_pos_bound; lia).
    cbn [take_digits]. rewrite is_digit_digit, IH, digit_val_digit by done.
    rewrite pow10_mod_succ, Nat2Z.inj_succ, Z.pow_succ_r by lia. f_equal. lia.
Qed.

Lemma take_digits_itoa n rest :
  0 <= n -> match rest with String c _ => is_digit c = false | EmptyString => True end ->
  take_digits 0 (itoa_nonneg n +:+ rest) = (n, rest).
Proof.
  intros Hn Hr. unfold itoa_nonneg. rewrite take_digits_pad by done.
  rewrite Z.mod_small; [done|]. split; [done|by apply itoa_width].
Qed.
#[export] Hint Rewrite slen_app string_app_nil_r string_app_cons : go.
#[export] Hint Resolve byte_val_range is_digit_digit : go.
