(* ===== verification/GoTime.v ===== *)
(** The parts of Go's [time] package the program uses: instants and durations
    as nanosecond counts, [Sub] with its saturation, the RFC3339Nano text form
    the stores persist (read back by [time.Parse]), and [time.ParseDuration]
    with its overflow checks and its IEEE double arithmetic. *)
From stdpp Require Import base option list strings.
From Stdlib Require Import Ascii ZArith Lia Floats.SpecFloat.
From S2P Require Import Prelude GoStrings.
Local Open Scope Z_scope.

(** * IEEE doubles *)
Definition float64 : Type := spec_float.
Definition f64_of_Z (z : Z) : float64 := binary_normalize 53 1024 z 0 false.
Definition f64_mul : float64 -> float64 -> float64 := SFmul 53 1024.
Definition f64_div : float64 -> float64 -> float64 := SFdiv 53 1024.
(** [x >= y] *)
Definition f64_ge (x y : float64) : bool := SFleb y x.
(** [uint64(x)] for a finite non-negative [x]. *)
Definition f64_trunc (x : float64) : Z :=
  match x with
  | S754_finite false m e => Z.shiftl (Z.pos m) e
  | _ => 0
  end.

(** [int64(x)] for a finite [x]: truncates towards zero. *)
Definition f64_to_int (x : float64) : Z :=
  match x with
  | S754_finite s m e => (if s then Z.opp else id) (Z.shiftl (Z.pos m) e)
  | _ => 0
  end.
(** The double nearest to [(-1)^neg * m * 10^e]. *)
Definition f64_of_dec (neg : bool) (m e : Z) : float64 :=
  match m with
  | Z.pos p =>
      if 0 <=? e then binary_normalize 53 1024 ((if neg then Z.opp else id) (m * 10 ^ e)) 0 neg
      else let '(q, e', l) := SFdiv_core_binary 53 1024 m 0 (10 ^ (- e)) 0 in
           binary_round_aux 53 1024 neg q e' l
  | _ => S754_zero neg
  end.
Definition f64_finite (x : float64) : bool :=
  match x with S754_zero _ | S754_finite _ _ _ => true | _ => false end.

(** * Instants: nanoseconds since 0001-01-01T00:00:00Z, Go's zero [Time] *)
Definition time : Type := Z.
Definition duration : Type := Z.
Definition zero_time : time := 0.
Definition IsZero (t : time) : bool := t =? 0.
Definition Before (t u : time) : bool := t <? u.
Definition After (t u : time) : bool := u <? t.
Definition Add (t : time) (d : duration) : time := t + d.
(** [t.Sub(u)] saturates at the ends of [Duration]. *)
Definition Sub (t u : time) : duration := Z.max int64_min (Z.min int64_max (t - u)).
Definition Second : duration := 1000000000.
Definition Minute : duration := 60 * Second.
Definition Hour : duration := 60 * Minute.
(** Seconds from year 1 to 1970. *)
Definition unix_epoch : Z := 62135596800.
Definition Unix (t : time) : Z := t / Second - unix_epoch.
Definition Nanosecond (t : time) : Z := t mod Second.
(** [d.Seconds()], a sum of two doubles, and [int64(d.Seconds())]. *)
Definition Seconds (d : duration) : float64 :=
  SFadd 53 1024 (f64_of_Z (Z.quot d Second)) (f64_div (f64_of_Z (Z.rem d Second)) (f64_of_Z Second)).
Definition whole_seconds (d : duration) : Z := f64_to_int (Seconds d).

(** * The proleptic Gregorian calendar *)

(** Day number counted from 0000-03-01 to (year, month, day). *)
Definition civil_of_days (z : Z) : Z * Z * Z :=
  let era := z / 146097 in
  let doe := z mod 146097 in
  let yoe := (doe - doe / 1460 + doe / 36524 - doe / 146096) / 365 in
  let doy := doe - (365 * yoe + yoe / 4 - yoe / 100) in
  let mp := (5 * doy + 2) / 153 in
  let d := doy - (153 * mp + 2) / 5 + 1 in
  let m := if mp <? 10 then mp + 3 else mp - 9 in
  (yoe + era * 400 + (if m <=? 2 then 1 else 0), m, d).

Definition days_of_civil (y m d : Z) : Z :=
  let y' := if m <=? 2 then y - 1 else y in
  let era := y' / 400 in
  let yoe := y' mod 400 in
  let mp := if 2 <? m then m - 3 else m + 9 in
  let doy := (153 * mp + 2) / 5 + d - 1 in
  era * 146097 + (yoe * 365 + yoe / 4 - yoe / 100 + doy).

(** Day 0 of [time] is 0001-01-01, day 306 of the count above. *)
Definition day_shift : Z := 306.
Definition day_secs : Z := 86400.

(** * RFC3339Nano *)
Fixpoint trim_zeros (s : string) : string :=
  match s with
  | EmptyString => EmptyString
  | String c s' =>
      match trim_zeros s' with
      | EmptyString => if ascii_eqb c "0" then EmptyString else String c EmptyString
      | r => String c r
      end
  end.

(** ".999999999": trailing zeros dropped, and the point with them. *)
Definition format_frac (ns : Z) : string :=
  match trim_zeros (pad_dec 9 ns) with
  | EmptyString => EmptyString
  | r => String "." r
  end.

Definition format_secs (secs : Z) : string :=
  let '(y, m, d) := civil_of_days (secs / day_secs + day_shift) in
  let sod := secs mod day_secs in
  (if y <? 10000 then pad_dec 4 y else itoa_nonneg y)
    +:+ String "-" (pad_dec 2 m +:+ String "-" (pad_dec 2 d
    +:+ String "T" (pad_dec 2 (sod / 3600) +:+ String ":" (pad_dec 2 (sod / 60 mod 60)
    +:+ String ":" (pad_dec 2 (sod mod 60)))))).

(** [t.Format(time.RFC3339Nano)] of an instant in UTC. *)
Definition Format (t : time) : string :=
  format_secs (t / Second) +:+ (format_frac (t mod Second) +:+ "Z").

Fixpoint skip_digits (s : string) : string :=
  match s with
  | String c s' => if is_digit c then skip_digits s' else s
  | EmptyString => EmptyString
  end.

(** At most [w] fractional digits, scaled to [10^-w]; the rest is dropped. *)
Fixpoint frac_digits (w : nat) (acc : Z) (s : string) : Z * string :=
  match w with
  | O => (acc, skip_digits s)
  | S w' => match s with
            | String c s' => if is_digit c then frac_digits w' (acc * 10 + digit_val c) s'
                             else (acc * 10 ^ Z.of_nat w, s)
            | EmptyString => (acc * 10 ^ Z.of_nat w, s)
            end
  end.

Definition leap (y : Z) : bool :=
  (y mod 4 =? 0) && (negb (y mod 100 =? 0) || (y mod 400 =? 0)).
Definition days_in (m y : Z) : Z :=
  if m =? 2 then (if leap y then 29 else 28)
  else if (m =? 4) || (m =? 6) || (m =? 9) || (m =? 11) then 30 else 31.

Definition expect (c : ascii) (s : string) : option string :=
  match s with String x s' => if ascii_eqb x c then Some s' else None | EmptyString => None end.

(** "Z" or "±hh:mm": the offset in seconds east of UTC. *)
Definition parse_zone (s : string) : option Z :=
  match s with
  | String "Z" EmptyString => Some 0
  | String c s1 =>
      if ascii_eqb c "+" || ascii_eqb c "-" then
        '(h, s2) ← take_fixed 2 0 s1; s3 ← expect ":" s2; '(m, s4) ← take_fixed 2 0 s3;
        if (h <=? 24) && (m <=? 60) then
          match s4 with
          | EmptyString => Some ((if ascii_eqb c "-" then -1 else 1) * (h * 3600 + m * 60))
          | _ => None
          end
        else None
      else None
  | EmptyString => None
  end.

(** The fraction: a point and at least one digit, else nothing is consumed. *)
Definition parse_frac (s : string) : Z * string :=
  match s with
  | String "." (String c s') =>
      if is_digit c then frac_digits 9 0 (String c s') else (0, s)
  | _ => (0, s)
  end.

(** [time.Parse(time.RFC3339Nano, s)] as an instant, on the RFC 3339 shape (the
    general parser also takes a few sloppier spellings, which [Format] never
    writes). *)
Definition Parse (s : string) : option time :=
  '(y, s) ← take_fixed 4 0 s; s ← expect "-" s;
  '(m, s) ← take_fixed 2 0 s; s ← expect "-" s;
  '(d, s) ← take_fixed 2 0 s; s ← expect "T" s;
  '(hh, s) ← take_fixed 2 0 s; s ← expect ":" s;
  '(mm, s) ← take_fixed 2 0 s; s ← expect ":" s;
  '(ss, s) ← take_fixed 2 0 s;
  let '(ns, s) := parse_frac s in
  z ← parse_zone s;
  if (1 <=? m) && (m <=? 12) && (1 <=? d) && (d <=? days_in m y)
     && (hh <? 24) && (mm <? 60) && (ss <? 60)
  then Some (((days_of_civil y m d - day_shift) * day_secs + hh * 3600 + mm * 60 + ss - z) * Second + ns)
  else None.

(** * time.ParseDuration *)
Definition unit_of (u : string) : option Z :=
  if bool_decide (u = "ns"%string) then Some 1
  else if bool_decide (u = "us"%string) || bool_decide (u = "µs"%string) || bool_decide (u = "μs"%string) then Some 1000
  else if bool_decide (u = "ms"%string) then Some 1000000
  else if bool_decide (u = "s"%string) then Some Second
  else if bool_decide (u = "m"%string) then Some Minute
  else if bool_decide (u = "h"%string) then Some Hour
  else None.

(** [leadingInt]: [None] on overflow of 2^63. *)
Fixpoint leading_int (x : Z) (s : string) : option (Z * string) :=
  match s with
  | String c s' =>
      if is_digit c then
        if 2 ^ 63 / 10 <? x then None
        else let x' := x * 10 + digit_val c in
             if 2 ^ 63 <? x' then None else leading_int x' s'
      else Some (x, s)
  | EmptyString => Some (x, s)
  end.

(** [leadingFraction]: the digits' value, the power of ten it is scaled by and
    the rest; digits that would overflow are dropped. *)
Fixpoint leading_fraction (ovf : bool) (x scale : Z) (s : string) : Z * Z * string :=
  match s with
  | String c s' =>
      if is_digit c then
        if ovf then leading_fraction true x scale s'
        else if (2 ^ 63 - 1) / 10 <? x then leading_fraction true x scale s'
        else let y := x * 10 + digit_val c in
             if 2 ^ 63 <? y then leading_fraction true x scale s'
             else leading_fraction false y (scale * 10) s'
      else (x, scale, s)
  | EmptyString => (x, scale, s)
  end.

(** The unit: everything up to the next digit or point. *)
Fixpoint take_unit (s : string) : string * string :=
  match s with
  | String c s' =>
      if ascii_eqb c "." || is_digit c then (EmptyString, s)
      else let '(u, r) := take_unit s' in (String c u, r)
  | EmptyString => (EmptyString, EmptyString)
  end.

(** [uint64(float64(f) * (float64(unit) / scale))] *)
Definition frac_value (f unit scale : Z) : Z :=
  f64_trunc (f64_mul (f64_of_Z f) (f64_div (f64_of_Z unit) (f64_of_Z scale))).

Definition bad_duration (orig : string) : error := Errorf ("time: invalid duration " +:+ quote orig).
Definition missing_unit (orig : string) : error := Errorf ("time: missing unit in duration " +:+ quote orig).
Definition unknown_unit (u orig : string) : error :=
  Errorf ("time: unknown unit " +:+ quote u +:+ " in duration " +:+ quote orig).

(** The optional ".5": value, scale, rest, and whether it had digits. *)
Definition duration_fraction (s1 : string) : Z * Z * string * bool :=
  match s1 with
  | String "." s1' =>
      let '(f, scale, s2) := leading_fraction false 0 1 s1' in
      (f, scale, s2, negb (slen s1' =? slen s2)%nat)
  | _ => (0, 1, s1, false)
  end.

(** One "12.5h" item: its value in nanoseconds and the rest of the text. *)
Definition duration_item (orig s : string) : result (Z * string) :=
  match s with
  | EmptyString => Err (bad_duration orig)
  | String c _ =>
      if negb (ascii_eqb c "." || is_digit c) then Err (bad_duration orig)
      else match leading_int 0 s with
      | None => Err (bad_duration orig)
      | Some (v, s1) =>
          let pre := negb (slen s =? slen s1)%nat in
          let '(f, scale, s2, post) := duration_fraction s1 in
          if negb pre && negb post then Err (bad_duration orig)
          else let '(u, s3) := take_unit s2 in
          if bool_decide (u = EmptyString) then Err (missing_unit orig)
          else match unit_of u with
          | None => Err (unknown_unit u orig)
          | Some unit =>
              if 2 ^ 63 / unit <? v then Err (bad_duration orig)
              else let v1 := v * unit in
              let v2 := if 0 <? f then v1 + frac_value f unit scale else v1 in
              if (0 <? f) && (2 ^ 63 <? v2) then Err (bad_duration orig) else Ok (v2, s3)
          end
      end
  end.

(** The item loop; [fuel] exceeds the number of items, each of which consumes
    a byte. *)
Fixpoint duration_loop (fuel : nat) (orig : string) (d : Z) (s : string) : result Z :=
  match fuel with
  | O => Err (bad_duration orig)
  | S fuel' =>
      match s with
      | EmptyString => Ok d
      | _ =>
          match duration_item orig s with
          | Err e => Err e
          | Ok (v, s') =>
              let d' := (d + v) mod 2 ^ 64 in
              if 2 ^ 63 <? d' then Err (bad_duration orig) else duration_loop fuel' orig d' s'
          end
      end
  end.

Definition duration_sign (orig : string) : bool * string :=
  match orig with
  | String "-" s => (true, s)
  | String "+" s => (false, s)
  | _ => (false, orig)
  end.

Definition ParseDuration (orig : string) : result duration :=
  let '(neg, s) := duration_sign orig in
  if bool_decide (s = "0"%string) then Ok 0
  else if bool_decide (s = EmptyString) then Err (bad_duration orig)
  else match duration_loop (S (slen s)) orig 0 s with
  | Err e => Err e
  | Ok d => if neg then Ok (- d) else if 2 ^ 63 - 1 <? d then Err (bad_duration orig) else Ok d
  end.

(** * Lemmas: the calendar *)
Lemma civil_bounds z :
  let doe := z mod 146097 in
  let yoe := (doe - doe / 1460 + doe / 36524 - doe / 146096) / 365 in
  let doy := doe - (365 * yoe + yoe / 4 - yoe / 100) in
  0 <= yoe < 400 /\ 0 <= doy <= 366.
Proof.
  intros doe yoe doy.
  assert (0 <= doe < 146097) by (apply Z.mod_pos_bound; lia).
  subst yoe doy. clearbody doe. split; [|split]; Z.to_euclidean_division_equations; lia.
Qed.

(** The last day of the March-based year exists only before a leap March. *)
Lemma civil_leap_day z :
  let doe := z mod 146097 in
  let yoe := (doe - doe / 1460 + doe / 36524 - doe / 146096) / 365 in
  let doy := doe - (365 * yoe + yoe / 4 - yoe / 100) in
  doy <= 365 /\ (doy = 365 -> (yoe + 1) mod 4 = 0 /\ ((yoe + 1) mod 100 <> 0 \/ yoe + 1 = 400)).
Proof.
  intros doe yoe doy.
  assert (0 <= doe < 146097) by (apply Z.mod_pos_bound; lia).
  subst yoe doy. clearbody doe. split; [|split]; Z.to_euclidean_division_equations; lia.
Qed.

Lemma leap_mod y k : leap (y + k * 400) = leap y.
Proof.
  unfold leap. replace (y + k * 400) with (y + (k * 100) * 4) at 1 by lia.
  rewrite Z_mod_plus_full. replace (y + k * 400) with (y + (k * 4) * 100) at 1 by lia.
  by rewrite !Z_mod_plus_full.
Qed.

Lemma mp_month doy :
  0 <= doy <= 365 ->
  let mp := (5 * doy + 2) / 153 in
  let d := doy - (153 * mp + 2) / 5 + 1 in
  0 <= mp <= 11 /\ 1 <= d <= 31 /\
  (mp = 1 \/ mp = 3 \/ mp = 6 \/ mp = 8 -> d <= 30) /\ (mp = 11 -> d <= 29 /\ (d = 29 -> doy = 365)).
Proof.
  intros Hdoy mp d. subst mp d.
  repeat split; Z.to_euclidean_division_equations; lia.
Qed.

Lemma days_of_civil_of_days z y m d : civil_of_days z = (y, m, d) -> days_of_civil y m d = z.
Proof.
  unfold civil_of_days, days_of_civil. intros Heq.
  pose proof (civil_bounds z) as Hb. cbv zeta in Hb. destruct Hb as [Hyoe Hdoy].
  set (doe := z mod 146097) in *.
  set (yoe := (doe - doe / 1460 + doe / 36524 - doe / 146096) / 365) in *.
  set (doy := doe - (365 * yoe + yoe / 4 - yoe / 100)) in *.
  set (mp := (5 * doy + 2) / 153) in *.
  assert (Hmp : 0 <= mp < 12).
  { subst mp. split; [apply Z.div_pos; lia|apply Z.div_lt_upper_bound; lia]. }
  injection Heq as <- <- <-.
  set (mo := if mp <? 10 then mp + 3 else mp - 9).
  assert (Hy : (if mo <=? 2 then yoe + z / 146097 * 400 + (if mo <=? 2 then 1 else 0) - 1
                else yoe + z / 146097 * 400 + (if mo <=? 2 then 1 else 0)) = yoe + z / 146097 * 400).
  { destruct (mo <=? 2); lia. }
  assert (Hm : (if 2 <? mo then mo - 3 else mo + 9) = mp).
  { subst mo. destruct (mp <? 10) eqn:E; go_bool.
    - rewrite (proj2 (Z.ltb_lt _ _)); lia.
    - rewrite (proj2 (Z.ltb_ge _ _)); lia. }
  rewrite Hy, Hm, Z.div_add, Z.mod_add, (Z.div_small yoe), (Z.mod_small yoe) by lia.
  pose proof (Z.div_mod z 146097 ltac:(lia)) as Hz. fold doe in Hz. subst doy. lia.
Qed.

Lemma civil_month_day z y m d :
  civil_of_days z = (y, m, d) -> 1 <= m <= 12 /\ 1 <= d <= days_in m y.
Proof.
  unfold civil_of_days. intros Heq.
  pose proof (civil_bounds z) as Hb. pose proof (civil_leap_day z) as Hl. cbv zeta in Hb, Hl.
  set (doe := z mod 146097) in *.
  set (yoe := (doe - doe / 1460 + doe / 36524 - doe / 146096) / 365) in *.
  set (doy := doe - (365 * yoe + yoe / 4 - yoe / 100)) in *.
  destruct Hb as [Hyoe [Hdoy0 _]], Hl as [Hdoy Hleap].
  pose proof (mp_month doy (conj Hdoy0 Hdoy)) as Hmp. cbv zeta in Hmp.
  set (mp := (5 * doy + 2) / 153) in *.
  set (dd := doy - (153 * mp + 2) / 5 + 1) in *. clearbody dd mp.
  destruct Hmp as (Hmp & Hd & H30 & H29). injection Heq as <- <- <-.
  split; [destruct (mp <? 10) eqn:E; go_bool; lia|]. split; [lia|].
  assert (Hy : mp = 11 -> dd = 29 -> leap (yoe + z / 146097 * 400 + 1) = true).
  { intros -> ->. destruct (Hleap (proj2 (H29 eq_refl) eq_refl)) as [H4 H100].
    replace (yoe + z / 146097 * 400 + 1) with (yoe + 1 + z / 146097 * 400) by lia.
    rewrite leap_mod. unfold leap. rewrite H4. destruct H100 as [H100| ->]; [|done].
    apply Z.eqb_neq in H100. by rewrite H100. }
  unfold days_in. destruct (decide (mp = 11)) as [->|Hne].
  - simpl. destruct (leap _) eqn:El; [lia|]. destruct (decide (dd = 29)) as [Hd29|]; [|lia].
    pose proof (Hy eq_refl Hd29). congruence.
  - destruct (mp <? 10) eqn:E; go_bool.
    + repeat match goal with |- context [if ?b then _ else _] => destruct b eqn:? end;
        repeat (go_bool; match goal with H : _ || _ = true |- _ => apply orb_true_iff in H as [?|?] end);
        go_bool; lia.
    + repeat match goal with |- context [if ?b then _ else _] => destruct b eqn:? end; go_bool; lia.
Qed.

(** Instants of the years 1 to 9999, which RFC 3339 can write. *)
Definition in_range (t : time) : Prop := 0 <= t < (3652365 - day_shift) * day_secs * Second.

Lemma civil_year z y m d : civil_of_days z = (y, m, d) -> 0 <= z < 3652365 -> 0 <= y < 10000.
Proof.
  unfold civil_of_days. intros Heq Hz.
  pose proof (civil_bounds z) as Hb. cbv zeta in Hb.
  set (doe := z mod 146097) in *.
  set (yoe := (doe - doe / 1460 + doe / 36524 - doe / 146096) / 365) in *.
  set (doy := doe - (365 * yoe + yoe / 4 - yoe / 100)) in *.
  set (mp := (5 * doy + 2) / 153) in *.
  pose proof (Z.div_mod z 146097 ltac:(lia)) as Hdm. fold doe in Hdm.
  assert (0 <= z / 146097 <= 24).
  { split; [apply Z.div_pos; lia|]. apply Z.lt_succ_r, Z.div_lt_upper_bound; lia. }
  injection Heq as <- <- <-. destruct Hb as [Hyoe Hdoy].
  destruct ((if mp <? 10 then mp + 3 else mp - 9) <=? 2) eqn:E; [|lia].
  destruct (mp <? 10) eqn:E2; go_bool.
  - assert (0 <= mp) by (apply Z.div_pos; lia). lia.
  - assert (306 <= doy) by (subst mp; Z.to_euclidean_division_equations; lia).
    split; [lia|].
    destruct (decide (yoe = 399 /\ z / 146097 = 24)) as [[Hy He]|]; [|lia].
    assert (Hdoe : doy = doe - (365 * yoe + yoe / 4 - yoe / 100)) by done.
    rewrite Hy in Hdoe. change (399 / 4) with 99 in Hdoe. change (399 / 100) with 3 in Hdoe. lia.
Qed.

(** * Lemmas: the text form *)
Lemma trim_zeros_nil w n : 0 <= n -> trim_zeros (pad_dec w n) = EmptyString -> n mod 10 ^ Z.of_nat w = 0.
Proof.
  intros Hn. induction w as [|w IH]; [intros _; apply Z.mod_1_r|]. cbn [pad_dec trim_zeros].
  destruct (trim_zeros (pad_dec w n)); [|done]. intros H.
  destruct (ascii_eqb _ _) eqn:E; [|done]. apply ascii_eqb_eq in E.
  assert (Hr : 0 <= (n / 10 ^ Z.of_nat w) mod 10 < 10) by (apply Z.mod_pos_bound; lia).
  rewrite pow10_mod_succ by done.
  rewrite IH by done. apply (f_equal digit_val) in E. rewrite digit_val_digit in E by done.
  rewrite E. change (digit_val "0") with 0. lia.
Qed.

Lemma frac_digits_stop w acc s :
  match s with String c _ => is_digit c = false | EmptyString => True end ->
  frac_digits w acc s = (acc * 10 ^ Z.of_nat w, s).
Proof.
  intros H. destruct w as [|w], s as [|c s]; cbn [frac_digits skip_digits]; rewrite ?H;
    rewrite ?Z.mul_1_r; done.
Qed.

Lemma frac_digits_trim w n acc rest :
  0 <= n -> match rest with String c _ => is_digit c = false | EmptyString => True end ->
  frac_digits w acc (trim_zeros (pad_dec w n) +:+ rest)
  = (acc * 10 ^ Z.of_nat w + n mod 10 ^ Z.of_nat w, rest).
Proof.
  intros Hn Hr. revert acc. induction w as [|w IH]; intros acc.
  - rewrite frac_digits_stop by (by simpl). rewrite Z.mod_1_r. f_equal. lia.
  - destruct (trim_zeros (pad_dec (S w) n)) as [|c s] eqn:E.
    { rewrite (trim_zeros_nil _ _ Hn E), string_app_nil_l, frac_digits_stop by done. f_equal. lia. }
    cbn [pad_dec trim_zeros] in E.
    assert (Hd : 0 <= (n / 10 ^ Z.of_nat w) mod 10 < 10) by (apply Z.mod_pos_bound; lia).
    assert (c = digit ((n / 10 ^ Z.of_nat w) mod 10) /\ s = trim_zeros (pad_dec w n)) as [-> ->].
    { destruct (trim_zeros (pad_dec w n)); [|by simplify_eq].
      destruct (ascii_eqb _ _); by simplify_eq. }
    rewrite string_app_cons. cbn [frac_digits].
    rewrite is_digit_digit, IH, digit_val_digit by done.
    rewrite pow10_mod_succ, Nat2Z.inj_succ, Z.pow_succ_r by lia. f_equal. lia.
Qed.

Lemma parse_frac_format ns :
  0 <= ns < Second -> parse_frac (format_frac ns +:+ "Z") = (ns, "Z"%string).
Proof.
  intros Hns. unfold format_frac.
  pose proof (frac_digits_trim 9 ns 0 "Z" ltac:(lia) eq_refl) as Hf.
  rewrite Z.mod_small in Hf by (unfold Second in Hns; lia).
  destruct (trim_zeros (pad_dec 9 ns)) as [|c s] eqn:E.
  - apply trim_zeros_nil in E; [|lia]. rewrite Z.mod_small in E by (unfold Second in Hns; lia).
    by subst.
  - rewrite !string_app_cons in *. unfold parse_frac.
    assert (is_digit c = true) as Hc.
    { cbn [pad_dec trim_zeros] in E.
      assert (Hd : 0 <= (ns / 10 ^ Z.of_nat 8) mod 10 < 10) by (apply Z.mod_pos_bound; lia).
      match type of E with context [match ?x with EmptyString => _ | _ => _ end] => destruct x end.
      - destruct (ascii_eqb _ _); [done|]. simplify_eq. by apply is_digit_digit.
      - simplify_eq. by apply is_digit_digit. }
    by rewrite Hc, Hf.
Qed.

Lemma expect_cons c s : expect c (String c s) = Some s.
Proof. unfold expect. by rewrite ascii_eqb_refl. Qed.

Lemma take_fixed_2 n rest : 0 <= n < 100 -> take_fixed 2 0 (pad_dec 2 n +:+ rest) = Some (n, rest).
Proof. intros. rewrite take_fixed_pad, Z.mod_small by (simpl; lia). done. Qed.

Lemma take_fixed_4 n rest : 0 <= n < 10000 -> take_fixed 4 0 (pad_dec 4 n +:+ rest) = Some (n, rest).
Proof. intros. rewrite take_fixed_pad, Z.mod_small by (simpl; lia). done. Qed.

Lemma sod_split s : 0 <= s < day_secs ->
  0 <= s / 3600 < 24 /\ 0 <= s / 60 mod 60 < 60 /\ 0 <= s mod 60 < 60 /\
  s / 3600 * 3600 + s / 60 mod 60 * 60 + s mod 60 = s.
Proof. unfold day_secs. intros. Z.to_euclidean_division_equations. lia. Qed.

(** Step over the binds whose argument has been read. *)
Ltac parse_step :=
  repeat first
    [ rewrite expect_cons
    | match goal with
      | |- context [parse_zone "Z"] => change (parse_zone "Z") with (Some 0)
      | |- context [Some ?x ≫= ?f] => change (Some x ≫= f) with (f x); cbv beta iota
      end ].

(** Formatting an instant and parsing it back is the identity. *)
Lemma Parse_Format t : in_range t -> Parse (Format t) = Some t.
Proof.
  intros Ht. unfold Format, format_secs.
  set (secs := t / Second). set (z := secs / day_secs + day_shift).
  assert (Hsecs : 0 <= secs < (3652365 - day_shift) * day_secs).
  { subst secs. unfold in_range in Ht. split; [apply Z.div_pos; unfold Second; lia|].
    apply Z.div_lt_upper_bound; unfold Second in *; lia. }
  assert (Hz : 0 <= z < 3652365).
  { subst z. unfold day_shift, day_secs in *. split.
    - pose proof (Z.div_pos secs 86400). lia.
    - pose proof (Z.div_lt_upper_bound secs 86400 (3652365 - 306)). lia. }
  destruct (civil_of_days z) as [[y m] d] eqn:Hc.
  pose proof (civil_year _ _ _ _ Hc Hz) as Hy.
  destruct (civil_month_day _ _ _ _ Hc) as [Hm Hd].
  assert (Hd31 : d <= 31).
  { unfold days_in in Hd. repeat case_match; lia. }
  pose proof (sod_split (secs mod day_secs) ltac:(apply Z.mod_pos_bound; done)) as (Hh & Hmi & Hs & Hsod).
  rewrite (proj2 (Z.ltb_lt _ _)) by lia.
  assert (0 <= t mod Second < Second) by (apply Z.mod_pos_bound; done).
  unfold Parse. rewrite <- !string_app_assoc, !string_app_cons, take_fixed_4 by lia.
  parse_step. repeat (rewrite <- ?string_app_assoc, ?string_app_cons, take_fixed_2 by lia; parse_step).
  rewrite parse_frac_format by done. parse_step.
  rewrite (days_of_civil_of_days _ _ _ _ Hc).
  rewrite !(proj2 (Z.leb_le _ _)) by lia. rewrite !(proj2 (Z.ltb_lt _ _)) by lia. simpl andb. cbv iota.
  f_equal. subst z. replace (secs / day_secs + day_shift - day_shift) with (secs / day_secs) by lia.
  pose proof (Z.div_mod secs day_secs ltac:(done)). pose proof (Z.div_mod t Second ltac:(done)).
  subst secs. lia.
Qed.

(** * Lemmas: byte order of timestamps *)
Lemma ltb_app_common (p s t : string) : String.ltb (p +:+ s) (p +:+ t) = String.ltb s t.
Proof.
  unfold String.ltb. induction p as [|c p IH]; [done|].
  rewrite !string_app_cons. simpl. unfold Ascii.compare. by rewrite N.compare_refl.
Qed.

Lemma format_frac_zero : format_frac 0 = EmptyString.
Proof. done. Qed.

Lemma format_frac_nonzero ns : 0 < ns < Second -> exists s, format_frac ns = String "." s.
Proof.
  intros Hns. unfold format_frac. destruct (trim_zeros (pad_dec 9 ns)) as [|c s] eqn:E; [|by eauto].
  apply trim_zeros_nil in E; [|lia]. rewrite Z.mod_small in E by (unfold Second in Hns; lia). lia.
Qed.

(** The text of a whole second sorts after the text of every later instant of
    that second: the point of the fraction sorts before the "Z". *)
Lemma Format_whole_after_fraction secs ns :
  0 < ns < Second ->
  String.ltb (Format (secs * Second + ns)) (Format (secs * Second)) = true.
Proof.
  intros Hns. unfold Format.
  assert ((secs * Second + ns) / Second = secs) as ->.
  { rewrite Z.add_comm, Z.div_add, Z.div_small by (unfold Second in *; lia). lia. }
  assert ((secs * Second + ns) mod Second = ns) as ->.
  { rewrite Z.add_comm, Z_mod_plus_full, Z.mod_small; lia. }
  rewrite Z.div_mul, Z_mod_mult by done. rewrite ltb_app_common, format_frac_zero.
  by destruct (format_frac_nonzero ns Hns) as [s ->].
Qed.

(** * Lemmas: durations *)
Lemma Sub_nonneg_ge t u d : 0 <= d <= int64_max -> (d <= Sub t u <-> d <= t - u).
Proof. unfold Sub, int64_max, int64_min. lia. Qed.

Lemma Sub_bounds t u : in_int64 (Sub t u).
Proof. unfold Sub, in_int64, int64_max, int64_min. lia. Qed.

Lemma leading_int_bound s x v r : 0 <= x <= 2 ^ 63 -> leading_int x s = Some (v, r) -> 0 <= v <= 2 ^ 63.
Proof.
  revert x. induction s as [|c s IH]; simpl; intros x Hx H; [by simplify_eq|].
  destruct (is_digit c) eqn:Hd; [|by simplify_eq].
  apply is_digit_range in Hd. repeat case_match; try done; go_bool. eapply IH; [|done]. lia.
Qed.

Lemma unit_of_pos u z : unit_of u = Some z -> 0 < z.
Proof.
  unfold unit_of, Hour, Minute, Second. repeat case_match; intros; simplify_eq; lia.
Qed.

Lemma f64_trunc_nonneg x : 0 <= f64_trunc x.
Proof. destruct x as [| | |[] m e]; simpl; try lia. apply Z.shiftl_nonneg. lia. Qed.

Lemma duration_item_bound orig s v r : duration_item orig s = Ok (v, r) -> 0 <= v <= 2 ^ 63.
Proof.
  unfold duration_item. destruct s as [|c s]; [done|].
  destruct (negb _); [done|]. destruct (leading_int 0 (String c s)) as [[w s1]|] eqn:Hl; [|done].
  apply leading_int_bound in Hl; [|lia].
  destruct (duration_fraction s1) as [[[f scale] s2] post].
  destruct (negb _ && negb post); [done|]. destruct (take_unit s2) as [u s3].
  case_bool_decide; [done|]. destruct (unit_of u) as [un|] eqn:Hu; [|done].
  apply unit_of_pos in Hu. destruct (_ <? w) eqn:Hov; [done|]. go_bool.
  assert (0 <= w * un <= 2 ^ 63).
  { split; [lia|]. pose proof (Z.mul_div_le (2 ^ 63) un Hu).
    pose proof (Z.mul_le_mono_nonneg_r _ _ un (Z.lt_le_incl _ _ Hu) Hov). lia. }
  unfold frac_value. pose proof (f64_trunc_nonneg (f64_mul (f64_of_Z f) (f64_div (f64_of_Z un) (f64_of_Z scale)))).
  destruct (0 <? f); simpl; [|intros; by simplify_eq].
  destruct (2 ^ 63 <? _) eqn:Hb; [done|]. intros. simplify_eq. go_bool. split; [apply Z.add_nonneg_nonneg; lia|done].
Qed.

Lemma duration_loop_bound fuel orig d s v :
  0 <= d <= 2 ^ 63 -> duration_loop fuel orig d s = Ok v -> 0 <= v <= 2 ^ 63.
Proof.
  revert d s. induction fuel as [|fuel IH]; simpl; intros d s Hd H; [done|].
  destruct s as [|c s]; [by simplify_eq|].
  destruct (duration_item orig (String c s)) as [[w s']|] eqn:Hi; [|done].
  destruct (2 ^ 63 <? _) eqn:Hb; [done|]. go_bool. eapply IH; [|done].
  split; [apply Z.mod_pos_bound; lia|done].
Qed.

(** Whatever the text, a parsed duration fits in [time.Duration]. *)
Lemma ParseDuration_in_int64 s d : ParseDuration s = Ok d -> in_int64 d.
Proof.
  unfold ParseDuration, in_int64, int64_min, int64_max.
  destruct (duration_sign s) as [neg s'].
  repeat case_bool_decide; try (intros; simplify_eq; lia).
  destruct (duration_loop _ _ _ _) as [v|] eqn:Hl; [|done].
  apply duration_loop_bound in Hl; [|lia].
  destruct neg; [|destruct (_ <? v) eqn:Hb; go_bool]; intros; simplify_eq; lia.
Qed.
#[export] Hint Resolve Sub_bounds ParseDuration_in_int64 : go.
