(* ===== verification/GoNet.v ===== *)
(** The parts of Go's [net] package the program uses: [SplitHostPort] and
    [JoinHostPort]. *)
From stdpp Require Import base option list strings.
From Stdlib Require Import Ascii ZArith Lia.
From S2P Require Import Prelude GoStrings.
Local Open Scope Z_scope.

Definition addr_error (s why : string) : error := Errorf ("address " +:+ s +:+ ": " +:+ why).
Definition missing_port : string := "missing port in address".
Definition too_many_colons : string := "too many colons in address".

Definition SplitHostPort (s : string) : result (string * string) :=
  match cut_last ":" s with
  | None => Err (addr_error s missing_port)
  | Some (before, port) =>
      match s with
      | String "[" s1 =>
          match cut "]" s1 with
          | (_, _, false) => Err (addr_error s "missing ']' in address")
          | (host, after, true) =>
              match after with
              | String ":" p =>
                  if contains_byte ":" p then Err (addr_error s too_many_colons)
                  else if contains_byte "[" s1 then Err (addr_error s "unexpected '[' in address")
                  else if contains_byte "]" after then Err (addr_error s "unexpected ']' in address")
                  else Ok (host, port)
              | _ => Err (addr_error s missing_port)
              end
          end
      | _ =>
          if contains_byte ":" before then Err (addr_error s too_many_colons)
          else if contains_byte "[" s then Err (addr_error s "unexpected '[' in address")
          else if contains_byte "]" s then Err (addr_error s "unexpected ']' in address")
          else Ok (before, port)
      end
  end.

Definition JoinHostPort (host port : string) : string :=
  if contains_byte ":" host then "[" +:+ host +:+ "]:" +:+ port else host +:+ ":" +:+ port.

(** [host, _, err := SplitHostPort(addr); if err != nil { host = addr }] *)
Definition host_of (addr : string) : string :=
  match SplitHostPort addr with Ok (h, _) => h | Err _ => addr end.

Definition plain (s : string) : bool :=
  negb (contains_byte "[" s) && negb (contains_byte "]" s).

Lemma SplitHostPort_join host port :
  plain host = true -> plain port = true -> contains_byte ":" port = false ->
  SplitHostPort (JoinHostPort host port) = Ok (host, port).
Proof.
  unfold plain. intros [Ho Hc]%andb_true_iff [Po Pc]%andb_true_iff Hcol.
  apply negb_true_iff in Ho, Hc, Po, Pc. unfold JoinHostPort.
  destruct (contains_byte ":" host) eqn:Hh; unfold SplitHostPort.
  - assert (Hs : "[" +:+ host +:+ "]:" +:+ port = (("[" +:+ host +:+ "]")%string +:+ String ":" port)).
    { by rewrite <- !string_app_assoc. }
    rewrite Hs, cut_last_found by done. rewrite <- Hs. rewrite string_app_cons, string_app_nil_l.
    assert (host +:+ "]:" +:+ port = host +:+ String "]" (String ":" port)) as -> by done.
    rewrite cut_found by done. cbv iota. rewrite Hcol, contains_byte_app. simpl. by rewrite Ho, Po, Pc.
  - assert (host +:+ ":" +:+ port = host +:+ String ":" port) as -> by done.
    rewrite cut_last_found by done.
    assert (Hgen : (if contains_byte ":" host then Err (addr_error (host +:+ String ":" port) too_many_colons)
      else if contains_byte "[" (host +:+ String ":" port) then Err (addr_error (host +:+ String ":" port) "unexpected '[' in address")
      else if contains_byte "]" (host +:+ String ":" port) then Err (addr_error (host +:+ String ":" port) "unexpected ']' in address")
      else Ok (host, port)) = Ok (host, port)).
    { rewrite Hh, !contains_byte_app. simpl. by rewrite Ho, Hc, Po, Pc. }
    destruct host as [|c host]; [exact Hgen|]. rewrite string_app_cons in *.
    destruct (ascii_eqb c "[") eqn:E; [simpl in Ho; by rewrite E in Ho|].
    destruct c as [[] [] [] [] [] [] [] []]; try exact Hgen. by vm_compute in E.
Qed.
