(* ===== verification/GoPath.v ===== *)
(** Go's [path] package, as far as the program uses it: [Clean] and [Join] on
    slash-separated paths. *)
From stdpp Require Import base option list strings.
From Stdlib Require Import Ascii ZArith Lia.
From S2P Require Import Prelude GoStrings.

(** One element of a path against the elements kept so far (last first). *)
Definition clean_step (rooted : bool) (acc : list string) (e : string) : list string :=
  if bool_decide (e = ""%string) || bool_decide (e = "."%string) then acc
  else if bool_decide (e = ".."%string) then
    match acc with
    | x :: acc' => if bool_decide (x = ".."%string) then e :: acc else acc'
    | [] => if rooted then [] else [e]
    end
  else e :: acc.

Definition Clean (path : string) : string :=
  if bool_decide (path = ""%string) then "."%string
  else
    let rooted := has_prefix "/" path in
    let es := rev (foldl (clean_step rooted) [] (split "/" path)) in
    if rooted then "/" +:+ join "/" es
    else match es with [] => "."%string | _ => join "/" es end.

(** Empty elements are ignored; joining nothing gives the empty path. *)
Definition Join (elems : list string) : string :=
  match List.filter (fun e => negb (bool_decide (e = ""%string))) elems with
  | [] => ""%string
  | es => Clean (join "/" es)
  end.

Example Join_host_key : Join ["/home/dev"; ".hopbox"; "ssh_host_ed25519_key"]%string = "/home/dev/.hopbox/ssh_host_ed25519_key"%string.
Proof. reflexivity. Qed.
Example Clean_dots : Clean "/a/./b//../c/" = "/a/c"%string.
Proof. reflexivity. Qed.

(** * Lemmas *)
Definition element (e : string) : Prop :=
  e <> ""%string /\ e <> "."%string /\ e <> ".."%string /\ contains_byte "/" e = false.

(** What [Clean] keeps: leading [..]s (none when rooted) and plain elements. *)
Definition clean_stack (rooted : bool) (acc : list string) : Prop :=
  exists l k, acc = l ++ replicate k ".."%string /\ (rooted = true -> k = 0) /\ Forall element l.

Lemma split_join es :
  es <> [] -> Forall (fun e => contains_byte "/" e = false) es -> split "/" (join "/" es) = es.
Proof.
  induction es as [|e es IH]; [done|]. intros _ Hes. inversion_clear Hes as [|? ? He Hes'].
  destruct es as [|e' es]; [by apply split_absent|].
  change (join "/" (e :: e' :: es)) with (e +:+ ("/" +:+ join "/" (e' :: es))).
  rewrite string_app_cons, string_app_nil_l, split_app by done. by rewrite IH.
Qed.

Lemma clean_step_stack rooted acc e :
  contains_byte "/" e = false -> clean_stack rooted acc -> clean_stack rooted (clean_step rooted acc e).
Proof.
  intros He (l & k & -> & Hk & Hl). unfold clean_step.
  destruct (_ || _) eqn:E1; [by exists l, k|]. go_bool. case_bool_decide as E2.
  - destruct l as [|x l]; simpl.
    + destruct k as [|k]; simpl.
      * destruct rooted; [by exists [], 0|]. exists [], 1. by subst.
      * exists [], (S (S k)). subst. split_and!; [done| |done]. by intros [=]%Hk.
    + inversion_clear Hl as [|? ? Hx Hl']. rewrite bool_decide_eq_false_2 by apply Hx. by exists l, k.
  - exists (e :: l), k. split_and!; [done..|]. constructor; [by split_and!|done].
Qed.

Lemma clean_steps_stack rooted es acc :
  Forall (fun e => contains_byte "/" e = false) es -> clean_stack rooted acc -> clean_stack rooted (foldl (clean_step rooted) acc es).
Proof. intros Hes. revert acc. induction Hes as [|e es He _ IH]; intros acc Ha; simpl; [done|]. by apply IH, clean_step_stack. Qed.

Lemma clean_step_element rooted acc e : element e -> clean_step rooted acc e = e :: acc.
Proof. intros (H1 & H2 & H3 & _). unfold clean_step. by rewrite !bool_decide_eq_false_2. Qed.

Lemma clean_steps_elements rooted l acc : Forall element l -> foldl (clean_step rooted) acc l = rev l ++ acc.
Proof.
  intros Hl. revert acc. induction Hl as [|e l He _ IH]; intros acc; simpl; [done|].
  rewrite clean_step_element by done. rewrite IH. by rewrite <- app_assoc.
Qed.

Lemma clean_steps_up k : forall m, foldl (clean_step false) (replicate m ".."%string) (replicate k ".."%string) = replicate (k + m) ".."%string.
Proof.
  induction k as [|k IH]; intros m; simpl; [done|].
  assert (clean_step false (replicate m ".."%string) ".." = replicate (S m) ".."%string) as ->.
  { by destruct m. }
  rewrite IH. by rewrite Nat.add_succ_r.
Qed.

(** Cleaning what is clean changes nothing. *)
Lemma clean_steps_again rooted acc : clean_stack rooted acc -> foldl (clean_step rooted) [] (rev acc) = acc.
Proof.
  intros (l & k & -> & Hk & Hl). rewrite rev_app_distr, foldl_app.
  assert (rev (replicate k ".."%string) = replicate k ".."%string) as ->.
  { rewrite rev_alt. apply reverse_replicate. }
  assert (foldl (clean_step rooted) [] (replicate k ".."%string) = replicate k ".."%string) as ->.
  { destruct rooted; [by rewrite Hk|]. pose proof (clean_steps_up k 0) as H. simpl in H. by rewrite Nat.add_0_r in H. }
  rewrite clean_steps_elements; [by rewrite rev_involutive|].
  apply Forall_forall. intros e He. apply (proj1 (Forall_forall _ _) Hl). rewrite list_elem_of_In in He |- *. by apply in_rev.
Qed.

Lemma clean_stack_no_sep rooted acc : clean_stack rooted acc -> Forall (fun e => contains_byte "/" e = false) acc.
Proof.
  intros (l & k & -> & _ & Hl). apply Forall_app. split.
  - eapply Forall_impl; [exact Hl|]. by intros e (_ & _ & _ & ?).
  - by apply Forall_replicate.
Qed.

Lemma Forall_rev_iff {A} (P : A -> Prop) l : Forall P l -> Forall P (rev l).
Proof. rewrite rev_alt. apply (Forall_reverse P l). Qed.

(** The text of a clean path. *)
Definition render (rooted : bool) (acc : list string) : string :=
  if rooted then "/" +:+ join "/" (rev acc)
  else match rev acc with [] => "."%string | _ => join "/" (rev acc) end.

Lemma Clean_render path :
  path <> ""%string ->
  exists acc, clean_stack (has_prefix "/" path) acc /\ foldl (clean_step (has_prefix "/" path)) [] (split "/" path) = acc /\
              Clean path = render (has_prefix "/" path) acc.
Proof.
  intros Hp. eexists. split_and!; [|done|].
  - apply clean_steps_stack; [apply split_no_sep|]. exists [], 0. by split_and!.
  - unfold Clean, render. by rewrite bool_decide_eq_false_2.
Qed.

Lemma has_prefix_slash_app s t : s <> ""%string -> has_prefix "/" (s +:+ t) = has_prefix "/" s.
Proof. destruct s as [|c s]; [done|]. intros _. rewrite string_app_cons. unfold has_prefix. simpl. by destruct (ascii_eqb _ _). Qed.

Lemma no_sep_prefix e : contains_byte "/" e = false -> has_prefix "/" e = false.
Proof.
  destruct e as [|c e]; [done|]. unfold has_prefix. simpl. intros [H _]%orb_false_iff.
  destruct (ascii_eqb "/" c) eqn:E; [|done]. apply ascii_eqb_eq in E. subst. by rewrite ascii_eqb_refl in H.
Qed.

(** Rendering keeps the root and splits back into the elements. *)
Lemma render_prefix rooted acc : clean_stack rooted acc -> has_prefix "/" (render rooted acc) = rooted.
Proof.
  intros Hs. unfold render. destruct rooted; [done|]. pose proof (Forall_rev_iff _ _ (clean_stack_no_sep _ _ Hs)) as Hn.
  assert (Hne : Forall (fun e => e <> ""%string) (rev acc)).
  { apply Forall_rev_iff. destruct Hs as (l & k & -> & _ & Hl). apply Forall_app. split; [|by apply Forall_replicate].
    eapply Forall_impl; [exact Hl|]. by intros e (? & _). }
  destruct (rev acc) as [|e es]; [done|]. inversion_clear Hn as [|? ? He _]. inversion_clear Hne as [|? ? Hee _].
  destruct es as [|e' es]; [by apply no_sep_prefix|].
  change (join "/" (e :: e' :: es)) with (e +:+ ("/" +:+ join "/" (e' :: es))).
  rewrite has_prefix_slash_app by done. by apply no_sep_prefix.
Qed.

Lemma render_steps rooted acc :
  clean_stack rooted acc -> foldl (clean_step rooted) [] (split "/" (render rooted acc)) = acc.
Proof.
  intros Hs. pose proof (Forall_rev_iff _ _ (clean_stack_no_sep _ _ Hs)) as Hn. pose proof (clean_steps_again _ _ Hs) as Ha.
  unfold render. destruct rooted.
  - change ("/" +:+ join "/" (rev acc)) with (EmptyString +:+ String "/" (join "/" (rev acc))).
    rewrite split_app by done. simpl. unfold clean_step at 2. simpl.
    destruct (rev acc) as [|e es] eqn:E; [simpl; by rewrite <- Ha|]. by rewrite split_join.
  - destruct (rev acc) as [|e es] eqn:E; [by rewrite <- Ha|]. by rewrite split_join.
Qed.

Lemma Clean_idem path : Clean (Clean path) = Clean path.
Proof.
  destruct (decide (path = ""%string)) as [->|Hp]; [done|].
  destruct (Clean_render path Hp) as (acc & Hs & _ & ->). set (rooted := has_prefix "/" path) in *.
  assert (Hne : render rooted acc <> ""%string).
  { intros He. pose proof (render_steps rooted acc Hs) as Hr. rewrite He in Hr. simpl in Hr. subst acc.
    unfold render in He. by destruct rooted. }
  unfold Clean. rewrite bool_decide_eq_false_2 by done. rewrite render_prefix, render_steps by done.
  unfold render. done.
Qed.

(** A plain element under a root other than [/] and [.] is a child of it. *)
Lemma Join_child root e :
  root <> ""%string -> Clean root <> "/"%string -> Clean root <> "."%string -> element e ->
  Join [root; e] = Clean root +:+ "/" +:+ e.
Proof.
  intros Hr H1 H2 He. unfold Join. simpl. rewrite (bool_decide_eq_false_2 (root = _)) by done.
  rewrite (bool_decide_eq_false_2 (e = _)) by apply He. simpl.
  destruct (Clean_render root Hr) as (acc & Hs & Hacc & Hcl).
  assert (Hne : (root +:+ "/" +:+ e) <> ""%string).
  { intros Hx. apply (f_equal slen) in Hx. rewrite !slen_app in Hx. simpl in Hx. lia. }
  unfold Clean at 1. rewrite bool_decide_eq_false_2 by done. rewrite has_prefix_slash_app by done.
  assert (Hsplit : split "/" (root +:+ "/" +:+ e) = split "/" root ++ [e]).
  { rewrite string_app_cons, string_app_nil_l. clear -He. induction root as [|c root IH].
    - rewrite string_app_nil_l. simpl. rewrite (split_absent "/" e) by apply He. done.
    - rewrite string_app_cons. simpl. rewrite IH. destruct (ascii_eqb c "/"); [done|].
      destruct (split "/" root) eqn:E; [by destruct (split_nonempty "/" root)|done]. }
  rewrite Hsplit, foldl_app, Hacc. simpl. rewrite clean_step_element by done. simpl.
  rewrite Hcl in *. unfold render in *. clear -H1 H2.
  assert (Hj : forall es, es <> [] -> join "/" (es ++ [e]) = join "/" es +:+ "/" +:+ e).
  { induction es as [|x es IH]; [done|]. intros _. destruct es as [|y es]; [done|].
    change (join "/" ((x :: y :: es) ++ [e])) with (x +:+ "/" +:+ join "/" ((y :: es) ++ [e])).
    rewrite IH by done. change (join "/" (x :: y :: es)) with (x +:+ "/" +:+ join "/" (y :: es)).
    by rewrite <- !string_app_assoc. }
  destruct (has_prefix "/" root).
  - destruct (rev acc) as [|x es] eqn:E; [done|]. rewrite Hj by done. by rewrite <- string_app_assoc.
  - destruct (rev acc) as [|x es] eqn:E; [done|]. rewrite (Hj (x :: es)) by done. by destruct es.
Qed.
