(* ===== verification/Json.v ===== *)
(** The parts of Go's [encoding/json] the program uses: UTF-8 validation,
    string escaping and unescaping, the document grammar as a printer
    ([json.Marshal]) and a parser ([json.Unmarshal] into a tree), and the way
    struct fields are read out of an object.  The parser is fuelled by the
    length of its input, which is always enough: see [parse_print]. *)
From stdpp Require Import base option list strings gmap.
From Stdlib Require Import Ascii ZArith Lia Floats.SpecFloat.
From S2P Require Import Prelude GoStrings GoTime.
Local Open Scope Z_scope.

(** * UTF-8 *)
Definition in_b (lo hi : Z) (c : ascii) : bool := (lo <=? byte_val c) && (byte_val c <=? hi).
Definition cont (c : ascii) : bool := in_b 128 191 c.

(** [utf8.DecodeRune]: the length of the rune at the head, or [None] where Go
    yields [RuneError] with width one. *)
Definition rune_len (s : string) : option nat :=
  match s with
  | EmptyString => None
  | String a s1 =>
      if in_b 0 127 a then Some 1%nat
      else match s1 with
      | EmptyString => None
      | String b s2 =>
          if in_b 194 223 a then (if cont b then Some 2%nat else None)
          else
          let lo := if byte_val a =? 224 then 160 else if byte_val a =? 240 then 144 else 128 in
          let hi := if byte_val a =? 237 then 159 else if byte_val a =? 244 then 143 else 191 in
          if negb (in_b 224 244 a && in_b lo hi b) then None
          else match s2 with
          | EmptyString => None
          | String c s3 =>
              if negb (cont c) then None
              else if in_b 224 239 a then Some 3%nat
              else match s3 with
              | EmptyString => None
              | String d _ => if cont d then Some 4%nat else None
              end
          end
      end
  end.

(** [utf8.ValidString]; [skip] bytes of a checked rune remain. *)
Fixpoint utf8_from (skip : nat) (s : string) : bool :=
  match s with
  | EmptyString => true
  | String _ s' =>
      match skip with
      | S k => utf8_from k s'
      | O => match rune_len s with
             | Some n => utf8_from (n - 1) s'
             | None => false
             end
      end
  end.
Definition utf8 (s : string) : bool := utf8_from 0 s.

(** The bytes of a code point below 0x110000. *)
Definition encode_rune (r : Z) : string :=
  if r <? 128 then String (byte_of r) EmptyString
  else if r <? 2048 then String (byte_of (192 + r / 64)) (String (byte_of (128 + r mod 64)) EmptyString)
  else if r <? 65536 then
    String (byte_of (224 + r / 4096)) (String (byte_of (128 + r / 64 mod 64))
      (String (byte_of (128 + r mod 64)) EmptyString))
  else
    String (byte_of (240 + r / 262144)) (String (byte_of (128 + r / 4096 mod 64))
      (String (byte_of (128 + r / 64 mod 64)) (String (byte_of (128 + r mod 64)) EmptyString))).
Definition rune_error : Z := 65533.

(** * Strings *)
Definition dquote : ascii := byte_of 34.

(** [appendString] on an ASCII byte, HTML escaping included. *)
Definition esc_ascii (c : ascii) : string :=
  let v := byte_val c in
  if (v =? 34) || (v =? 92) then String "\" (String c EmptyString)
  else if v =? 8 then "\b" else if v =? 12 then "\f"
  else if v =? 10 then "\n" else if v =? 13 then "\r" else if v =? 9 then "\t"
  else if (v <? 32) || (v =? 60) || (v =? 62) || (v =? 38) then "\u00" +:+ hex_byte v
  else String c EmptyString.

(** U+2028 and U+2029 are escaped for JavaScript. *)
Definition line_sep (s : string) : option string :=
  match s with
  | String a (String b (String c _)) =>
      if (byte_val a =? 226) && (byte_val b =? 128)
      then if byte_val c =? 168 then Some "\u2028"%string
           else if byte_val c =? 169 then Some "\u2029"%string else None
      else None
  | _ => None
  end.

(** [copy] bytes of a rune are still to be copied, or [drop] skipped. *)
Fixpoint esc (copy drop : nat) (s : string) : string :=
  match s with
  | EmptyString => EmptyString
  | String c s' =>
      match drop, copy with
      | S d, _ => esc 0 d s'
      | O, S k => String c (esc k 0 s')
      | O, O =>
          if byte_val c <? 128 then esc_ascii c +:+ esc 0 0 s'
          else match rune_len s with
          | None => "\ufffd" +:+ esc 0 0 s'
          | Some n =>
              match line_sep s with
              | Some e => e +:+ esc 0 2 s'
              | None => String c (esc (n - 1) 0 s')
              end
          end
      end
  end.
Definition print_string (s : string) : string :=
  String dquote (esc 0 0 s +:+ String dquote EmptyString).

Definition hex_val (c : ascii) : option Z :=
  let v := byte_val c in
  if (48 <=? v) && (v <=? 57) then Some (v - 48)
  else if (97 <=? v) && (v <=? 102) then Some (v - 87)
  else if (65 <=? v) && (v <=? 70) then Some (v - 55) else None.
Definition hex4 (a b c d : ascii) : option Z :=
  a ← hex_val a; b ← hex_val b; c ← hex_val c; d ← hex_val d;
  Some (((a * 16 + b) * 16 + c) * 16 + d).

Definition unesc (c : ascii) : option ascii :=
  let v := byte_val c in
  if (v =? 34) || (v =? 92) || (v =? 47) then Some c
  else if v =? 98 then Some (byte_of 8) else if v =? 102 then Some (byte_of 12)
  else if v =? 110 then Some (byte_of 10) else if v =? 114 then Some (byte_of 13)
  else if v =? 116 then Some (byte_of 9) else None.

Definition is_surrogate (r : Z) : bool := (55296 <=? r) && (r <? 57344).
(** [utf16.DecodeRune] *)
Definition surrogate_pair (r r2 : Z) : option Z :=
  if (55296 <=? r) && (r <? 56320) && (56320 <=? r2) && (r2 <? 57344)
  then Some ((r - 55296) * 1024 + (r2 - 56320) + 65536) else None.

Definition prepend (p : string) (o : option (string * string)) : option (string * string) :=
  '(v, r) ← o; Some (p +:+ v, r).

(** The rest of a string literal after its opening quote: its value and what
    follows the closing quote. *)
Fixpoint unq (copy : nat) (s : string) : option (string * string) :=
  match s with
  | EmptyString => None
  | String c s' =>
      match copy with
      | S k => prepend (String c EmptyString) (unq k s')
      | O =>
          let v := byte_val c in
          if v =? 34 then Some (EmptyString, s')
          else if v =? 92 then
            match s' with
            | EmptyString => None
            | String e s2 =>
                if byte_val e =? 117 then
                  match s2 with
                  | String h1 (String h2 (String h3 (String h4 s3))) =>
                      match hex4 h1 h2 h3 h4 with
                      | None => None
                      | Some r =>
                          if is_surrogate r then
                            match s3 with
                            | String b (String u (String g1 (String g2 (String g3 (String g4 s4))))) =>
                                if (byte_val b =? 92) && (byte_val u =? 117) then
                                  match hex4 g1 g2 g3 g4 with
                                  | None => None
                                  | Some r2 =>
                                      match surrogate_pair r r2 with
                                      | Some x => prepend (encode_rune x) (unq 0 s4)
                                      | None => prepend (encode_rune rune_error) (unq 0 s3)
                                      end
                                  end
                                else prepend (encode_rune rune_error) (unq 0 s3)
                            | _ => prepend (encode_rune rune_error) (unq 0 s3)
                            end
                          else prepend (encode_rune r) (unq 0 s3)
                      end
                  | _ => None
                  end
                else match unesc e with
                     | Some x => prepend (String x EmptyString) (unq 0 s2)
                     | None => None
                     end
            end
          else if v <? 32 then None
          else match rune_len s with
               | None => prepend (encode_rune rune_error) (unq 0 s')
               | Some n => prepend (String c EmptyString) (unq (n - 1) s')
               end
      end
  end.

(** * Documents *)
Inductive json : Type :=
| JNull
| JBool (b : bool)
| JNum (literal : string)
| JStr (s : string)
| JArr (items : list json)
| JObj (members : list (string * json)).

(** [json.Marshal], compact; struct and map members arrive in order. *)
Fixpoint print (v : json) : string :=
  match v with
  | JNull => "null"
  | JBool b => if b then "true" else "false"
  | JNum l => l
  | JStr s => print_string s
  | JArr l => "[" +:+ join "," (map print l) +:+ "]"
  | JObj l => "{" +:+ join "," (map (fun '(k, x) => print_string k +:+ ":" +:+ print x) l) +:+ "}"
  end.

(** JSON white space. *)
Definition is_ws (c : ascii) : bool :=
  let v := byte_val c in (v =? 32) || (v =? 9) || (v =? 10) || (v =? 13).
Fixpoint skip_ws (s : string) : string :=
  match s with
  | String c s' => if is_ws c then skip_ws s' else s
  | EmptyString => s
  end.

(** A number literal: sign, integer part, fraction, exponent. *)
Fixpoint span_digits (s : string) : string * string :=
  match s with
  | String c s' => if is_digit c then let '(d, r) := span_digits s' in (String c d, r) else (EmptyString, s)
  | EmptyString => (EmptyString, EmptyString)
  end.
Definition digits1 (s : string) : option (string * string) :=
  match span_digits s with
  | (EmptyString, _) => None
  | p => Some p
  end.
Definition scan_int (s : string) : option (string * string) :=
  match s with
  | String c s' => if byte_val c =? 48 then Some (String c EmptyString, s') else digits1 s
  | EmptyString => None
  end.
Definition scan_frac (s : string) : option (string * string) :=
  match s with
  | String c s' => if byte_val c =? 46 then prepend (String c EmptyString) (digits1 s') else Some (EmptyString, s)
  | EmptyString => Some (EmptyString, s)
  end.
Definition is_sign (c : ascii) : bool := (byte_val c =? 43) || (byte_val c =? 45).
Definition scan_exp (s : string) : option (string * string) :=
  match s with
  | String e s' =>
      if (byte_val e =? 101) || (byte_val e =? 69) then
        match s' with
        | String c s'' =>
            if is_sign c then prepend (String e (String c EmptyString)) (digits1 s'')
            else prepend (String e EmptyString) (digits1 s')
        | EmptyString => None
        end
      else Some (EmptyString, s)
  | EmptyString => Some (EmptyString, s)
  end.
Definition scan_unsigned (s : string) : option (string * string) :=
  '(i, s1) ← scan_int s; '(f, s2) ← scan_frac s1; '(e, s3) ← scan_exp s2;
  Some (i +:+ f +:+ e, s3).
Definition scan_number (s : string) : option (string * string) :=
  match s with
  | String c s' => if byte_val c =? 45 then prepend (String c EmptyString) (scan_unsigned s') else scan_unsigned s
  | EmptyString => None
  end.

Definition starts (c : Z) (s : string) : option string :=
  match s with
  | String x s' => if byte_val x =? c then Some s' else None
  | EmptyString => None
  end.

(** [f] bounds the nesting and the number of siblings still to be read. *)
Fixpoint parse_value (f : nat) (s : string) : option (json * string) :=
  match f with
  | O => None
  | S f =>
      let s := skip_ws s in
      match s with
      | EmptyString => None
      | String c s' =>
          let v := byte_val c in
          if v =? 34 then '(x, r) ← unq 0 s'; Some (JStr x, r)
          else if v =? 91 then
            match starts 93 (skip_ws s') with
            | Some r => Some (JArr [], r)
            | None => '(l, r) ← parse_items f s'; Some (JArr l, r)
            end
          else if v =? 123 then
            match starts 125 (skip_ws s') with
            | Some r => Some (JObj [], r)
            | None => '(l, r) ← parse_members f s'; Some (JObj l, r)
            end
          else if v =? 110 then r ← cut_prefix "null" s; Some (JNull, r)
          else if v =? 116 then r ← cut_prefix "true" s; Some (JBool true, r)
          else if v =? 102 then r ← cut_prefix "false" s; Some (JBool false, r)
          else '(l, r) ← scan_number s; Some (JNum l, r)
      end
  end
with parse_items (f : nat) (s : string) : option (list json * string) :=
  match f with
  | O => None
  | S f =>
      '(x, r) ← parse_value f s;
      match starts 44 (skip_ws r) with
      | Some r' => '(l, r'') ← parse_items f r'; Some (x :: l, r'')
      | None => r' ← starts 93 (skip_ws r); Some ([x], r')
      end
  end
with parse_members (f : nat) (s : string) : option (list (string * json) * string) :=
  match f with
  | O => None
  | S f =>
      s ← starts 34 (skip_ws s);
      '(k, r) ← unq 0 s;
      r ← starts 58 (skip_ws r);
      '(x, r) ← parse_value f r;
      match starts 44 (skip_ws r) with
      | Some r' => '(l, r'') ← parse_members f r'; Some ((k, x) :: l, r'')
      | None => r' ← starts 125 (skip_ws r); Some ([(k, x)], r')
      end
  end.

(** A whole document: one value and nothing but white space after it. *)
Definition parse (s : string) : option json :=
  '(v, r) ← parse_value (S (slen s)) s;
  match skip_ws r with EmptyString => Some v | _ => None end.

(** * Struct fields *)

Definition syntax_error : error := Errorf "invalid JSON".
Definition type_error (field : string) : error := Errorf ("json: cannot unmarshal " +:+ field).

Definition fold_byte (c : ascii) : ascii :=
  let v := byte_val c in if (65 <=? v) && (v <=? 90) then byte_of (v + 32) else c.
Fixpoint fold_name (s : string) : string :=
  match s with EmptyString => EmptyString | String c s' => String (fold_byte c) (fold_name s') end.

(** A struct type: field names with the way each stores its value. *)
Definition Fields (T : Type) : Type := list (string * (json -> T -> result T)).

(** The field an object key names: exactly, or up to case. *)
Definition field_for {T} (fs : Fields T) (k : string) : option (json -> T -> result T) :=
  match find (fun '(n, _) => bool_decide (n = k)) fs with
  | Some (_, a) => Some a
  | None => snd <$> find (fun '(n, _) => bool_decide (fold_name n = fold_name k)) fs
  end.

(** Members are stored in the order of the document; unknown keys are ignored
    and [null] leaves a field alone. *)
Fixpoint store_members {T} (fs : Fields T) (l : list (string * json)) (t : T) : result T :=
  match l with
  | [] => Ok t
  | (k, v) :: l' =>
      match field_for fs k with
      | None => store_members fs l' t
      | Some a => t' ← a v t; store_members fs l' t'
      end
  end.
Definition decode_struct {T} (fs : Fields T) (j : json) (t : T) : result T :=
  match j with
  | JNull => Ok t
  | JObj l => store_members fs l t
  | _ => Err (type_error "object")
  end.
(** [json.Unmarshal(s, &t)] *)
Definition unmarshal {T} (fs : Fields T) (s : string) (t : T) : result T :=
  match parse s with
  | Some j => decode_struct fs j t
  | None => Err syntax_error
  end.

Section fields.
Context {T : Type}.
Definition str_field (set : string -> T -> T) (j : json) (t : T) : result T :=
  match j with JStr s => Ok (set s t) | JNull => Ok t | _ => Err (type_error "string") end.
Definition bool_field (set : bool -> T -> T) (j : json) (t : T) : result T :=
  match j with JBool b => Ok (set b t) | JNull => Ok t | _ => Err (type_error "bool") end.
(** [strconv.ParseUint] and [ParseInt] on a literal: digits, and for a signed
    target an optional minus sign. *)
Definition uint_literal (l : string) : option Z :=
  match digits1 l with Some (_, EmptyString) => Some (fst (take_digits 0 l)) | _ => None end.
Definition int_literal (l : string) : option Z :=
  match l with
  | String c l' => if byte_val c =? 45 then Z.opp <$> uint_literal l' else uint_literal l
  | EmptyString => None
  end.
Definition num_field (read : string -> option Z) (ok : Z -> bool) (set : Z -> T -> T) (j : json) (t : T) : result T :=
  match j with
  | JNum l => match read l with
              | Some z => if ok z then Ok (set z t) else Err (type_error "number")
              | None => Err (type_error "number")
              end
  | JNull => Ok t
  | _ => Err (type_error "number")
  end.
Definition uint_field (bits : Z) : (Z -> T -> T) -> json -> T -> result T :=
  num_field uint_literal (fun z => z <? 2 ^ bits).
Definition int_field (bits : Z) : (Z -> T -> T) -> json -> T -> result T :=
  num_field int_literal (fun z => (- 2 ^ (bits - 1) <=? z) && (z <? 2 ^ (bits - 1))).
(** [strconv.ParseFloat] on a literal: an infinite result is a range error. *)
Definition float_literal (l : string) : option float64 :=
  let '(neg, l) := match l with
                   | String c l' => if byte_val c =? 45 then (true, l') else (false, l)
                   | EmptyString => (false, l)
                   end in
  '(i, s1) ← scan_int l; '(f, s2) ← scan_frac s1; '(e, _) ← scan_exp s2;
  let digits := i +:+ match f with String _ f' => f' | EmptyString => EmptyString end in
  let exp := match e with
             | String _ (String c e' as e1) =>
                 if byte_val c =? 45 then - fst (take_digits 0 e')
                 else if byte_val c =? 43 then fst (take_digits 0 e') else fst (take_digits 0 e1)
             | _ => 0
             end in
  let x := f64_of_dec neg (fst (take_digits 0 digits)) (exp - (Z.of_nat (slen f) - (if (slen f =? 0)%nat then 0 else 1))) in
  if f64_finite x then Some x else None.
Definition float_field (set : float64 -> T -> T) (j : json) (t : T) : result T :=
  match j with
  | JNum l => match float_literal l with Some x => Ok (set x t) | None => Err (type_error "number") end
  | JNull => Ok t
  | _ => Err (type_error "number")
  end.
(** Floats are written with the fewest digits that read back as the same
    value, as a decimal below 1e21 and from 1e-6, and with an exponent
    otherwise.  Of the [n]-digit decimals next to m·2^e, the nearer one is
    tried first; seventeen digits are always enough for a double. *)
Definition decimal_exponent (num den : Z) : Z :=
  let below k := if 0 <=? k then num <? den * 10 ^ k else num * 10 ^ (- k) <? den in
  let g := (Z.log2 num - Z.log2 den) * 30103 / 100000 in
  if below (g - 1) then g - 1 else if below g then g else if below (g + 1) then g + 1 else g + 2.
Fixpoint strip_zeros (n : nat) (d k : Z) : Z * Z :=
  match n with
  | O => (d, k)
  | S n' => if (d mod 10 =? 0) && (0 <? d) then strip_zeros n' (d / 10) (k + 1) else (d, k)
  end.
#[export] Instance float64_eq_dec : EqDecision float64.
Proof. intros x y. unfold Decision, float64 in *. decide equality; apply bool_eq_dec || apply Z.eq_dec || apply Pos.eq_dec. Defined.

Fixpoint shortest (fuel : nat) (n : Z) (m : positive) (e : Z) : option (Z * Z) :=
  match fuel with
  | O => None
  | S fuel' =>
      let num := Zpos m * 2 ^ Z.max e 0 in let den := 2 ^ Z.max (- e) 0 in
      let k := decimal_exponent num den - n in
      let a := num * 10 ^ Z.max (- k) 0 in let b := den * 10 ^ Z.max k 0 in
      let q := a / b in
      let near := if 2 * (a mod b) <? b then q else q + 1 in
      let far := if 2 * (a mod b) <? b then q + 1 else q in
      let reads d := bool_decide (f64_of_dec false d k = S754_finite false m e) in
      if reads near then Some (strip_zeros 17 near k)
      else if reads far then Some (strip_zeros 17 far k)
      else shortest fuel' (n + 1) m e
  end.
Fixpoint zeros (n : nat) : string := match n with O => EmptyString | S n' => String "0" (zeros n') end.
(** The digits of d·10^k, laid out. *)
Definition float_layout (d k : Z) : string :=
  let ds := itoa d in
  let nd := Z.of_nat (slen ds) in
  let point := nd + k in (* d·10^k = 0.ds × 10^point *)
  if (-6 <? point) && (point <=? 21) then
    if 0 <=? k then ds +:+ zeros (Z.to_nat k)
    else if 0 <? point then String.substring 0 (Z.to_nat point) ds +:+ "." +:+ String.substring (Z.to_nat point) (Z.to_nat (- k)) ds
    else "0." +:+ zeros (Z.to_nat (- point)) +:+ ds
  else
    let x := point - 1 in
    String.substring 0 1 ds +:+ (if nd =? 1 then EmptyString else "." +:+ String.substring 1 (slen ds) ds) +:+
    "e" +:+ (if x <? 0 then "-" +:+ itoa (- x) else "+" +:+ itoa x).
(** Infinities and NaN are refused. *)
Definition print_float (x : float64) : option string :=
  match x with
  | S754_zero s => Some (if s then "-0" else "0")%string
  | S754_finite s m e =>
      '(d, k) ← shortest 17 1 m e;
      Some ((if s then "-" else EmptyString) +:+ float_layout d k)
  | _ => None
  end.
(** A member with the [omitempty] option. *)
Definition omit_empty (empty : bool) (k : string) (v : json) : list (string * json) :=
  if empty then [] else [(k, v)].
Definition float_zero (x : float64) : bool := match x with S754_zero _ => true | _ => false end.
(** A float an [omitempty] member keeps: zero is left out and reads back as
    +0, anything else must read back from its text. *)
Definition float_kept (x : float64) : bool :=
  bool_decide (x = S754_zero false) ||
  (negb (float_zero x) &&
   match print_float x with
   | Some l => bool_decide (scan_number l = Some (l, EmptyString)) && bool_decide (float_literal l = Some x)
   | None => false
   end).
(** An optional instant: [*time.Time]. *)
Definition time_field (set : option time -> T -> T) (j : json) (t : T) : result T :=
  match j with
  | JStr s => match Parse s with Some x => Ok (set (Some x) t) | None => Err (type_error "time") end
  | JNull => Ok (set None t)
  | _ => Err (type_error "time")
  end.
Definition strs_of (l : list json) : option (list string) :=
  mapM (fun j => match j with JStr s => Some s | JNull => Some EmptyString | _ => None end) l.
Definition strs_field (set : list string -> T -> T) (j : json) (t : T) : result T :=
  match j with
  | JArr l => match strs_of l with Some x => Ok (set x t) | None => Err (type_error "array") end
  | JNull => Ok (set [] t)
  | _ => Err (type_error "array")
  end.
End fields.

(** * Decoding that keeps what it can

    [_ = json.Unmarshal(...)]: a field whose value has the wrong type is left
    as it was and the others are still stored; a missing document stores
    nothing. *)
Definition keep_members {T} (fs : Fields T) (l : list (string * json)) (t : T) : T :=
  foldl (fun t '(k, v) => match field_for fs k with
                          | Some store => match store v t with Ok t' => t' | Err _ => t end
                          | None => t
                          end) t l.
Definition unmarshal_ignore {T} (fs : Fields T) (doc : option json) (t : T) : T :=
  match doc with Some (JObj l) => keep_members fs l t | _ => t end.
(** A [json.RawMessage] field. *)
Definition raw_field {T} (set : json -> T -> T) (j : json) (t : T) : result T := Ok (set j t).

(** * Lemmas: runes *)
Definition is_rune (p : string) : Prop := rune_len p = Some (slen p).

Lemma rune_len_split s n :
  rune_len s = Some n -> exists p t, s = p +:+ t /\ is_rune p /\ slen p = n.
Proof.
  unfold is_rune. destruct s as [|a s]; [done|]. cbn [rune_len]. intros Hr.
  destruct (in_b 0 127 a) eqn:Ha.
  { exists (String a EmptyString), s. simplify_eq. split_and!; [done| |done]. simpl. by rewrite Ha. }
  destruct s as [|b s]; [done|]. destruct (in_b 194 223 a) eqn:Ha2.
  { destruct (cont b) eqn:Hb; simplify_eq. exists (String a (String b EmptyString)), s.
    split_and!; [done| |done]. simpl. by rewrite Ha, Ha2, Hb. }
  set (lo := if _ =? 224 then _ else _) in *. set (hi := if _ =? 237 then _ else _) in *.
  destruct (negb _) eqn:Hab; [done|]. destruct s as [|c s]; [done|].
  destruct (negb (cont c)) eqn:Hc; [done|]. destruct (in_b 224 239 a) eqn:Ha3.
  { simplify_eq. exists (String a (String b (String c EmptyString))), s.
    split_and!; [done| |done]. simpl. fold lo hi. by rewrite Ha, Ha2, Hab, Hc, Ha3. }
  destruct s as [|d s]; [done|]. destruct (cont d) eqn:Hd; simplify_eq.
  exists (String a (String b (String c (String d EmptyString)))), s.
  split_and!; [done| |done]. simpl. fold lo hi. by rewrite Ha, Ha2, Hab, Hc, Ha3, Hd.
Qed.

(** A rune is one to four bytes, and reads the same whatever follows it. *)
Lemma is_rune_cases p :
  is_rune p ->
  (exists a, p = String a EmptyString /\ in_b 0 127 a = true) \/
  (in_b 0 127 (default zero (String.get 0 p)) = false /\
   ((exists a b, p = String a (String b EmptyString)) \/
    (exists a b c, p = String a (String b (String c EmptyString))) \/
    (exists a b c d, p = String a (String b (String c (String d EmptyString)))))).
Proof.
  unfold is_rune. destruct p as [|a p]; [done|]. cbn [rune_len String.get default].
  destruct (in_b 0 127 a) eqn:Ha.
  { destruct p; simpl; [|done]. intros _. left. by exists a. }
  destruct p as [|b p]; [done|]. right. split; [done|].
  destruct (in_b 194 223 a). { destruct (cont b); [|done]. destruct p; [|done]. left. by exists a, b. }
  destruct (negb _); [done|]. destruct p as [|c p]; [done|]. destruct (negb _); [done|].
  destruct (in_b 224 239 a). { destruct p; [|done]. right; left. by exists a, b, c. }
  destruct p as [|d p]; [done|]. destruct (cont d); [|done]. destruct p; [|done]. right; right. by exists a, b, c, d.
Qed.

Lemma rune_len_app p t : is_rune p -> rune_len (p +:+ t) = Some (slen p).
Proof.
  intros Hp. destruct (is_rune_cases p Hp) as [(a & -> & Ha)|(Ha & [(a & b & ->)|[(a & b & c & ->)|(a & b & c & d & ->)]])];
    unfold is_rune in Hp; rewrite !string_app_cons in *; simpl in *; rewrite Ha in *; [done|..];
    repeat case_match; simplify_eq; done.
Qed.

Lemma utf8_from_app p t : utf8_from (slen p) (p +:+ t) = utf8 t.
Proof. unfold utf8. induction p as [|a p IH]; [done|]. by rewrite string_app_cons. Qed.

Lemma utf8_ind (P : string -> Prop) :
  P EmptyString ->
  (forall p s, is_rune p -> utf8 s = true -> P s -> P (p +:+ s)) ->
  forall s, utf8 s = true -> P s.
Proof.
  intros H0 Hc s. remember (slen s) as n eqn:Hn. revert s Hn.
  induction (lt_wf n) as [n _ IH]. intros s -> Hs. destruct s as [|a s]; [done|].
  unfold utf8 in Hs. cbn [utf8_from] in Hs. destruct (rune_len (String a s)) as [n|] eqn:Hr; [|done].
  destruct (rune_len_split _ _ Hr) as (p & t & Heq & Hp & <-). destruct p as [|a' p]; [discriminate Hp|].
  rewrite string_app_cons in Heq. injection Heq as <- ->. simpl in Hs. rewrite Nat.sub_0_r, utf8_from_app in Hs.
  change (P (String a p +:+ t)). apply Hc; [done..|]. apply (IH (slen t)); [|done..].
  simpl. rewrite slen_app. lia.
Qed.

Lemma utf8_app p s : is_rune p -> utf8 s = true -> utf8 (p +:+ s) = true.
Proof.
  intros Hp Hs. destruct p as [|a p]; [discriminate Hp|]. rewrite string_app_cons. unfold utf8. cbn [utf8_from].
  rewrite <- string_app_cons, rune_len_app by done. simpl. by rewrite Nat.sub_0_r, utf8_from_app.
Qed.

(** ** Text of ASCII bytes only *)
Fixpoint ascii_text (s : string) : bool :=
  match s with EmptyString => true | String c s' => in_b 0 127 c && ascii_text s' end.

Lemma ascii_text_utf8 s : ascii_text s = true -> utf8 s = true.
Proof.
  induction s as [|c s IH]; [done|]. simpl. intros [Hc Hs]%andb_true_iff.
  change (String c s) with (String c EmptyString +:+ s). apply utf8_app; [|by apply IH].
  unfold is_rune. simpl. by rewrite Hc.
Qed.

Lemma ascii_text_app s t : ascii_text (s +:+ t) = ascii_text s && ascii_text t.
Proof. induction s as [|c s IH]; [done|]. rewrite string_app_cons. simpl. by rewrite IH, andb_assoc. Qed.

Lemma ascii_text_pad_dec w n : ascii_text (pad_dec w n) = true.
Proof.
  induction w as [|w IH]; [done|]. simpl. rewrite IH, andb_true_r. unfold digit, in_b.
  set (d := (n / 10 ^ Z.of_nat w) mod 10). assert (0 <= d < 10) by (apply Z.mod_pos_bound; lia).
  rewrite byte_val_of by lia. apply andb_true_iff. split; apply Z.leb_le; lia.
Qed.

Lemma ascii_text_itoa n : 0 <= n -> ascii_text (itoa n) = true.
Proof. intros Hn. unfold itoa. rewrite (proj2 (Z.ltb_ge n 0)) by done. apply ascii_text_pad_dec. Qed.

Lemma ascii_text_trim_zeros s : ascii_text s = true -> ascii_text (trim_zeros s) = true.
Proof.
  induction s as [|c s IH]; [done|]. simpl. intros [Hc Hs]%andb_true_iff. specialize (IH Hs).
  destruct (trim_zeros s); [destruct (ascii_eqb c "0"); simpl; by rewrite ?Hc|]. simpl in *. by rewrite Hc.
Qed.

Lemma Format_utf8 t : utf8 (Format t) = true.
Proof.
  apply ascii_text_utf8. unfold Format, format_secs. destruct (civil_of_days _) as [[y m] d].
  assert (Hf : ascii_text (format_frac (t mod Second)) = true).
  { unfold format_frac. pose proof (ascii_text_trim_zeros _ (ascii_text_pad_dec 9 (t mod Second))) as Ht.
    by destruct (trim_zeros _). }
  repeat (rewrite ?ascii_text_app, ?ascii_text_pad_dec, ?Hf; cbn [ascii_text]).
  destruct (y <? 10000); [by rewrite ascii_text_pad_dec|]. unfold itoa_nonneg. by rewrite ascii_text_pad_dec.
Qed.
#[export] Hint Resolve Format_utf8 : go.

(** * Lemmas: strings *)
Lemma prepend_prepend p q o : prepend p (prepend q o) = prepend (p +:+ q) o.
Proof. destruct o as [[v r]|]; [|done]. unfold prepend. simpl. by rewrite string_app_assoc. Qed.

Lemma unq_esc_ascii a t :
  in_b 0 127 a = true -> unq 0 (esc_ascii a +:+ t) = prepend (String a EmptyString) (unq 0 t).
Proof.
  intros Ha. destruct a as [[] [] [] [] [] [] [] []]; vm_compute in Ha; try discriminate Ha; reflexivity.
Qed.

Lemma in_b_byte lo hi a : in_b lo hi a = true <-> lo <= byte_val a <= hi.
Proof. unfold in_b. rewrite andb_true_iff, !Z.leb_le. done. Qed.

Lemma rune_high a p : is_rune (String a p) -> in_b 0 127 a = false -> 128 <= byte_val a < 256.
Proof. intros _ Ha. pose proof (byte_val_range a). apply not_true_iff_false in Ha. rewrite in_b_byte in Ha. lia. Qed.

Lemma unq_high a s :
  128 <= byte_val a ->
  unq 0 (String a s) = match rune_len (String a s) with
                       | None => prepend (encode_rune rune_error) (unq 0 s)
                       | Some n => prepend (String a EmptyString) (unq (n - 1) s)
                       end.
Proof.
  intros Ha. cbn [unq]. rewrite (proj2 (Z.eqb_neq (byte_val a) 34)), (proj2 (Z.eqb_neq (byte_val a) 92)) by lia.
  by rewrite (proj2 (Z.ltb_ge (byte_val a) 32)) by lia.
Qed.

Lemma unq_copy p t : unq (slen p) (p +:+ t) = prepend p (unq 0 t).
Proof.
  induction p as [|a p IH]; [rewrite string_app_nil_l; simpl; by destruct (unq 0 t) as [[]|]|].
  rewrite string_app_cons. cbn [slen unq]. rewrite IH, prepend_prepend. by rewrite string_app_cons.
Qed.

(** A rune that is copied reads back as itself. *)
Lemma unq_rune p t :
  is_rune p -> in_b 0 127 (default zero (String.get 0 p)) = false -> unq 0 (p +:+ t) = prepend p (unq 0 t).
Proof.
  intros Hp Ha. destruct p as [|a p]; [discriminate Hp|]. simpl in Ha.
  rewrite string_app_cons, unq_high by (by apply (rune_high a p)).
  rewrite <- string_app_cons, rune_len_app by done. simpl. by rewrite Nat.sub_0_r, unq_copy, prepend_prepend.
Qed.

Lemma esc_copy p t : esc (slen p) 0 (p +:+ t) = p +:+ esc 0 0 t.
Proof. induction p as [|a p IH]; [done|]. rewrite string_app_cons. cbn [slen esc]. by rewrite IH. Qed.

Lemma esc_drop p t k : esc k (slen p) (p +:+ t) = match p with EmptyString => esc k 0 t | _ => esc 0 0 t end.
Proof.
  revert k. induction p as [|a p IH]; intros k; [done|]. rewrite string_app_cons. cbn [slen esc].
  rewrite IH. by destruct p.
Qed.

Lemma line_sep_rune p t e :
  is_rune p -> line_sep (p +:+ t) = Some e ->
  slen p = 3%nat /\ forall x, unq 0 (e +:+ x) = prepend p (unq 0 x).
Proof.
  intros Hp Hl. pose proof (rune_len_app p t Hp) as Hr.
  destruct (is_rune_cases p Hp) as [(a & -> & Ha)|(Ha & Hs)].
  { exfalso. rewrite string_app_cons, string_app_nil_l in Hl. destruct t as [|b [|c t]]; try done. simpl in Hl.
    destruct (_ && _) eqn:E; [|done]. go_bool. apply in_b_byte in Ha. lia. }
  assert (Hpre : exists a b c t', p +:+ t = String a (String b (String c t')) /\ byte_val a = 226 /\ byte_val b = 128 /\
    ((byte_val c = 168 /\ e = "\u2028"%string) \/ (byte_val c = 169 /\ e = "\u2029"%string))).
  { destruct (p +:+ t) as [|a [|b [|c t']]]; try done. exists a, b, c, t'. simpl in Hl.
    destruct (_ && _) eqn:E; [|done]. go_bool. split_and!; try done.
    destruct (byte_val c =? 168) eqn:E1; [|destruct (byte_val c =? 169) eqn:E2; [|done]]; go_bool; simplify_eq; auto. }
  destruct Hpre as (a & b & c & t' & Heq & Hva & Hvb & Hc). rewrite Heq in Hr.
  assert (a = byte_of 226) as -> by (by rewrite <- Hva, byte_of_val).
  assert (b = byte_of 128) as -> by (by rewrite <- Hvb, byte_of_val).
  assert (Hc3 : slen p = 3%nat /\ ((c = byte_of 168 /\ e = "\u2028"%string) \/ (c = byte_of 169 /\ e = "\u2029"%string))).
  { destruct Hc as [[Hc ->]|[Hc ->]]; (assert (c = byte_of (byte_val c)) as Hcb by by rewrite byte_of_val);
      rewrite Hc in Hcb; subst c; change (Some 3%nat = Some (slen p)) in Hr; injection Hr as Hr; auto. }
  destruct Hc3 as [H3 Hc3]. split; [done|].
  assert (Hp3 : p = String (byte_of 226) (String (byte_of 128) (String c EmptyString))).
  { destruct p as [|a [|b [|d [|? ?]]]]; try done. rewrite !string_app_cons in Heq. by simplify_eq. }
  subst p. by destruct Hc3 as [[-> ->]|[-> ->]].
Qed.

Lemma unq_esc s rest :
  utf8 s = true -> unq 0 (esc 0 0 s +:+ String dquote rest) = Some (s, rest).
Proof.
  revert s. apply utf8_ind; [done|]. intros p s Hp Hs IH.
  assert (Hstep : unq 0 (esc 0 0 (p +:+ s) +:+ String dquote rest) = prepend p (unq 0 (esc 0 0 s +:+ String dquote rest))).
  2:{ rewrite Hstep, IH. done. }
  destruct (is_rune_cases p Hp) as [(a & -> & Ha)|(Ha & _)].
  - rewrite string_app_cons, string_app_nil_l. cbn [esc]. pose proof Ha as Hv. apply in_b_byte in Hv.
    rewrite (proj2 (Z.ltb_lt (byte_val a) 128)) by lia. by rewrite <- string_app_assoc, unq_esc_ascii.
  - destruct p as [|a p]; [discriminate Hp|]. simpl in Ha.
    assert (Hesc : esc 0 0 (String a p +:+ s) = match line_sep (String a p +:+ s) with
                     | Some e => e +:+ esc 0 2 (p +:+ s) | None => String a (esc (slen p) 0 (p +:+ s)) end).
    { rewrite string_app_cons. cbn [esc]. pose proof (rune_high a p Hp Ha) as Hv.
      rewrite (proj2 (Z.ltb_ge (byte_val a) 128)) by lia. rewrite <- string_app_cons, rune_len_app by done.
      simpl slen. by rewrite Nat.sub_succ, Nat.sub_0_r. }
    rewrite Hesc. destruct (line_sep _) as [e|] eqn:He.
    + destruct (line_sep_rune _ _ _ Hp He) as [H3 Hu]. simpl in H3. injection H3 as H3.
      replace 2%nat with (slen p) by done. rewrite esc_drop. destruct p as [|b p]; [done|].
      by rewrite <- string_app_assoc, Hu.
    + rewrite esc_copy, <- string_app_cons, <- string_app_assoc. by apply unq_rune.
Qed.

(** * Lemmas: numbers *)
Definition num_ok (l : string) : bool := bool_decide (scan_number l = Some (l, EmptyString)).

(** What may follow a number without being read into it. *)
Definition stops (s : string) : Prop :=
  match s with
  | String c _ => is_digit c = false /\ byte_val c <> 46 /\ byte_val c <> 101 /\ byte_val c <> 69
  | EmptyString => True
  end.

Definition extends (scan : string -> option (string * string)) : Prop :=
  forall s x r rest, scan s = Some (x, r) -> stops rest -> scan (s +:+ rest) = Some (x, r +:+ rest).

Lemma span_digits_app s rest :
  stops rest -> span_digits (s +:+ rest) = (fst (span_digits s), snd (span_digits s) +:+ rest).
Proof.
  intros Hr. induction s as [|c s IH].
  - rewrite string_app_nil_l. destruct rest as [|c rest]; [done|]. simpl. destruct Hr as [-> _]. done.
  - rewrite string_app_cons. cbn [span_digits]. destruct (is_digit c); [|done].
    rewrite IH. by destruct (span_digits s).
Qed.

Lemma digits1_extends : extends digits1.
Proof.
  intros s x r rest Hs Hr. unfold digits1 in *. rewrite span_digits_app by done.
  destruct (span_digits s) as [[|? ?] ?]; simpl in *; by simplify_eq.
Qed.

Lemma prepend_extends p scan : extends scan -> extends (fun s => prepend p (scan s)).
Proof.
  intros He s x r rest Hs Hr. unfold prepend in *. destruct (scan s) as [[v r']|] eqn:E; simpl in Hs; simplify_eq.
  by rewrite (He _ _ _ _ E Hr).
Qed.

Lemma scan_int_extends : extends scan_int.
Proof.
  intros [|c s] x r rest Hs Hr; [done|]. unfold scan_int in *. rewrite string_app_cons.
  destruct (_ =? 48); [by simplify_eq|]. rewrite <- string_app_cons. by apply digits1_extends.
Qed.

Lemma scan_frac_extends : extends scan_frac.
Proof.
  intros [|c s] x r rest Hs Hr; unfold scan_frac in *.
  - simplify_eq. destruct rest as [|c rest]; [done|]. rewrite string_app_nil_l. destruct Hr as (_ & Hd & _).
    by rewrite (proj2 (Z.eqb_neq _ _) Hd).
  - rewrite string_app_cons. destruct (_ =? 46); [|by simplify_eq].
    by apply (prepend_extends (String c EmptyString) _ digits1_extends s).
Qed.

Lemma scan_exp_extends : extends scan_exp.
Proof.
  intros [|e s] x r rest Hs Hr; unfold scan_exp in *.
  - simplify_eq. destruct rest as [|c rest]; [done|]. rewrite string_app_nil_l. destruct Hr as (_ & _ & He & HE).
    by rewrite (proj2 (Z.eqb_neq _ _) He), (proj2 (Z.eqb_neq _ _) HE).
  - rewrite string_app_cons. destruct (_ || _); [|by simplify_eq].
    destruct s as [|c s]; [done|]. rewrite string_app_cons. destruct (is_sign c).
    + by apply (prepend_extends _ _ digits1_extends s).
    + rewrite <- string_app_cons. by apply (prepend_extends _ _ digits1_extends (String c s)).
Qed.

Lemma scan_unsigned_extends : extends scan_unsigned.
Proof.
  intros s x r rest Hs Hr. unfold scan_unsigned in *.
  destruct (scan_int s) as [[i s1]|] eqn:E1; [|done]. simpl in Hs.
  destruct (scan_frac s1) as [[f s2]|] eqn:E2; [|done]. simpl in Hs.
  destruct (scan_exp s2) as [[e s3]|] eqn:E3; [|done]. simpl in Hs. simplify_eq.
  rewrite (scan_int_extends _ _ _ _ E1 Hr). simpl. rewrite (scan_frac_extends _ _ _ _ E2 Hr). simpl.
  by rewrite (scan_exp_extends _ _ _ _ E3 Hr).
Qed.

Lemma scan_number_extends : extends scan_number.
Proof.
  intros [|c s] x r rest Hs Hr; [done|]. unfold scan_number in *. rewrite string_app_cons.
  destruct (_ =? 45); [|rewrite <- string_app_cons; by apply scan_unsigned_extends].
  by apply (prepend_extends (String c EmptyString) _ scan_unsigned_extends s).
Qed.

Lemma num_ok_head l : num_ok l = true -> exists c l', l = String c l' /\ (byte_val c = 45 \/ is_digit c = true).
Proof.
  unfold num_ok. intros Hl. go_bool. destruct l as [|c l]; [done|]. exists c, l. split; [done|].
  unfold scan_number, scan_unsigned, scan_int, digits1 in Hl. cbn [span_digits] in Hl.
  destruct (byte_val c =? 45) eqn:E; go_bool; [by left|right].
  destruct (byte_val c =? 48) eqn:E0; go_bool; [unfold is_digit; by rewrite E0|].
  by destruct (is_digit c).
Qed.

Lemma itoa_nonneg_digits n : 0 <= n -> span_digits (itoa_nonneg n) = (itoa_nonneg n, EmptyString).
Proof.
  intros Hn. unfold itoa_nonneg. generalize (ndigits (Z.to_nat (Z.log2 n)) n) as w. intros w.
  induction w as [|w IH]; [done|]. cbn [pad_dec span_digits].
  rewrite is_digit_digit by (apply Z.mod_pos_bound; lia). by rewrite IH.
Qed.

Lemma ndigits_lower f n : 1 <= n -> exists k, ndigits f n = S k /\ 10 ^ Z.of_nat k <= n.
Proof.
  revert n. induction f as [|f IH]; intros n Hn; simpl; [by exists 0%nat|].
  destruct (n <? 10) eqn:E; go_bool; [by exists 0%nat|].
  destruct (IH (n / 10)) as (k & -> & Hk); [apply Z.div_le_lower_bound; lia|].
  exists (S k). split; [done|]. rewrite Nat2Z.inj_succ, Z.pow_succ_r by lia.
  pose proof (Z.mul_div_le n 10). lia.
Qed.

Lemma itoa_nonneg_head n : 1 <= n -> exists c l, itoa_nonneg n = String c l /\ is_digit c = true /\ byte_val c <> 48.
Proof.
  intros Hn. unfold itoa_nonneg.
  pose proof (itoa_width n ltac:(lia)) as Hw.
  destruct (ndigits_lower (Z.to_nat (Z.log2 n)) n Hn) as (k & Hk & Hlo). rewrite Hk in *.
  exists (digit ((n / 10 ^ Z.of_nat k) mod 10)), (pad_dec k n). split; [done|].
  rewrite Nat2Z.inj_succ, Z.pow_succ_r in Hw by lia.
  assert (1 <= n / 10 ^ Z.of_nat k < 10) as Hd.
  { assert (0 < 10 ^ Z.of_nat k) by (apply Z.pow_pos_nonneg; lia).
    split; [apply Z.div_le_lower_bound; lia|apply Z.div_lt_upper_bound; lia]. }
  rewrite Z.mod_small by lia. split; [apply is_digit_digit; lia|].
  unfold digit. rewrite byte_val_of by lia. lia.
Qed.

Lemma scan_unsigned_itoa n : 0 <= n -> scan_unsigned (itoa_nonneg n) = Some (itoa_nonneg n, EmptyString).
Proof.
  intros Hn. unfold scan_unsigned.
  assert (scan_int (itoa_nonneg n) = Some (itoa_nonneg n, EmptyString)) as ->.
  { destruct (decide (n = 0)) as [->|Hz]; [done|].
    destruct (itoa_nonneg_head n) as (c & l & Hi & Hc & H0); [lia|].
    pose proof (itoa_nonneg_digits n Hn) as Hd. rewrite Hi in *. unfold scan_int.
    rewrite (proj2 (Z.eqb_neq _ _) H0). unfold digits1. by rewrite Hd. }
  simpl. by rewrite string_app_nil_r.
Qed.

Lemma itoa_num_ok z : num_ok (itoa z) = true.
Proof.
  unfold num_ok. apply bool_decide_eq_true_2. unfold itoa. destruct (z <? 0) eqn:E; go_bool.
  - cbn [scan_number]. rewrite scan_unsigned_itoa by lia. done.
  - pose proof (scan_unsigned_itoa z E) as Hs. unfold scan_number. destruct (itoa_nonneg z) as [|c l] eqn:Hi; [done|].
    assert (is_digit c = true) as Hc.
    { destruct (decide (z = 0)) as [->|]; [by vm_compute in Hi; simplify_eq|].
      destruct (itoa_nonneg_head z) as (c' & l' & Hi' & Hc & _); [lia|]. rewrite Hi in Hi'. by simplify_eq. }
    unfold is_digit in Hc. go_bool. by rewrite (proj2 (Z.eqb_neq (byte_val c) 45)) by lia.
Qed.

Lemma uint_literal_itoa n : 0 <= n -> uint_literal (itoa n) = Some n.
Proof.
  intros Hn. unfold itoa. rewrite (proj2 (Z.ltb_ge n 0)) by done. unfold uint_literal, digits1.
  rewrite itoa_nonneg_digits by done. pose proof (take_digits_itoa n EmptyString Hn I) as Ht.
  rewrite string_app_nil_r in Ht. rewrite Ht.
  destruct (itoa_nonneg n) eqn:Hi; [|done]. apply (f_equal slen) in Hi. unfold itoa_nonneg in Hi.
  rewrite slen_pad_dec in Hi. by destruct (Z.to_nat (Z.log2 n)); simpl in Hi; [|destruct (n <? 10)].
Qed.

Lemma int_literal_itoa z : int_literal (itoa z) = Some z.
Proof.
  destruct (decide (z < 0)) as [Hz|Hz].
  - unfold itoa. rewrite (proj2 (Z.ltb_lt z 0) Hz). unfold int_literal. cbn [byte_val].
    pose proof (uint_literal_itoa (- z) ltac:(lia)) as Hu. unfold itoa in Hu.
    rewrite (proj2 (Z.ltb_ge (- z) 0)) in Hu by lia. simpl. rewrite Hu. simpl. f_equal. lia.
  - pose proof (uint_literal_itoa z ltac:(lia)) as Hu. unfold int_literal.
    pose proof (num_ok_head _ (itoa_num_ok z)) as (c & l & Hi & Hc). rewrite Hi in *.
    assert (byte_val c <> 45) as Hne.
    { intros H45. unfold uint_literal, digits1 in Hu. cbn [span_digits] in Hu.
      unfold is_digit in Hu. by rewrite H45 in Hu. }
    by rewrite (proj2 (Z.eqb_neq _ _) Hne).
Qed.

(** * Lemmas: documents *)
Section json_ind.
Variable P : json -> Prop.
Hypothesis PNull : P JNull.
Hypothesis PBool : forall b, P (JBool b).
Hypothesis PNum : forall l, P (JNum l).
Hypothesis PStr : forall s, P (JStr s).
Hypothesis PArr : forall l, Forall P l -> P (JArr l).
Hypothesis PObj : forall l, Forall (fun p => P (snd p)) l -> P (JObj l).
Fixpoint json_nested_ind (v : json) : P v :=
  match v with
  | JNull => PNull
  | JBool b => PBool b
  | JNum l => PNum l
  | JStr s => PStr s
  | JArr l => PArr l ((fix go l : Forall P l := match l with
                                   | [] => List.Forall_nil _
                                   | x :: l' => Forall_cons_2 _ x l' (json_nested_ind x) (go l')
                                   end) l)
  | JObj l => PObj l ((fix go l : Forall (fun p => P (snd p)) l := match l with
                                   | [] => List.Forall_nil _
                                   | p :: l' => Forall_cons_2 _ p l' (json_nested_ind (snd p)) (go l')
                                   end) l)
  end.
End json_ind.

(** Documents that print to text reading back as themselves: valid UTF-8 and
    well-formed literals. *)
Fixpoint json_ok (v : json) : bool :=
  match v with
  | JNum l => num_ok l
  | JStr s => utf8 s
  | JArr l => forallb json_ok l
  | JObj l => forallb (fun '(k, x) => utf8 k && json_ok x) l
  | _ => true
  end.

(** The fuel a document needs. *)
Fixpoint need (v : json) : nat :=
  match v with
  | JArr l => S (list_sum (map (fun x => S (need x)) l))
  | JObj l => S (list_sum (map (fun '(_, x) => S (need x)) l))
  | _ => 1
  end.

Lemma print_head v :
  json_ok v = true -> exists c s, print v = String c s /\ is_ws c = false /\ byte_val c <> 93 /\ byte_val c <> 125 /\ byte_val c <> 44.
Proof.
  intros Hok. destruct v as [|[]|l|s|l|l]; simpl in *; try (by eexists _, _).
  destruct (num_ok_head _ Hok) as (c & l' & -> & Hc). exists c, l'. split; [done|]. unfold is_ws, is_digit in *.
  assert (byte_val c = 45 \/ 48 <= byte_val c <= 57) as Hv by (destruct Hc; [by left|go_bool; right; lia]).
  split; [|lia]. rewrite !(proj2 (Z.eqb_neq (byte_val c) _)) by lia. done.
Qed.

Lemma skip_ws_print v t : json_ok v = true -> skip_ws (print v +:+ t) = print v +:+ t.
Proof.
  intros Hok. destruct (print_head v Hok) as (c & s & -> & Hw & _). rewrite string_app_cons. simpl. by rewrite Hw.
Qed.

Lemma starts_print c v t : json_ok v = true -> c = 93 \/ c = 125 \/ c = 44 -> starts c (print v +:+ t) = None.
Proof.
  intros Hok Hc. destruct (print_head v Hok) as (x & s & -> & _ & H1 & H2 & H3). rewrite string_app_cons. simpl.
  rewrite (proj2 (Z.eqb_neq (byte_val x) c)); [done|]. naive_solver.
Qed.

Definition parses (v : json) : Prop :=
  forall f rest, (need v <= f)%nat -> json_ok v = true -> stops rest -> parse_value f (print v +:+ rest) = Some (v, rest).

Lemma stops_after c s : is_digit c = false -> byte_val c <> 46 -> byte_val c <> 101 -> byte_val c <> 69 -> stops (String c s).
Proof. done. Qed.

Lemma join_cons sep x y l : join sep (x :: y :: l) = x +:+ sep +:+ join sep (y :: l).
Proof. done. Qed.

Lemma parse_items_print l :
  Forall parses l -> l <> [] -> forall f rest,
  (list_sum (map (fun x => S (need x)) l) <= f)%nat -> forallb json_ok l = true ->
  parse_items f (join "," (map print l) +:+ String "]" rest) = Some (l, rest).
Proof.
  induction 1 as [|x l Hx Hl IH]; intros Hne f rest Hf Hok; [done|].
  simpl in Hf, Hok. apply andb_true_iff in Hok as [Hx_ok Hok]. destruct f as [|f]; [lia|].
  cbn [parse_items]. destruct l as [|y l].
  - change (join "," (map print [x])) with (print x). rewrite Hx by (done || lia). done.
  - cbn [map]. rewrite join_cons, <- string_app_assoc, Hx by (done || lia). simpl mbind. cbv beta iota.
    rewrite string_app_cons, string_app_nil_l. cbn [starts skip_ws is_ws]. simpl.
    rewrite IH; [done|done|simpl in *; lia|done].
Qed.

Lemma parse_members_print l :
  Forall (fun p => parses (snd p)) l -> l <> [] -> forall f rest,
  (list_sum (map (fun '(_, x) => S (need x)) l) <= f)%nat -> forallb (fun '(k, x) => utf8 k && json_ok x) l = true ->
  parse_members f (join "," (map (fun '(k, x) => print_string k +:+ ":" +:+ print x) l) +:+ String "}" rest) = Some (l, rest).
Proof.
  induction 1 as [|[k x] l Hx Hl IH]; intros Hne f rest Hf Hok; [done|]. simpl in Hx.
  simpl in Hf, Hok. apply andb_true_iff in Hok as [[Hk Hx_ok]%andb_true_iff Hok]. destruct f as [|f]; [lia|].
  assert (Hone : forall t, parse_value f (print x +:+ t) = Some (x, t) ->
    starts 34 (skip_ws ((print_string k +:+ ":" +:+ print x) +:+ t)) = Some (esc 0 0 k +:+ String dquote (":" +:+ print x +:+ t)) /\
    unq 0 (esc 0 0 k +:+ String dquote (":" +:+ print x +:+ t)) = Some (k, ":" +:+ print x +:+ t)).
  { intros t _. split; [|by apply unq_esc]. unfold print_string. rewrite !string_app_cons, <- !string_app_assoc. done. }
  cbn [parse_members]. destruct l as [|y l].
  - cbn [map join]. assert (Hv : parse_value f (print x +:+ String "}" rest) = Some (x, String "}" rest)) by (apply Hx; done || lia).
    destruct (Hone _ Hv) as [-> Hu]. simpl mbind. rewrite Hu. cbn [mbind option_bind]. simpl. by rewrite string_app_nil_l, Hv.
  - cbn [map]. destruct y as [k2 x2]. rewrite join_cons, <- string_app_assoc.
    set (t := ("," +:+ _) +:+ String "}" rest).
    assert (Hv : parse_value f (print x +:+ t) = Some (x, t)) by (apply Hx; done || lia).
    destruct (Hone _ Hv) as [-> Hu]. simpl mbind. rewrite Hu. simpl. rewrite string_app_nil_l, Hv. simpl.
    unfold t. rewrite string_app_cons, string_app_nil_l.
    pose proof (IH ltac:(done) f rest ltac:(simpl in *; lia) Hok) as Hi. cbn [map] in Hi.
    match goal with |- (?o ≫= _) = _ => assert (o = Some ((k2, x2) :: l, rest)) as -> by exact Hi end. done.
Qed.

Lemma parse_value_print v : parses v.
Proof.
  induction v as [| [] |l|s|l IH|l IH] using json_nested_ind; intros f rest Hf Hok Hst;
    (destruct f as [|f]; [simpl in Hf; lia|]); try done.
  - change (print (JNum l)) with l. simpl in Hok. pose proof Hok as Hn. unfold num_ok in Hn. go_bool.
    pose proof (scan_number_extends _ _ _ _ Hn Hst) as Hs. rewrite string_app_nil_l in Hs.
    destruct (num_ok_head l Hok) as (c & l' & -> & Hc). rewrite string_app_cons in *.
    assert (byte_val c = 45 \/ 48 <= byte_val c <= 57) as Hv.
    { unfold is_digit in Hc. destruct Hc; [by left|go_bool; right; lia]. }
    cbn [parse_value]. cbn [skip_ws]. assert (is_ws c = false) as ->.
    { unfold is_ws. rewrite !(proj2 (Z.eqb_neq (byte_val c) _)) by lia. done. }
    rewrite !(proj2 (Z.eqb_neq (byte_val c) _)) by lia. by rewrite Hs.
  - change (print (JStr s)) with (print_string s). unfold print_string. rewrite string_app_cons, <- string_app_assoc.
    cbn [parse_value skip_ws]. simpl. rewrite string_app_cons, string_app_nil_l, unq_esc by done. done.
  - change (print (JArr l)) with (String "[" (join "," (map print l) +:+ "]")). simpl in Hf, Hok.
    rewrite string_app_cons, <- string_app_assoc, string_app_cons, string_app_nil_l. cbn [parse_value skip_ws]. simpl.
    destruct l as [|x l]; [done|].
    assert (starts 93 (skip_ws (join "," (map print (x :: l)) +:+ String "]" rest)) = None) as ->.
    { simpl in Hok. apply andb_true_iff in Hok as [Hx _].
      assert (exists t, join "," (map print (x :: l)) +:+ String "]" rest = print x +:+ t) as [t ->].
      { destruct l; [by eexists|]. cbn [map]. rewrite join_cons, <- string_app_assoc. by eexists. }
      rewrite skip_ws_print by done. apply starts_print; auto. }
    rewrite parse_items_print by (done || lia). done.
  - change (print (JObj l)) with (String "{" (join "," (map (fun '(k, x) => print_string k +:+ ":" +:+ print x) l) +:+ "}")).
    simpl in Hf, Hok. rewrite string_app_cons, <- string_app_assoc, string_app_cons, string_app_nil_l.
    cbn [parse_value skip_ws]. simpl. destruct l as [|[k x] l]; [done|].
    assert (starts 125 (skip_ws (join "," (map (fun '(k, x) => print_string k +:+ ":" +:+ print x) ((k, x) :: l)) +:+ String "}" rest)) = None) as ->.
    { cbn [map]. unfold print_string at 1. by destruct (map _ l). }
    rewrite parse_members_print by (done || lia). done.
Qed.

Lemma join_len l : (list_sum (map slen l) + length l <= S (slen (join "," l)))%nat.
Proof.
  induction l as [|x l IH]; [simpl; lia|]. destruct l as [|y l]; [simpl; lia|].
  rewrite join_cons, !slen_app. cbn [map length] in *. set (m := slen y :: map slen l) in *.
  change (list_sum (slen x :: m)) with (slen x + list_sum m)%nat. change (slen ",") with 1%nat. lia.
Qed.

Lemma need_len v : json_ok v = true -> (need v <= slen (print v))%nat.
Proof.
  induction v as [| [] |l|s|l IH|l IH] using json_nested_ind; intros Hok; simpl; try lia.
  - destruct (num_ok_head l Hok) as (c & l' & -> & _). simpl. lia.
  - rewrite !slen_app. simpl. simpl in Hok. pose proof (join_len (map print l)) as Hj. rewrite length_map in Hj.
    cut (list_sum (map (fun x => S (need x)) l) <= list_sum (map slen (map print l)) + length l)%nat; [lia|].
    clear Hj. induction IH as [|x l Hx _ IH]; simpl; [lia|]. simpl in Hok. apply andb_true_iff in Hok as [H1 H2].
    specialize (Hx H1). specialize (IH H2). lia.
  - rewrite !slen_app. simpl. simpl in Hok. set (pm := map (fun '(k, x) => print_string k +:+ _) l). pose proof (join_len pm) as Hj.
    unfold pm in Hj at 2. rewrite length_map in Hj.
    cut (list_sum (map (fun '(_, x) => S (need x)) l) <= list_sum (map slen pm) + length l)%nat; [lia|].
    unfold pm. clear Hj pm. induction IH as [|[k x] l Hx _ IH]; simpl; [lia|]. simpl in Hok, Hx.
    apply andb_true_iff in Hok as [[_ H1]%andb_true_iff H2]. specialize (Hx H1). specialize (IH H2).
    rewrite !slen_app. lia.
Qed.

Lemma parse_print v : json_ok v = true -> parse (print v) = Some v.
Proof.
  intros Hok. unfold parse. pose proof (need_len v Hok).
  pose proof (parse_value_print v (S (slen (print v))) EmptyString ltac:(lia) Hok I) as Hp.
  rewrite string_app_nil_r in Hp. by rewrite Hp.
Qed.
