(* ===== verification/GoEncoding.v ===== *)
(** More of Go's standard library, as far as the compute providers use it:
    [encoding/base64], maps in [encoding/json], [sort.Strings] over a map's
    keys, [strconv.Atoi], [net.ParseIP] on IPv4 text and [hash/fnv]. *)
From stdpp Require Import base option list strings gmap sorting.
From Stdlib Require Import Ascii ZArith Lia.
From S2P Require Import Prelude GoStrings Json.
Local Open Scope Z_scope.

(** * base64.StdEncoding *)
Definition b64_char (n : Z) : ascii :=
  if n <? 26 then byte_of (65 + n) else if n <? 52 then byte_of (71 + n)
  else if n <? 62 then byte_of (n - 4) else if n =? 62 then byte_of 43 else byte_of 47.
Definition b64_val (c : ascii) : option Z :=
  let v := byte_val c in
  if (65 <=? v) && (v <=? 90) then Some (v - 65)
  else if (97 <=? v) && (v <=? 122) then Some (v - 71)
  else if (48 <=? v) && (v <=? 57) then Some (v + 4)
  else if v =? 43 then Some 62 else if v =? 47 then Some 63 else None.
Definition b64_pad : ascii := byte_of 61.

(** [EncodeToString]: three bytes to four characters, padded at the end. *)
Fixpoint b64_encode (s : string) : string :=
  match s with
  | EmptyString => EmptyString
  | String a EmptyString =>
      let x := byte_val a in
      String (b64_char (x / 4)) (String (b64_char (x mod 4 * 16)) (String b64_pad (String b64_pad EmptyString)))
  | String a (String b EmptyString) =>
      let x := byte_val a in let y := byte_val b in
      String (b64_char (x / 4)) (String (b64_char (x mod 4 * 16 + y / 16)) (String (b64_char (y mod 16 * 4)) (String b64_pad EmptyString)))
  | String a (String b (String c s')) =>
      let x := byte_val a in let y := byte_val b in let z := byte_val c in
      String (b64_char (x / 4)) (String (b64_char (x mod 4 * 16 + y / 16))
        (String (b64_char (y mod 16 * 4 + z / 64)) (String (b64_char (z mod 64)) (b64_encode s'))))
  end.

(** [DecodeString]: line breaks are skipped; groups of four, the last one
    possibly padded. *)
Fixpoint strip_newlines (s : string) : string :=
  match s with
  | EmptyString => EmptyString
  | String c s' => if (byte_val c =? 10) || (byte_val c =? 13) then strip_newlines s' else String c (strip_newlines s')
  end.
Fixpoint b64_groups (s : string) : option string :=
  match s with
  | EmptyString => Some EmptyString
  | String a (String b (String c (String d s'))) =>
      match b64_val a, b64_val b with
      | Some p, Some q =>
          if ascii_eqb c b64_pad then
            if ascii_eqb d b64_pad
            then match s' with EmptyString => Some (String (byte_of (p * 4 + q / 16)) EmptyString) | _ => None end
            else None
          else
            match b64_val c with
            | None => None
            | Some r =>
                if ascii_eqb d b64_pad then
                  match s' with
                  | EmptyString => Some (String (byte_of (p * 4 + q / 16)) (String (byte_of (q mod 16 * 16 + r / 4)) EmptyString))
                  | _ => None
                  end
                else
                  match b64_val d, b64_groups s' with
                  | Some t, Some rest =>
                      Some (String (byte_of (p * 4 + q / 16)) (String (byte_of (q mod 16 * 16 + r / 4))
                             (String (byte_of (r mod 4 * 64 + t)) rest)))
                  | _, _ => None
                  end
            end
      | _, _ => None
      end
  | _ => None
  end.
Definition b64_decode (s : string) : option string := b64_groups (strip_newlines s).

(** * map[string]string *)
Definition key_le (x y : string) : Prop := String.leb x y = true.
#[export] Instance key_le_dec : RelDecision key_le.
Proof. intros x y. unfold key_le. apply _. Defined.

(** [sort.Strings] over the keys. *)
Definition sorted_keys (m : gmap string string) : list string := merge_sort key_le (map_to_list m).*1.

(** [json.Marshal]: members in key order. *)
Definition map_json (m : gmap string string) : json :=
  JObj (map (fun k => (k, JStr (default EmptyString (m !! k)))) (sorted_keys m)).

(** [json.Unmarshal] into a nil map; a member that is not text is an error. *)
Fixpoint store_entries (l : list (string * json)) (m : gmap string string) : result (gmap string string) :=
  match l with
  | [] => Ok m
  | (k, v) :: l' =>
      match v with
      | JStr s => store_entries l' (<[k := s]> m)
      | JNull => store_entries l' (<[k := EmptyString]> m)
      | _ => Err (type_error "string")
      end
  end.
Definition unmarshal_map (s : string) : result (gmap string string) :=
  match parse s with
  | None => Err syntax_error
  | Some JNull => Ok ∅
  | Some (JObj l) => store_entries l ∅
  | Some _ => Err (type_error "map")
  end.

(** * strconv.Atoi *)
Definition Atoi (s : string) : option Z :=
  let '(neg, d) := match s with
                   | String c d => if byte_val c =? 45 then (true, d) else if byte_val c =? 43 then (false, d) else (false, s)
                   | EmptyString => (false, s)
                   end in
  match d, take_digits 0 d with
  | String _ _, (n, EmptyString) =>
      let z := if neg then - n else n in
      if (int64_min <=? z) && (z <=? int64_max) then Some z else None
  | _, _ => None
  end.

(** * net.ParseIP(s).To4(), for dotted text *)
Definition octet (s : string) : option Z :=
  match s with
  | EmptyString => None
  | String c s' =>
      if negb (is_digit c) then None
      else if (byte_val c =? 48) && negb (bool_decide (s' = EmptyString)) then None    (* no leading zeros *)
      else match take_digits 0 s with
           | (n, EmptyString) => if n <=? 255 then Some n else None
           | _ => None
           end
  end.
Definition ParseIP4 (s : string) : option (Z * Z * Z * Z) :=
  match split "." s with
  | [a; b; c; d] => a ← octet a; b ← octet b; c ← octet c; d ← octet d; Some (a, b, c, d)
  | _ => None
  end.

(** * hash/fnv.New32a *)
Fixpoint fnv32a (h : Z) (s : string) : Z :=
  match s with
  | EmptyString => h
  | String c s' => fnv32a (Z.lxor h (byte_val c) * 16777619 mod 2 ^ 32) s'
  end.
Definition fnv_sum32 (s : string) : Z := fnv32a 2166136261 s.
(** [fmt.Sprintf("%02x", v)] and [%04x] of a value that fits. *)
Definition hex4_text (v : Z) : string := hex_byte (v / 256) +:+ hex_byte (v mod 256).

(** * Lemmas: base64 *)
Lemma b64_val_char n : 0 <= n < 64 -> b64_val (b64_char n) = Some n.
Proof.
  intros Hn.
  assert (forallb (fun k => bool_decide (b64_val (b64_char (Z.of_nat k)) = Some (Z.of_nat k))) (seq 0 64) = true) as Hall
    by (vm_compute; reflexivity).
  rewrite forallb_forall in Hall. specialize (Hall (Z.to_nat n)). rewrite Z2Nat.id in Hall by lia.
  assert (In (Z.to_nat n) (seq 0 64)) as Hin by (apply in_seq; lia). apply Hall in Hin.
  by apply bool_decide_eq_true_1 in Hin.
Qed.

Lemma b64_char_plain n : 0 <= n < 64 ->
  let c := b64_char n in ascii_eqb c b64_pad = false /\ (byte_val c =? 10) || (byte_val c =? 13) = false /\ ascii_eqb c " " = false.
Proof.
  intros Hn.
  assert (forallb (fun k => let c := b64_char (Z.of_nat k) in
    negb (ascii_eqb c b64_pad) && negb ((byte_val c =? 10) || (byte_val c =? 13)) && negb (ascii_eqb c " ")) (seq 0 64) = true) as Hall
    by (vm_compute; reflexivity).
  rewrite forallb_forall in Hall. specialize (Hall (Z.to_nat n)). rewrite Z2Nat.id in Hall by lia.
  assert (In (Z.to_nat n) (seq 0 64)) as Hin by (apply in_seq; lia). apply Hall in Hin.
  apply andb_true_iff in Hin as [[H1 H2]%andb_true_iff H3]. apply negb_true_iff in H1, H2, H3. by split_and!.
Qed.

(** Induction by groups of three bytes. *)
Lemma string_ind3 (P : string -> Prop) :
  P EmptyString -> (forall a, P (String a EmptyString)) -> (forall a b, P (String a (String b EmptyString))) ->
  (forall a b c s, P s -> P (String a (String b (String c s)))) -> forall s, P s.
Proof.
  intros H0 H1 H2 H3. fix IH 1. intros s. destruct s as [|a [|b [|c s]]]; [apply H0|apply H1|apply H2|]. apply H3, IH.
Qed.

Lemma b64_ranges x y z :
  0 <= x < 256 -> 0 <= y < 256 -> 0 <= z < 256 ->
  0 <= x / 4 < 64 /\ 0 <= x mod 4 * 16 < 64 /\ 0 <= x mod 4 * 16 + y / 16 < 64 /\ 0 <= y mod 16 * 4 < 64 /\
  0 <= y mod 16 * 4 + z / 64 < 64 /\ 0 <= z mod 64 < 64.
Proof.
  intros Hx Hy Hz. pose proof (Z.div_mod x 4). pose proof (Z.div_mod y 16). pose proof (Z.div_mod z 64).
  pose proof (Z.mod_pos_bound x 4). pose proof (Z.mod_pos_bound y 16). pose proof (Z.mod_pos_bound z 64). lia.
Qed.

Lemma b64_join x y z :
  0 <= x < 256 -> 0 <= y < 256 -> 0 <= z < 256 ->
  x / 4 * 4 + (x mod 4 * 16) / 16 = x /\ x / 4 * 4 + (x mod 4 * 16 + y / 16) / 16 = x /\
  (x mod 4 * 16 + y / 16) mod 16 * 16 + (y mod 16 * 4) / 4 = y /\
  (x mod 4 * 16 + y / 16) mod 16 * 16 + (y mod 16 * 4 + z / 64) / 4 = y /\
  (y mod 16 * 4 + z / 64) mod 4 * 64 + z mod 64 = z.
Proof.
  intros Hx Hy Hz. pose proof (Z.div_mod x 4). pose proof (Z.div_mod y 16). pose proof (Z.div_mod z 64).
  pose proof (Z.mod_pos_bound x 4). pose proof (Z.mod_pos_bound y 16). pose proof (Z.mod_pos_bound z 64).
  set (p := x mod 4) in *. set (q := y mod 16) in *. set (r := z mod 64) in *.
  set (x' := x / 4) in *. set (y' := y / 16) in *. set (z' := z / 64) in *.
  assert (0 <= y' < 16) by lia. assert (0 <= z' < 4) by lia.
  assert ((p * 16) / 16 = p) as -> by (apply Z.div_mul; lia).
  assert ((p * 16 + y') / 16 = p) as -> by (rewrite Z.div_add_l by lia; rewrite Z.div_small; lia).
  assert ((p * 16 + y') mod 16 = y') as -> by (rewrite Z.add_comm, Z.mod_add by lia; apply Z.mod_small; lia).
  assert ((q * 4) / 4 = q) as -> by (apply Z.div_mul; lia).
  assert ((q * 4 + z') / 4 = q) as -> by (rewrite Z.div_add_l by lia; rewrite Z.div_small; lia).
  assert ((q * 4 + z') mod 4 = z') as -> by (rewrite Z.add_comm, Z.mod_add by lia; apply Z.mod_small; lia). lia.
Qed.

Lemma b64_encode_plain s : strip_newlines (b64_encode s) = b64_encode s /\ contains_byte " " (b64_encode s) = false.
Proof.
  induction s as [|a|a b|a b c s [IH1 IH2]] using string_ind3; cbn [b64_encode]; [done|..];
    pose proof (byte_val_range a); try pose proof (byte_val_range b); try pose proof (byte_val_range c);
    destruct (b64_ranges (byte_val a) (byte_val a) (byte_val a)) as (R1 & R2 & _); try done;
    try destruct (b64_ranges (byte_val a) (byte_val b) (byte_val b)) as (_ & _ & R3 & R4 & _); try done;
    try destruct (b64_ranges (byte_val a) (byte_val b) (byte_val c)) as (_ & _ & _ & _ & R5 & R6); try done;
    cbn [strip_newlines contains_byte]; cbn zeta;
    repeat match goal with R : 0 <= ?n < 64 |- _ => destruct (b64_char_plain n R) as (_ & ? & ?); clear R end;
    repeat match goal with H : _ || _ = false |- _ => rewrite H; clear H | H : ascii_eqb _ " " = false |- _ => rewrite H; clear H end;
    rewrite ?IH1, ?IH2; done.
Qed.

(** Decoding undoes encoding. *)
Lemma b64_roundtrip s : b64_decode (b64_encode s) = Some s.
Proof.
  unfold b64_decode. rewrite (proj1 (b64_encode_plain s)).
  induction s as [|a|a b|a b c s IH] using string_ind3; cbn [b64_encode]; [done|..];
    pose proof (byte_val_range a) as Ha; try pose proof (byte_val_range b) as Hb; try pose proof (byte_val_range c) as Hc;
    cbn zeta; cbn [b64_groups].
  - destruct (b64_ranges _ _ _ Ha Ha Ha) as (R1 & R2 & _). destruct (b64_join _ _ _ Ha Ha Ha) as (J1 & _).
    rewrite !b64_val_char by done. change (ascii_eqb b64_pad b64_pad) with true. cbv iota. by rewrite J1, byte_of_val.
  - destruct (b64_ranges _ _ _ Ha Hb Hb) as (R1 & _ & R3 & R4 & _). destruct (b64_join _ _ _ Ha Hb Hb) as (_ & J2 & J3 & _).
    rewrite (b64_val_char _ R1), (b64_val_char _ R3), (b64_val_char _ R4), (proj1 (b64_char_plain _ R4)).
    change (ascii_eqb b64_pad b64_pad) with true. cbv iota. by rewrite J2, J3, !byte_of_val.
  - destruct (b64_ranges _ _ _ Ha Hb Hc) as (R1 & _ & R3 & _ & R5 & R6). destruct (b64_join _ _ _ Ha Hb Hc) as (_ & J2 & _ & J4 & J5).
    rewrite (b64_val_char _ R1), (b64_val_char _ R3), (b64_val_char _ R5), (b64_val_char _ R6),
      (proj1 (b64_char_plain _ R5)), (proj1 (b64_char_plain _ R6)), IH. cbv iota. by rewrite J2, J4, J5, !byte_of_val.
Qed.

(** * Lemmas: maps *)
Lemma sorted_keys_perm m : sorted_keys m ≡ₚ (map_to_list m).*1.
Proof. apply merge_sort_Permutation. Qed.

Lemma elem_of_sorted_keys m k : k ∈ sorted_keys m <-> is_Some (m !! k).
Proof.
  rewrite (sorted_keys_perm m), list_elem_of_fmap. split.
  - intros ([k' v] & -> & Hv%elem_of_map_to_list). by exists v.
  - intros (v & Hv). exists (k, v). split; [done|]. by apply elem_of_map_to_list.
Qed.

Lemma NoDup_sorted_keys m : NoDup (sorted_keys m).
Proof. rewrite (sorted_keys_perm m). apply NoDup_fst_map_to_list. Qed.

Definition text_map (m : gmap string string) : Prop := map_Forall (fun k v => utf8 k = true /\ utf8 v = true) m.
Lemma text_map_check m : forallb (fun kv => utf8 kv.1 && utf8 kv.2) (map_to_list m) = true -> text_map m.
Proof.
  intros Hall k v Hkv. rewrite forallb_forall in Hall. apply andb_true_iff, (Hall (k, v)), list_elem_of_In.
  by apply elem_of_map_to_list.
Qed.

Lemma store_entries_strings ks (f : string -> string) m0 :
  store_entries (map (fun k => (k, JStr (f k))) ks) m0 = Ok (foldl (fun m k => <[k := f k]> m) m0 ks).
Proof. revert m0. induction ks as [|k ks IH]; intros m0; [done|]. apply IH. Qed.

Lemma foldl_insert_lookup ks (f : string -> string) (m0 : gmap string string) k :
  foldl (fun m k => <[k := f k]> m) m0 ks !! k = if bool_decide (k ∈ ks) then Some (f k) else m0 !! k.
Proof.
  revert m0. induction ks as [|k' ks IH]; intros m0; [done|]. simpl. rewrite IH.
  destruct (decide (k ∈ ks)) as [Hin|Hn].
  - rewrite !bool_decide_eq_true_2; [done|by right|done].
  - rewrite (bool_decide_eq_false_2 _ Hn). destruct (decide (k = k')) as [->|Hne].
    + rewrite bool_decide_eq_true_2 by by left. apply lookup_insert_eq.
    + rewrite bool_decide_eq_false_2 by by intros [->|?]%elem_of_cons. by rewrite lookup_insert_ne.
Qed.

(** A map of UTF-8 text survives JSON. *)
Lemma map_json_roundtrip m : text_map m -> unmarshal_map (print (map_json m)) = Ok m.
Proof.
  intros Hm. unfold unmarshal_map. rewrite parse_print.
  2:{ unfold map_json. simpl. apply forallb_forall. intros p Hp. apply in_map_iff in Hp as (k & <- & Hk).
      apply list_elem_of_In, elem_of_sorted_keys in Hk as (v & Hv). destruct (Hm k v Hv) as [Hku Hvu]. rewrite Hv. simpl.
      by rewrite Hku, Hvu. }
  unfold map_json. rewrite store_entries_strings. f_equal. apply map_eq. intros k. rewrite foldl_insert_lookup.
  case_bool_decide as Hk.
  - apply elem_of_sorted_keys in Hk as (v & Hv). by rewrite Hv.
  - rewrite lookup_empty. symmetry. apply eq_None_not_Some. intros Hs. by apply Hk, elem_of_sorted_keys.
Qed.
