(* ===== verification/Box.v ===== *)
(** The box itself ([internal/core/box]): the [Box] struct, the phase machine
    ([phase.go]), resource flavors ([flavor.go]), the lifetime evaluator
    ([lifetime.go]), idle detection ([idle.go]) and backend selection
    ([backend.go]).  Everything here is pure, as in the source. *)
From stdpp Require Import base option list strings relations.
From Stdlib Require Import ZArith Lia Floats.SpecFloat.
From S2P Require Import Prelude GoStrings GoTime.
Local Open Scope Z_scope.

(** * Phases

    [Phase] is a Go string with seven named constants; a row read back from a
    database may hold any other text, which [PhaseOther] carries. *)
Inductive Phase : Type :=
| PhasePending | PhaseProvisioning | PhaseRunning | PhaseSuspended
| PhaseStopped | PhaseFailed | PhaseDestroying
| PhaseOther (s : string).

#[export] Instance Phase_eq_dec : EqDecision Phase.
Proof. solve_decision. Defined.

Definition phase_string (p : Phase) : string :=
  match p with
  | PhasePending => "Pending" | PhaseProvisioning => "Provisioning"
  | PhaseRunning => "Running" | PhaseSuspended => "Suspended"
  | PhaseStopped => "Stopped" | PhaseFailed => "Failed"
  | PhaseDestroying => "Destroying" | PhaseOther s => s
  end.

(** [Phase(s)]: the conversion from text. *)
Definition phase_of_string (s : string) : Phase :=
  if bool_decide (s = "Pending"%string) then PhasePending
  else if bool_decide (s = "Provisioning"%string) then PhaseProvisioning
  else if bool_decide (s = "Running"%string) then PhaseRunning
  else if bool_decide (s = "Suspended"%string) then PhaseSuspended
  else if bool_decide (s = "Stopped"%string) then PhaseStopped
  else if bool_decide (s = "Failed"%string) then PhaseFailed
  else if bool_decide (s = "Destroying"%string) then PhaseDestroying
  else PhaseOther s.

(** The map [transitions]; a missing key reads as false. *)
Definition transitions (from to : Phase) : bool :=
  match from, to with
  | PhasePending, (PhaseProvisioning | PhaseFailed | PhaseDestroying) => true
  | PhaseProvisioning, (PhaseRunning | PhaseFailed | PhaseDestroying) => true
  | PhaseRunning, (PhaseProvisioning | PhaseSuspended | PhaseStopped | PhaseFailed | PhaseDestroying) => true
  | PhaseSuspended, (PhaseRunning | PhaseProvisioning | PhaseFailed | PhaseDestroying) => true
  | PhaseStopped, (PhaseProvisioning | PhaseDestroying) => true
  | PhaseFailed, (PhaseProvisioning | PhaseDestroying) => true
  | _, _ => false
  end.

Definition CanTransition (from to : Phase) : bool :=
  if bool_decide (from = to) then true else transitions from to.

(** * The box *)
Record Box : Type := mkBox {
  b_ID : string;
  b_TenantID : string;
  b_Owner : string;
  b_Name : string;
  b_ImageRef : string;
  b_Backend : string;
  b_MemMB : Z;
  b_CPUMillis : Z;
  b_Ephemeral : bool;
  b_Grace : duration;
  b_MaxTTL : duration;
  b_Deadline : option time;
  b_AutoSuspend : bool;
  b_KeepAliveUntil : time;
  b_IdleTimeoutOverride : duration;
  b_Phase : Phase;
  b_InstanceRef : string;
  b_IP : string;
  b_BootstrapToken : string;
  b_AgentConnected : bool;
  b_Attached : bool;
  b_Message : string;
  b_Load : float64;
  b_LastActive : time;
  b_AgentState : string;
  b_AgentStatus : string;
  b_CreatedAt : time;
  b_UpdatedAt : time
}.

#[export] Instance set_b_ID : Setter b_ID := fun f x => mkBox (f (x.(b_ID))) x.(b_TenantID) x.(b_Owner) x.(b_Name) x.(b_ImageRef) x.(b_Backend) x.(b_MemMB) x.(b_CPUMillis) x.(b_Ephemeral) x.(b_Grace) x.(b_MaxTTL) x.(b_Deadline) x.(b_AutoSuspend) x.(b_KeepAliveUntil) x.(b_IdleTimeoutOverride) x.(b_Phase) x.(b_InstanceRef) x.(b_IP) x.(b_BootstrapToken) x.(b_AgentConnected) x.(b_Attached) x.(b_Message) x.(b_Load) x.(b_LastActive) x.(b_AgentState) x.(b_AgentStatus) x.(b_CreatedAt) x.(b_UpdatedAt).
#[export] Instance set_b_TenantID : Setter b_TenantID := fun f x => mkBox x.(b_ID) (f (x.(b_TenantID))) x.(b_Owner) x.(b_Name) x.(b_ImageRef) x.(b_Backend) x.(b_MemMB) x.(b_CPUMillis) x.(b_Ephemeral) x.(b_Grace) x.(b_MaxTTL) x.(b_Deadline) x.(b_AutoSuspend) x.(b_KeepAliveUntil) x.(b_IdleTimeoutOverride) x.(b_Phase) x.(b_InstanceRef) x.(b_IP) x.(b_BootstrapToken) x.(b_AgentConnected) x.(b_Attached) x.(b_Message) x.(b_Load) x.(b_LastActive) x.(b_AgentState) x.(b_AgentStatus) x.(b_CreatedAt) x.(b_UpdatedAt).
#[export] Instance set_b_Owner : Setter b_Owner := fun f x => mkBox x.(b_ID) x.(b_TenantID) (f (x.(b_Owner))) x.(b_Name) x.(b_ImageRef) x.(b_Backend) x.(b_MemMB) x.(b_CPUMillis) x.(b_Ephemeral) x.(b_Grace) x.(b_MaxTTL) x.(b_Deadline) x.(b_AutoSuspend) x.(b_KeepAliveUntil) x.(b_IdleTimeoutOverride) x.(b_Phase) x.(b_InstanceRef) x.(b_IP) x.(b_BootstrapToken) x.(b_AgentConnected) x.(b_Attached) x.(b_Message) x.(b_Load) x.(b_LastActive) x.(b_AgentState) x.(b_AgentStatus) x.(b_CreatedAt) x.(b_UpdatedAt).
#[export] Instance set_b_Name : Setter b_Name := fun f x => mkBox x.(b_ID) x.(b_TenantID) x.(b_Owner) (f (x.(b_Name))) x.(b_ImageRef) x.(b_Backend) x.(b_MemMB) x.(b_CPUMillis) x.(b_Ephemeral) x.(b_Grace) x.(b_MaxTTL) x.(b_Deadline) x.(b_AutoSuspend) x.(b_KeepAliveUntil) x.(b_IdleTimeoutOverride) x.(b_Phase) x.(b_InstanceRef) x.(b_IP) x.(b_BootstrapToken) x.(b_AgentConnected) x.(b_Attached) x.(b_Message) x.(b_Load) x.(b_LastActive) x.(b_AgentState) x.(b_AgentStatus) x.(b_CreatedAt) x.(b_UpdatedAt).
#[export] Instance set_b_ImageRef : Setter b_ImageRef := fun f x => mkBox x.(b_ID) x.(b_TenantID) x.(b_Owner) x.(b_Name) (f (x.(b_ImageRef))) x.(b_Backend) x.(b_MemMB) x.(b_CPUMillis) x.(b_Ephemeral) x.(b_Grace) x.(b_MaxTTL) x.(b_Deadline) x.(b_AutoSuspend) x.(b_KeepAliveUntil) x.(b_IdleTimeoutOverride) x.(b_Phase) x.(b_InstanceRef) x.(b_IP) x.(b_BootstrapToken) x.(b_AgentConnected) x.(b_Attached) x.(b_Message) x.(b_Load) x.(b_LastActive) x.(b_AgentState) x.(b_AgentStatus) x.(b_CreatedAt) x.(b_UpdatedAt).
#[export] Instance set_b_Backend : Setter b_Backend := fun f x => mkBox x.(b_ID) x.(b_TenantID) x.(b_Owner) x.(b_Name) x.(b_ImageRef) (f (x.(b_Backend))) x.(b_MemMB) x.(b_CPUMillis) x.(b_Ephemeral) x.(b_Grace) x.(b_MaxTTL) x.(b_Deadline) x.(b_AutoSuspend) x.(b_KeepAliveUntil) x.(b_IdleTimeoutOverride) x.(b_Phase) x.(b_InstanceRef) x.(b_IP) x.(b_BootstrapToken) x.(b_AgentConnected) x.(b_Attached) x.(b_Message) x.(b_Load) x.(b_LastActive) x.(b_AgentState) x.(b_AgentStatus) x.(b_CreatedAt) x.(b_UpdatedAt).
#[export] Instance set_b_MemMB : Setter b_MemMB := fun f x => mkBox x.(b_ID) x.(b_TenantID) x.(b_Owner) x.(b_Name) x.(b_ImageRef) x.(b_Backend) (f (x.(b_MemMB))) x.(b_CPUMillis) x.(b_Ephemeral) x.(b_Grace) x.(b_MaxTTL) x.(b_Deadline) x.(b_AutoSuspend) x.(b_KeepAliveUntil) x.(b_IdleTimeoutOverride) x.(b_Phase) x.(b_InstanceRef) x.(b_IP) x.(b_BootstrapToken) x.(b_AgentConnected) x.(b_Attached) x.(b_Message) x.(b_Load) x.(b_LastActive) x.(b_AgentState) x.(b_AgentStatus) x.(b_CreatedAt) x.(b_UpdatedAt).
#[export] Instance set_b_CPUMillis : Setter b_CPUMillis := fun f x => mkBox x.(b_ID) x.(b_TenantID) x.(b_Owner) x.(b_Name) x.(b_ImageRef) x.(b_Backend) x.(b_MemMB) (f (x.(b_CPUMillis))) x.(b_Ephemeral) x.(b_Grace) x.(b_MaxTTL) x.(b_Deadline) x.(b_AutoSuspend) x.(b_KeepAliveUntil) x.(b_IdleTimeoutOverride) x.(b_Phase) x.(b_InstanceRef) x.(b_IP) x.(b_BootstrapToken) x.(b_AgentConnected) x.(b_Attached) x.(b_Message) x.(b_Load) x.(b_LastActive) x.(b_AgentState) x.(b_AgentStatus) x.(b_CreatedAt) x.(b_UpdatedAt).
#[export] Instance set_b_Ephemeral : Setter b_Ephemeral := fun f x => mkBox x.(b_ID) x.(b_TenantID) x.(b_Owner) x.(b_Name) x.(b_ImageRef) x.(b_Backend) x.(b_MemMB) x.(b_CPUMillis) (f (x.(b_Ephemeral))) x.(b_Grace) x.(b_MaxTTL) x.(b_Deadline) x.(b_AutoSuspend) x.(b_KeepAliveUntil) x.(b_IdleTimeoutOverride) x.(b_Phase) x.(b_InstanceRef) x.(b_IP) x.(b_BootstrapToken) x.(b_AgentConnected) x.(b_Attached) x.(b_Message) x.(b_Load) x.(b_LastActive) x.(b_AgentState) x.(b_AgentStatus) x.(b_CreatedAt) x.(b_UpdatedAt).
#[export] Instance set_b_Grace : Setter b_Grace := fun f x => mkBox x.(b_ID) x.(b_TenantID) x.(b_Owner) x.(b_Name) x.(b_ImageRef) x.(b_Backend) x.(b_MemMB) x.(b_CPUMillis) x.(b_Ephemeral) (f (x.(b_Grace))) x.(b_MaxTTL) x.(b_Deadline) x.(b_AutoSuspend) x.(b_KeepAliveUntil) x.(b_IdleTimeoutOverride) x.(b_Phase) x.(b_InstanceRef) x.(b_IP) x.(b_BootstrapToken) x.(b_AgentConnected) x.(b_Attached) x.(b_Message) x.(b_Load) x.(b_LastActive) x.(b_AgentState) x.(b_AgentStatus) x.(b_CreatedAt) x.(b_UpdatedAt).
#[export] Instance set_b_MaxTTL : Setter b_MaxTTL := fun f x => mkBox x.(b_ID) x.(b_TenantID) x.(b_Owner) x.(b_Name) x.(b_ImageRef) x.(b_Backend) x.(b_MemMB) x.(b_CPUMillis) x.(b_Ephemeral) x.(b_Grace) (f (x.(b_MaxTTL))) x.(b_Deadline) x.(b_AutoSuspend) x.(b_KeepAliveUntil) x.(b_IdleTimeoutOverride) x.(b_Phase) x.(b_InstanceRef) x.(b_IP) x.(b_BootstrapToken) x.(b_AgentConnected) x.(b_Attached) x.(b_Message) x.(b_Load) x.(b_LastActive) x.(b_AgentState) x.(b_AgentStatus) x.(b_CreatedAt) x.(b_UpdatedAt).
#[export] Instance set_b_Deadline : Setter b_Deadline := fun f x => mkBox x.(b_ID) x.(b_TenantID) x.(b_Owner) x.(b_Name) x.(b_ImageRef) x.(b_Backend) x.(b_MemMB) x.(b_CPUMillis) x.(b_Ephemeral) x.(b_Grace) x.(b_MaxTTL) (f (x.(b_Deadline))) x.(b_AutoSuspend) x.(b_KeepAliveUntil) x.(b_IdleTimeoutOverride) x.(b_Phase) x.(b_InstanceRef) x.(b_IP) x.(b_BootstrapToken) x.(b_AgentConnected) x.(b_Attached) x.(b_Message) x.(b_Load) x.(b_LastActive) x.(b_AgentState) x.(b_AgentStatus) x.(b_CreatedAt) x.(b_UpdatedAt).
#[export] Instance set_b_AutoSuspend : Setter b_AutoSuspend := fun f x => mkBox x.(b_ID) x.(b_TenantID) x.(b_Owner) x.(b_Name) x.(b_ImageRef) x.(b_Backend) x.(b_MemMB) x.(b_CPUMillis) x.(b_Ephemeral) x.(b_Grace) x.(b_MaxTTL) x.(b_Deadline) (f (x.(b_AutoSuspend))) x.(b_KeepAliveUntil) x.(b_IdleTimeoutOverride) x.(b_Phase) x.(b_InstanceRef) x.(b_IP) x.(b_BootstrapToken) x.(b_AgentConnected) x.(b_Attached) x.(b_Message) x.(b_Load) x.(b_LastActive) x.(b_AgentState) x.(b_AgentStatus) x.(b_CreatedAt) x.(b_UpdatedAt).
#[export] Instance set_b_KeepAliveUntil : Setter b_KeepAliveUntil := fun f x => mkBox x.(b_ID) x.(b_TenantID) x.(b_Owner) x.(b_Name) x.(b_ImageRef) x.(b_Backend) x.(b_MemMB) x.(b_CPUMillis) x.(b_Ephemeral) x.(b_Grace) x.(b_MaxTTL) x.(b_Deadline) x.(b_AutoSuspend) (f (x.(b_KeepAliveUntil))) x.(b_IdleTimeoutOverride) x.(b_Phase) x.(b_InstanceRef) x.(b_IP) x.(b_BootstrapToken) x.(b_AgentConnected) x.(b_Attached) x.(b_Message) x.(b_Load) x.(b_LastActive) x.(b_AgentState) x.(b_AgentStatus) x.(b_CreatedAt) x.(b_UpdatedAt).
#[export] Instance set_b_IdleTimeoutOverride : Setter b_IdleTimeoutOverride := fun f x => mkBox x.(b_ID) x.(b_TenantID) x.(b_Owner) x.(b_Name) x.(b_ImageRef) x.(b_Backend) x.(b_MemMB) x.(b_CPUMillis) x.(b_Ephemeral) x.(b_Grace) x.(b_MaxTTL) x.(b_Deadline) x.(b_AutoSuspend) x.(b_KeepAliveUntil) (f (x.(b_IdleTimeoutOverride))) x.(b_Phase) x.(b_InstanceRef) x.(b_IP) x.(b_BootstrapToken) x.(b_AgentConnected) x.(b_Attached) x.(b_Message) x.(b_Load) x.(b_LastActive) x.(b_AgentState) x.(b_AgentStatus) x.(b_CreatedAt) x.(b_UpdatedAt).
#[export] Instance set_b_Phase : Setter b_Phase := fun f x => mkBox x.(b_ID) x.(b_TenantID) x.(b_Owner) x.(b_Name) x.(b_ImageRef) x.(b_Backend) x.(b_MemMB) x.(b_CPUMillis) x.(b_Ephemeral) x.(b_Grace) x.(b_MaxTTL) x.(b_Deadline) x.(b_AutoSuspend) x.(b_KeepAliveUntil) x.(b_IdleTimeoutOverride) (f (x.(b_Phase))) x.(b_InstanceRef) x.(b_IP) x.(b_BootstrapToken) x.(b_AgentConnected) x.(b_Attached) x.(b_Message) x.(b_Load) x.(b_LastActive) x.(b_AgentState) x.(b_AgentStatus) x.(b_CreatedAt) x.(b_UpdatedAt).
#[export] Instance set_b_InstanceRef : Setter b_InstanceRef := fun f x => mkBox x.(b_ID) x.(b_TenantID) x.(b_Owner) x.(b_Name) x.(b_ImageRef) x.(b_Backend) x.(b_MemMB) x.(b_CPUMillis) x.(b_Ephemeral) x.(b_Grace) x.(b_MaxTTL) x.(b_Deadline) x.(b_AutoSuspend) x.(b_KeepAliveUntil) x.(b_IdleTimeoutOverride) x.(b_Phase) (f (x.(b_InstanceRef))) x.(b_IP) x.(b_BootstrapToken) x.(b_AgentConnected) x.(b_Attached) x.(b_Message) x.(b_Load) x.(b_LastActive) x.(b_AgentState) x.(b_AgentStatus) x.(b_CreatedAt) x.(b_UpdatedAt).
#[export] Instance set_b_IP : Setter b_IP := fun f x => mkBox x.(b_ID) x.(b_TenantID) x.(b_Owner) x.(b_Name) x.(b_ImageRef) x.(b_Backend) x.(b_MemMB) x.(b_CPUMillis) x.(b_Ephemeral) x.(b_Grace) x.(b_MaxTTL) x.(b_Deadline) x.(b_AutoSuspend) x.(b_KeepAliveUntil) x.(b_IdleTimeoutOverride) x.(b_Phase) x.(b_InstanceRef) (f (x.(b_IP))) x.(b_BootstrapToken) x.(b_AgentConnected) x.(b_Attached) x.(b_Message) x.(b_Load) x.(b_LastActive) x.(b_AgentState) x.(b_AgentStatus) x.(b_CreatedAt) x.(b_UpdatedAt).
#[export] Instance set_b_BootstrapToken : Setter b_BootstrapToken := fun f x => mkBox x.(b_ID) x.(b_TenantID) x.(b_Owner) x.(b_Name) x.(b_ImageRef) x.(b_Backend) x.(b_MemMB) x.(b_CPUMillis) x.(b_Ephemeral) x.(b_Grace) x.(b_MaxTTL) x.(b_Deadline) x.(b_AutoSuspend) x.(b_KeepAliveUntil) x.(b_IdleTimeoutOverride) x.(b_Phase) x.(b_InstanceRef) x.(b_IP) (f (x.(b_BootstrapToken))) x.(b_AgentConnected) x.(b_Attached) x.(b_Message) x.(b_Load) x.(b_LastActive) x.(b_AgentState) x.(b_AgentStatus) x.(b_CreatedAt) x.(b_UpdatedAt).
#[export] Instance set_b_AgentConnected : Setter b_AgentConnected := fun f x => mkBox x.(b_ID) x.(b_TenantID) x.(b_Owner) x.(b_Name) x.(b_ImageRef) x.(b_Backend) x.(b_MemMB) x.(b_CPUMillis) x.(b_Ephemeral) x.(b_Grace) x.(b_MaxTTL) x.(b_Deadline) x.(b_AutoSuspend) x.(b_KeepAliveUntil) x.(b_IdleTimeoutOverride) x.(b_Phase) x.(b_InstanceRef) x.(b_IP) x.(b_BootstrapToken) (f (x.(b_AgentConnected))) x.(b_Attached) x.(b_Message) x.(b_Load) x.(b_LastActive) x.(b_AgentState) x.(b_AgentStatus) x.(b_CreatedAt) x.(b_UpdatedAt).
#[export] Instance set_b_Attached : Setter b_Attached := fun f x => mkBox x.(b_ID) x.(b_TenantID) x.(b_Owner) x.(b_Name) x.(b_ImageRef) x.(b_Backend) x.(b_MemMB) x.(b_CPUMillis) x.(b_Ephemeral) x.(b_Grace) x.(b_MaxTTL) x.(b_Deadline) x.(b_AutoSuspend) x.(b_KeepAliveUntil) x.(b_IdleTimeoutOverride) x.(b_Phase) x.(b_InstanceRef) x.(b_IP) x.(b_BootstrapToken) x.(b_AgentConnected) (f (x.(b_Attached))) x.(b_Message) x.(b_Load) x.(b_LastActive) x.(b_AgentState) x.(b_AgentStatus) x.(b_CreatedAt) x.(b_UpdatedAt).
#[export] Instance set_b_Message : Setter b_Message := fun f x => mkBox x.(b_ID) x.(b_TenantID) x.(b_Owner) x.(b_Name) x.(b_ImageRef) x.(b_Backend) x.(b_MemMB) x.(b_CPUMillis) x.(b_Ephemeral) x.(b_Grace) x.(b_MaxTTL) x.(b_Deadline) x.(b_AutoSuspend) x.(b_KeepAliveUntil) x.(b_IdleTimeoutOverride) x.(b_Phase) x.(b_InstanceRef) x.(b_IP) x.(b_BootstrapToken) x.(b_AgentConnected) x.(b_Attached) (f (x.(b_Message))) x.(b_Load) x.(b_LastActive) x.(b_AgentState) x.(b_AgentStatus) x.(b_CreatedAt) x.(b_UpdatedAt).
#[export] Instance set_b_Load : Setter b_Load := fun f x => mkBox x.(b_ID) x.(b_TenantID) x.(b_Owner) x.(b_Name) x.(b_ImageRef) x.(b_Backend) x.(b_MemMB) x.(b_CPUMillis) x.(b_Ephemeral) x.(b_Grace) x.(b_MaxTTL) x.(b_Deadline) x.(b_AutoSuspend) x.(b_KeepAliveUntil) x.(b_IdleTimeoutOverride) x.(b_Phase) x.(b_InstanceRef) x.(b_IP) x.(b_BootstrapToken) x.(b_AgentConnected) x.(b_Attached) x.(b_Message) (f (x.(b_Load))) x.(b_LastActive) x.(b_AgentState) x.(b_AgentStatus) x.(b_CreatedAt) x.(b_UpdatedAt).
#[export] Instance set_b_LastActive : Setter b_LastActive := fun f x => mkBox x.(b_ID) x.(b_TenantID) x.(b_Owner) x.(b_Name) x.(b_ImageRef) x.(b_Backend) x.(b_MemMB) x.(b_CPUMillis) x.(b_Ephemeral) x.(b_Grace) x.(b_MaxTTL) x.(b_Deadline) x.(b_AutoSuspend) x.(b_KeepAliveUntil) x.(b_IdleTimeoutOverride) x.(b_Phase) x.(b_InstanceRef) x.(b_IP) x.(b_BootstrapToken) x.(b_AgentConnected) x.(b_Attached) x.(b_Message) x.(b_Load) (f (x.(b_LastActive))) x.(b_AgentState) x.(b_AgentStatus) x.(b_CreatedAt) x.(b_UpdatedAt).
#[export] Instance set_b_AgentState : Setter b_AgentState := fun f x => mkBox x.(b_ID) x.(b_TenantID) x.(b_Owner) x.(b_Name) x.(b_ImageRef) x.(b_Backend) x.(b_MemMB) x.(b_CPUMillis) x.(b_Ephemeral) x.(b_Grace) x.(b_MaxTTL) x.(b_Deadline) x.(b_AutoSuspend) x.(b_KeepAliveUntil) x.(b_IdleTimeoutOverride) x.(b_Phase) x.(b_InstanceRef) x.(b_IP) x.(b_BootstrapToken) x.(b_AgentConnected) x.(b_Attached) x.(b_Message) x.(b_Load) x.(b_LastActive) (f (x.(b_AgentState))) x.(b_AgentStatus) x.(b_CreatedAt) x.(b_UpdatedAt).
#[export] Instance set_b_AgentStatus : Setter b_AgentStatus := fun f x => mkBox x.(b_ID) x.(b_TenantID) x.(b_Owner) x.(b_Name) x.(b_ImageRef) x.(b_Backend) x.(b_MemMB) x.(b_CPUMillis) x.(b_Ephemeral) x.(b_Grace) x.(b_MaxTTL) x.(b_Deadline) x.(b_AutoSuspend) x.(b_KeepAliveUntil) x.(b_IdleTimeoutOverride) x.(b_Phase) x.(b_InstanceRef) x.(b_IP) x.(b_BootstrapToken) x.(b_AgentConnected) x.(b_Attached) x.(b_Message) x.(b_Load) x.(b_LastActive) x.(b_AgentState) (f (x.(b_AgentStatus))) x.(b_CreatedAt) x.(b_UpdatedAt).
#[export] Instance set_b_CreatedAt : Setter b_CreatedAt := fun f x => mkBox x.(b_ID) x.(b_TenantID) x.(b_Owner) x.(b_Name) x.(b_ImageRef) x.(b_Backend) x.(b_MemMB) x.(b_CPUMillis) x.(b_Ephemeral) x.(b_Grace) x.(b_MaxTTL) x.(b_Deadline) x.(b_AutoSuspend) x.(b_KeepAliveUntil) x.(b_IdleTimeoutOverride) x.(b_Phase) x.(b_InstanceRef) x.(b_IP) x.(b_BootstrapToken) x.(b_AgentConnected) x.(b_Attached) x.(b_Message) x.(b_Load) x.(b_LastActive) x.(b_AgentState) x.(b_AgentStatus) (f (x.(b_CreatedAt))) x.(b_UpdatedAt).
#[export] Instance set_b_UpdatedAt : Setter b_UpdatedAt := fun f x => mkBox x.(b_ID) x.(b_TenantID) x.(b_Owner) x.(b_Name) x.(b_ImageRef) x.(b_Backend) x.(b_MemMB) x.(b_CPUMillis) x.(b_Ephemeral) x.(b_Grace) x.(b_MaxTTL) x.(b_Deadline) x.(b_AutoSuspend) x.(b_KeepAliveUntil) x.(b_IdleTimeoutOverride) x.(b_Phase) x.(b_InstanceRef) x.(b_IP) x.(b_BootstrapToken) x.(b_AgentConnected) x.(b_Attached) x.(b_Message) x.(b_Load) x.(b_LastActive) x.(b_AgentState) x.(b_AgentStatus) x.(b_CreatedAt) (f (x.(b_UpdatedAt))).

(** [New]: a pending box; the fresh identifier and the clock are arguments. *)
Definition New (newID : string) (now : time) (tenantID owner name imageRef : string) : Box :=
  mkBox newID tenantID owner name imageRef "" 0 0 false 0 0 None false zero_time 0
    PhasePending "" "" "" false false "" (S754_zero false) zero_time "" "" now now.

(** * Flavors *)
Record Flavor : Type := mkFlavor { fl_CPUMillis : Z; fl_MemMB : Z }.

Definition builtinFlavors : list (string * Flavor) :=
  [ ("small", mkFlavor 1000 1024); ("medium", mkFlavor 2000 2048); ("large", mkFlavor 4000 4096) ]%string.

Definition ResolveFlavor (name : string) : option Flavor :=
  snd <$> find (fun p => bool_decide (p.1 = name)) builtinFlavors.

Definition Apply (b : Box) (f : Flavor) : Box :=
  let b := if 0 <? fl_CPUMillis f then b <| b_CPUMillis := fl_CPUMillis f |> else b in
  if 0 <? fl_MemMB f then b <| b_MemMB := fl_MemMB f |> else b.

(** * Lifetime *)
Record ReapAction : Type := mkReapAction {
  ra_Reap : bool;
  ra_SetDeadline : option time;
  ra_ClearDeadline : bool
}.
Definition NoAction : ReapAction := mkReapAction false None false.

Definition EvalLifetime (b : Box) (now : time) : ReapAction :=
  if negb (b_Ephemeral b) then NoAction
  else if (0 <? b_MaxTTL b) && (b_MaxTTL b <=? Sub now (b_CreatedAt b)) then mkReapAction true None false
  else if b_Attached b then
    match b_Deadline b with
    | Some _ => mkReapAction false None true
    | None => NoAction
    end
  else if b_Grace b <=? 0 then mkReapAction true None false
  else match b_Deadline b with
  | None => mkReapAction false (Some (Add now (b_Grace b))) false
  | Some d => if negb (Before now d) then mkReapAction true None false else NoAction
  end.

(** * Idle detection *)
Record IdleConfig : Type := mkIdleConfig { ic_Timeout : duration; ic_LoadThreshold : float64 }.

#[export] Instance set_ic_Timeout : Setter ic_Timeout :=
  fun f c => mkIdleConfig (f (ic_Timeout c)) (ic_LoadThreshold c).

(** The double nearest 0.2. *)
Definition f64_0_2 : float64 := S754_finite false 7205759403792794 (-55).
Definition DefaultIdle : IdleConfig := mkIdleConfig (15 * Minute) f64_0_2.

Definition RecordHeartbeat (b : Box) (load : float64) (now : time) (cfg : IdleConfig) : Box :=
  let b := b <| b_Load := load |> in
  if b_Attached b || f64_ge load (ic_LoadThreshold cfg) then b <| b_LastActive := now |> else b.

Definition EffectiveIdle (b : Box) (def : IdleConfig) : IdleConfig :=
  if 0 <? b_IdleTimeoutOverride b then def <| ic_Timeout := b_IdleTimeoutOverride b |> else def.

Definition IsIdle (b : Box) (now : time) (cfg : IdleConfig) : bool :=
  if b_Attached b || f64_ge (b_Load b) (ic_LoadThreshold cfg) || IsZero (b_LastActive b) then false
  else ic_Timeout cfg <=? Sub now (b_LastActive b).

(** * Backends *)
Definition ErrNoBackends : error := Sentinel "box" "no compute backends configured".

Definition ResolveBackend (requested : string) (available : list string) (def : string) : result string :=
  let has b := bool_decide (b ∈ available) in
  match available with
  | [] => Err ErrNoBackends
  | a :: rest =>
      if negb (bool_decide (requested = ""%string)) then
        if negb (has requested)
        then Err (Errorf ("backend " +:+ quote requested +:+ " not available (have " +:+ sprint_list available +:+ ")"))
        else Ok requested
      else match rest with
      | [] => Ok a
      | _ =>
          if negb (bool_decide (def = ""%string)) then
            if negb (has def)
            then Err (Errorf ("default backend " +:+ quote def +:+ " not available (have " +:+ sprint_list available +:+ ")"))
            else Ok def
          else Err (Errorf ("multiple backends " +:+ sprint_list available +:+ " and none requested; specify one or set a default"))
      end
  end.

(** A run of heartbeats, oldest first, and the last one that found the box busy. *)
Definition heartbeats (cfg : IdleConfig) (b : Box) (l : list (float64 * time)) : Box :=
  fold_left (fun b '(load, now) => RecordHeartbeat b load now cfg) l b.
Definition last_busy (cfg : IdleConfig) (l : list (float64 * time)) : option time :=
  fold_left (fun acc '(load, now) => if f64_ge load (ic_LoadThreshold cfg) then Some now else acc) l None.

(** * Lemmas: phases *)
Lemma phase_of_string_string p :
  match p with PhaseOther s => phase_of_string s = PhaseOther s | _ => True end ->
  phase_of_string (phase_string p) = p.
Proof. by destruct p. Qed.

Lemma phase_string_of_string s : phase_string (phase_of_string s) = s.
Proof. unfold phase_of_string. by repeat case_bool_decide. Qed.

Lemma CanTransition_refl p : CanTransition p p = true.
Proof. unfold CanTransition. by rewrite bool_decide_eq_true_2. Qed.

Lemma CanTransition_from_destroying p : CanTransition PhaseDestroying p = true -> p = PhaseDestroying.
Proof. unfold CanTransition. case_bool_decide; [done|]. by destruct p. Qed.

Lemma CanTransition_to_destroying p :
  (forall s, p <> PhaseOther s) -> CanTransition p PhaseDestroying = true.
Proof. intros H. destruct p; try done. by destruct (H s). Qed.
#[export] Hint Resolve CanTransition_refl phase_string_of_string : go.

(** * Lemmas: flavors *)
Lemma Apply_caps b f :
  b_CPUMillis (Apply b f) = (if 0 <? fl_CPUMillis f then fl_CPUMillis f else b_CPUMillis b) /\
  b_MemMB (Apply b f) = (if 0 <? fl_MemMB f then fl_MemMB f else b_MemMB b).
Proof. unfold Apply. by destruct (0 <? fl_CPUMillis f), (0 <? fl_MemMB f). Qed.

(** * Lemmas: lifetime *)
Lemma EvalLifetime_persistent b now : b_Ephemeral b = false -> EvalLifetime b now = NoAction.
Proof. unfold EvalLifetime. by intros ->. Qed.

Lemma EvalLifetime_ttl b now :
  b_Ephemeral b = true -> 0 < b_MaxTTL b <= Sub now (b_CreatedAt b) ->
  EvalLifetime b now = mkReapAction true None false.
Proof.
  unfold EvalLifetime. intros -> [H1 H2]. simpl.
  by rewrite (proj2 (Z.ltb_lt _ _) H1), (proj2 (Z.leb_le _ _) H2).
Qed.

(** Before the hard cap, an attached box only ever has its countdown cancelled. *)
Lemma EvalLifetime_attached b now :
  b_Ephemeral b = true -> (b_MaxTTL b <= 0 \/ Sub now (b_CreatedAt b) < b_MaxTTL b) ->
  b_Attached b = true ->
  EvalLifetime b now = mkReapAction false None (bool_decide (is_Some (b_Deadline b))).
Proof.
  unfold EvalLifetime. intros -> Httl ->. simpl.
  destruct (0 <? b_MaxTTL b) eqn:E1, (b_MaxTTL b <=? _) eqn:E2; go_bool; try lia; simpl;
    by destruct (b_Deadline b).
Qed.

Lemma EvalLifetime_detached b now :
  b_Ephemeral b = true -> (b_MaxTTL b <= 0 \/ Sub now (b_CreatedAt b) < b_MaxTTL b) ->
  b_Attached b = false ->
  EvalLifetime b now =
    if b_Grace b <=? 0 then mkReapAction true None false
    else match b_Deadline b with
         | None => mkReapAction false (Some (now + b_Grace b)) false
         | Some d => if d <=? now then mkReapAction true None false else NoAction
         end.
Proof.
  unfold EvalLifetime, Before, Add. intros -> Httl ->. simpl.
  assert ((0 <? b_MaxTTL b) && (b_MaxTTL b <=? Sub now (b_CreatedAt b)) = false) as ->.
  { destruct (0 <? _) eqn:E1, (b_MaxTTL b <=? _) eqn:E2; go_bool; try done; lia. }
  destruct (b_Grace b <=? 0); [done|]. destruct (b_Deadline b) as [d|]; [|done].
  by rewrite <- Z.leb_antisym.
Qed.

Lemma EvalLifetime_cases b now :
  let act := EvalLifetime b now in
  ra_Reap act = true \/
  (ra_SetDeadline act = None /\ (ra_ClearDeadline act = true -> b_Attached b = true)) \/
  (b_Attached b = false /\ ra_SetDeadline act = Some (now + b_Grace b) /\
   ra_ClearDeadline act = false /\ 0 < b_Grace b).
Proof.
  unfold EvalLifetime, Add. destruct (b_Ephemeral b); simpl; [|by right; left].
  destruct (_ && _); simpl; [by left|].
  destruct (b_Attached b), (b_Deadline b); simpl; try naive_solver;
    (destruct (b_Grace b <=? 0) eqn:?; go_bool; simpl; [by left|]); [|by auto 6].
  destruct (negb _); naive_solver.
Qed.

(** A box is reaped exactly when it is ephemeral and either its hard cap
    has passed (attached or not), or no owner is attached and it has no grace
    or its stamped deadline has passed. *)
Theorem EvalLifetime_reap_iff b now :
  ra_Reap (EvalLifetime b now) = true <->
  b_Ephemeral b = true /\
  ((0 < b_MaxTTL b <= Sub now (b_CreatedAt b)) \/
   (b_Attached b = false /\ (b_Grace b <= 0 \/ exists d, b_Deadline b = Some d /\ d <= now))).
Proof.
  destruct (b_Ephemeral b) eqn:He; [|rewrite EvalLifetime_persistent by done; simpl; naive_solver].
  destruct (decide (0 < b_MaxTTL b <= Sub now (b_CreatedAt b))) as [Ht|Ht].
  { rewrite EvalLifetime_ttl by done. simpl. naive_solver. }
  assert (b_MaxTTL b <= 0 \/ Sub now (b_CreatedAt b) < b_MaxTTL b) as Ht' by lia.
  destruct (b_Attached b) eqn:Ha.
  { rewrite EvalLifetime_attached by done. simpl. naive_solver. }
  rewrite EvalLifetime_detached by done.
  destruct (b_Grace b <=? 0) eqn:Hg; go_bool; simpl; [naive_solver|].
  destruct (b_Deadline b) as [d|]; simpl; [|naive_solver lia].
  destruct (d <=? now) eqn:Hd; go_bool; simpl; [naive_solver|].
  split; [done|]. intros [_ [?|[_ [?|[? [[= ->] ?]]]]]]; lia.
Qed.

(** * Lemmas: idle detection *)
Lemma RecordHeartbeat_fields b load now cfg :
  b_Attached (RecordHeartbeat b load now cfg) = b_Attached b /\
  b_Load (RecordHeartbeat b load now cfg) = load /\
  b_LastActive (RecordHeartbeat b load now cfg) =
    (if b_Attached b || f64_ge load (ic_LoadThreshold cfg) then now else b_LastActive b).
Proof. unfold RecordHeartbeat. simpl. by destruct (b_Attached b || _). Qed.

Lemma IsIdle_true_iff b now cfg :
  IsIdle b now cfg = true <->
  b_Attached b = false /\ f64_ge (b_Load b) (ic_LoadThreshold cfg) = false /\
  b_LastActive b <> zero_time /\ ic_Timeout cfg <= Sub now (b_LastActive b).
Proof.
  unfold IsIdle, IsZero, zero_time.
  destruct (b_Attached b), (f64_ge _ _), (b_LastActive b =? 0) eqn:E; simpl; go_bool;
    rewrite ?Z.leb_le; naive_solver.
Qed.

Lemma heartbeats_fields cfg b l :
  b_Attached b = false ->
  b_Attached (heartbeats cfg b l) = false /\
  b_Load (heartbeats cfg b l) = default (b_Load b) (fst <$> last l) /\
  b_LastActive (heartbeats cfg b l) = default (b_LastActive b) (last_busy cfg l).
Proof.
  unfold heartbeats, last_busy. intros Ha.
  induction l as [|[load now] l IH] using rev_ind; [done|].
  rewrite !fold_left_app, last_snoc. simpl. destruct IH as (IHa & _ & IHl).
  destruct (RecordHeartbeat_fields (fold_left (fun b '(load, now) => RecordHeartbeat b load now cfg) l b) load now cfg)
    as (H1 & H2 & H3).
  rewrite H1, H2, H3, IHa, IHl. simpl. by destruct (f64_ge load _).
Qed.

(** After any non-empty run of heartbeats, a detached box is idle exactly
    when the last report was below the load threshold and at least the idle
    timeout has passed since the last busy report (or, when none was busy,
    since the activity marker the box already had, which must be set). *)
Theorem IsIdle_after_heartbeats cfg b l load at_ now :
  b_Attached b = false ->
  let since := default (b_LastActive b) (last_busy cfg (l ++ [(load, at_)])) in
  IsIdle (heartbeats cfg b (l ++ [(load, at_)])) now cfg = true <->
  f64_ge load (ic_LoadThreshold cfg) = false /\ since <> zero_time /\ ic_Timeout cfg <= Sub now since.
Proof.
  intros Ha since. rewrite IsIdle_true_iff.
  destruct (heartbeats_fields cfg b (l ++ [(load, at_)]) Ha) as (-> & -> & ->).
  rewrite last_snoc. simpl. naive_solver.
Qed.

Lemma IsIdle_after_heartbeats_witness :
  let b := New "b1" 5 "t" "o" "n" "img" in
  IsIdle (heartbeats DefaultIdle b [(f64_of_Z 1, 100); (S754_zero false, 200)]) (100 + 15 * Minute) DefaultIdle = true.
Proof.
  intros b. apply (IsIdle_after_heartbeats DefaultIdle b [(f64_of_Z 1, 100)] (S754_zero false) 200
    (100 + 15 * Minute) eq_refl). vm_compute. repeat split; congruence.
Defined.

(** * Lemmas: backends *)

(** [ResolveBackend] answers exactly the documented rules: an explicit
    request must be configured; an empty one is the only backend, or the
    configured default among several; everything else is an error. *)
Theorem ResolveBackend_spec requested available def b :
  ResolveBackend requested available def = Ok b <->
  b ∈ available /\
  ((requested <> ""%string /\ b = requested) \/
   (requested = ""%string /\ (available = [b] \/ (length available > 1)%nat /\ def <> ""%string /\ b = def))).
Proof.
  unfold ResolveBackend. destruct available as [|a rest].
  { split; [done|]. intros [H _]. by apply not_elem_of_nil in H. }
  destruct (bool_decide (requested = ""%string)) eqn:Hr; go_bool; simpl.
  - destruct rest as [|a' rest].
    + split; [intros [= ->]; set_solver|].
      intros [Hin [[? _]|[_ [[= ->]|[? _]]]]]; [done|done|simpl in *; lia].
    + destruct (bool_decide (def = ""%string)) eqn:Hd; go_bool; simpl; [naive_solver|].
      destruct (bool_decide (def ∈ _)) eqn:Hin; go_bool; simpl.
      * split; [intros [= ->]; naive_solver lia|naive_solver].
      * naive_solver.
  - destruct (bool_decide (requested ∈ _)) eqn:Hin; go_bool; simpl; naive_solver.
Qed.
