(* ===== verification/Spec.v ===== *)
(** The box request grammar ([internal/core/box/spec.go]): [ParseSpec] over SSH
    usernames, and the grammar it implements as an inductive relation. *)
From stdpp Require Import base option list strings.
From Stdlib Require Import Ascii ZArith Lia.
From S2P Require Import Prelude GoStrings GoTime.

Record Spec : Type := mkSpec {
  sp_Name : string;
  sp_Backend : string;
  sp_Image : string;
  sp_Flavor : string;
  sp_Grace : duration;
  sp_ForceNew : bool;
  sp_Special : string;
  sp_SessionID : string
}.

Definition special_spec (special id : string) : Spec := mkSpec "" "" "" "" 0%Z false special id.

(** The suffix after the last '+': none, a bare '+' (force-new) or a grace. *)
Definition parse_suffix (username : string) : result (string * bool * duration) :=
  match cut_last "+" username with
  | None => Ok (username, false, 0%Z)
  | Some (rest, suffix) =>
      if bool_decide (suffix = ""%string) then Ok (rest, true, 0%Z)
      else match ParseDuration suffix with
           | Err e => Err (ErrWrap ("bad duration " +:+ quote suffix) e)
           | Ok d => Ok (rest, false, d)
           end
  end.

Definition ParseSpec (username : string) : result Spec :=
  if bool_decide (username = ""%string) then Err (Errorf "empty username")
  else if bool_decide (username = "cli"%string) || bool_decide (username = "sudo"%string)
  then Ok (special_spec username "")
  else if bool_decide (username = "_"%string) then Ok (special_spec "_" "")
  else match cut_prefix "session-" username with
  | Some id => Ok (special_spec "session" id)
  | None =>
      '(rest, forceNew, grace) ← parse_suffix username;
      let segs := split ":" rest in
      let '(name, backend, _) := cut "~" (default ""%string (head segs)) in
      if bool_decide (name = ""%string) then Err (Errorf ("empty box name in " +:+ quote username))
      else
      let image := default ""%string (segs !! 1) in
      let flavor := default ""%string (segs !! 2) in
      if (3 <? length segs)%nat then Err (Errorf ("too many segments in " +:+ quote username))
      else Ok (mkSpec name backend image flavor grace forceNew "" "")
  end.

(** * The grammar *)

(** name[~backend] *)
Inductive head_denotes : string -> string -> string -> Prop :=
| head_plain name :
    name <> ""%string -> contains_byte "~" name = false -> contains_byte ":" name = false ->
    head_denotes name name ""
| head_backend name backend :
    name <> ""%string -> contains_byte "~" name = false -> contains_byte ":" name = false ->
    contains_byte ":" backend = false ->
    head_denotes (name +:+ String "~" backend) name backend.

(** head[:image[:flavor]] *)
Inductive base_denotes : string -> string -> string -> string -> string -> Prop :=
| base_head h n b : head_denotes h n b -> base_denotes h n b "" ""
| base_image h n b img :
    head_denotes h n b -> contains_byte ":" img = false ->
    base_denotes (h +:+ String ":" img) n b img ""
| base_flavor h n b img fl :
    head_denotes h n b -> contains_byte ":" img = false -> contains_byte ":" fl = false ->
    base_denotes (h +:+ String ":" (img +:+ String ":" fl)) n b img fl.

(** base, base+ or base+duration; the last '+' of the text is the separator. *)
Inductive suffix_denotes : string -> string -> bool -> duration -> Prop :=
| suffix_none base : contains_byte "+" base = false -> suffix_denotes base base false 0%Z
| suffix_force base : suffix_denotes (base +:+ "+") base true 0%Z
| suffix_grace base txt d :
    txt <> ""%string -> contains_byte "+" txt = false -> ParseDuration txt = Ok d ->
    suffix_denotes (base +:+ String "+" txt) base false d.

Definition reserved (u : string) : Prop :=
  u = "cli"%string \/ u = "sudo"%string \/ u = "_"%string \/ exists id, u = "session-" +:+ id.

Inductive denotes : string -> Spec -> Prop :=
| denotes_cli : denotes "cli" (special_spec "cli" "")
| denotes_sudo : denotes "sudo" (special_spec "sudo" "")
| denotes_underscore : denotes "_" (special_spec "_" "")
| denotes_session id : denotes ("session-" +:+ id) (special_spec "session" id)
| denotes_box u base n b img fl d f :
    ~ reserved u -> suffix_denotes u base f d -> base_denotes base n b img fl ->
    denotes u (mkSpec n b img fl d f "" "").

(** * Lemmas *)
Lemma parse_suffix_spec u base f d :
  parse_suffix u = Ok (base, f, d) <-> suffix_denotes u base f d.
Proof.
  unfold parse_suffix. split.
  - pose proof (cut_last_inv "+" u) as Hc. destruct (cut_last "+" u) as [[r s]|].
    + destruct Hc as [-> Hs]. case_bool_decide as Hs'; [intros [= <- <- <-]; subst; constructor|].
      destruct (ParseDuration s) eqn:Hd; [|done]. intros [= <- <- <-]. by constructor.
    + intros [= <- <- <-]. by constructor.
  - destruct 1 as [base H|base|base txt d Hne H Hd].
    + by rewrite cut_last_absent.
    + by rewrite (cut_last_found "+" base ""%string eq_refl).
    + rewrite cut_last_found by done. by rewrite bool_decide_eq_false_2, Hd.
Qed.

Lemma cut_head h n b :
  contains_byte ":" h = false ->
  (exists ok, cut "~" h = (n, b, ok)) /\ n <> ""%string <-> head_denotes h n b.
Proof.
  intros Hcol. split.
  - intros [[ok Hc] Hn]. apply cut_inv in Hc as Hi. destruct Hi as [Ht Hh]. destruct ok; subst.
    + rewrite contains_byte_app in Hcol. simpl in Hcol. go_bool. by constructor.
    + rewrite cut_absent in Hc by done. injection Hc as <-. by constructor.
  - destruct 1 as [n Hn H1 H2|n b Hn H1 H2 H3]; (split; [|done]).
    + rewrite cut_absent by done. by exists false.
    + rewrite cut_found by done. by exists true.
Qed.

Lemma head_denotes_no_colon h n b : head_denotes h n b -> contains_byte ":" h = false.
Proof.
  destruct 1 as [|n b Hn H1 H2 H3]; [done|].
  rewrite contains_byte_app, H2. simpl. by rewrite H3.
Qed.

Lemma head_denotes_nonempty h n b : head_denotes h n b -> h <> ""%string.
Proof. destruct 1 as [|n b]; [done|by destruct n]. Qed.

Lemma denotes_base_iff rest n b img fl :
  base_denotes rest n b img fl <->
  exists h, head_denotes h n b /\ head (split ":" rest) = Some h /\
    (length (split ":" rest) <= 3)%nat /\
    default ""%string (split ":" rest !! 1) = img /\ default ""%string (split ":" rest !! 2) = fl.
Proof.
  split.
  - destruct 1 as [h n b Hh|h n b img Hh Hi|h n b img fl Hh Hi Hf]; exists h;
      pose proof (head_denotes_no_colon _ _ _ Hh) as Hc.
    + rewrite (split_absent ":" h) by done. simpl. repeat split; [done|lia].
    + rewrite split_app, (split_absent ":" img) by done. simpl. repeat split; [done|lia].
    + rewrite !split_app, (split_absent ":" fl) by done. simpl. repeat split; [done|lia].
  - intros (h & Hh & Hhd & Hlen & <- & <-).
    pose proof (join_split ":" rest) as Hj. pose proof (split_no_sep ":" rest) as Hn.
    destruct (split ":" rest) as [|a [|c [|e [|]]]]; simpl in *; simplify_eq; try lia;
      repeat match goal with H : Forall _ (_ :: _) |- _ => inversion_clear H end.
    + by constructor.
    + rewrite string_app_cons, string_app_nil_l. by constructor.
    + rewrite !string_app_cons, !string_app_nil_l. by constructor.
Qed.

Lemma not_reserved_tests u :
  ~ reserved u <->
  bool_decide (u = "cli"%string) || bool_decide (u = "sudo"%string) = false /\
  bool_decide (u = "_"%string) = false /\ cut_prefix "session-" u = None.
Proof.
  unfold reserved. rewrite orb_false_iff, !bool_decide_eq_false.
  split.
  - intros H. repeat split; try naive_solver. destruct (cut_prefix "session-" u) as [r|] eqn:E; [|done].
    apply cut_prefix_inv in E. naive_solver.
  - intros ([? ?] & ? & Hc) [?|[?|[?|[id ->]]]]; [done..|]. by rewrite cut_prefix_app in Hc.
Qed.

Lemma head_split_some c s : exists h, head (split c s) = Some h /\ contains_byte c h = false.
Proof.
  pose proof (split_nonempty c s). pose proof (split_no_sep c s) as Hn.
  destruct (split c s); [done|]. inversion_clear Hn. by eexists.
Qed.

Lemma ParseSpec_sound u s : ParseSpec u = Ok s -> denotes u s.
Proof.
  unfold ParseSpec.
  case_bool_decide; [done|].
  destruct (bool_decide (u = "cli"%string) || _) eqn:E1.
  { apply orb_true_iff in E1 as [E1|E1]; go_bool; subst; intros [= <-]; constructor. }
  destruct (bool_decide (u = "_"%string)) eqn:E2; [go_bool; subst; intros [= <-]; constructor|].
  destruct (cut_prefix "session-" u) as [id|] eqn:E3.
  { apply cut_prefix_inv in E3 as ->. intros [= <-]. constructor. }
  destruct (parse_suffix u) as [[[base f] d]|] eqn:Hp; cbn [mbind result_bind]; [|done].
  apply parse_suffix_spec in Hp. destruct (head_split_some ":" base) as (h & Hh & Hcol).
  assert (default ""%string (head (split ":" base)) = h) as -> by (by rewrite Hh).
  destruct (cut "~" h) as [[n b] ok] eqn:Hc.
  destruct (bool_decide (n = ""%string)) eqn:Hn; [done|]. apply bool_decide_eq_false in Hn.
  destruct (3 <? length (split ":" base))%nat eqn:Hl; [done|]. intros [= <-]. apply Nat.ltb_ge in Hl.
  apply (denotes_box _ base); [by apply not_reserved_tests|done|].
  apply denotes_base_iff. exists h. split_and!; try done. apply cut_head; [done|]. eauto.
Qed.

Lemma ParseSpec_complete u s : denotes u s -> ParseSpec u = Ok s.
Proof.
  unfold ParseSpec.
  destruct 1 as [| | |id|u base n b img fl d f Hr Hs Hb]; [done..|].
  assert (u <> ""%string) as Hu.
  { destruct Hs as [base _|base|base txt d' _ _ _]; [|by destruct base..].
    intros ->. destruct (proj1 (denotes_base_iff _ _ _ _ _) Hb) as (h & Hh & [= <-] & _).
    by apply head_denotes_nonempty in Hh. }
  rewrite bool_decide_eq_false_2 by done.
  apply not_reserved_tests in Hr as (-> & -> & ->).
  apply parse_suffix_spec in Hs as ->. simpl.
  apply denotes_base_iff in Hb as (h & Hh & Hhd & Hl & <- & <-).
  rewrite Hhd. simpl. pose proof (head_denotes_no_colon _ _ _ Hh) as Hcol.
  apply cut_head in Hh as [[ok ->] Hne]; [|done].
  rewrite bool_decide_eq_false_2 by done.
  by rewrite (proj2 (Nat.ltb_ge _ _)).
Qed.


(** A '+' after the name but before further segments is not the force-new
    modifier the grammar's prose promises: everything after the last '+' must
    parse as a duration, so such a username is rejected. *)
Theorem ParseSpec_plus_on_name name seg :
  ~ reserved (name +:+ String "+" (String ":" seg)) ->
  contains_byte "+" seg = false ->
  exists e, ParseSpec (name +:+ String "+" (String ":" seg)) = Err e.
Proof.
  intros Hr Hs. destruct (ParseSpec _) as [s|e] eqn:Hp; [|by eauto].
  apply ParseSpec_sound in Hp. exfalso.
  inversion Hp as [H|H|H|id H|u base n b img fl d f _ Hsuf _ Hu]; subst;
    try (apply Hr; rewrite <- H; unfold reserved; eauto 6; fail).
  apply parse_suffix_spec in Hsuf. unfold parse_suffix in Hsuf.
  rewrite cut_last_found in Hsuf by done. simpl in Hsuf.
  unfold ParseDuration, duration_sign in Hsuf. simpl in Hsuf. done.
Qed.

Lemma ParseSpec_plus_on_name_witness : exists e, ParseSpec "proj+:ubuntu" = Err e.
Proof.
  apply (ParseSpec_plus_on_name "proj" "ubuntu"); [|reflexivity].
  apply not_reserved_tests. vm_compute. repeat split.
Defined.

(** The grace a request carries always fits in a [time.Duration]. *)
Lemma ParseSpec_grace u sp : ParseSpec u = Ok sp -> in_int64 (sp_Grace sp).
Proof.
  assert (in_int64 0) as H0 by (unfold in_int64, int64_min, int64_max; lia).
  intros Hd%ParseSpec_sound. destruct Hd as [| | | |u base n b img fl d f _ Hs _]; try done. simpl.
  destruct Hs as [| |? ? ? _ _ Hp]; try done. by eapply ParseDuration_in_int64.
Qed.
