(* ===== verification/Ports.v ===== *)
(** Provider contracts ([internal/core/ports/ports.go]): the neutral types the
    daemons hand to providers, and the provider interfaces as classes of
    state-passing operations over a provider state.  The bodies of providers
    are not fixed here: a provider is any instance. *)
From stdpp Require Import base option list strings gmap.
From Stdlib Require Import ZArith.
From S2P Require Import Prelude.
Local Open Scope Z_scope.

Inductive InstancePhase : Type :=
| InstanceRunning | InstanceStopped | InstanceGone | InstanceFailed
| InstanceOther (s : string).

#[export] Instance InstancePhase_eq_dec : EqDecision InstancePhase.
Proof. solve_decision. Defined.

Definition instance_phase_string (p : InstancePhase) : string :=
  match p with
  | InstanceRunning => "running" | InstanceStopped => "stopped"
  | InstanceGone => "gone" | InstanceFailed => "failed" | InstanceOther s => s
  end.

Definition instance_phase_of_string (s : string) : InstancePhase :=
  if bool_decide (s = "running"%string) then InstanceRunning
  else if bool_decide (s = "stopped"%string) then InstanceStopped
  else if bool_decide (s = "gone"%string) then InstanceGone
  else if bool_decide (s = "failed"%string) then InstanceFailed
  else InstanceOther s.

Record Mount : Type := mkMount {
  mt_Source : string;
  mt_Target : string;
  mt_ReadOnly : bool;
  mt_Device : bool
}.


Record BoxInstance : Type := mkInstance {
  in_Ref : string;
  in_Phase : InstancePhase;
  in_IP : string
}.


Record AgentImage : Type := mkAgentImage {
  ai_ImageRef : string;
  ai_BinaryPath : string;
  ai_TargetPath : string;
  ai_HostBinaryPath : string
}.


Record ProvisionRequest : Type := mkProvisionRequest {
  pr_WorkspaceID : string;
  pr_ImageRef : string;
  pr_MemMB : Z;
  pr_CPUMillis : Z;
  pr_GuestBin : string;
  pr_Mounts : list Mount;
  pr_Env : gmap string string;
  pr_Agent : AgentImage
}.


Record HomeRequest : Type := mkHomeRequest {
  hr_WorkspaceID : string;
  hr_TenantID : string;
  hr_Owner : string
}.


Record ExposeRequest : Type := mkExposeRequest {
  er_WorkspaceID : string;
  er_Name : string;
  er_Port : Z;
  er_Scheme : string;
  er_TenantID : string
}.


Record PortEndpoint : Type := mkPortEndpoint {
  pe_Ref : string;
  pe_URL : string;
  pe_Name : string;
  pe_Port : Z
}.


Record Credential : Type := mkCredential {
  cr_Scheme : string;
  cr_Value : string
}.


Record Principal : Type := mkPrincipal {
  pp_ID : string;
  pp_TenantID : string;
  pp_DisplayName : string;
  pp_Roles : list string
}.


Record AccessRequest : Type := mkAccessRequest {
  ar_Principal : Principal;
  ar_Action : string;
  ar_Resource : string
}.


Record AccessDecision : Type := mkDecision {
  de_Allow : bool;
  de_Reason : string
}.


Record UsageEvent : Type := mkUsageEvent {
  ue_TenantID : string;
  ue_PrincipalID : string;
  ue_WorkspaceID : string;
  ue_Kind : string;
  ue_Value : Z;
  ue_UnixMillis : Z
}.


Record PrincipalRef : Type := mkPrincipalRef {
  pf_PrincipalID : string;
  pf_TenantID : string
}.


Record QuotaState : Type := mkQuotaState {
  qs_Allowed : bool;
  qs_WorkspacesUsed : Z;
  qs_WorkspacesLimit : Z;
  qs_Reason : string
}.


Record BuildRequest : Type := mkBuildRequest {
  br_WorkspaceID : string;
  br_SourceRef : string;
  br_Provider : string;
  br_Options : gmap string string;
  br_TenantID : string
}.


Record ImageRef : Type := mkImageRef {
  ir_Ref : string;
  ir_BuildRef : string
}.


Record BuildStatus : Type := mkBuildStatus {
  bs_Phase : string;
  bs_ImageRef : string;
  bs_Message : string
}.


(** * The contracts *)
Class Suspender (C : Type) : Type := {
  cp_Suspend : string -> M C unit;
  cp_Resume : string -> M C unit
}.

(** A compute provider; [cp_suspender] is the outcome of the type assertion
    [compute.(ports.Suspender)]. *)
Class Compute (C : Type) : Type := {
  cp_Provision : ProvisionRequest -> M C BoxInstance;
  cp_Status : string -> M C BoxInstance;
  cp_Stop : string -> M C unit;
  cp_Destroy : string -> M C unit;
  cp_suspender : option (Suspender C)
}.

Class Storage (C : Type) : Type := {
  sg_EnsureHome : HomeRequest -> M C Mount;
  sg_Delete : string -> M C unit
}.

Class Ingress (C : Type) : Type := {
  ig_Expose : ExposeRequest -> M C PortEndpoint;
  ig_Unexpose : string -> M C unit
}.

Class Identity (C : Type) : Type := {
  id_Authenticate : Credential -> M C Principal;
  id_Authorize : AccessRequest -> M C AccessDecision
}.

Class Metering (C : Type) : Type := {
  mr_Emit : UsageEvent -> M C unit;
  mr_Quota : PrincipalRef -> M C QuotaState
}.

Class Build (C : Type) : Type := {
  bd_Resolve : BuildRequest -> M C ImageRef;
  bd_Status : string -> M C BuildStatus
}.

Lemma instance_phase_roundtrip s : instance_phase_string (instance_phase_of_string s) = s.
Proof. unfold instance_phase_of_string. by repeat case_bool_decide. Qed.
#[export] Hint Resolve instance_phase_roundtrip : go.
