(* ===== verification/Store.v ===== *)
(** Box persistence ([internal/core/box/store.go]): the [Store] interface as a
    class of state-passing operations, and what every implementation promises
    its clients, as laws over an abstract view of the store: a finite map from
    box id to box, up to the fields a store may stamp or drop itself. *)
From stdpp Require Import base option list strings gmap fin_maps.
From Stdlib Require Import ZArith Lia.
From S2P Require Import Prelude GoStrings GoTime Json Box.

(** * Boxes up to the fields the lifecycle never reads

    A store stamps [UpdatedAt]; the workspace store also drops the in-box
    agent's self-report.  Nothing in the box core reads these three fields. *)
Definition forget (b : Box) : Box :=
  b <| b_UpdatedAt := zero_time |> <| b_AgentState := ""%string |> <| b_AgentStatus := ""%string |>.

Record box_eqv (b c : Box) : Prop := mk_box_eqv { box_eqv_forget : forget b = forget c }.
#[export] Instance box_equiv : Equiv Box := box_eqv.

(** The columns an UPDATE leaves alone. *)
Definition same_key (b c : Box) : Prop :=
  b_ID b = b_ID c /\ b_TenantID b = b_TenantID c /\ b_Owner b = b_Owner c /\
  b_Name b = b_Name c /\ b_CreatedAt b = b_CreatedAt c.

(** What a row can hold: instants RFC 3339 can write, phases that read back as
    themselves, 64-bit durations and a load that is finite, not a negative zero,
    and written with digits that read back, and an id that is text. *)
Definition phase_storable (p : Phase) : Prop := phase_of_string (phase_string p) = p.
Definition storable (b : Box) : Prop :=
  phase_storable (b_Phase b) /\ in_int64 (b_Grace b) /\
  (forall d, b_Deadline b = Some d -> in_range d) /\ in_range (b_KeepAliveUntil b) /\
  in_range (b_LastActive b) /\ in_range (b_CreatedAt b) /\ in_range (b_UpdatedAt b) /\
  in_int64 (b_MaxTTL b) /\ in_int64 (b_IdleTimeoutOverride b) /\ float_kept (b_Load b) = true /\ utf8 (b_ID b) = true.

(** The same tests as booleans, to decide them on concrete boxes. *)
Definition in_rangeb (t : time) : bool := ((0 <=? t) && (t <? (3652365 - day_shift) * day_secs * Second))%Z.
Definition storableb (b : Box) : bool :=
  bool_decide (phase_of_string (phase_string (b_Phase b)) = b_Phase b) &&
  ((int64_min <=? b_Grace b) && (b_Grace b <=? int64_max))%Z &&
  match b_Deadline b with Some d => in_rangeb d | None => true end &&
  in_rangeb (b_KeepAliveUntil b) && in_rangeb (b_LastActive b) &&
  in_rangeb (b_CreatedAt b) && in_rangeb (b_UpdatedAt b) &&
  ((int64_min <=? b_MaxTTL b) && (b_MaxTTL b <=? int64_max))%Z &&
  ((int64_min <=? b_IdleTimeoutOverride b) && (b_IdleTimeoutOverride b <=? int64_max))%Z &&
  float_kept (b_Load b) && utf8 (b_ID b).

(** A clock far enough from both ends of RFC 3339's years that no duration
    leaves them. *)
Definition clock_ok (now : time) : Prop := (- int64_min <= now /\ now + int64_max < (3652365 - day_shift) * day_secs * Second)%Z.

Definition ErrNotFound : error := Sentinel "box" "box: not found".

(** * The interface *)
Class BoxStore (S : Type) : Type := {
  st_Get : string -> string -> M S Box;
  st_GetByName : string -> string -> M S Box;
  st_List : string -> M S (list Box);
  st_Create : Box -> M S unit;
  st_Update : time -> Box -> M S Box;  (* the caller's box as Update leaves it *)
  st_Delete : string -> string -> M S unit
}.

(** * The contract *)
Class BoxStoreSpec (S : Type) `{BoxStore S} : Type := {
  st_view : S -> gmap string Box;
  st_inv : S -> Prop;
  st_healthy : S -> Prop;

  st_view_id s id b : st_inv s -> st_view s !! id = Some b -> b_ID b = id /\ storable b;
  st_view_name s i j b c :
    st_inv s -> st_view s !! i = Some b -> st_view s !! j = Some c ->
    b_TenantID b = b_TenantID c -> b_Owner b = b_Owner c -> b_Name b = b_Name c -> i = j;

  st_Get_spec tenant id s :
    st_inv s ->
    wp (st_Get tenant id) (fun s' r => s' = s /\
      (forall b, r = Ok b -> st_view s !! id = Some b) /\
      (st_healthy s -> forall b, st_view s !! id = Some b -> b_TenantID b = tenant -> r = Ok b) /\
      (st_healthy s -> st_view s !! id = None -> r = Err ErrNotFound)) s;

  st_List_spec tenant s :
    st_inv s ->
    wp (st_List tenant) (fun s' r => s' = s /\
      (forall l, r = Ok l -> NoDup (b_ID <$> l) /\
         forall b, b ∈ l <-> st_view s !! b_ID b = Some b /\ (tenant = ""%string \/ b_TenantID b = tenant)) /\
      (st_healthy s -> is_ok r = true)) s;

  st_Create_spec b s :
    st_inv s -> storable b ->
    wp (st_Create b) (fun s' r => st_inv s' /\ (st_healthy s -> st_healthy s') /\
      match r with
      | Ok _ => st_view s !! b_ID b = None /\
                exists b', b' ≡ b /\ st_view s' = <[b_ID b := b']> (st_view s)
      | Err _ => st_view s' = st_view s
      end) s;

  (* an UPDATE of an absent row changes nothing; the caller may not have
     renamed, re-owned or re-dated the row *)
  st_Update_spec now b s :
    st_inv s -> storable b -> in_range now ->
    (forall old, st_view s !! b_ID b = Some old -> same_key old b) ->
    wp (st_Update now b) (fun s' r => st_inv s' /\ (st_healthy s -> st_healthy s') /\
      match r with
      | Ok b2 => b2 ≡ b /\ storable b2 /\
                 exists b', b' ≡ b /\ st_view s' = alter (fun _ => b') (b_ID b) (st_view s)
      | Err _ => st_view s' = st_view s /\ ~ (st_healthy s /\ is_Some (st_view s !! b_ID b))
      end) s;

  (* the tenant may or may not be checked *)
  st_Delete_spec tenant id s :
    st_inv s ->
    wp (st_Delete tenant id) (fun s' r => st_inv s' /\ (st_healthy s -> st_healthy s') /\
      match r with
      | Ok _ => st_view s' = delete id (st_view s) \/
                (st_view s' = st_view s /\ exists b, st_view s !! id = Some b /\ b_TenantID b <> tenant)
      | Err _ => st_view s' = st_view s /\ ~ st_healthy s
      end) s
}.

(** * Lemmas: the equivalence *)
#[export] Instance box_equivalence : Equivalence (≡@{Box}).
Proof.
  split; [done|by intros ?? []|by intros ??? [] []; split; congruence].
Qed.

Lemma forget_eq b c :
  b ≡ c -> b = c <| b_UpdatedAt := b_UpdatedAt b |> <| b_AgentState := b_AgentState b |>
                 <| b_AgentStatus := b_AgentStatus b |>.
Proof. intros [Hf]. destruct b, c. unfold forget in Hf. simpl in *. by simplify_eq. Qed.

(** Every projection the core reads respects the equivalence. *)
Ltac box_proper := intros ?? ->%forget_eq; reflexivity.
#[export] Instance b_ID_proper : Proper ((≡) ==> (=)) b_ID. Proof. box_proper. Qed.
#[export] Instance b_TenantID_proper : Proper ((≡) ==> (=)) b_TenantID. Proof. box_proper. Qed.
#[export] Instance b_Owner_proper : Proper ((≡) ==> (=)) b_Owner. Proof. box_proper. Qed.
#[export] Instance b_Name_proper : Proper ((≡) ==> (=)) b_Name. Proof. box_proper. Qed.
#[export] Instance b_Phase_proper : Proper ((≡) ==> (=)) b_Phase. Proof. box_proper. Qed.
#[export] Instance b_Ephemeral_proper : Proper ((≡) ==> (=)) b_Ephemeral. Proof. box_proper. Qed.
#[export] Instance b_Attached_proper : Proper ((≡) ==> (=)) b_Attached. Proof. box_proper. Qed.
#[export] Instance b_AutoSuspend_proper : Proper ((≡) ==> (=)) b_AutoSuspend. Proof. box_proper. Qed.
#[export] Instance b_AgentConnected_proper : Proper ((≡) ==> (=)) b_AgentConnected. Proof. box_proper. Qed.
#[export] Instance b_Grace_proper : Proper ((≡) ==> (=)) b_Grace. Proof. box_proper. Qed.
#[export] Instance b_MaxTTL_proper : Proper ((≡) ==> (=)) b_MaxTTL. Proof. box_proper. Qed.
#[export] Instance b_Deadline_proper : Proper ((≡) ==> (=)) b_Deadline. Proof. box_proper. Qed.
#[export] Instance b_CreatedAt_proper : Proper ((≡) ==> (=)) b_CreatedAt. Proof. box_proper. Qed.
#[export] Instance b_InstanceRef_proper : Proper ((≡) ==> (=)) b_InstanceRef. Proof. box_proper. Qed.
#[export] Instance b_BootstrapToken_proper : Proper ((≡) ==> (=)) b_BootstrapToken. Proof. box_proper. Qed.
#[export] Instance b_Message_proper : Proper ((≡) ==> (=)) b_Message. Proof. box_proper. Qed.
#[export] Instance b_LastActive_proper : Proper ((≡) ==> (=)) b_LastActive. Proof. box_proper. Qed.
#[export] Instance b_KeepAliveUntil_proper : Proper ((≡) ==> (=)) b_KeepAliveUntil. Proof. box_proper. Qed.
#[export] Instance EvalLifetime_proper : Proper ((≡) ==> (=) ==> (=)) EvalLifetime.
Proof. intros ?? ->%forget_eq ?? ->. reflexivity. Qed.
#[export] Instance IsIdle_proper : Proper ((≡) ==> (=) ==> (=) ==> (=)) IsIdle.
Proof. intros ?? ->%forget_eq ?? -> ?? ->. reflexivity. Qed.
#[export] Instance EffectiveIdle_proper : Proper ((≡) ==> (=) ==> (=)) EffectiveIdle.
Proof. intros ?? ->%forget_eq ?? ->. reflexivity. Qed.

Lemma clock_in_range now : clock_ok now -> in_range now.
Proof. unfold clock_ok, in_range, int64_max, int64_min. lia. Qed.

Lemma in_rangeb_ok t : in_rangeb t = true -> in_range t.
Proof. unfold in_rangeb, in_range. intros. go_bool. done. Qed.

Lemma storableb_ok b : storableb b = true -> storable b.
Proof.
  unfold storableb, storable, phase_storable, in_int64. intros. go_bool.
  split_and!; try done; try (by apply in_rangeb_ok).
  intros d Hd. rewrite Hd in *. by apply in_rangeb_ok.
Qed.

Lemma same_key_refl b : same_key b b.
Proof. done. Qed.

Lemma same_key_sym b c : same_key b c -> same_key c b.
Proof. unfold same_key. intuition congruence. Qed.

Lemma same_key_trans b c d : same_key b c -> same_key c d -> same_key b d.
Proof. unfold same_key. intuition congruence. Qed.

Lemma phase_storable_named p : (forall s, p <> PhaseOther s) -> phase_storable p.
Proof. intros H. destruct p; try done. by destruct (H s). Qed.
#[export] Hint Resolve clock_in_range same_key_refl : go.
