(* ===== verification/World.v ===== *)
(** The state the daemon's control loops share: the store, the compute
    provider, the host layer's hook state, the reconciler's event queue, the
    clock and the source of random identifiers.  One operation runs at one
    instant of the clock; the clock moves between operations. *)
From stdpp Require Import base option list strings gmap.
From Stdlib Require Import ZArith.
From S2P Require Import Prelude GoStrings GoTime Box Ports Store.

Record World (S C H : Type) : Type := mkWorld {
  wStore : S;
  wCompute : C;
  wHooks : H;
  wEvents : list (string * string);  (* reconcileReq{tenant, id} *)
  wNow : time;
  wFresh : nat                       (* random draws made so far *)
}.
Arguments mkWorld {S C H}.
Arguments wStore {S C H}.
Arguments wCompute {S C H}.
Arguments wHooks {S C H}.
Arguments wEvents {S C H}.
Arguments wNow {S C H}.
Arguments wFresh {S C H}.

Section world.
Context {S C H : Type}.
Notation W := (World S C H).

#[export] Instance set_wStore : Setter (@wStore S C H) :=
  fun f w => mkWorld (f (wStore w)) (wCompute w) (wHooks w) (wEvents w) (wNow w) (wFresh w).
#[export] Instance set_wCompute : Setter (@wCompute S C H) :=
  fun f w => mkWorld (wStore w) (f (wCompute w)) (wHooks w) (wEvents w) (wNow w) (wFresh w).
#[export] Instance set_wHooks : Setter (@wHooks S C H) :=
  fun f w => mkWorld (wStore w) (wCompute w) (f (wHooks w)) (wEvents w) (wNow w) (wFresh w).
#[export] Instance set_wEvents : Setter (@wEvents S C H) :=
  fun f w => mkWorld (wStore w) (wCompute w) (wHooks w) (f (wEvents w)) (wNow w) (wFresh w).
#[export] Instance set_wNow : Setter (@wNow S C H) :=
  fun f w => mkWorld (wStore w) (wCompute w) (wHooks w) (wEvents w) (f (wNow w)) (wFresh w).
#[export] Instance set_wFresh : Setter (@wFresh S C H) :=
  fun f w => mkWorld (wStore w) (wCompute w) (wHooks w) (wEvents w) (wNow w) (f (wFresh w)).

Definition on_store {A} (m : M S A) : M W A := zoom wStore (fun s w => w <| wStore := s |>) m.
Definition on_compute {A} (m : M C A) : M W A := zoom wCompute (fun c w => w <| wCompute := c |>) m.
(** A hook also reads the clock. *)
Definition on_hooks {A} (m : time -> M (S * H) A) : M W A :=
  fun w => zoom (fun w => (wStore w, wHooks w)) (fun '(s, h) w => w <| wStore := s |> <| wHooks := h |>) (m (wNow w)) w.
(** [time.Now()] *)
Definition clock : M W time := gets wNow.
(** A draw from [crypto/rand], hex-encoded by [fmt]. *)
Definition draw (hex : nat -> string) : M W string :=
  fun w => (w <| wFresh := Datatypes.S (wFresh w) |>, Ok (hex (wFresh w))).
End world.

Lemma wp_on_store {S C H A} (m : M S A) (Q : World S C H -> result A -> Prop) w :
  wp m (fun s' r => Q (w <| wStore := s' |>) r) (wStore w) -> wp (on_store m) Q w.
Proof. unfold wp, on_store, zoom. by destruct (m (wStore w)). Qed.

Lemma wp_on_compute {S C H A} (m : M C A) (Q : World S C H -> result A -> Prop) w :
  (forall c' r, Q (w <| wCompute := c' |>) r) -> wp (on_compute m) Q w.
Proof. intros HQ. unfold wp, on_compute, zoom. destruct (m (wCompute w)). apply HQ. Qed.
