(* ===== verification/Engine.v ===== *)
(** The box engine ([internal/core/box/engine.go]): building a box from a
    request, attaching to or creating the box a username names, releasing it
    when the session ends, and the read and destroy calls. *)
From stdpp Require Import base option list strings gmap.
From Stdlib Require Import ZArith Lia.
From S2P Require Import Prelude GoStrings GoTime Json Box Spec Ports Store World.
Local Open Scope Z_scope.

Record EngineConfig : Type := mkEngineConfig {
  ec_Tenant : string;
  ec_DefaultImage : string;
  ec_Backends : list string;
  ec_DefBackend : string;
  ec_DefaultFlavor : Flavor;
  ec_Persistent : option (string -> bool);
  ec_DefaultGrace : duration
}.

(** [build]: the desired box of a request. *)
Definition build (cfg : EngineConfig) (newID : string) (now : time) (owner : string) (spec : Spec) : result Box :=
  if negb (bool_decide (sp_Special spec = ""%string))
  then Err (Errorf ("special username " +:+ quote (sp_Special spec) +:+ " spawns no box"))
  else
  backend ← ResolveBackend (sp_Backend spec) (ec_Backends cfg) (ec_DefBackend cfg);
  let image := if bool_decide (sp_Image spec = ""%string) then ec_DefaultImage cfg else sp_Image spec in
  let b := New newID now (ec_Tenant cfg) owner (sp_Name spec) image in
  let b := b <| b_Backend := backend |> in
  let b := match ec_Persistent cfg with
           | Some p => if p owner then b <| b_AutoSuspend := true |> else b <| b_Ephemeral := true |>
           | None => b <| b_Ephemeral := true |>
           end in
  let b := b <| b_Grace := sp_Grace spec |> in
  let b := if b_Ephemeral b && (b_Grace b =? 0) then b <| b_Grace := ec_DefaultGrace cfg |> else b in
  let fl := default (ec_DefaultFlavor cfg) (ResolveFlavor (sp_Flavor spec)) in
  Ok (Apply b fl).

Section engine.
Context {S C H : Type} `{BoxStore S}.
Notation W := (World S C H).
Variable newID : nat -> string.
Variable wake : string -> string -> M W unit.
Variable cfg : EngineConfig.

(** Whether a box is the one [byOwnerName] looks for. *)
Definition is_named (owner name : string) (b : Box) : bool :=
  bool_decide (b_Owner b = owner) && bool_decide (b_Name b = name).

Definition byOwnerName (owner name : string) : M W Box :=
  all ← on_store (st_List (ec_Tenant cfg));
  match find (is_named owner name) all with
  | Some b => mret b
  | None => throw ErrNotFound
  end.

(** [Attach], without its release closure, which is [releaser (b_ID b)]. *)
Definition Attach (owner username : string) : M W Box :=
  spec ← of_result (ParseSpec username);
  if negb (bool_decide (sp_Special spec = ""%string))
  then throw (Errorf ("username " +:+ quote username +:+ " does not spawn a box"))
  else
  found ← try (byOwnerName owner (sp_Name spec));
  match found with
  | Ok b =>
      now ← clock;
      b ← wrapping "attach box" (on_store (st_Update now (b <| b_Attached := true |>)));
      wake (b_ID b) (ec_Tenant cfg) ;;
      mret b
  | Err e =>
      if errors_Is e ErrNotFound then
        id ← draw newID;
        now ← clock;
        b ← of_result (build cfg id now owner spec);
        let b := b <| b_Attached := true |> in
        wrapping "create box" (on_store (st_Create b)) ;;
        wake (b_ID b) (ec_Tenant cfg) ;;
        mret b
      else throw e
  end.

Definition State (id : string) : M W (option (Phase * string)) :=
  r ← try (on_store (st_Get (ec_Tenant cfg) id));
  mret (match r with Ok b => Some (b_Phase b, b_Message b) | Err _ => None end).

Definition releaser (id : string) : M W unit :=
  r ← try (on_store (st_Get (ec_Tenant cfg) id));
  match r with
  | Err _ => mret tt
  | Ok b =>
      now ← clock;
      let b := b <| b_Attached := false |> <| b_LastActive := now |> in
      u ← try (on_store (st_Update now b));
      match u with
      | Err _ => mret tt
      | Ok _ => wake id (ec_Tenant cfg)
      end
  end.

Definition Get (id : string) : M W Box := on_store (st_Get (ec_Tenant cfg) id).
Definition List : M W (list Box) := on_store (st_List (ec_Tenant cfg)).

Definition Destroy (id : string) : M W unit :=
  b ← on_store (st_Get (ec_Tenant cfg) id);
  now ← clock;
  on_store (st_Update now (b <| b_Phase := PhaseDestroying |>)) ;;
  wake id (ec_Tenant cfg).
End engine.

(** * Lemmas: building *)

(** The tier of an owner's boxes. *)
Definition is_persistent (cfg : EngineConfig) (owner : string) : bool :=
  match ec_Persistent cfg with Some p => p owner | None => false end.
Definition build_grace (cfg : EngineConfig) (owner : string) (spec : Spec) : duration :=
  if negb (is_persistent cfg owner) && (sp_Grace spec =? 0) then ec_DefaultGrace cfg else sp_Grace spec.
Definition build_flavor (cfg : EngineConfig) (spec : Spec) : Flavor :=
  default (ec_DefaultFlavor cfg) (ResolveFlavor (sp_Flavor spec)).

Lemma build_box cfg id now owner spec :
  build cfg id now owner spec =
    if bool_decide (sp_Special spec = ""%string) then
      backend ← ResolveBackend (sp_Backend spec) (ec_Backends cfg) (ec_DefBackend cfg);
      let image := if bool_decide (sp_Image spec = ""%string) then ec_DefaultImage cfg else sp_Image spec in
      let fl := build_flavor cfg spec in
      Ok (mkBox id (ec_Tenant cfg) owner (sp_Name spec) image backend
            (Z.max 0 (fl_MemMB fl)) (Z.max 0 (fl_CPUMillis fl))
            (negb (is_persistent cfg owner)) (build_grace cfg owner spec) 0 None (is_persistent cfg owner)
            zero_time 0 PhasePending "" "" "" false false "" (SpecFloat.S754_zero false) zero_time "" "" now now)
    else Err (Errorf ("special username " +:+ quote (sp_Special spec) +:+ " spawns no box")).
Proof.
  unfold build. destruct (bool_decide (sp_Special spec = ""%string)); [|done]. simpl.
  destruct (ResolveBackend _ _ _) as [be|e]; [|done]. simpl. unfold build_grace, is_persistent.
  fold (build_flavor cfg spec). generalize (build_flavor cfg spec) as fl. intros fl. unfold Apply.
  assert (forall z, (if 0 <? z then z else 0) = Z.max 0 z) as Hmax by (intros z; destruct (0 <? z) eqn:?; go_bool; lia).
  rewrite <- !Hmax.
  destruct (ec_Persistent cfg) as [p|]; [destruct (p owner)|]; simpl;
    try destruct (sp_Grace spec =? 0); simpl; by destruct (0 <? fl_CPUMillis fl), (0 <? fl_MemMB fl).
Qed.

Lemma build_inv cfg id now owner spec b :
  build cfg id now owner spec = Ok b ->
  b_ID b = id /\ b_TenantID b = ec_Tenant cfg /\ b_Owner b = owner /\ b_Name b = sp_Name spec /\
  b_Ephemeral b = negb (is_persistent cfg owner) /\ b_AutoSuspend b = is_persistent cfg owner /\
  b_Grace b = build_grace cfg owner spec /\ b_MaxTTL b = 0 /\ b_Deadline b = None /\
  b_Phase b = PhasePending /\ b_BootstrapToken b = ""%string /\ b_KeepAliveUntil b = zero_time /\
  b_LastActive b = zero_time /\ b_CreatedAt b = now /\ b_UpdatedAt b = now.
Proof.
  rewrite build_box. case_bool_decide; [|done]. destruct (ResolveBackend _ _ _); [|done]. by intros [= <-].
Qed.

Lemma build_storable cfg id now owner spec b :
  utf8 id = true -> in_range now -> in_int64 (sp_Grace spec) -> in_int64 (ec_DefaultGrace cfg) ->
  build cfg id now owner spec = Ok b -> storable b.
Proof.
  intros Hid Hn Hg Hd. rewrite build_box. case_bool_decide; [|done]. destruct (ResolveBackend _ _ _); [|done].
  intros [= <-]. unfold storable, phase_storable. simpl.
  assert (in_range zero_time) by (unfold in_range; vm_compute; split; congruence).
  assert (in_int64 0) by (vm_compute; split; congruence).
  unfold build_grace. split_and!; try done. by destruct (_ && _).
Qed.

(** What a request for a new box yields: a username that denotes a box is
    built with the backend the resolution rules pick, the named image and
    flavor or else the configured defaults, the tier of its owner (persistent
    with auto-suspend, or ephemeral), the requested grace or, for an ephemeral
    box that asked for none, the default one, and everything else at rest:
    pending, detached, no hard cap, no deadline, no token. *)
Theorem build_functional cfg id now owner spec :
  build cfg id now owner spec =
    if bool_decide (sp_Special spec = ""%string) then
      backend ← ResolveBackend (sp_Backend spec) (ec_Backends cfg) (ec_DefBackend cfg);
      let image := if bool_decide (sp_Image spec = ""%string) then ec_DefaultImage cfg else sp_Image spec in
      let fl := build_flavor cfg spec in
      Ok (mkBox id (ec_Tenant cfg) owner (sp_Name spec) image backend
            (Z.max 0 (fl_MemMB fl)) (Z.max 0 (fl_CPUMillis fl))
            (negb (is_persistent cfg owner)) (build_grace cfg owner spec) 0 None (is_persistent cfg owner)
            zero_time 0 PhasePending "" "" "" false false "" (SpecFloat.S754_zero false) zero_time "" "" now now)
    else Err (Errorf ("special username " +:+ quote (sp_Special spec) +:+ " spawns no box")).
Proof. apply build_box. Qed.

(** Once an owner has a box by a name, attaching only looks at the name:
    any two usernames denoting that name, whatever image, backend, flavor or
    grace they carry and whether or not one asks to force a new box, do exactly
    the same. *)
Theorem Attach_reuses_by_name {S C H : Type} `{BoxStore S} (newID : nat -> string)
    (wake : string -> string -> M (World S C H) unit) cfg owner u1 u2 s1 s2 (w : World S C H) w1 b :
  ParseSpec u1 = Ok s1 -> ParseSpec u2 = Ok s2 -> sp_Special s1 = ""%string -> sp_Special s2 = ""%string ->
  sp_Name s1 = sp_Name s2 -> byOwnerName cfg owner (sp_Name s1) w = (w1, Ok b) ->
  Attach newID wake cfg owner u1 w = Attach newID wake cfg owner u2 w.
Proof.
  intros H1 H2 S1 S2 Hn Hb.
  assert (Hat : forall u s, ParseSpec u = Ok s -> sp_Special s = ""%string -> sp_Name s = sp_Name s1 ->
    Attach newID wake cfg owner u w =
      (now ← clock; b ← wrapping "attach box" (on_store (st_Update now (b <| b_Attached := true |>)));
       wake (b_ID b) (ec_Tenant cfg) ;; mret b) w1).
  { intros u s Hu Hs Hns. unfold Attach. rewrite Hu.
    rewrite (bind_eq_ok (of_result (Ok s)) _ w w s) by done. rewrite Hs, Hns.
    change (negb (bool_decide (""%string = ""%string))) with false. cbv iota.
    rewrite (bind_eq_ok (try (byOwnerName cfg owner (sp_Name s1))) _ w w1 (Ok b)); [done|].
    unfold try. by rewrite Hb. }
  by rewrite (Hat u1 s1), (Hat u2 s2).
Qed.
