(* ===== verification/Reconcile.v ===== *)
(** The box reconciler ([internal/core/box/reconcile.go]): one step per box
    ([ReconcileOne] and the handlers it dispatches to), the event queue and the
    periodic sweep, and the shutdown drain.  [lifecycle] is the abstract
    specification of a step, which [ReconcileOne] is proved to refine against
    any store meeting its contract and any compute provider. *)
From stdpp Require Import base option list strings gmap fin_maps relations.
From Stdlib Require Import ZArith Lia.
From S2P Require Import Prelude GoStrings GoTime Box Ports Store World.
Local Open Scope Z_scope.

(** [Hooks]: the host layer's callbacks, over the store and their own state. *)
Record Hooks (S H : Type) : Type := mkHooks {
  hk_PreProvision : Box -> time -> M (S * H) (list Mount * gmap string string);
  hk_PostRunning : Box -> time -> M (S * H) unit;
  hk_PreDestroy : Box -> time -> M (S * H) unit
}.
Arguments mkHooks {S H}.
Arguments hk_PreProvision {S H}.
Arguments hk_PostRunning {S H}.
Arguments hk_PreDestroy {S H}.

Record ReconcileConfig (S H : Type) : Type := mkReconcileConfig {
  rc_AgentAddr : string;
  rc_Agent : AgentImage;
  rc_MetaURL : string;
  rc_GuestBin : string;
  rc_Idle : IdleConfig;
  rc_Interval : duration;
  rc_Hooks : option (Hooks S H);
  rc_TrustedSSH : bool
}.
Arguments mkReconcileConfig {S H}.
Arguments rc_AgentAddr {S H}.
Arguments rc_Agent {S H}.
Arguments rc_MetaURL {S H}.
Arguments rc_GuestBin {S H}.
Arguments rc_Idle {S H}.
Arguments rc_Interval {S H}.
Arguments rc_Hooks {S H}.
Arguments rc_TrustedSSH {S H}.

(** [NewReconciler]: zero settings read as the defaults. *)
Definition NewReconciler {S H} (cfg : ReconcileConfig S H) : ReconcileConfig S H :=
  let idle_unset := (ic_Timeout (rc_Idle cfg) =? 0) && SpecFloat.SFeqb (ic_LoadThreshold (rc_Idle cfg)) (SpecFloat.S754_zero false) in
  mkReconcileConfig (rc_AgentAddr cfg) (rc_Agent cfg) (rc_MetaURL cfg) (rc_GuestBin cfg)
    (if idle_unset then DefaultIdle else rc_Idle cfg)
    (if rc_Interval cfg =? 0 then Second else rc_Interval cfg)
    (rc_Hooks cfg) (rc_TrustedSSH cfg).

(** The capacity of the event channel. *)
Definition events_cap : nat := 1024.

Section reconciler.
Context {S C H : Type} `{BoxStore S} `{Compute C}.
Notation W := (World S C H).
Variable newToken : nat -> string.
Variable cfg : ReconcileConfig S H.

(** [r.store.Update(ctx, b)], returning [b] as the call leaves it. *)
Definition update (b : Box) : M W Box := now ← clock; on_store (st_Update now b).

(** [Trigger]: never blocks; a full channel drops the request. *)
Definition Trigger (id tenant : string) : M W unit :=
  modify (fun w => if (length (wEvents w) <? events_cap)%nat
                   then w <| wEvents := wEvents w ++ [(tenant, id)] |> else w).

Definition setPhase (b : Box) (p : Phase) (msg : string) : M W unit :=
  if negb (CanTransition (b_Phase b) p)
  then throw (Errorf ("illegal transition " +:+ phase_string (b_Phase b) +:+ "->" +:+ phase_string p))
  else
  now ← clock;
  let b := if bool_decide (p = PhaseRunning) && IsZero (b_LastActive b)
           then b <| b_LastActive := now |> else b in
  update (b <| b_Phase := p |> <| b_Message := msg |>) ;;
  mret tt.

Definition fail (b : Box) (cause : error) : M W unit :=
  ignore (update (b <| b_Phase := PhaseFailed |> <| b_Message := Error cause |>)) ;;
  throw cause.

(** The environment every box gets from the daemon itself. *)
Definition base_env (b : Box) : gmap string string :=
  let env := list_to_map [("HOPBOX_AGENT_TOKEN", b_BootstrapToken b);
                          ("HOPBOX_CONTROL_ADDR", rc_AgentAddr cfg);
                          ("HOPBOX_WORKSPACE_ID", b_ID b);
                          ("HOPBOX_PRINCIPAL", b_Owner b)]%string : gmap string string in
  let env := if negb (bool_decide (rc_MetaURL cfg = ""%string)) then <["BOX_META"%string := rc_MetaURL cfg]> env else env in
  if rc_TrustedSSH cfg then <["HOPBOX_SSH_TRUSTED"%string := "1"%string]> env else env.

Definition provision (b : Box) : M W unit :=
  b ← (if bool_decide (b_BootstrapToken b = ""%string)
       then tok ← draw newToken; mret (b <| b_BootstrapToken := tok |>)
       else mret b);
  let env := base_env b in
  pre ← match rc_Hooks cfg with
        | None => mret (Ok ([], env))
        | Some hk =>
            r ← try (on_hooks (hk_PreProvision hk b));
            mret (match r with
                  | Ok (mounts, hookEnv) => Ok (mounts, hookEnv ∪ env)
                  | Err e => Err e
                  end)
        end;
  match pre with
  | Err e => fail b (ErrWrap "pre-provision" e)
  | Ok (mounts, env) =>
      r ← try (on_compute (cp_Provision
                 (mkProvisionRequest (b_ID b) (b_ImageRef b) (b_MemMB b) (b_CPUMillis b)
                    (rc_GuestBin cfg) mounts env (rc_Agent cfg))));
      match r with
      | Err e => fail b (ErrWrap "compute" e)
      | Ok inst =>
          update (b <| b_InstanceRef := in_Ref inst |> <| b_IP := in_IP inst |>
                    <| b_AgentConnected := false |> <| b_Phase := PhaseProvisioning |>
                    <| b_Message := "provisioned, awaiting agent"%string |>) ;;
          mret tt
      end
  end.

Definition shouldSuspend (now : time) (b : Box) : bool :=
  if b_Ephemeral b || negb (b_AutoSuspend b) || negb (b_AgentConnected b) then false
  else match cp_suspender (C := C) with
  | None => false
  | Some _ => After now (b_KeepAliveUntil b) && IsIdle b now (EffectiveIdle b (rc_Idle cfg))
  end.

Definition suspend (susp : Suspender C) (b : Box) : M W unit :=
  wrapping ("suspend " +:+ b_InstanceRef b) (on_compute (cp_Suspend (b_InstanceRef b))) ;;
  setPhase (b <| b_AgentConnected := false |>) PhaseSuspended "auto-suspended (idle)".

Definition resume (b : Box) : M W unit :=
  match cp_suspender (C := C) with
  | None => provision b
  | Some susp =>
      wrapping ("resume " +:+ b_InstanceRef b) (on_compute (cp_Resume (b_InstanceRef b))) ;;
      setPhase b PhaseRunning "resumed (attached)"
  end.

(** The lifetime half of a running box's step: whether the step ends there,
    and the box as the step goes on with it. *)
Definition reconcileLifetime (b : Box) : M W (bool * Box) :=
  now ← clock;
  let act := EvalLifetime b now in
  if ra_Reap act then
    setPhase b PhaseDestroying "ephemeral: lifetime expired" ;; mret (true, b)
  else
  b ← match ra_SetDeadline act with
      | Some d => update (b <| b_Deadline := Some d |>)
      | None => mret b
      end;
  b ← (if ra_ClearDeadline act then update (b <| b_Deadline := None |>) else mret b);
  mret (negb (b_Attached b), b).

Definition is_dead (i : BoxInstance) : bool :=
  bool_decide (in_Phase i = InstanceGone) || bool_decide (in_Phase i = InstanceFailed).

Definition healIfDead (b : Box) : M W unit :=
  if bool_decide (b_InstanceRef b = ""%string) then provision b
  else
  inst ← wrapping ("status " +:+ b_InstanceRef b) (on_compute (cp_Status (b_InstanceRef b)));
  if is_dead inst then provision b else mret tt.

Definition checkAlive (b : Box) : M W unit :=
  if bool_decide (b_InstanceRef b = ""%string) then mret tt
  else
  inst ← on_compute (cp_Status (b_InstanceRef b));
  if is_dead inst
  then fail b (Errorf ("instance " +:+ b_InstanceRef b +:+ " phase=" +:+ instance_phase_string (in_Phase inst)
                       +:+ " before agent connected"))
  else mret tt.

Definition destroy (b : Box) : M W unit :=
  match rc_Hooks cfg with
  | Some hk => ignore (on_hooks (hk_PreDestroy hk b))
  | None => mret tt
  end ;;
  (if negb (bool_decide (b_InstanceRef b = ""%string))
   then on_compute (cp_Destroy (b_InstanceRef b)) else mret tt) ;;
  on_store (st_Delete (b_TenantID b) (b_ID b)).

(** A running box's step once its lifetime has been dealt with. *)
Definition reconcileRunning (b : Box) : M W unit :=
  now ← clock;
  match (if shouldSuspend now b then cp_suspender (C := C) else None) with
  | Some susp => suspend susp b
  | None =>
      if negb (b_AgentConnected b) then healIfDead b
      else match rc_Hooks cfg with
           | Some hk => on_hooks (hk_PostRunning hk b)
           | None => mret tt
           end
  end.

Definition ReconcileOne (tenant id : string) : M W unit :=
  b ← on_store (st_Get tenant id);
  match b_Phase b with
  | PhasePending => provision b
  | PhaseProvisioning =>
      if b_AgentConnected b then setPhase b PhaseRunning "agent connected" else checkAlive b
  | PhaseRunning =>
      if b_Ephemeral b then
        '(done, b) ← reconcileLifetime b;
        if done : bool then mret tt else reconcileRunning b
      else reconcileRunning b
  | PhaseSuspended => if b_Attached b then resume b else mret tt
  | PhaseDestroying => destroy b
  | PhaseFailed | PhaseStopped => if b_Ephemeral b then destroy b else mret tt
  | PhaseOther _ => mret tt
  end.

(** One turn of [Run]'s select: a queued event, or the ticker's sweep. *)
Definition handleEvent : M W unit :=
  evs ← gets wEvents;
  match evs with
  | [] => mret tt
  | (tenant, id) :: rest =>
      modify (fun w => w <| wEvents := rest |>) ;;
      ignore (ReconcileOne tenant id)
  end.

Definition sweep : M W unit :=
  r ← try (on_store (st_List ""));
  match r with
  | Err _ => mret tt
  | Ok all => mfor all (fun b => ignore (ReconcileOne (b_TenantID b) (b_ID b)))
  end.

(** [Drain]: suspend every running persistent box of the tenant. *)
Definition drainOne (susp : Suspender C) (b : Box) : M W unit :=
  if b_Ephemeral b || negb (bool_decide (b_Phase b = PhaseRunning)) then mret tt
  else
  r ← try (on_compute (cp_Suspend (b_InstanceRef b)));
  match r with
  | Err _ => mret tt
  | Ok _ => ignore (setPhase (b <| b_AgentConnected := false |>) PhaseSuspended "suspended (shutdown)")
  end.

Definition Drain (tenant : string) : M W unit :=
  match cp_suspender (C := C) with
  | None => mret tt
  | Some susp =>
      r ← try (on_store (st_List tenant));
      match r with
      | Err _ => mret tt
      | Ok boxes => mfor boxes (drainOne susp)
      end
  end.
End reconciler.

(** * The abstract specification of a step *)
Section lifecycle.
Variable idle : IdleConfig.
Variable now : time.

(** Entering a phase, as [setPhase] writes it. *)
Definition entered (b : Box) (p : Phase) (msg : string) : Box :=
  (if bool_decide (p = PhaseRunning) && IsZero (b_LastActive b)
   then b <| b_LastActive := now |> else b) <| b_Phase := p |> <| b_Message := msg |>.

(** A running step goes on with its countdown cancelled once the owner is back. *)
Definition settled (b : Box) : Box :=
  if bool_decide (b_Phase b = PhaseRunning) && ra_ClearDeadline (EvalLifetime b now)
  then b <| b_Deadline := None |> else b.

Definition provisioned (b : Box) (tok ref ip : string) : Box :=
  b <| b_BootstrapToken := tok |> <| b_InstanceRef := ref |> <| b_IP := ip |>
    <| b_AgentConnected := false |> <| b_Phase := PhaseProvisioning |>
    <| b_Message := "provisioned, awaiting agent"%string |>.

Definition failed (b : Box) (tok msg : string) : Box :=
  b <| b_BootstrapToken := tok |> <| b_Phase := PhaseFailed |> <| b_Message := msg |>.

(** When a step may (re)build the instance: a new box, a running one whose
    agent is gone, or a suspended one its owner came back to. *)
Definition may_provision (b : Box) : Prop :=
  b_Phase b = PhasePending \/
  (b_Phase b = PhaseRunning /\ b_AgentConnected b = false /\
   (b_Ephemeral b = true -> b_Attached b = true /\ ra_Reap (EvalLifetime b now) = false)) \/
  (b_Phase b = PhaseSuspended /\ b_Attached b = true).

(** What one step may make of a box; [None] is a deleted row. *)
Inductive lifecycle (b : Box) : option Box -> Prop :=
| lc_same b' : b' ≡ b -> lifecycle b (Some b')
| lc_countdown b' d :
    b_Phase b = PhaseRunning -> ra_SetDeadline (EvalLifetime b now) = Some d ->
    b' ≡ b <| b_Deadline := Some d |> -> lifecycle b (Some b')
| lc_cancel b' :
    b_Phase b = PhaseRunning -> ra_ClearDeadline (EvalLifetime b now) = true ->
    b' ≡ b <| b_Deadline := None |> -> lifecycle b (Some b')
| lc_reap b' :
    b_Phase b = PhaseRunning -> ra_Reap (EvalLifetime b now) = true ->
    b' ≡ entered b PhaseDestroying "ephemeral: lifetime expired" -> lifecycle b (Some b')
| lc_provision b' tok ref ip :
    may_provision b -> tok <> ""%string -> b' ≡ provisioned (settled b) tok ref ip -> lifecycle b (Some b')
| lc_fail b' tok msg :
    may_provision b \/ (b_Phase b = PhaseProvisioning /\ b_AgentConnected b = false) ->
    b' ≡ failed (settled b) tok msg -> lifecycle b (Some b')
| lc_start b' :
    b_Phase b = PhaseProvisioning -> b_AgentConnected b = true ->
    b' ≡ entered b PhaseRunning "agent connected" -> lifecycle b (Some b')
| lc_suspend b' :
    b_Phase b = PhaseRunning -> b_Ephemeral b = false -> b_AutoSuspend b = true ->
    b_AgentConnected b = true -> b_KeepAliveUntil b < now ->
    IsIdle b now (EffectiveIdle b idle) = true ->
    b' ≡ entered (b <| b_AgentConnected := false |>) PhaseSuspended "auto-suspended (idle)" ->
    lifecycle b (Some b')
| lc_resume b' :
    b_Phase b = PhaseSuspended -> b_Attached b = true ->
    b' ≡ entered b PhaseRunning "resumed (attached)" -> lifecycle b (Some b')
| lc_gone :
    b_Phase b = PhaseDestroying \/
      ((b_Phase b = PhaseFailed \/ b_Phase b = PhaseStopped) /\ b_Ephemeral b = true) ->
    lifecycle b None.
End lifecycle.

(** Host hooks keep the store's invariant and health and do not touch the box
    view. *)
Definition untouched {S} `{BoxStoreSpec S} (s s' : S) : Prop :=
  st_inv s' /\ st_view s' ≡ st_view s /\ (st_healthy s -> st_healthy s').
Definition hooks_frame {S H} `{BoxStoreSpec S} (hk : Hooks S H) : Prop :=
  forall b now s h, st_inv s -> in_range now ->
    (wp (hk_PreProvision hk b now) (fun '(s', _) _ => untouched s s') (s, h)) /\
    (wp (hk_PostRunning hk b now) (fun '(s', _) _ => untouched s s') (s, h)) /\
    (wp (hk_PreDestroy hk b now) (fun '(s', _) _ => untouched s s') (s, h)).

(** * Refinement *)
Section refinement.
Context {S C H : Type} `{BoxStoreSpec S} `{Compute C}.
Notation W := (World S C H).
Implicit Types w : W.
Variable newToken : nat -> string.
Hypothesis newToken_nonempty : forall n, newToken n <> ""%string.
Variable cfg : ReconcileConfig S H.
Hypothesis cfg_hooks : forall hk, rc_Hooks cfg = Some hk -> hooks_frame hk.

(** From [w0] to [w], only box [id] changed, and it is now [o] (up to ≡). *)
Definition moved (id : string) (o : option Box) (w0 w : W) : Prop :=
  st_inv (wStore w) /\ wNow w = wNow w0 /\
  forall j, st_view (wStore w) !! j ≡ (if decide (j = id) then o else st_view (wStore w0) !! j).

Lemma moved_refl id w : st_inv (wStore w) -> moved id (st_view (wStore w) !! id) w w.
Proof. intros Hi. split_and!; [done..|]. intros j. by case_decide; subst. Qed.

Lemma moved_at id o w0 w : moved id o w0 w -> st_view (wStore w) !! id ≡ o.
Proof. intros (_ & _ & Hm). specialize (Hm id). by rewrite decide_True in Hm. Qed.

Lemma moved_equiv id o o' w0 w : o ≡ o' -> moved id o w0 w -> moved id o' w0 w.
Proof.
  intros Ho (? & ? & Hm). split_and!; [done..|]. intros j. rewrite (Hm j). by case_decide.
Qed.

Lemma moved_ext id o w0 w w' :
  moved id o w0 w -> st_inv (wStore w') -> wNow w' = wNow w ->
  st_view (wStore w') ≡ st_view (wStore w) -> moved id o w0 w'.
Proof.
  intros (_ & Hn & Hm) Hi Hn' Hv. split_and!; [done|congruence|].
  intros j. by rewrite (Hv j), (Hm j).
Qed.

Lemma equiv_same_key (b c : Box) : b ≡ c -> same_key b c.
Proof. intros Hbc. unfold same_key. by rewrite Hbc. Qed.

(** The row a client's box updates is the one it was read from. *)
Lemma moved_key id c b w0 w old :
  moved id (Some c) w0 w -> b_ID c = id -> same_key c b ->
  st_view (wStore w) !! b_ID b = Some old -> same_key old b.
Proof.
  intros Hm Hid Hk Hold. rewrite <- (proj1 Hk), Hid in Hold.
  apply moved_at in Hm. rewrite Hold in Hm. apply (inj Some) in Hm.
  eapply same_key_trans; [by apply equiv_same_key|done].
Qed.

Lemma wp_update id c b w0 w :
  moved id (Some c) w0 w -> b_ID c = id -> same_key c b -> storable b -> clock_ok (wNow w0) ->
  wp (update b) (fun w' r =>
    match r with
    | Ok b2 => b2 ≡ b /\ storable b2 /\ moved id (Some b) w0 w'
    | Err _ => moved id (Some c) w0 w'
    end) w.
Proof.
  intros Hm Hid Hk Hs Hclk. unfold update, clock. wp_step. apply wp_gets. apply wp_on_store.
  assert (Hin : in_range (wNow w)) by (destruct Hm as (_ & -> & _); auto with go).
  eapply wp_mono; [apply st_Update_spec; [by destruct Hm|done|done|]|].
  { intros old. by eapply moved_key. }
  intros s' [b2|e] (Hi' & _ & Hr).
  - destruct Hr as (Hb2 & Hs2 & b' & Hb' & Hv). split_and!; [done..|].
    destruct Hm as (_ & Hn & Hm). split_and!; [done|done|]. intros j. simpl. rewrite Hv.
    rewrite lookup_alter. case_decide as Hj; case_decide as Hj'; subst.
    + specialize (Hm (b_ID b)). rewrite decide_True in Hm by done. 
      destruct (st_view (wStore w) !! b_ID b); [|by inversion Hm]. simpl. by constructor.
    + destruct Hj'. by rewrite (proj1 Hk).
    + destruct Hj. by rewrite (proj1 Hk).
    + specialize (Hm j). by rewrite decide_False in Hm.
  - destruct Hr as [Hv _]. eapply moved_ext; [done..|]. simpl. by rewrite Hv.
Qed.

Lemma wp_setPhase id c b p msg w0 w :
  moved id (Some c) w0 w -> b_ID c = id -> same_key c b -> storable b -> clock_ok (wNow w0) ->
  phase_storable p ->
  wp (setPhase b p msg) (fun w' _ => moved id (Some c) w0 w' \/
    (CanTransition (b_Phase b) p = true /\ moved id (Some (entered (wNow w0) b p msg)) w0 w')) w.
Proof.
  intros Hm Hid Hk Hs Hclk Hp. unfold setPhase.
  destruct (CanTransition (b_Phase b) p) eqn:Hc; simpl; [|by left].
  unfold clock. wp_step. apply wp_gets. wp_step.
  assert (Hn : wNow w = wNow w0) by (by destruct Hm as (_ & ? & _)). rewrite Hn.
  change (((if bool_decide (p = PhaseRunning) && IsZero (b_LastActive b)
            then b <| b_LastActive := wNow w0 |> else b) <| b_Phase := p |> <| b_Message := msg |>))
    with (entered (wNow w0) b p msg).
  assert (storable (entered (wNow w0) b p msg)) as Hse.
  { unfold storable, entered in *. apply clock_in_range in Hclk.
    destruct (bool_decide _ && _); simpl; naive_solver. }
  assert (same_key c (entered (wNow w0) b p msg)) as Hke.
  { unfold entered. by destruct (bool_decide _ && _). }
  eapply wp_mono; [by apply wp_update|].
  intros w' [b2|e]; [|by left]. intros (_ & _ & Hm'). by right.
Qed.

Lemma wp_fail id c b cause w0 w :
  moved id (Some c) w0 w -> b_ID c = id -> same_key c b -> storable b -> clock_ok (wNow w0) ->
  wp (fail b cause) (fun w' _ => moved id (Some c) w0 w' \/
    moved id (Some (b <| b_Phase := PhaseFailed |> <| b_Message := Error cause |>)) w0 w') w.
Proof.
  intros Hm Hid Hk Hs Hclk. unfold fail. wp_step. wp_step.
  eapply wp_mono; [apply wp_update; [done..| |done]|].
  { unfold storable in *. simpl. naive_solver. }
  intros w' [b2|e] Hr; apply wp_throw; [right|left]; [by destruct Hr as (_ & _ & ?)|done].
Qed.

(** The outcome of (re)building an instance for the stored box [c]. *)
Definition rebuilt (c : Box) (id : string) (w0 w' : W) : Prop :=
  moved id (Some c) w0 w' \/
  (exists tok ref ip, tok <> ""%string /\ moved id (Some (provisioned c tok ref ip)) w0 w') \/
  (exists tok msg, moved id (Some (failed c tok msg)) w0 w').

Lemma wp_on_hooks {A} (m : time -> M (S * H) A) id o w0 w :
  (forall now s h, st_inv s -> in_range now -> wp (m now) (fun '(s', _) _ => untouched s s') (s, h)) ->
  clock_ok (wNow w0) -> moved id o w0 w -> wp (on_hooks m) (fun w' _ => moved id o w0 w') w.
Proof.
  intros Hfr Hclk Hm. unfold on_hooks. apply wp_zoom. pose proof (proj1 Hm) as Hi.
  assert (in_range (wNow w)) as Hn by (rewrite (proj1 (proj2 Hm)); by apply clock_in_range).
  eapply wp_mono; [apply (Hfr _ _ _ Hi Hn)|]. intros [s' h'] r (Hi' & Hv' & _).
  by eapply (moved_ext _ _ _ w).
Qed.

Lemma wp_provision id b w0 w :
  moved id (Some b) w0 w -> b_ID b = id -> storable b -> clock_ok (wNow w0) ->
  wp (provision newToken cfg b) (fun w' _ => rebuilt b id w0 w') w.
Proof.
  intros Hm Hid Hs Hclk. unfold provision. wp_step.
  eapply (wp_mono _ (fun w' r => moved id (Some b) w0 w' /\
    exists tok, tok <> ""%string /\ r = Ok (b <| b_BootstrapToken := tok |>))).
  { destruct (bool_decide (b_BootstrapToken b = ""%string)) eqn:Ht; go_bool.
    - wp_step. unfold draw, wp. split; [by apply (moved_ext _ _ _ w); destruct Hm|eauto].
    - apply wp_ret. split; [done|]. exists (b_BootstrapToken b). by destruct b. }
  intros w1 r (Hm1 & tok & Htok & ->). cbv beta iota.
  set (b1 := b <| b_BootstrapToken := tok |>).
  assert (Hk1 : same_key b b1) by done. assert (Hs1 : storable b1) by done.
  wp_step.
  eapply (wp_mono _ (fun w' r => moved id (Some b) w0 w' /\ exists p, r = Ok p)).
  { destruct (rc_Hooks cfg) as [hk|] eqn:Hhk; [|by apply wp_ret; eauto].
    wp_step. wp_step. eapply wp_mono; [apply (wp_on_hooks _ id (Some b) w0); [|done|done]|].
    - intros now s' h' Hi' Hn'. by apply (cfg_hooks _ eq_refl b1 now s' h' Hi').
    - intros w2 r Hm2. split; [done|]. destruct r as [[]|]; eauto. }
  intros w2 r (Hm2 & p & ->). cbv beta iota.
  assert (Hfail : forall e w, moved id (Some b) w0 w -> wp (fail b1 e) (fun w' _ => rebuilt b id w0 w') w).
  { intros e w' Hw'. eapply wp_mono; [by apply (wp_fail id b)|]. intros w'' _ [?|?]; [by left|].
    right. right. exists tok, (Error e). done. }
  destruct p as [[mounts env]|e]; [|by apply Hfail].
  wp_step. wp_step. apply wp_on_compute. intros c' [inst|e].
  - wp_step. eapply wp_mono; [apply (wp_update id b); [done..| |done]|].
    + unfold storable in *. simpl. naive_solver.
    + intros w' [b2|e] Hr; [apply wp_ret; right; left|by left].
      exists tok, (in_Ref inst), (in_IP inst). by destruct Hr as (_ & _ & ?).
  - by apply Hfail.
Qed.

Lemma wp_healIfDead id b w0 w :
  moved id (Some b) w0 w -> b_ID b = id -> storable b -> clock_ok (wNow w0) ->
  wp (healIfDead newToken cfg b) (fun w' _ => rebuilt b id w0 w') w.
Proof.
  intros Hm Hid Hs Hclk. unfold healIfDead.
  case_bool_decide; [by apply wp_provision|].
  wp_step. wp_step. apply wp_on_compute. intros c' [inst|e]; simpl; [|by left].
  destruct (is_dead inst); [by apply wp_provision|by left].
Qed.

Lemma wp_checkAlive id b w0 w :
  moved id (Some b) w0 w -> b_ID b = id -> storable b -> clock_ok (wNow w0) ->
  wp (checkAlive b) (fun w' _ => moved id (Some b) w0 w' \/
    exists msg, moved id (Some (failed b (b_BootstrapToken b) msg)) w0 w') w.
Proof.
  intros Hm Hid Hs Hclk. unfold checkAlive. case_bool_decide; [by left|].
  wp_step. apply wp_on_compute. intros c' [inst|e]; simpl; [|by left].
  destruct (is_dead inst); [|by left].
  eapply wp_mono; [by apply (wp_fail id b)|]. intros w' _ [?|Hf]; [by left|right].
  eexists. unfold failed. by destruct b.
Qed.

Lemma wp_resume id b w0 w :
  moved id (Some b) w0 w -> b_ID b = id -> storable b -> clock_ok (wNow w0) ->
  wp (resume newToken cfg b) (fun w' _ => rebuilt b id w0 w' \/
    moved id (Some (entered (wNow w0) b PhaseRunning "resumed (attached)")) w0 w') w.
Proof.
  intros Hm Hid Hs Hclk. unfold resume. destruct cp_suspender as [susp|].
  - wp_step. wp_step. apply wp_on_compute. intros c' [[]|e]; simpl; [|by left; left].
    eapply wp_mono; [by apply (wp_setPhase id b)|].
    intros w' _ [?|[_ ?]]; [by left; left|by right].
  - eapply wp_mono; [by apply wp_provision|]. by left.
Qed.

Lemma wp_suspend susp id b w0 w :
  moved id (Some b) w0 w -> b_ID b = id -> storable b -> clock_ok (wNow w0) ->
  wp (suspend susp b) (fun w' _ => moved id (Some b) w0 w' \/
    moved id (Some (entered (wNow w0) (b <| b_AgentConnected := false |>) PhaseSuspended
                      "auto-suspended (idle)")) w0 w') w.
Proof.
  intros Hm Hid Hs Hclk. unfold suspend. wp_step. wp_step. apply wp_on_compute.
  intros c' [[]|e]; simpl; [|by left].
  eapply wp_mono; [by apply (wp_setPhase id b)|]. intros w' _ [?|[_ ?]]; [by left|by right].
Qed.

Lemma wp_destroy id b w0 w :
  moved id (Some b) w0 w -> b_ID b = id -> clock_ok (wNow w0) ->
  wp (destroy cfg b) (fun w' _ => moved id (Some b) w0 w' \/ moved id None w0 w') w.
Proof.
  intros Hm Hid Hclk. unfold destroy. wp_step.
  eapply (wp_mono _ (fun w' r => moved id (Some b) w0 w' /\ r = Ok tt)).
  { destruct (rc_Hooks cfg) as [hk|]; [|done]. wp_step.
    eapply wp_mono; [apply (wp_on_hooks _ id (Some b) w0); [|done|done]|by auto].
    intros now s' h' Hi' Hn'. by apply (cfg_hooks _ eq_refl b now s' h' Hi'). }
  intros w1 r (Hm1 & ->). wp_step.
  eapply (wp_mono _ (fun w' _ => moved id (Some b) w0 w')).
  { destruct (negb _); [|done]. apply wp_on_compute. by intros c' _. }
  intros w2 [[]|e] Hm2; [|by left]. apply wp_on_store.
  eapply wp_mono; [apply st_Delete_spec; by destruct Hm2|].
  intros s' [[]|e] (Hi' & _ & Hr); rewrite ?Hid in Hr.
  - destruct Hr as [Hv|[Hv _]]; [right|left; eapply moved_ext; [done..|]; simpl; by rewrite Hv].
    destruct Hm2 as (_ & Hn & Hm2). split_and!; [done|done|]. intros j. simpl. rewrite Hv.
    rewrite lookup_delete. specialize (Hm2 j). do 2 case_decide; subst; done.
  - left. eapply moved_ext; [done..|]. simpl. by rewrite (proj1 Hr).
Qed.

Lemma moved_lifecycle id b b' w0 w :
  moved id (Some b') w0 w -> (forall b'', b'' ≡ b' -> lifecycle (rc_Idle cfg) (wNow w0) b (Some b'')) ->
  lifecycle (rc_Idle cfg) (wNow w0) b (st_view (wStore w) !! id).
Proof.
  intros Hm Hl. apply moved_at in Hm. inversion Hm as [x y Hxy Hx Hy|]; subst. by apply Hl.
Qed.

(** The step relation a handler leaves behind. *)
Definition stepped (id : string) (b : Box) (w0 w' : W) : Prop :=
  moved id (st_view (wStore w') !! id) w0 w' /\
  lifecycle (rc_Idle cfg) (wNow w0) b (st_view (wStore w') !! id).

Lemma stepped_moved id b b' w0 w :
  moved id (Some b') w0 w -> (forall b'', b'' ≡ b' -> lifecycle (rc_Idle cfg) (wNow w0) b (Some b'')) ->
  stepped id b w0 w.
Proof.
  intros Hm Hl. split; [|by eapply moved_lifecycle].
  eapply moved_equiv; [|done]. symmetry. by eapply moved_at.
Qed.

Lemma stepped_none id b w0 w :
  moved id None w0 w -> lifecycle (rc_Idle cfg) (wNow w0) b None -> stepped id b w0 w.
Proof.
  intros Hm Hl. pose proof (moved_at _ _ _ _ Hm) as Hn. inversion Hn as [|Hv]; subst.
  split; by rewrite <- Hv.
Qed.

#[export] Instance provisioned_proper : Proper ((≡) ==> (=) ==> (=) ==> (=) ==> (≡)) provisioned.
Proof. intros ?? ->%forget_eq ?? -> ?? -> ?? ->. by constructor. Qed.
#[export] Instance failed_proper : Proper ((≡) ==> (=) ==> (=) ==> (≡)) failed.
Proof. intros ?? ->%forget_eq ?? -> ?? ->. by constructor. Qed.

Lemma stepped_rebuilt id b c w0 w :
  rebuilt c id w0 w -> may_provision (wNow w0) b -> c ≡ settled (wNow w0) b ->
  (forall b'', b'' ≡ c -> lifecycle (rc_Idle cfg) (wNow w0) b (Some b'')) ->
  stepped id b w0 w.
Proof.
  intros Hr Hp Hc Hl. destruct Hr as [Hm|[(tok & ref & ip & Ht & Hm)|(tok & msg & Hm)]];
    (eapply stepped_moved; [done|]; intros b'' Hb'').
  - by apply Hl.
  - eapply lc_provision; [done..|]. by rewrite Hb'', Hc.
  - eapply lc_fail; [by left|]. by rewrite Hb'', Hc.
Qed.

Lemma settled_other now b : b_Phase b <> PhaseRunning -> settled now b = b.
Proof. intros Hp. unfold settled. by rewrite bool_decide_eq_false_2. Qed.

Lemma settled_cases now b : settled now b = b \/ settled now b = b <| b_Deadline := None |>.
Proof. unfold settled. destruct (_ && _); auto. Qed.

Lemma shouldSuspend_true now b :
  shouldSuspend cfg now b = true ->
  b_Ephemeral b = false /\ b_AutoSuspend b = true /\ b_AgentConnected b = true /\
  b_KeepAliveUntil b < now /\ IsIdle b now (EffectiveIdle b (rc_Idle cfg)) = true.
Proof.
  unfold shouldSuspend, After.
  destruct (b_Ephemeral b), (b_AutoSuspend b), (b_AgentConnected b); simpl; try done.
  destruct cp_suspender; [|done]. intros. go_bool. done.
Qed.

(** The running step, once the lifetime half has let it go on with [c]. *)
Lemma wp_reconcileRunning id b c w0 w :
  moved id (Some c) w0 w -> b_ID c = id -> storable c -> clock_ok (wNow w0) ->
  b_Phase b = PhaseRunning -> c ≡ settled (wNow w0) b ->
  (b_Ephemeral b = false /\ c = b \/
   b_Ephemeral b = true /\ b_Attached b = true /\ ra_Reap (EvalLifetime b (wNow w0)) = false) ->
  (forall b'', b'' ≡ c -> lifecycle (rc_Idle cfg) (wNow w0) b (Some b'')) ->
  wp (reconcileRunning newToken cfg c) (fun w' _ => stepped id b w0 w') w.
Proof.
  intros Hm Hid Hs Hclk Hph Hc Heph Hl. unfold reconcileRunning. wp_step. apply wp_gets.
  replace (wNow w) with (wNow w0) by (by destruct Hm as (_ & -> & _)).
  assert (Hsame : b_Ephemeral c = b_Ephemeral b /\ b_AgentConnected c = b_AgentConnected b).
  { split; rewrite Hc; by destruct (settled_cases (wNow w0) b) as [-> | ->]. }
  destruct (shouldSuspend cfg (wNow w0) c) eqn:Hsus.
  - apply shouldSuspend_true in Hsus as (He & Ha & Hconn & Hka & Hidle).
    destruct Heph as [[Heb ->]|(Heb & _)]; [|by rewrite (proj1 Hsame), Heb in He].
    destruct cp_suspender as [susp|].
    + eapply wp_mono; [by apply wp_suspend|]. intros w' _ [Hm'|Hm']; (eapply stepped_moved; [done|]).
      * done.
      * intros. by apply lc_suspend.
    + rewrite Hconn. simpl. destruct (rc_Hooks cfg) as [hk|]; [|by eapply stepped_moved].
      eapply wp_mono; [apply (wp_on_hooks _ id (Some b) w0); [|done|done]|].
      * intros now s' h' Hi' Hn'. by apply (cfg_hooks _ eq_refl b now s' h' Hi').
      * intros w' r Hm'. eapply stepped_moved; [exact Hm'|exact Hl].
  - destruct (b_AgentConnected c) eqn:Hconn; simpl.
    + destruct (rc_Hooks cfg) as [hk|]; [|by eapply stepped_moved].
      eapply wp_mono; [apply (wp_on_hooks _ id (Some c) w0); [|done|done]|].
      * intros now s' h' Hi' Hn'. by apply (cfg_hooks _ eq_refl c now s' h' Hi').
      * intros w' r Hm'. eapply stepped_moved; [exact Hm'|exact Hl].
    + eapply wp_mono; [by apply wp_healIfDead|]. intros w' r Hr.
      eapply stepped_rebuilt; [exact Hr| |exact Hc|exact Hl].
      right; left. split; [done|]. split; [by rewrite <- (proj2 Hsame)|].
      destruct Heph as [[Heb _]|(_ & ? & ?)]; [by rewrite Heb|done].
Qed.

(** The lifetime half: either the step ends here, or it goes on with the
    settled box, which is then the stored one. *)
Lemma wp_reconcileLifetime id b w0 w :
  moved id (Some b) w0 w -> b_ID b = id -> storable b -> clock_ok (wNow w0) ->
  b_Phase b = PhaseRunning -> b_Ephemeral b = true ->
  wp (reconcileLifetime b) (fun w' r =>
    match r with
    | Ok (false, c) =>
        b_Attached b = true /\ ra_Reap (EvalLifetime b (wNow w0)) = false /\
        c ≡ settled (wNow w0) b /\ storable c /\ moved id (Some c) w0 w'
    | _ => stepped id b w0 w'
    end) w.
Proof.
  intros Hm Hid Hs Hclk Hph Heph. unfold reconcileLifetime. wp_step. apply wp_gets.
  replace (wNow w) with (wNow w0) by (by destruct Hm as (_ & -> & _)).
  set (act := EvalLifetime b (wNow w0)).
  destruct (ra_Reap act) eqn:Hreap.
  { wp_step. eapply wp_mono; [by apply (wp_setPhase id b)|].
    intros w' r Hr. assert (stepped id b w0 w') as Hst.
    { destruct Hr as [Hm'|[_ Hm']]; (eapply stepped_moved; [done|]); intros; [by apply lc_same|by apply lc_reap]. }
    by destruct r; [apply wp_ret|]. }
  destruct (EvalLifetime_cases b (wNow w0)) as [Hc|[[Hset Hclear]|(Hatt & Hset & Hclear & Hg)]];
    fold act in Hc || fold act in Hset, Hclear; [congruence|..]; rewrite Hset.
  - wp_step. apply wp_ret. wp_step. destruct (ra_ClearDeadline act) eqn:Hcl.
    + assert (Hsb : settled (wNow w0) b = b <| b_Deadline := None |>).
      { unfold settled. fold act. by rewrite Hcl, bool_decide_eq_true_2. }
      eapply wp_mono; [apply (wp_update id b); [done..| |done]|].
      { unfold storable in *. simpl. naive_solver. }
      intros w' [c|e] Hr; [|eapply stepped_moved; [exact Hr|by apply lc_same]].
      destruct Hr as (Hc & Hsc & Hm'). apply wp_ret.
      assert (b_Attached c = true) as -> by (rewrite Hc; by apply Hclear). simpl.
      rewrite Hsb. split_and!; [by apply Hclear|done..|]. by eapply moved_equiv; [constructor|].
    + assert (Hsb : settled (wNow w0) b = b) by (unfold settled; fold act; by rewrite Hcl, andb_false_r).
      apply wp_ret, wp_ret. destruct (b_Attached b) eqn:Ha; simpl.
      * by rewrite Hsb.
      * eapply stepped_moved; [exact Hm|by apply lc_same].
  - wp_step. eapply wp_mono; [apply (wp_update id b); [done..| |done]|].
    { unfold storable, clock_ok, in_int64, in_range in *. simpl.
      split_and!; try naive_solver. intros d [= <-]. destruct_and!. lia. }
    intros w' [c|e] Hr; [|eapply stepped_moved; [exact Hr|by apply lc_same]].
    destruct Hr as (Hc & Hsc & Hm'). wp_step. rewrite Hclear. apply wp_ret, wp_ret.
    assert (b_Attached c = false) as -> by (by rewrite Hc). simpl.
    eapply stepped_moved; [exact Hm'|]. intros. by eapply lc_countdown.
Qed.

Lemma ReconcileOne_stepped tenant id w :
  st_inv (wStore w) -> clock_ok (wNow w) ->
  wp (ReconcileOne newToken cfg tenant id) (fun w' _ =>
    match st_view (wStore w) !! id with
    | Some b => stepped id b w w'
    | None => moved id None w w'
    end) w.
Proof.
  intros Hi Hclk. unfold ReconcileOne. wp_step. apply wp_on_store.
  eapply wp_mono; [by apply st_Get_spec|]. intros s' r (-> & Hget & _).
  pose proof (moved_refl id w Hi) as Hm. replace (w <| wStore := wStore w |>) with w by by destruct w.
  destruct r as [b|e]; [|destruct (st_view (wStore w) !! id); [|done]; by eapply stepped_moved, lc_same].
  assert (Hb : st_view (wStore w) !! id = Some b) by by apply Hget.
  rewrite Hb in Hm |- *. destruct (st_view_id _ _ _ Hi Hb) as [Hid Hs].
  assert (Hsame : forall w' , moved id (Some b) w w' -> stepped id b w w').
  { intros w' Hw'. eapply stepped_moved; [exact Hw'|by apply lc_same]. }
  assert (Hreb : forall w', rebuilt b id w w' -> may_provision (wNow w) b -> b_Phase b <> PhaseRunning ->
            stepped id b w w').
  { intros w' Hr Hp Hne. eapply stepped_rebuilt; [exact Hr|done|by rewrite settled_other|by apply lc_same]. }
  destruct (b_Phase b) eqn:Hph.
  - eapply wp_mono; [by apply (wp_provision id b)|]. intros w' r Hr. apply Hreb; [done|by left|done].
  - destruct (b_AgentConnected b) eqn:Hcn.
    + eapply wp_mono; [by apply (wp_setPhase id b)|].
      intros w' r [?|[_ ?]]; [by apply Hsame|eapply stepped_moved; [done|intros; by apply lc_start]].
    + eapply wp_mono; [by apply (wp_checkAlive id b)|]. intros w' r [?|[msg ?]]; [by apply Hsame|].
      eapply stepped_moved; [done|]. intros. eapply lc_fail; [by right|]. by rewrite settled_other by congruence.
  - destruct (b_Ephemeral b) eqn:He.
    + wp_step. eapply wp_mono; [by apply (wp_reconcileLifetime id b)|].
      intros w' [[[] c]|e] Hr; [by apply wp_ret| |done].
      destruct Hr as (Ha & Hreap & Hc & Hsc & Hm').
      apply (wp_reconcileRunning id b c); try done.
      * rewrite Hc. by destruct (settled_cases (wNow w) b) as [-> | ->].
      * by right.
      * intros b'' Hb''. rewrite Hc in Hb''. unfold settled in Hb''.
        destruct (bool_decide _); [|by apply lc_same]. simpl in Hb''.
        destruct (ra_ClearDeadline _) eqn:?; [by apply lc_cancel|by apply lc_same].
    + apply (wp_reconcileRunning id b b); try done.
      * unfold settled. by rewrite EvalLifetime_persistent, andb_false_r.
      * by left.
      * by apply lc_same.
  - destruct (b_Attached b) eqn:Ha; [|by apply Hsame].
    eapply wp_mono; [by apply (wp_resume id b)|]. intros w' r [?|?].
    + apply Hreb; [done|right; right; auto|done].
    + eapply stepped_moved; [done|intros; by apply lc_resume].
  - destruct (b_Ephemeral b) eqn:He; [|by apply Hsame].
    eapply wp_mono; [by apply (wp_destroy id b)|]. intros w' r [?|?]; [by apply Hsame|].
    eapply stepped_none; [done|]. apply lc_gone. auto.
  - destruct (b_Ephemeral b) eqn:He; [|by apply Hsame].
    eapply wp_mono; [by apply (wp_destroy id b)|]. intros w' r [?|?]; [by apply Hsame|].
    eapply stepped_none; [done|]. apply lc_gone. auto.
  - eapply wp_mono; [by apply (wp_destroy id b)|]. intros w' r [?|?]; [by apply Hsame|].
    eapply stepped_none; [done|]. apply lc_gone. auto.
  - by apply Hsame.
Qed.
End refinement.
