(* ===== verification/Sql.v ===== *)
(** The database tables of the two stores, as the SQL statements they run see
    them: rows in insertion order and, when the database cannot run statements
    at all, the error it answers each with.  The order in which the engine
    returns the rows of a SELECT without ORDER BY is not part of the program:
    it is the parameter [plan], any permutation. *)
From stdpp Require Import base option list strings gmap fin_maps.
From Stdlib Require Import ZArith Lia.
From S2P Require Import Prelude GoStrings.

Record Table (R : Type) : Type := mkDB { db_rows : list R; db_fault : option error }.
Arguments mkDB {R}.
Arguments db_rows {R}.
Arguments db_fault {R}.

Section statements.
Context {R : Type}.
Variable plan : list R -> list R.

(** Run a statement unless the database is down. *)
Definition exec {A} (m : M (Table R) A) : M (Table R) A :=
  fun db => match db_fault db with Some e => (db, Err e) | None => m db end.

Definition select (where_ : R -> bool) (db : Table R) : list R :=
  List.filter where_ (plan (db_rows db)).

(** ORDER BY a text column DESC compares the stored texts byte-wise. *)
Variable column : R -> string.
Fixpoint insert_desc (r : R) (l : list R) : list R :=
  match l with
  | [] => [r]
  | r' :: l' => if String.ltb (column r) (column r') then r' :: insert_desc r l' else r :: l
  end.
Definition order_by_desc (l : list R) : list R := foldr insert_desc [] l.

(** Scan every row of a result, stopping at the first that does not scan. *)
Fixpoint scan_rows {A} (scan : R -> result A) (l : list R) : result (list A) :=
  match l with
  | [] => Ok []
  | r :: l' => b ← scan r; bs ← scan_rows scan l'; Ok (b :: bs)
  end.
End statements.

(** * Lemmas *)
Lemma elem_of_filter_bool {A} (f : A -> bool) l x : x ∈ List.filter f l <-> f x = true /\ x ∈ l.
Proof. rewrite !list_elem_of_In, filter_In. naive_solver. Qed.

Lemma NoDup_filter_key {R K} (key : R -> K) (f : R -> bool) l :
  NoDup (key <$> l) -> NoDup (key <$> List.filter f l).
Proof.
  induction l as [|r l IH]; simpl; [constructor|].
  inversion_clear 1 as [|? ? Hni Hnd]. destruct (f r); simpl; [|by apply IH].
  constructor; [|by apply IH]. intros Hin. apply Hni. apply list_elem_of_fmap in Hin as (x & -> & Hin).
  apply elem_of_filter_bool in Hin as [_ Hin]. by apply list_elem_of_fmap_2.
Qed.

Lemma view_ext {A} (m1 m2 : gmap string A) :
  (forall id b, m1 !! id = Some b <-> m2 !! id = Some b) -> m1 = m2.
Proof. intros He. apply map_eq. intros id. apply option_eq. intros b. apply He. Qed.

Lemma wp_exec {R A} (m : M (Table R) A) (Q : Table R -> result A -> Prop) db :
  (forall e, db_fault db = Some e -> Q db (Err e)) -> (db_fault db = None -> wp m Q db) -> wp (exec m) Q db.
Proof. unfold exec, wp. intros He Hm. destruct (db_fault db) eqn:Hf; [by apply He|by apply Hm]. Qed.

Section plan.
Context {R : Type}.
Variable plan : list R -> list R.
Hypothesis plan_perm : forall l, plan l ≡ₚ l.

Lemma elem_of_select where_ db r : r ∈ select plan where_ db <-> where_ r = true /\ r ∈ db_rows db.
Proof. unfold select. rewrite elem_of_filter_bool. by rewrite (plan_perm (db_rows db)). Qed.

Lemma NoDup_select {K} (key : R -> K) where_ db : NoDup (key <$> db_rows db) -> NoDup (key <$> select plan where_ db).
Proof. intros Hnd. unfold select. apply NoDup_filter_key. by rewrite (plan_perm (db_rows db)). Qed.
End plan.

Lemma insert_desc_perm {R} (column : R -> string) r l : insert_desc column r l ≡ₚ r :: l.
Proof.
  induction l as [|r' l IH]; simpl; [done|]. destruct (String.ltb _ _); [|done].
  rewrite IH. by rewrite Permutation_swap.
Qed.

Lemma order_by_desc_perm {R} (column : R -> string) l : order_by_desc column l ≡ₚ l.
Proof. induction l as [|r l IH]; simpl; [done|]. by rewrite insert_desc_perm, IH. Qed.

(** A scan that keeps every row's key yields the rows one for one. *)
Lemma scan_rows_ok {R A} (scan : R -> result A) l :
  Forall (fun r => exists b, scan r = Ok b) l ->
  exists bs, scan_rows scan l = Ok bs /\ Forall2 (fun r b => scan r = Ok b) l bs.
Proof.
  induction 1 as [|r l (b & Hb) _ (bs & IH & Hf)]; [by exists []|].
  exists (b :: bs). simpl. rewrite Hb. simpl. rewrite IH. simpl. by split; [|constructor].
Qed.

Lemma scan_rows_elem {R A} (scan : R -> result A) l bs b :
  Forall2 (fun r b => scan r = Ok b) l bs -> b ∈ bs <-> exists r, r ∈ l /\ scan r = Ok b.
Proof.
  intros Hf. split.
  - intros Hb. apply list_elem_of_lookup in Hb as [i Hib].
    destruct (Forall2_lookup_r _ _ _ _ _ Hf Hib) as (r & Hr & Hs). exists r.
    split; [by eapply list_elem_of_lookup_2|done].
  - intros (r & Hr & Hs). apply list_elem_of_lookup in Hr as [i Hir].
    destruct (Forall2_lookup_l _ _ _ _ _ Hf Hir) as (b' & Hb' & Hs'). rewrite Hs in Hs'. simplify_eq.
    by eapply list_elem_of_lookup_2.
Qed.

(** * A table as a map: rows read back by a scan, under their primary key *)
Section view.
Context {R A : Type}.
Variables (key : R -> string) (scan : R -> result A).

Definition row_entry (r : R) : option (string * A) :=
  match scan r with Ok b => Some (key r, b) | Err _ => None end.
Definition table_view (db : Table R) : gmap string A := list_to_map (omap row_entry (db_rows db)).

(** Every row scans and keys are unique. *)
Definition keyed (db : Table R) : Prop :=
  Forall (fun r => exists b, scan r = Ok b) (db_rows db) /\ NoDup (key <$> db_rows db).

Lemma table_view_lookup db id b :
  keyed db -> table_view db !! id = Some b <-> exists r, r ∈ db_rows db /\ key r = id /\ scan r = Ok b.
Proof.
  intros (Hok & Hnd). unfold table_view. rewrite <- elem_of_list_to_map.
  - rewrite list_elem_of_omap. unfold row_entry. split.
    + intros (r & Hr & He). exists r. destruct (scan r); by simplify_eq.
    + intros (r & Hr & <- & Hs). exists r. by rewrite Hs.
  - clear -Hok Hnd. induction (db_rows db) as [|r l IH]; simpl; [constructor|].
    inversion_clear Hok as [|? ? (x & Hx) Hok']. inversion_clear Hnd as [|? ? Hni Hnd'].
    unfold row_entry at 1. rewrite Hx. simpl. constructor; [|by apply IH].
    intros Hin. apply Hni. apply list_elem_of_fmap in Hin as ([i y] & -> & Hin).
    apply list_elem_of_omap in Hin as (r' & Hr' & He). unfold row_entry in He.
    destruct (scan r'); simplify_eq. apply list_elem_of_fmap. by exists r'.
Qed.

Lemma table_view_none db id :
  keyed db -> (forall r, r ∈ db_rows db -> key r <> id) -> table_view db !! id = None.
Proof.
  intros Hk Hn. apply eq_None_not_Some. intros [b Hb]. apply table_view_lookup in Hb as (r & Hr & Hid & _); [|done].
  by apply (Hn r).
Qed.

(** INSERT of a new key. *)
Lemma keyed_insert db r b :
  keyed db -> scan r = Ok b -> (forall x, x ∈ db_rows db -> key x <> key r) ->
  let db' := mkDB (db_rows db ++ [r]) (db_fault db) in
  keyed db' /\ table_view db' = <[key r := b]> (table_view db).
Proof.
  intros Hk Hs Hnew db'. assert (Hk' : keyed db').
  { destruct Hk as (Hok & Hnd). split; simpl.
    - apply Forall_app. split; [done|]. constructor; [by exists b|done].
    - rewrite fmap_app. apply NoDup_app. split_and!; [done| |by apply NoDup_singleton].
      intros i Hin Hin2. apply list_elem_of_fmap in Hin as (x & -> & Hx).
      apply list_elem_of_fmap in Hin2 as (x2 & Heq & ->%list_elem_of_singleton). by apply (Hnew x). }
  split; [done|]. apply view_ext. intros id x. rewrite (table_view_lookup db') by done. simpl.
  rewrite lookup_insert. case_decide as Hid; [subst id|].
  - split.
    + intros (y & [Hy| ->%list_elem_of_singleton]%elem_of_app & Hyid & Hys); [by destruct (Hnew y)|]. congruence.
    + intros [= <-]. exists r. split; [apply elem_of_app; right; by left|done].
  - rewrite table_view_lookup by done. split.
    + intros (y & [Hy| ->%list_elem_of_singleton]%elem_of_app & Hyid & Hys); [by eauto|by destruct Hid].
    + intros (y & Hy & Hys). exists y. split; [apply elem_of_app; by left|done].
Qed.

(** UPDATE of the rows a test selects, all of one key. *)
Definition update_rows (hit : R -> bool) (f : R -> R) (db : Table R) : Table R :=
  mkDB (map (fun r => if hit r then f r else r) (db_rows db)) (db_fault db).

Lemma elem_of_update_rows hit f db r :
  r ∈ db_rows (update_rows hit f db) <->
  (exists r0, r0 ∈ db_rows db /\ hit r0 = true /\ r = f r0) \/ (r ∈ db_rows db /\ hit r = false).
Proof.
  unfold update_rows. simpl. rewrite list_elem_of_fmap. split.
  - intros (r0 & -> & Hr0). destruct (hit r0) eqn:E; [left; by exists r0|by right].
  - intros [(r0 & Hr0 & Hid & ->)|[Hr Hid]]; [exists r0|exists r]; by rewrite Hid.
Qed.

Lemma keyed_update db hit f id b :
  keyed db -> (forall r, r ∈ db_rows db -> hit r = true -> key r = id /\ key (f r) = id /\ scan (f r) = Ok b) ->
  keyed (update_rows hit f db) /\
  ((exists r, r ∈ db_rows db /\ hit r = true) ->
     table_view (update_rows hit f db) = alter (fun _ => b) id (table_view db)) /\
  ((forall r, r ∈ db_rows db -> hit r = false) -> table_view (update_rows hit f db) = table_view db).
Proof.
  intros Hk Hf. assert (Hk' : keyed (update_rows hit f db)).
  { destruct Hk as (Hok & Hnd). split.
    - apply Forall_forall. intros r [(r0 & Hr0 & Hh & ->)|[Hr _]]%elem_of_update_rows.
      + exists b. by apply Hf.
      + by apply (proj1 (Forall_forall _ _) Hok).
    - replace (key <$> db_rows (update_rows hit f db)) with (key <$> db_rows db); [done|].
      unfold update_rows. simpl. rewrite <- list_fmap_compose. apply list_fmap_ext. intros i r Hi.
      simpl. destruct (hit r) eqn:E; [|done]. destruct (Hf r) as (-> & -> & _); [by eapply list_elem_of_lookup_2|done|done]. }
  split; [done|]. split.
  2:{ intros Hno. apply view_ext. intros j x. rewrite !table_view_lookup by done. split; intros (r & Hr & Hj & Hx); exists r.
      - apply elem_of_update_rows in Hr as [(r0 & Hr0 & Hh & _)|[Hr _]]; [by rewrite Hno in Hh|done].
      - split; [|done]. apply elem_of_update_rows. right. auto. }
  intros (h & Hh & Hhit). apply view_ext. intros j x. rewrite table_view_lookup by done. rewrite lookup_alter.
  assert (Huniq : forall r, r ∈ db_rows db -> key r = id -> r = h).
  { intros r Hr Hid. destruct (Hf h Hh Hhit) as (Hhid & _). apply list_elem_of_lookup in Hr as [i Hi].
    apply list_elem_of_lookup in Hh as [k Hk2]. assert (i = k) as ->; [|congruence].
    eapply NoDup_lookup; [exact (proj2 Hk)|rewrite list_lookup_fmap, Hi; done|]. by rewrite list_lookup_fmap, Hk2, Hid, <- Hhid. }
  case_decide as Hid; [subst j|].
  - destruct (Hf h Hh Hhit) as (Hhid & Hfid & Hfs). split.
    + intros (r & [(r0 & Hr0 & Hr0h & ->)|[Hr Hne]]%elem_of_update_rows & Hrid & Hx).
      * destruct (Hf r0 Hr0 Hr0h) as (Hr0id & _). rewrite (Huniq r0) in Hx by done.
        destruct (proj1 (Forall_forall _ _) (proj1 Hk) h Hh) as (old & Hold).
        assert (table_view db !! id = Some old) as -> by (apply table_view_lookup; [done|]; by exists h).
        simpl. congruence.
      * rewrite (Huniq r) in Hne by done. congruence.
    + destruct (table_view db !! id) as [old|] eqn:Hold; simpl; [|done]. intros [= <-].
      exists (f h). split; [|done]. apply elem_of_update_rows. left. by exists h.
  - rewrite table_view_lookup by done. split.
    + intros (r & [(r0 & Hr0 & Hr0h & ->)|[Hr Hne]]%elem_of_update_rows & Hid' & Hx); [|by exists r].
      destruct Hid. destruct (Hf r0 Hr0 Hr0h) as (_ & Hfid & _). congruence.
    + intros (r & Hr & Hid' & Hx). exists r. split; [|done]. apply elem_of_update_rows. right. split; [done|].
      destruct (hit r) eqn:E; [|done]. destruct (Hf r Hr E) as (? & _). congruence.
Qed.

(** DELETE of the rows a test selects, all of one key. *)
Definition delete_rows (hit : R -> bool) (db : Table R) : Table R :=
  mkDB (List.filter (fun r => negb (hit r)) (db_rows db)) (db_fault db).

Lemma elem_of_delete_rows hit db r : r ∈ db_rows (delete_rows hit db) <-> hit r = false /\ r ∈ db_rows db.
Proof. unfold delete_rows. simpl. by rewrite elem_of_filter_bool, negb_true_iff. Qed.

Lemma keyed_delete db hit :
  keyed db ->
  keyed (delete_rows hit db) /\
  forall id b, table_view (delete_rows hit db) !! id = Some b <->
    exists r, r ∈ db_rows db /\ hit r = false /\ key r = id /\ scan r = Ok b.
Proof.
  intros Hk. assert (Hk' : keyed (delete_rows hit db)).
  { destruct Hk as (Hok & Hnd). split; [|by apply NoDup_filter_key].
    apply Forall_forall. intros r [_ Hr]%elem_of_delete_rows. by apply (proj1 (Forall_forall _ _) Hok). }
  split; [done|]. intros id b. rewrite table_view_lookup by done. split.
  - intros (r & [Hh Hr]%elem_of_delete_rows & ?). by exists r.
  - intros (r & Hr & Hh & ?). exists r. by rewrite elem_of_delete_rows.
Qed.
End view.
