(* ===== verification/Migrate.v ===== *)
(** Opening the databases: [boxsqlite.Open] and the workspace store's
    [sqlite.Open], which create the schema and migrate an older one.

    A statement is what SQLite parses; the engine is the part of SQLite's
    documented data definition language the two use: IF NOT EXISTS, ADD COLUMN
    with a default for the rows there are, and its refusals.  A cell holds the
    text of its value.  A database that fails a statement for reasons of its own
    is [db_broken].

    The theorems: opening a database of any earlier version gives every
    column the stores' statements name, keeps every row with what it held, and
    opening it again changes nothing. *)
From stdpp Require Import base option list strings gmap.
From Stdlib Require Import Ascii ZArith Lia.
From S2P Require Import Prelude GoStrings.
Local Open Scope string_scope.
Local Open Scope list_scope.

(** * The engine *)
Record DTable : Type := mkTable {
  tb_cols : list string;
  tb_rows : list (gmap string string)
}.
Record Database : Type := mkDatabase {
  db_tables : gmap string DTable;
  db_indexes : gset string;
  db_broken : option error
}.
(** A column of a CREATE TABLE or of ADD COLUMN, the latter with its default. *)
Inductive Stmt : Type :=
| CreateTable (t : string) (cols : list string)      (* IF NOT EXISTS *)
| CreateIndex (i t col : string)                     (* IF NOT EXISTS *)
| AddColumn (t col dflt : string).
Definition no_table (t : string) : error := Errorf ("SQL logic error: no such table: " +:+ t).
Definition run_stmt (s : Stmt) (d : Database) : result Database :=
  match s with
  | CreateTable t cols =>
      Ok (match db_tables d !! t with
          | Some _ => d
          | None => mkDatabase (<[t := mkTable cols []]> (db_tables d)) (db_indexes d) (db_broken d)
          end)
  | CreateIndex i t col =>
      if bool_decide (i ∈ db_indexes d) then Ok d
      else match db_tables d !! t with
      | None => Err (no_table t)
      | Some tb =>
          if bool_decide (col ∈ tb_cols tb) then Ok (mkDatabase (db_tables d) ({[i]} ∪ db_indexes d) (db_broken d))
          else Err (Errorf ("SQL logic error: no such column: " +:+ col))
      end
  | AddColumn t col dflt =>
      match db_tables d !! t with
      | None => Err (no_table t)
      | Some tb =>
          if bool_decide (col ∈ tb_cols tb) then Err (Errorf ("SQL logic error: duplicate column name: " +:+ col))
          else Ok (mkDatabase (<[t := mkTable (tb_cols tb ++ [col]) (map <[col := dflt]> (tb_rows tb))]> (db_tables d))
                     (db_indexes d) (db_broken d))
      end
  end.
Definition Exec (s : Stmt) : M Database unit := fun d =>
  match db_broken d with
  | Some e => (d, Err e)
  | None => match run_stmt s d with Ok d' => (d', Ok tt) | Err e => (d, Err e) end
  end.

(** * [boxsqlite.Open] *)
Definition box_schema : list Stmt :=
  [CreateTable "boxes" ["id"; "tenant_id"; "owner"; "name"; "image_ref"; "backend"; "mem_mb"; "cpu_millis"; "ephemeral";
     "grace_ns"; "max_ttl_ns"; "deadline"; "phase"; "instance_ref"; "ip"; "bootstrap_token"; "agent_connected"; "attached";
     "message"; "load"; "last_active"; "auto_suspend"; "keep_alive_until"; "idle_timeout_ns"; "agent_state"; "agent_status";
     "created_at"; "updated_at"];
   CreateIndex "idx_box_token" "boxes" "bootstrap_token";
   CreateIndex "idx_box_ip" "boxes" "ip"].
Definition box_migrations : list Stmt := [AddColumn "boxes" "agent_state" ""; AddColumn "boxes" "agent_status" ""].
(** One migration: a column that is there is fine. *)
Definition migrate (dup prefix : string) (m : Stmt) : M Database unit :=
  r ← try (Exec m);
  match r with
  | Err e => if contains_sub dup (Error e) then mret tt else throw (ErrWrap prefix e)
  | Ok _ => mret tt
  end.
Definition box_Open : M Database unit :=
  wrapping "box schema" (mfor box_schema Exec) ;;
  mfor box_migrations (migrate "duplicate column" "box migrate").
(** The columns the store's statements name ([cols]). *)
Definition box_cols : list string :=
  ["id"; "tenant_id"; "owner"; "name"; "image_ref"; "backend"; "mem_mb"; "cpu_millis"; "ephemeral"; "grace_ns";
   "max_ttl_ns"; "deadline"; "phase"; "instance_ref"; "ip"; "bootstrap_token"; "agent_connected"; "attached"; "message"; "load";
   "last_active"; "auto_suspend"; "keep_alive_until"; "idle_timeout_ns"; "agent_state"; "agent_status"; "created_at"; "updated_at"].

(** * The workspace store's [sqlite.Open] *)
Definition ws_schema : list Stmt :=
  [CreateTable "workspaces" ["id"; "tenant_id"; "owner"; "name"; "image_ref"; "mem_mb"; "cpu_millis"; "phase"; "instance_ref";
     "ip"; "home_mount"; "bootstrap_token"; "agent_connected"; "attached"; "message"; "ingress_spec"; "endpoints"; "backend";
     "lifetime"; "created_at"; "updated_at"];
   CreateIndex "idx_ws_token" "workspaces" "bootstrap_token"].
Definition ws_migrations : list Stmt :=
  [AddColumn "workspaces" "ingress_spec" "[]"; AddColumn "workspaces" "endpoints" "[]"; AddColumn "workspaces" "backend" "";
   AddColumn "workspaces" "lifetime" "{}"; AddColumn "workspaces" "attached" "0"; AddColumn "workspaces" "cpu_millis" "0";
   AddColumn "workspaces" "ip" ""].
Definition ws_Open : M Database unit :=
  wrapping "apply schema" (mfor ws_schema Exec) ;;
  mfor ws_migrations (migrate "duplicate column name" "migrate") ;;
  wrapping "migrate index" (Exec (CreateIndex "idx_ws_ip" "workspaces" "ip")).
Definition ws_cols : list string :=
  ["id"; "tenant_id"; "owner"; "name"; "image_ref"; "mem_mb"; "cpu_millis"; "phase"; "instance_ref"; "ip"; "home_mount";
   "bootstrap_token"; "agent_connected"; "attached"; "message"; "ingress_spec"; "endpoints"; "backend"; "lifetime";
   "created_at"; "updated_at"].

(** * Lemmas *)

(** A table grows into another: columns and cells are only added, the rows stay
    in place. *)
Definition grown (tb tb' : DTable) : Prop :=
  tb_cols tb ⊆ tb_cols tb' /\ Forall2 (fun r r' : gmap string string => forall c v, c ∈ tb_cols tb -> r !! c = Some v -> r' !! c = Some v)
    (tb_rows tb) (tb_rows tb').
#[local] Instance grown_preorder : PreOrder grown.
Proof.
  split.
  - intros tb. split; [done|]. by apply Forall_Forall2_diag, List.Forall_forall.
  - intros t1 t2 t3 [C12 R12] [C23 R23]. split; [set_solver|].
    apply Forall2_lookup. intros i. rewrite Forall2_lookup in R12, R23. specialize (R12 i). specialize (R23 i).
    destruct R12 as [r1 r2 R12|]; inversion R23 as [? r3 R23'|]; subst; constructor. intros c v Hc Hv. apply R23'; [set_solver|auto].
Qed.
Lemma grown_rows tb tb' : grown tb tb' -> length (tb_rows tb') = length (tb_rows tb).
Proof. intros [_ HR]. symmetry. by eapply Forall2_length. Qed.

(** A database that works and has a table. *)
Definition has (d : Database) (t : string) (tb : DTable) : Prop := db_broken d = None /\ db_tables d !! t = Some tb.

Lemma create_spec t cols d :
  db_broken d = None ->
  exists d' tb, Exec (CreateTable t cols) d = (d', Ok tt) /\ has d' t tb /\
    (db_tables d !! t = Some tb \/ db_tables d !! t = None /\ tb = mkTable cols []) /\ db_indexes d ⊆ db_indexes d'.
Proof.
  intros Hd. unfold Exec, has. rewrite Hd. simpl. destruct (db_tables d !! t) as [tb|] eqn:Ht.
  - exists d, tb. split_and!; [done..|by left|done].
  - eexists _, (mkTable cols []). split; [done|]. simpl. rewrite lookup_insert_eq. split_and!; [done..|by right|done].
Qed.
Lemma index_spec i t col d tb :
  has d t tb -> col ∈ tb_cols tb ->
  exists d', Exec (CreateIndex i t col) d = (d', Ok tt) /\ has d' t tb /\ i ∈ db_indexes d' /\ db_indexes d ⊆ db_indexes d'.
Proof.
  intros [Hd Ht] Hc. unfold Exec, has. rewrite Hd. simpl. case_bool_decide as Hi; [by exists d|].
  rewrite Ht, bool_decide_eq_true_2 by done. eexists. split; [done|]. simpl. split_and!; [done|done|set_solver..].
Qed.

Section migrate.
Variables dup prefix : string.
Hypothesis Hdup : forall col, contains_sub dup ("SQL logic error: duplicate column name: " +:+ col) = true.
Notation step := (migrate dup prefix).

Lemma migrate_spec t col dflt d tb :
  has d t tb ->
  exists d' tb', step (AddColumn t col dflt) d = (d', Ok tt) /\ has d' t tb' /\ grown tb tb' /\ col ∈ tb_cols tb' /\
    db_indexes d' = db_indexes d.
Proof.
  intros [Hd Ht]. unfold migrate, try, mbind, M_bind, Exec, has. rewrite Hd. simpl. rewrite Ht. case_bool_decide as Hc.
  - match goal with |- context [contains_sub dup ?s] => change s with ("SQL logic error: duplicate column name: " +:+ col) end.
    rewrite Hdup. exists d, tb. by split_and!.
  - eexists _, _. split; [done|]. simpl. rewrite lookup_insert_eq. split_and!; [done|done| |set_solver|done].
    split; simpl; [set_solver|]. apply Forall2_fmap_r, Forall_Forall2_diag, List.Forall_forall.
    intros r _ c v Hc' Hv. rewrite lookup_insert_ne; [done|set_solver].
Qed.
Lemma migrations_spec t ms d tb :
  has d t tb ->
  exists d' tb', mfor (map (fun m => AddColumn t m.1 m.2) ms) step d = (d', Ok tt) /\ has d' t tb' /\ grown tb tb' /\
    map fst ms ⊆ tb_cols tb' /\ db_indexes d' = db_indexes d.
Proof.
  revert d tb. induction ms as [|[col dflt] ms IH]; intros d tb Hh.
  - exists d, tb. split_and!; [done|done|done|set_solver|done].
  - destruct (migrate_spec t col dflt d tb Hh) as (d1 & tb1 & H1 & Hh1 & Hg1 & Hc1 & Hi1).
    destruct (IH d1 tb1 Hh1) as (d2 & tb2 & H2 & Hh2 & Hg2 & Hc2 & Hi2). exists d2, tb2. simpl.
    unfold mbind at 1, M_bind at 1. rewrite H1. split_and!; [done|done|by etrans| |congruence].
    pose proof (proj1 Hg2). set_solver.
Qed.
End migrate.

(** A statement whose work is done already. *)
Lemma create_again t cols d tb : has d t tb -> Exec (CreateTable t cols) d = (d, Ok tt).
Proof. intros [Hd Ht]. unfold Exec. rewrite Hd. simpl. by rewrite Ht. Qed.
Lemma index_again i t col d : db_broken d = None -> i ∈ db_indexes d -> Exec (CreateIndex i t col) d = (d, Ok tt).
Proof. intros Hd Hi. unfold Exec. rewrite Hd. simpl. by rewrite bool_decide_eq_true_2. Qed.
Lemma migrate_again dup prefix t col dflt d tb :
  (forall col, contains_sub dup ("SQL logic error: duplicate column name: " +:+ col) = true) ->
  has d t tb -> col ∈ tb_cols tb -> migrate dup prefix (AddColumn t col dflt) d = (d, Ok tt).
Proof.
  intros Hdup [Hd Ht] Hc. unfold migrate, try, mbind, M_bind, Exec. rewrite Hd. simpl. rewrite Ht, bool_decide_eq_true_2 by done.
  match goal with |- context [contains_sub dup ?s] => change s with ("SQL logic error: duplicate column name: " +:+ col) end.
  by rewrite Hdup.
Qed.
Lemma migrations_again dup prefix t ms d tb :
  (forall col, contains_sub dup ("SQL logic error: duplicate column name: " +:+ col) = true) ->
  has d t tb -> map fst ms ⊆ tb_cols tb ->
  mfor (map (fun m => AddColumn t m.1 m.2) ms) (migrate dup prefix) d = (d, Ok tt).
Proof.
  intros Hdup Hh. induction ms as [|[col dflt] ms IH]; intros Hc; [done|]. simpl.
  unfold mbind at 1, M_bind at 1. rewrite (migrate_again _ _ _ _ _ _ _ Hdup Hh) by set_solver. apply IH. set_solver.
Qed.
Lemma dup_box col : contains_sub "duplicate column" ("SQL logic error: duplicate column name: " +:+ col) = true.
Proof. reflexivity. Qed.
Lemma dup_ws col : contains_sub "duplicate column name" ("SQL logic error: duplicate column name: " +:+ col) = true.
Proof. reflexivity. Qed.

Lemma sub_check (l k : list string) : forallb (fun c => bool_decide (c ∈ k)) l = true -> l ⊆ k.
Proof. rewrite forallb_forall. intros Hf c Hc%list_elem_of_In. by apply Hf, bool_decide_eq_true_1 in Hc. Qed.
Lemma in_check (c : string) (k : list string) : bool_decide (c ∈ k) = true -> c ∈ k.
Proof. apply bool_decide_eq_true_1. Qed.

(** The table a store finds, whatever it was before. *)
Definition opened_from (t : string) (cols : list string) (d d' : Database) : Prop :=
  exists tb', has d' t tb' /\ cols ⊆ tb_cols tb' /\
    match db_tables d !! t with Some tb => grown tb tb' | None => tb_rows tb' = [] end.
(** The columns every version of the box table had. *)
Definition box_base : list string := filter (fun c => c ∉ ["agent_state"; "agent_status"]) box_cols.
Definition ws_base : list string := filter (fun c => c ∉ ["ingress_spec"; "endpoints"; "backend"; "lifetime"; "attached"; "cpu_millis"; "ip"]) ws_cols.
Definition holds (t : string) (base : list string) (d : Database) : Prop :=
  db_broken d = None /\ forall tb, db_tables d !! t = Some tb -> base ⊆ tb_cols tb.

(** Opening the box database makes every column its statements name be
    there, whether the database is new, current, or from before the agent's
    self-report: it succeeds, keeps every row in place with every cell, and a
    second opening changes nothing. *)
Theorem box_Open_ready (d : Database) :
  holds "boxes" box_base d ->
  exists d', box_Open d = (d', Ok tt) /\ opened_from "boxes" box_cols d d' /\ box_Open d' = (d', Ok tt).
Proof.
  intros [Hd Hbase].
  destruct (create_spec "boxes" box_cols d Hd) as (d1 & tb1 & H1 & Hh1 & Hfrom & Hi1).
  assert (Hb1 : box_base ⊆ tb_cols tb1).
  { destruct Hfrom as [Hs|[_ ->]]; [by apply Hbase|]. by apply sub_check. }
  destruct (index_spec "idx_box_token" "boxes" "bootstrap_token" d1 tb1 Hh1) as (d2 & H2 & Hh2 & Hx2 & Hi2).
  { by apply Hb1, in_check. }
  destruct (index_spec "idx_box_ip" "boxes" "ip" d2 tb1 Hh2) as (d3 & H3 & Hh3 & Hx3 & Hi3).
  { by apply Hb1, in_check. }
  destruct (migrations_spec "duplicate column" "box migrate" dup_box "boxes" [("agent_state", ""); ("agent_status", "")] d3 tb1 Hh3)
    as (d4 & tb4 & H4 & Hh4 & Hg4 & Hc4 & Hi4).
  exists d4. assert (Hready : box_cols ⊆ tb_cols tb4).
  { intros c Hc. destruct (decide (c ∈ box_base)) as [Hb|Hb]; [by apply (proj1 Hg4), Hb1|].
    apply Hc4. unfold box_base in Hb. rewrite list_elem_of_filter in Hb. simpl.
    destruct (decide (c ∈ ["agent_state"; "agent_status"])); [done|]. by destruct Hb. }
  split_and!.
  - unfold box_Open, box_schema, wrapping. cbn [mfor]. unfold mbind, M_bind. change (CreateTable "boxes" _) with (CreateTable "boxes" box_cols). rewrite H1, H2, H3. cbn. exact H4.
  - exists tb4. split_and!; [done|done|]. destruct Hfrom as [->|[-> ->]]; [done|].
    apply grown_rows in Hg4. by destruct (tb_rows tb4).
  - assert (Ht : db_broken d4 = None) by apply Hh4.
    unfold box_Open, box_schema, wrapping. cbn [mfor]. unfold mbind, M_bind.
    rewrite (create_again _ _ _ _ Hh4), !index_again by (done || set_solver). cbn.
    exact (migrations_again _ "box migrate" _ _ _ _ dup_box Hh4 Hc4).
Qed.

(** The same for the workspace database: whatever subset of the columns
    added since its first version the table lacks, opening adds them with their
    defaults, the index of the addresses last, keeps every row, and a second
    opening changes nothing. *)
Theorem ws_Open_ready (d : Database) :
  holds "workspaces" ws_base d ->
  exists d', ws_Open d = (d', Ok tt) /\ opened_from "workspaces" ws_cols d d' /\ ws_Open d' = (d', Ok tt).
Proof.
  intros [Hd Hbase].
  destruct (create_spec "workspaces" ws_cols d Hd) as (d1 & tb1 & H1 & Hh1 & Hfrom & Hi1).
  assert (Hb1 : ws_base ⊆ tb_cols tb1).
  { destruct Hfrom as [Hs|[_ ->]]; [by apply Hbase|]. by apply sub_check. }
  destruct (index_spec "idx_ws_token" "workspaces" "bootstrap_token" d1 tb1 Hh1) as (d2 & H2 & Hh2 & Hx2 & Hi2).
  { by apply Hb1, in_check. }
  set (ms := [("ingress_spec", "[]"); ("endpoints", "[]"); ("backend", ""); ("lifetime", "{}"); ("attached", "0");
              ("cpu_millis", "0"); ("ip", "")]).
  destruct (migrations_spec "duplicate column name" "migrate" dup_ws "workspaces" ms d2 tb1 Hh2) as (d3 & tb3 & H3 & Hh3 & Hg3 & Hc3 & Hi3).
  destruct (index_spec "idx_ws_ip" "workspaces" "ip" d3 tb3 Hh3) as (d4 & H4 & Hh4 & Hx4 & Hi4).
  { by apply Hc3, in_check. }
  exists d4. assert (Hready : ws_cols ⊆ tb_cols tb3).
  { intros c Hc. destruct (decide (c ∈ ws_base)) as [Hb|Hb]; [by apply (proj1 Hg3), Hb1|].
    apply Hc3. unfold ws_base in Hb. rewrite list_elem_of_filter in Hb. simpl.
    destruct (decide (c ∈ ["ingress_spec"; "endpoints"; "backend"; "lifetime"; "attached"; "cpu_millis"; "ip"])); [done|]. by destruct Hb. }
  change ws_migrations with (map (fun m => AddColumn "workspaces" m.1 m.2) ms) in *.
  split_and!.
  - unfold ws_Open, ws_schema, wrapping. cbn [mfor]. unfold mbind, M_bind.
    change (CreateTable "workspaces" _) with (CreateTable "workspaces" ws_cols).
    change ws_migrations with (map (fun m => AddColumn "workspaces" m.1 m.2) ms).
    rewrite H1, H2. cbn [map_err mret M_ret]. rewrite H3, H4. done.
  - exists tb3. split_and!; [done|done|]. destruct Hfrom as [->|[-> ->]]; [done|].
    apply grown_rows in Hg3. by destruct (tb_rows tb3).
  - assert (Ht : db_broken d4 = None) by apply Hh4.
    unfold ws_Open, ws_schema, wrapping. cbn [mfor]. unfold mbind, M_bind.
    change ws_migrations with (map (fun m => AddColumn "workspaces" m.1 m.2) ms).
    rewrite (create_again _ _ _ _ Hh4), index_again by (done || set_solver). cbn [map_err mret M_ret].
    rewrite (migrations_again _ "migrate" _ _ _ _ dup_ws Hh4 Hc3), index_again by done. done.
Qed.

(** A database from before the ingress columns, with a workspace in it. *)
Definition old_row : gmap string string := list_to_map [("id", "0a1b"); ("name", "proj"); ("phase", "running")].
Definition old_db : Database :=
  mkDatabase {["workspaces" := mkTable ws_base [old_row]]} ∅ None.
Lemma ws_Open_ready_witness :
  exists d', ws_Open old_db = (d', Ok tt) /\ opened_from "workspaces" ws_cols old_db d' /\ ws_Open d' = (d', Ok tt).
Proof.
  apply ws_Open_ready. split; [reflexivity|]. intros tb Htb. vm_compute in Htb. injection Htb as <-. by apply sub_check.
Defined.
Lemma box_Open_ready_witness :
  let fresh := mkDatabase ∅ ∅ None in
  exists d', box_Open fresh = (d', Ok tt) /\ opened_from "boxes" box_cols fresh d' /\ box_Open d' = (d', Ok tt).
Proof. apply (box_Open_ready (mkDatabase ∅ ∅ None)). split; [reflexivity|]. intros tb Htb. vm_compute in Htb. discriminate Htb. Defined.
Example migrated_row :
  (r ← (tb_rows <$> db_tables (ws_Open old_db).1 !! "workspaces") ≫= head; Some (r !! "name", r !! "lifetime", r !! "ip"))
  = Some (Some "proj", Some "{}", Some "").
Proof. vm_compute. reflexivity. Qed.
(** A table without the migrated columns cannot be indexed by [schema.sql],
    which is why the last index is made after the migrations. *)
Example index_too_early : (Exec (CreateIndex "idx_ws_ip" "workspaces" "ip") old_db).2 = Err (Errorf "SQL logic error: no such column: ip").
Proof. vm_compute. reflexivity. Qed.
