(* ===== verification/BoxSqlite.v ===== *)
(** boxd's persistent store ([internal/core/boxsqlite/boxsqlite.go]): the
    [boxes] table as rows of SQL values, the text and integer encodings of a
    box's fields, and the statements the store runs, shown to meet the contract
    of [Store].

    The SQL engine is not part of the source: the order in which it returns the
    rows of a SELECT without ORDER BY is the parameter [plan], and the error of a
    violated constraint is [constraint_err].  Instants are written in UTC; the
    code writes the few it took in the local zone with that zone's offset, which
    is the same instant when read back. *)
From stdpp Require Import base option list strings gmap fin_maps sorting.
From Stdlib Require Import ZArith Lia.
From S2P Require Import Prelude GoStrings GoTime Json Sql Box Store.
Local Open Scope Z_scope.

(** * Rows *)
Record Row : Type := mkRow {
  r_id : string;
  r_tenant_id : string;
  r_owner : string;
  r_name : string;
  r_image_ref : string;
  r_backend : string;
  r_mem_mb : Z;
  r_cpu_millis : Z;
  r_ephemeral : Z;
  r_grace_ns : Z;
  r_max_ttl_ns : Z;
  r_deadline : string;
  r_phase : string;
  r_instance_ref : string;
  r_ip : string;
  r_bootstrap_token : string;
  r_agent_connected : Z;
  r_attached : Z;
  r_message : string;
  r_load : float64;
  r_last_active : string;
  r_auto_suspend : Z;
  r_keep_alive_until : string;
  r_idle_timeout_ns : Z;
  r_agent_state : string;
  r_agent_status : string;
  r_created_at : string;
  r_updated_at : string
}.


(** [Store]: the one connection to the database. *)
Definition DB : Type := Table Row.

Definition b2i (b : bool) : Z := if b then 1 else 0.

Definition deadlineStr (b : Box) : string :=
  match b_Deadline b with None => ""%string | Some d => Format d end.
Definition lastActiveStr (b : Box) : string :=
  if IsZero (b_LastActive b) then ""%string else Format (b_LastActive b).
Definition keepAliveStr (b : Box) : string :=
  if IsZero (b_KeepAliveUntil b) then ""%string else Format (b_KeepAliveUntil b).

(** The arguments of the INSERT, in column order. *)
Definition insert_row (b : Box) : Row :=
  mkRow (b_ID b) (b_TenantID b) (b_Owner b) (b_Name b) (b_ImageRef b) (b_Backend b)
    (b_MemMB b) (b_CPUMillis b) (b2i (b_Ephemeral b)) (b_Grace b) (b_MaxTTL b) (deadlineStr b)
    (phase_string (b_Phase b)) (b_InstanceRef b) (b_IP b) (b_BootstrapToken b)
    (b2i (b_AgentConnected b)) (b2i (b_Attached b)) (b_Message b) (b_Load b) (lastActiveStr b)
    (b2i (b_AutoSuspend b)) (keepAliveStr b) (b_IdleTimeoutOverride b)
    (b_AgentState b) (b_AgentStatus b) (Format (b_CreatedAt b)) (Format (b_UpdatedAt b)).

(** The UPDATE's SET list: every column but id, tenant, owner, name and
    creation time. *)
Definition update_row (b : Box) (r : Row) : Row :=
  mkRow (r_id r) (r_tenant_id r) (r_owner r) (r_name r) (b_ImageRef b) (b_Backend b)
    (b_MemMB b) (b_CPUMillis b) (b2i (b_Ephemeral b)) (b_Grace b) (b_MaxTTL b) (deadlineStr b)
    (phase_string (b_Phase b)) (b_InstanceRef b) (b_IP b) (b_BootstrapToken b)
    (b2i (b_AgentConnected b)) (b2i (b_Attached b)) (b_Message b) (b_Load b) (lastActiveStr b)
    (b2i (b_AutoSuspend b)) (keepAliveStr b) (b_IdleTimeoutOverride b)
    (b_AgentState b) (b_AgentStatus b) (r_created_at r) (Format (b_UpdatedAt b)).

Definition parse_ts (prefix s : string) : result time :=
  match Parse s with
  | Some t => Ok t
  | None => Err (ErrWrap prefix (Errorf ("parsing time " +:+ quote s)))
  end.
(** An empty text is an unset instant. *)
Definition parse_opt (column s : string) : result (option time) :=
  if bool_decide (s = ""%string) then Ok None
  else Some <$> parse_ts ("parse " +:+ column +:+ " " +:+ quote s) s.

Definition scan (r : Row) : result Box :=
  la ← parse_opt "last_active" (r_last_active r);
  ka ← parse_opt "keep_alive_until" (r_keep_alive_until r);
  dl ← parse_opt "deadline" (r_deadline r);
  created ← parse_ts "parse created_at" (r_created_at r);
  updated ← parse_ts "parse updated_at" (r_updated_at r);
  Ok (mkBox (r_id r) (r_tenant_id r) (r_owner r) (r_name r) (r_image_ref r) (r_backend r)
        (r_mem_mb r) (r_cpu_millis r) (negb (r_ephemeral r =? 0)) (r_grace_ns r) (r_max_ttl_ns r) dl
        (negb (r_auto_suspend r =? 0)) (default zero_time ka) (r_idle_timeout_ns r)
        (phase_of_string (r_phase r)) (r_instance_ref r) (r_ip r) (r_bootstrap_token r)
        (negb (r_agent_connected r =? 0)) (negb (r_attached r =? 0)) (r_message r) (r_load r)
        (default zero_time la) (r_agent_state r) (r_agent_status r) created updated).

(** * Statements *)
Section statements.
Variable plan : list Row -> list Row.
Variable constraint_err : error.

Definition order_by_updated_desc : list Row -> list Row := order_by_desc r_updated_at.

Definition one (order : list Row -> list Row) (where_ : Row -> bool) : M DB Box :=
  exec (fun db => (db, match order (select plan where_ db) with
                       | [] => Err ErrNotFound
                       | r :: _ => scan r
                       end)).

Definition Get (tenant id : string) : M DB Box :=
  one (fun l => l) (fun r => bool_decide (r_id r = id)).
Definition GetByName (tenant name : string) : M DB Box :=
  one (fun l => l) (fun r => bool_decide (r_tenant_id r = tenant) && bool_decide (r_name r = name)).
Definition GetByToken (token : string) : M DB Box :=
  if bool_decide (token = ""%string) then throw ErrNotFound
  else one (fun l => l) (fun r => bool_decide (r_bootstrap_token r = token)).
Definition GetByIP (ip : string) : M DB Box :=
  if bool_decide (ip = ""%string) then throw ErrNotFound
  else one order_by_updated_desc (fun r => bool_decide (r_ip r = ip)).

Definition scan_all : list Row -> result (list Box) := scan_rows scan.

Definition List (tenant : string) : M DB (list Box) :=
  exec (fun db => (db, scan_all (select plan (fun r =>
    bool_decide (tenant = ""%string) || bool_decide (r_tenant_id r = tenant)) db))).

(** PRIMARY KEY and UNIQUE(tenant_id, owner, name). *)
Definition violates (r r' : Row) : bool :=
  bool_decide (r_id r = r_id r') ||
  (bool_decide (r_tenant_id r = r_tenant_id r') && bool_decide (r_owner r = r_owner r') &&
   bool_decide (r_name r = r_name r')).

Definition Create (b : Box) : M DB unit :=
  exec (fun db =>
    if existsb (violates (insert_row b)) (db_rows db) then (db, Err constraint_err)
    else (mkDB (db_rows db ++ [insert_row b]) (db_fault db), Ok tt)).

Definition Update (now : time) (b : Box) : M DB Box :=
  let b := b <| b_UpdatedAt := now |> in
  exec (fun db => (update_rows (fun r => bool_decide (r_id r = b_ID b)) (update_row b) db, Ok b)).

Definition Delete (tenant id : string) : M DB unit :=
  exec (fun db => (delete_rows (fun r => bool_decide (r_id r = id)) db, Ok tt)).

#[export] Instance boxsqlite_store : BoxStore DB := {|
  st_Get := Get; st_GetByName := GetByName; st_List := List;
  st_Create := Create; st_Update := Update; st_Delete := Delete
|}.
End statements.

(** * Lemmas: rows *)
Lemma b2i_true b : negb (b2i b =? 0) = b.
Proof. by destruct b. Qed.

Lemma Format_nonempty t : Format t <> ""%string.
Proof.
  unfold Format, format_secs. destruct (civil_of_days _) as [[y m] d].
  intros Hf. apply (f_equal slen) in Hf. repeat (rewrite slen_app in Hf; simpl in Hf). lia.
Qed.

Lemma parse_opt_format column t : in_range t -> parse_opt column (Format t) = Ok (Some t).
Proof.
  intros Ht. unfold parse_opt, parse_ts.
  rewrite bool_decide_eq_false_2 by apply Format_nonempty. by rewrite Parse_Format.
Qed.

Lemma parse_opt_unset column t :
  in_range t ->
  exists o, parse_opt column (if IsZero t then ""%string else Format t) = Ok o /\ default zero_time o = t.
Proof.
  intros Ht. unfold IsZero. destruct (t =? 0) eqn:E; go_bool; subst.
  - by exists None.
  - exists (Some t). by rewrite parse_opt_format.
Qed.

Lemma scan_columns r b la ka dl :
  parse_opt "last_active" (r_last_active r) = Ok la -> default zero_time la = b_LastActive b ->
  parse_opt "keep_alive_until" (r_keep_alive_until r) = Ok ka -> default zero_time ka = b_KeepAliveUntil b ->
  parse_opt "deadline" (r_deadline r) = Ok dl -> dl = b_Deadline b ->
  Parse (r_created_at r) = Some (b_CreatedAt b) -> Parse (r_updated_at r) = Some (b_UpdatedAt b) ->
  scan r = Ok (mkBox (r_id r) (r_tenant_id r) (r_owner r) (r_name r) (r_image_ref r) (r_backend r)
        (r_mem_mb r) (r_cpu_millis r) (negb (r_ephemeral r =? 0)) (r_grace_ns r) (r_max_ttl_ns r) (b_Deadline b)
        (negb (r_auto_suspend r =? 0)) (b_KeepAliveUntil b) (r_idle_timeout_ns r)
        (phase_of_string (r_phase r)) (r_instance_ref r) (r_ip r) (r_bootstrap_token r)
        (negb (r_agent_connected r =? 0)) (negb (r_attached r =? 0)) (r_message r) (r_load r)
        (b_LastActive b) (r_agent_state r) (r_agent_status r) (b_CreatedAt b) (b_UpdatedAt b)).
Proof.
  intros H1 <- H2 <- H3 -> H4 H5. unfold scan. rewrite H1. simpl. rewrite H2. simpl. rewrite H3. simpl.
  unfold parse_ts. rewrite H4. simpl. by rewrite H5.
Qed.

Lemma scan_update_row b r :
  storable b -> r_id r = b_ID b -> r_tenant_id r = b_TenantID b -> r_owner r = b_Owner b ->
  r_name r = b_Name b -> Parse (r_created_at r) = Some (b_CreatedAt b) ->
  scan (update_row b r) = Ok b.
Proof.
  intros (Hp & Hg & Hd & Hk & Hl & Hc & Hu & _) Hid Ht Ho Hn Hcr.
  destruct (parse_opt_unset "last_active" _ Hl) as (la & Hla & Hla').
  destruct (parse_opt_unset "keep_alive_until" _ Hk) as (ka & Hka & Hka').
  rewrite (scan_columns _ b la ka (b_Deadline b)); simpl; try done.
  - rewrite !b2i_true, Hp, Hid, Ht, Ho, Hn. by destruct b.
  - unfold deadlineStr. destruct (b_Deadline b) as [d|]; [|done]. by apply parse_opt_format, Hd.
  - by apply Parse_Format.
Qed.

Lemma scan_insert b : storable b -> scan (insert_row b) = Ok b.
Proof.
  intros Hs. change (insert_row b) with (update_row b (insert_row b)).
  apply scan_update_row; try done. apply Parse_Format. by destruct Hs as (_ & _ & _ & _ & _ & ? & _).
Qed.

(** C9. Storing a box and reading its row back loses nothing: [scan] inverts
    the INSERT's encoding of every field, for every box whose instants RFC
    3339 can write and whose phase is not a misspelt constant. *)
Theorem scan_insert_row b : storable b -> scan (insert_row b) = Ok b.
Proof. apply scan_insert. Qed.

Lemma scan_insert_row_witness :
  let b := (New "0a1b" (Second * 63835596800) "t1" "alice" "proj" "ubuntu") <| b_Deadline := Some (Second * 63835596900 + 5) |> in
  scan (insert_row b) = Ok b.
Proof. intros b. apply (scan_insert_row b), storableb_ok. vm_compute. reflexivity. Defined.

(** * The abstract view *)
Definition db_view : DB -> gmap string Box := table_view r_id scan.

Definition row_ok (r : Row) : Prop := exists b, scan r = Ok b /\ storable b.
Definition db_inv (db : DB) : Prop :=
  Forall row_ok (db_rows db) /\ NoDup (r_id <$> db_rows db) /\
  (forall r r', r ∈ db_rows db -> r' ∈ db_rows db -> violates r r' = true -> r_id r = r_id r').
Definition db_healthy (db : DB) : Prop := db_fault db = None.

(** What scanning keeps of a row's key. *)
Lemma scan_key r b :
  scan r = Ok b ->
  b_ID b = r_id r /\ b_TenantID b = r_tenant_id r /\ b_Owner b = r_owner r /\ b_Name b = r_name r /\
  Parse (r_created_at r) = Some (b_CreatedAt b).
Proof.
  unfold scan, parse_ts. intros Hs.
  repeat match type of Hs with
  | (?x ≫= _) = _ => destruct x eqn:?; [cbn [mbind result_bind] in Hs|done]
  end.
  destruct (Parse (r_created_at r)) eqn:Hc; simplify_eq. done.
Qed.

Lemma db_keyed db : db_inv db -> keyed r_id scan db.
Proof. intros (Hok & Hnd & _). split; [|done]. eapply Forall_impl; [exact Hok|]. intros r (b & Hb & _). eauto. Qed.

Lemma db_view_lookup db id b :
  db_inv db -> db_view db !! id = Some b <-> exists r, r ∈ db_rows db /\ r_id r = id /\ scan r = Ok b.
Proof. intros Hi. by apply table_view_lookup, db_keyed. Qed.

Lemma db_row db r : db_inv db -> r ∈ db_rows db -> exists b, scan r = Ok b /\ storable b.
Proof. intros (Hok & _) Hr. by apply (proj1 (Forall_forall _ _) Hok). Qed.

Section laws.
Variable plan : list Row -> list Row.
Hypothesis plan_perm : forall l, plan l ≡ₚ l.
Variable constraint_err : error.

Lemma Get_law tenant id db :
  db_inv db ->
  wp (Get plan tenant id) (fun db' r => db' = db /\
    (forall b, r = Ok b -> db_view db !! id = Some b) /\
    (db_healthy db -> forall b, db_view db !! id = Some b -> b_TenantID b = tenant -> r = Ok b) /\
    (db_healthy db -> db_view db !! id = None -> r = Err ErrNotFound)) db.
Proof.
  intros Hi. unfold Get, one, db_healthy. apply wp_exec.
  { intros e He. split_and!; congruence. }
  intros _. unfold wp. set (where_ := fun r => bool_decide (r_id r = id)).
  pose proof (fun r => elem_of_select plan plan_perm where_ db r) as Hsel.
  destruct (select plan where_ db) as [|r l] eqn:Hs.
  - assert (Hn : db_view db !! id = None).
    { apply eq_None_not_Some. intros [b Hb]. apply db_view_lookup in Hb as (r & Hr & Hid & _); [|done].
      specialize (Hsel r). apply not_elem_of_nil with r. apply Hsel. unfold where_. by rewrite bool_decide_eq_true_2. }
    split_and!; try done. congruence.
  - assert (Hin : r_id r = id /\ r ∈ db_rows db).
    { destruct (proj1 (Hsel r) ltac:(left)) as [Hw ?]. unfold where_ in Hw. by go_bool. }
    destruct Hin as [Hid Hin]. destruct (proj1 (Forall_forall _ _) (proj1 Hi) r Hin) as (b & Hb & _).
    assert (Hv : db_view db !! id = Some b) by (apply db_view_lookup; eauto).
    rewrite Hb, Hv. split_and!; try done; congruence.
Qed.

Lemma List_law tenant db :
  db_inv db ->
  wp (List plan tenant) (fun db' r => db' = db /\
    (forall l, r = Ok l -> NoDup (b_ID <$> l) /\
       forall b, b ∈ l <-> db_view db !! b_ID b = Some b /\ (tenant = ""%string \/ b_TenantID b = tenant)) /\
    (db_healthy db -> is_ok r = true)) db.
Proof.
  intros Hi. unfold List, db_healthy. apply wp_exec; [intros e He; split_and!; congruence|].
  intros _. unfold wp. set (where_ := fun r => _ || _).
  assert (Hok : Forall (fun r => exists b, scan r = Ok b) (select plan where_ db)).
  { apply Forall_forall. intros r [_ Hr]%elem_of_select; [|done]. destruct (db_row db r Hi Hr) as (b & ? & _). eauto. }
  destruct (scan_rows_ok _ _ Hok) as (bs & Hbs & Hf). unfold scan_all. rewrite Hbs.
  assert (Hids : b_ID <$> bs = r_id <$> select plan where_ db).
  { clear -Hf. induction Hf as [|r b l bs Hs _ IH]; [done|].
    rewrite !fmap_cons, IH. by rewrite (proj1 (scan_key _ _ Hs)). }
  split_and!; [done| |done]. intros l [= <-]. split.
  - rewrite Hids. apply NoDup_select; [done|]. by destruct Hi as (_ & ? & _).
  - intros b. rewrite (scan_rows_elem _ _ _ _ Hf), (db_view_lookup _ _ _ Hi). unfold where_. split.
    + intros (r & Hr & Hs). apply elem_of_select in Hr as [Hw Hr]; [|done]. pose proof (scan_key _ _ Hs) as (-> & -> & _).
      split; [by eauto|]. apply orb_true_iff in Hw as [?|?]; go_bool; auto.
    + intros [(r & Hr & Hid & Hs) Ht]. exists r. split; [|done]. apply elem_of_select; [done|]. split; [|done].
      pose proof (scan_key _ _ Hs) as (_ & Htn & _). apply orb_true_iff.
      destruct Ht as [->| <-]; [left|right]; by apply bool_decide_eq_true_2.
Qed.

Lemma existsb_violates b db :
  existsb (violates (insert_row b)) (db_rows db) = false ->
  forall r, r ∈ db_rows db -> violates (insert_row b) r = false.
Proof.
  intros He r Hr. destruct (violates _ r) eqn:Hv; [|done].
  rewrite <- He. symmetry. apply existsb_exists. exists r. by rewrite <- list_elem_of_In.
Qed.

Lemma violates_sym r r' : violates r r' = violates r' r.
Proof.
  unfold violates. f_equal; [by apply bool_decide_ext|].
  f_equal; [f_equal|]; by apply bool_decide_ext.
Qed.

Lemma Create_law b db :
  db_inv db -> storable b ->
  wp (Create constraint_err b) (fun db' r => db_inv db' /\ (db_healthy db -> db_healthy db') /\
    match r with
    | Ok _ => db_view db !! b_ID b = None /\ exists b', b' ≡ b /\ db_view db' = <[b_ID b := b']> (db_view db)
    | Err _ => db_view db' = db_view db
    end) db.
Proof.
  intros Hi Hs. unfold Create. apply wp_exec; [done|]. intros Hh. unfold wp.
  destruct (existsb _ _) eqn:Hex; [done|].
  pose proof (existsb_violates _ _ Hex) as Hnv.
  assert (Hnew : forall r, r ∈ db_rows db -> r_id r <> b_ID b).
  { intros r Hr Heq. specialize (Hnv r Hr). unfold violates in Hnv. simpl in Hnv. go_bool. congruence. }
  pose proof (scan_insert b Hs) as Hscan.
  destruct (keyed_insert _ _ db (insert_row b) b (db_keyed _ Hi) Hscan Hnew) as [[Hok Hnd] Hv].
  split_and!; [|done| |by exists b].
  - destruct Hi as (Hrow & _ & Hkey). split_and!; [|done|].
    + apply Forall_app. split; [done|]. constructor; [by exists b|done].
    + simpl. intros r r' [Hr| ->%list_elem_of_singleton]%elem_of_app [Hr'| ->%list_elem_of_singleton]%elem_of_app Hvi.
      * by apply Hkey.
      * rewrite violates_sym, Hnv in Hvi by done. done.
      * rewrite Hnv in Hvi by done. done.
      * done.
  - by apply (table_view_none r_id scan); [apply db_keyed|].
Qed.

Lemma Update_law now b db :
  db_inv db -> storable b -> in_range now ->
  (forall old, db_view db !! b_ID b = Some old -> same_key old b) ->
  wp (Update now b) (fun db' r => db_inv db' /\ (db_healthy db -> db_healthy db') /\
    match r with
    | Ok b2 => b2 ≡ b /\ storable b2 /\
               exists b', b' ≡ b /\ db_view db' = alter (fun _ => b') (b_ID b) (db_view db)
    | Err _ => db_view db' = db_view db /\ ~ (db_healthy db /\ is_Some (db_view db !! b_ID b))
    end) db.
Proof.
  intros Hi Hs Hnow Hkey. unfold Update. set (b1 := b <| b_UpdatedAt := now |>).
  assert (Hs1 : storable b1) by (unfold storable in *; simpl; naive_solver).
  apply wp_exec; [intros e He; split_and!; try done; unfold db_healthy; intros [? _]; congruence|].
  intros Hh. unfold wp. set (hit := fun r => bool_decide (r_id r = b_ID b1)).
  assert (Hhit : forall r, r ∈ db_rows db -> hit r = true ->
    r_id r = b_ID b /\ r_id (update_row b1 r) = b_ID b /\ scan (update_row b1 r) = Ok b1).
  { intros r Hr Hid. unfold hit in Hid. simpl in Hid. go_bool. split_and!; [done..|].
    destruct (db_row db r Hi Hr) as (old & Hold & _).
    pose proof (scan_key _ _ Hold) as (H1 & H2 & H3 & H4 & H5).
    destruct (Hkey old) as (K1 & K2 & K3 & K4 & K5).
    { apply db_view_lookup; [done|]. exists r. by rewrite Hid. }
    apply scan_update_row; simpl; congruence. }
  destruct (keyed_update r_id scan db hit (update_row b1) _ b1 (db_keyed _ Hi) Hhit) as ([Hok Hnd] & Hsome & Hnone).
  split_and!; [|done|by constructor|done|].
  - destruct Hi as (Hrow & _ & Hk). split_and!; [|done|].
    + apply Forall_forall. intros r [(r0 & Hr0 & Hid & ->)|[Hr _]]%elem_of_update_rows.
      * exists b1. split; [by apply Hhit|done].
      * by apply (proj1 (Forall_forall _ _) Hrow).
    + intros r r' Hr Hr'. assert (Hpre : forall x, x ∈ db_rows (update_rows hit (update_row b1) db) ->
        exists x0, x0 ∈ db_rows db /\ r_id x0 = r_id x /\ r_tenant_id x0 = r_tenant_id x /\
                   r_owner x0 = r_owner x /\ r_name x0 = r_name x).
      { intros x [(x0 & ? & ? & ->)|[? ?]]%elem_of_update_rows; [by exists x0|by exists x]. }
      destruct (Hpre r Hr) as (r0 & Hr0 & E0 & E1 & E2 & E3), (Hpre r' Hr') as (r0' & Hr0' & E0' & E1' & E2' & E3').
      intros Hv. rewrite <- E0, <- E0'. apply Hk; [done..|]. revert Hv. unfold violates.
      by rewrite <- E0, <- E1, <- E2, <- E3, <- E0', <- E1', <- E2', <- E3'.
  - exists b1. split; [by constructor|].
    destruct (existsb hit (db_rows db)) eqn:Hex.
    + apply Hsome. apply existsb_exists in Hex as (r & Hr & ?). exists r. by rewrite list_elem_of_In.
    + assert (Hno : forall r, r ∈ db_rows db -> hit r = false).
      { intros r Hr. destruct (hit r) eqn:E; [|done]. rewrite <- Hex. symmetry. apply existsb_exists.
        exists r. by rewrite <- list_elem_of_In. }
      change (db_view (update_rows hit (update_row b1) db)) with (table_view r_id scan (update_rows hit (update_row b1) db)).
      rewrite Hnone by done. change (table_view r_id scan db) with (db_view db).
      symmetry. apply map_eq. intros j. rewrite lookup_alter. case_decide; [subst j|done].
      assert (db_view db !! b_ID b = None) as ->; [|done]. apply (table_view_none r_id scan); [by apply db_keyed|].
      intros r Hr Hid. specialize (Hno r Hr). unfold hit in Hno. simpl in Hno. by go_bool.
Qed.

Lemma Delete_law tenant id db :
  db_inv db ->
  wp (Delete tenant id) (fun db' r => db_inv db' /\ (db_healthy db -> db_healthy db') /\
    match r with
    | Ok _ => db_view db' = delete id (db_view db) \/
              (db_view db' = db_view db /\ exists b, db_view db !! id = Some b /\ b_TenantID b <> tenant)
    | Err _ => db_view db' = db_view db /\ ~ db_healthy db
    end) db.
Proof.
  intros Hi. unfold Delete. apply wp_exec; [intros e He; split_and!; try done; unfold db_healthy; congruence|].
  intros Hh. unfold wp. set (hit := fun r => bool_decide (r_id r = id)).
  destruct (keyed_delete r_id scan db hit (db_keyed _ Hi)) as ([Hok Hnd] & Hv).
  split_and!; [|done|].
  - destruct Hi as (Hrow & _ & Hk). split_and!; [|done|].
    + apply Forall_forall. intros r [_ Hr]%elem_of_delete_rows. by apply (proj1 (Forall_forall _ _) Hrow).
    + intros r r' [_ Hr]%elem_of_delete_rows [_ Hr']%elem_of_delete_rows. by apply Hk.
  - left. apply view_ext. intros j x. unfold db_view. rewrite Hv, lookup_delete_Some, table_view_lookup by by apply db_keyed.
    unfold hit. split.
    + intros (r & Hr & Hne & <- & Hx). go_bool. split; [done|by exists r].
    + intros [Hne (r & Hr & <- & Hx)]. exists r. by rewrite bool_decide_eq_false_2.
Qed.

(** The store meets its clients' contract. *)
#[export] Instance boxsqlite_spec : @BoxStoreSpec DB (boxsqlite_store plan constraint_err).
Proof.
  refine {| st_view := db_view; st_inv := db_inv; st_healthy := db_healthy |}.
  - intros db id b Hi (r & Hr & Hid & Hs)%db_view_lookup; [|done].
    destruct (proj1 (Forall_forall _ _) (proj1 Hi) r Hr) as (b' & Hs' & Hst).
    rewrite Hs in Hs'. simplify_eq. by rewrite (proj1 (scan_key _ _ Hs)).
  - intros db i j b c Hi (r & Hr & <- & Hs)%db_view_lookup (r' & Hr' & <- & Hs')%db_view_lookup Ht Ho Hn; [|done..].
    destruct Hi as (_ & _ & Hk). apply Hk; [done..|]. unfold violates.
    apply scan_key in Hs as (_ & <- & <- & <- & _). apply scan_key in Hs' as (_ & <- & <- & <- & _).
    rewrite Ht, Ho, Hn. apply orb_true_iff. right. by rewrite !bool_decide_eq_true_2.
  - intros. by apply Get_law.
  - intros. by apply List_law.
  - intros. by apply Create_law.
  - intros. by apply Update_law.
  - intros. by apply Delete_law.
Defined.

(** * Lookup by address *)
Lemma ltb_asym s t : String.ltb s t = true -> String.ltb t s = false.
Proof.
  unfold String.ltb. rewrite (String.compare_antisym t s).
  destruct (String.compare s t); simpl; congruence.
Qed.

Lemma GetByIP_two ip stale current :
  ip <> ""%string -> b_IP stale = ip -> b_IP current = ip -> storable stale ->
  String.ltb (Format (b_UpdatedAt current)) (Format (b_UpdatedAt stale)) = true ->
  snd (GetByIP plan ip (mkDB [insert_row stale; insert_row current] None)) = Ok stale.
Proof.
  intros Hip Hs Hc Hst Hlt. unfold GetByIP, one, exec, select. simpl.
  rewrite bool_decide_eq_false_2 by done. simpl.
  destruct (Permutation_length_2_inv (symmetry (plan_perm [insert_row stale; insert_row current]))) as [-> | ->];
    simpl; rewrite Hs, Hc, !bool_decide_eq_true_2 by done; simpl.
  - rewrite (ltb_asym _ _ Hlt). by apply scan_insert.
  - rewrite Hlt. by apply scan_insert.
Qed.

(** [GetByIP] orders by the stored text of [updated_at], and RFC 3339 with
    trimmed fractions does not sort by time: of two rows holding an address,
    one written on a whole second and one written later in that second, the
    older row is the one returned, whatever order the engine scans in. *)
Theorem GetByIP_stale_wins ip stale current secs ns :
  ip <> ""%string -> b_IP stale = ip -> b_IP current = ip -> storable stale ->
  b_UpdatedAt stale = secs * Second -> b_UpdatedAt current = secs * Second + ns -> 0 < ns < Second ->
  b_UpdatedAt stale < b_UpdatedAt current /\
  snd (GetByIP plan ip (mkDB [insert_row stale; insert_row current] None)) = Ok stale.
Proof.
  intros Hip Hs Hc Hst Hus Huc Hns. split; [lia|]. apply GetByIP_two; try done.
  rewrite Hus, Huc. by apply Format_whole_after_fraction.
Qed.
End laws.

Lemma GetByIP_stale_wins_witness :
  let old := (New "0a" (Second * 63835596800) "t" "alice" "a" "ubuntu") <| b_IP := "10.1.2.3"%string |> in
  let new := (New "0b" (Second * 63835596800) "t" "bob" "b" "ubuntu") <| b_IP := "10.1.2.3"%string |>
               <| b_UpdatedAt := 63835596800 * Second + 250000000 |> in
  snd (GetByIP (fun l => l) "10.1.2.3" (mkDB [insert_row old; insert_row new] None)) = Ok old.
Proof.
  intros old new.
  apply (GetByIP_stale_wins (fun l => l) (fun l => reflexivity l) "10.1.2.3" old new 63835596800 250000000);
    [done|done|done|apply storableb_ok; vm_compute; reflexivity|..|done]; vm_compute; done.
Defined.
