(* ===== verification/Lifecycle.v ===== *)
(** What the reconciler guarantees ([internal/core/box/reconcile.go]): the
    properties of single steps, sweeps and the shutdown drain, derived from the
    refinement of [Reconcile] for any store meeting its contract, any compute
    provider and any host hooks that leave the box table alone. *)
From stdpp Require Import base option list strings gmap fin_maps relations.
From Stdlib Require Import ZArith Lia.
From S2P Require Import Prelude GoStrings GoTime Box Ports Store World Reconcile.
Local Open Scope Z_scope.

(** * The specification itself *)

Lemma settled_phase now b : b_Phase (settled now b) = b_Phase b.
Proof. by destruct (settled_cases now b) as [-> | ->]. Qed.

Lemma entered_phase now b p msg : b_Phase (entered now b p msg) = p.
Proof. by unfold entered. Qed.

Lemma lifecycle_legal idle now b b' :
  lifecycle idle now b (Some b') -> CanTransition (b_Phase b) (b_Phase b') = true.
Proof.
  intros Hl. inversion Hl as [? He|? ? Hp ? He|? Hp ? He|? Hp ? He|? ? ? ? Hp ? He|? ? ? Hp He
    |? Hp ? He|? Hp ? ? ? ? ? He|? Hp ? He|]; subst; rewrite He; simpl; rewrite ?Hp; try done.
  - apply CanTransition_refl.
  - unfold may_provision in Hp. destruct Hp as [Hp|[(Hp & _)|(Hp & _)]]; by rewrite Hp.
  - unfold may_provision in Hp. destruct Hp as [[Hp|[(Hp & _)|(Hp & _)]]|[Hp _]]; by rewrite Hp.
Qed.

(** A step never re-keys a box nor changes the tier it was created in. *)
Definition same_tier (b b' : Box) : Prop :=
  same_key b b' /\ b_Ephemeral b' = b_Ephemeral b /\ b_Attached b' = b_Attached b.

#[export] Instance same_tier_proper : Proper ((≡) ==> (≡) ==> iff) same_tier.
Proof. intros ?? ->%forget_eq ?? ->%forget_eq. reflexivity. Qed.

Lemma lifecycle_tier idle now b b' : lifecycle idle now b (Some b') -> same_tier b b'.
Proof.
  intros Hl. inversion Hl as [? He|? ? Hp ? He|? Hp ? He|? Hp ? He|? ? ? ? Hp ? He|? ? ? Hp He
    |? Hp ? He|? Hp ? ? ? ? ? He|? Hp ? He|]; subst; rewrite He; try done;
  try (unfold entered; by destruct (_ && _)); by destruct (settled_cases now b) as [-> | ->].
Qed.

Lemma lifecycle_persistent idle now b o :
  b_Ephemeral b = false -> b_Phase b <> PhaseDestroying -> lifecycle idle now b o ->
  exists b', o = Some b' /\ b_Phase b' <> PhaseDestroying.
Proof.
  intros He Hd Hl. inversion Hl as [? Hb|? ? Hp ? Hb|? Hp ? Hb|? Hp Hr Hb|? ? ? ? Hp ? Hb|? ? ? Hp Hb
    |? Hp ? Hb|? Hp ? ? ? ? ? Hb|? Hp ? Hb|Hg]; subst; try (eexists; split; [done|]; rewrite Hb; simpl; try done; congruence).
  - rewrite EvalLifetime_persistent in Hr by done. done.
  - destruct Hg as [?|[_ ?]]; congruence.
Qed.

Section steps.
Context {S C H : Type} `{BoxStoreSpec S} `{Compute C}.
Notation W := (World S C H).
Implicit Types w : W.
Variable newToken : nat -> string.
Hypothesis newToken_nonempty : forall n, newToken n <> ""%string.
Variable cfg : ReconcileConfig S H.
Hypothesis cfg_hooks : forall hk, rc_Hooks cfg = Some hk -> hooks_frame hk.

(** The box table of a world. *)
Definition boxes (w : W) : gmap string Box := st_view (wStore w).

Lemma ReconcileOne_moved tenant id w w' r :
  st_inv (wStore w) -> clock_ok (wNow w) -> ReconcileOne newToken cfg tenant id w = (w', r) ->
  moved id (boxes w' !! id) w w' /\
  (forall b, boxes w !! id = Some b -> lifecycle (rc_Idle cfg) (wNow w) b (boxes w' !! id)) /\
  (boxes w !! id = None -> boxes w' !! id = None).
Proof.
  intros Hi Hclk He. unfold boxes.
  pose proof (wp_elim _ _ _ _ _ (ReconcileOne_stepped newToken newToken_nonempty cfg cfg_hooks tenant id w Hi Hclk) He) as Hs.
  simpl in Hs. destruct (st_view (wStore w) !! id) as [b|] eqn:Hb.
  - destruct Hs as [Hm Hl]. split; [done|]. split; [by intros ? [= <-]|done].
  - pose proof (moved_at _ _ _ _ Hs) as Hn. inversion Hn as [|Hv]; subst.
    split_and!; [done|done|done].
Qed.

(** C1. One reconcile step of a box refines the abstract lifecycle: whatever
    the store, the compute provider and the hooks answer, the store's invariant
    and the clock are kept, every other box keeps its row (up to the fields a
    store stamps itself), and the box's row moves as [lifecycle] allows; an id
    with no row gets none. *)
Theorem ReconcileOne_refines tenant id w w' r :
  st_inv (wStore w) -> clock_ok (wNow w) -> ReconcileOne newToken cfg tenant id w = (w', r) ->
  st_inv (wStore w') /\ wNow w' = wNow w /\
  (forall j, j <> id -> boxes w' !! j ≡ boxes w !! j) /\
  (forall b, boxes w !! id = Some b -> lifecycle (rc_Idle cfg) (wNow w) b (boxes w' !! id)) /\
  (boxes w !! id = None -> boxes w' !! id = None).
Proof.
  intros Hi Hclk He. destruct (ReconcileOne_moved _ _ _ _ _ Hi Hclk He) as ((Hi' & Hn & Hm) & Hl & Hnone).
  split_and!; try done. intros j Hj. specialize (Hm j). by rewrite decide_False in Hm.
Qed.

(** Every phase change a reconcile step makes is a legal transition of the
    phase machine, including those of [provision], [fail] and [destroy], which
    write the phase without asking [CanTransition]. *)
Theorem ReconcileOne_legal tenant id w w' r b b' :
  st_inv (wStore w) -> clock_ok (wNow w) -> ReconcileOne newToken cfg tenant id w = (w', r) ->
  boxes w !! id = Some b -> boxes w' !! id = Some b' ->
  CanTransition (b_Phase b) (b_Phase b') = true /\ same_tier b b'.
Proof.
  intros Hi Hclk He Hb Hb'. destruct (ReconcileOne_moved _ _ _ _ _ Hi Hclk He) as (_ & Hl & _).
  specialize (Hl b Hb). rewrite Hb' in Hl. split; [by eapply lifecycle_legal|by eapply lifecycle_tier].
Qed.

#[export] Instance settled_proper now : Proper ((≡) ==> (≡)) (settled now).
Proof.
  intros b c Hbc. unfold settled. assert (b_Phase b = b_Phase c) as -> by by rewrite Hbc.
  assert (EvalLifetime b now = EvalLifetime c now) as -> by by rewrite Hbc.
  destruct (_ && _); [|done].
  rewrite (forget_eq _ _ Hbc). by constructor.
Qed. (*X*)
#[export] Instance entered_proper now : Proper ((≡) ==> (=) ==> (=) ==> (≡)) (entered now).
Proof.
  intros x y ->%forget_eq ?? -> ?? ->. unfold entered. constructor. simpl.
  change (IsZero (b_LastActive (y <| b_UpdatedAt := b_UpdatedAt x |> <| b_AgentState := b_AgentState x |>
    <| b_AgentStatus := b_AgentStatus x |>))) with (IsZero (b_LastActive y)).
  by destruct (bool_decide _ && _).
Qed.
#[export] Instance may_provision_proper now : Proper ((≡) ==> iff) (may_provision now).
Proof. intros ?? ->%forget_eq. reflexivity. Qed.

(** The specification does not look at the fields a store stamps itself. *)
#[export] Instance lifecycle_proper idle now : Proper ((≡) ==> (≡) ==> iff) (lifecycle idle now).
Proof.
  cut (Proper ((≡) ==> (≡) ==> impl) (lifecycle idle now)).
  { intros Himp b c Hbc o o' Ho. split; by apply Himp. }
  intros b c Hbc o o' Ho Hl.
  assert (EvalLifetime b now = EvalLifetime c now) as Hev by by rewrite Hbc.
  assert (b_Phase b = b_Phase c) as Hph by by rewrite Hbc.
  inversion Ho as [x y Hxy|]; subst; [|apply lc_gone; inversion Hl as [| | | | | | | | |Hg]; by rewrite <- Hbc].
  inversion Hl as [? He|? d Hp Hd He|? Hp ? He|? Hp ? He|? ? ? ? Hp ? He|? ? ? Hp He
    |? Hp ? He|? Hp ? ? ? ? ? He|? Hp ? He|]; subst; rewrite Hxy in He; rewrite ?Hph, ?Hev in *.
  - apply lc_same. by rewrite He.
  - eapply lc_countdown; [done..|]. rewrite He, (forget_eq _ _ Hbc). by constructor.
  - apply lc_cancel; [done..|]. rewrite He, (forget_eq _ _ Hbc). by constructor.
  - apply lc_reap; [done..|]. by rewrite He, Hbc.
  - eapply lc_provision; [by rewrite <- Hbc|done|]. by rewrite He, Hbc.
  - eapply lc_fail; [by rewrite <- Hbc, Hph|]. by rewrite He, Hbc.
  - apply lc_start; [done|by rewrite <- Hbc|]. by rewrite He, Hbc.
  - apply lc_suspend; [done|by rewrite <- Hbc..|]. rewrite He. apply entered_proper; [|done..].
    rewrite (forget_eq _ _ Hbc). by constructor.
  - apply lc_resume; [done|by rewrite <- Hbc|]. by rewrite He, Hbc.
Qed.

(** * Sweeps *)

(** What a sweep leaves of a table, box by box, when the boxes in [ids] took a
    step and no other did. *)
Definition swept (ids : list string) (w0 w : W) : Prop :=
  st_inv (wStore w) /\ wNow w = wNow w0 /\
  forall j, if decide (j ∈ ids)
            then match boxes w0 !! j with
                 | Some b => lifecycle (rc_Idle cfg) (wNow w0) b (boxes w !! j)
                 | None => boxes w !! j = None
                 end
            else boxes w !! j ≡ boxes w0 !! j.

Lemma swept_step ids id tenant w0 w w' r :
  id ∉ ids -> clock_ok (wNow w0) -> swept ids w0 w -> ReconcileOne newToken cfg tenant id w = (w', r) ->
  swept (ids ++ [id]) w0 w'.
Proof.
  intros Hni Hclk (Hi & Hn & Hs) He.
  destruct (ReconcileOne_moved tenant id w w' r) as ((Hi' & Hn' & Hm) & Hl & Hnone); [done|by rewrite Hn|done|].
  split_and!; [done|congruence|]. intros j. specialize (Hs j). specialize (Hm j).
  destruct (decide (j = id)) as [->|Hj].
  - rewrite decide_True by (apply elem_of_app; right; by left). rewrite decide_False in Hs by done.
    destruct (boxes w !! id) as [b1|] eqn:Hb1, (boxes w0 !! id) as [b|]; try (by inversion Hs).
    + apply (inj Some) in Hs. rewrite <- Hs, <- Hn. by apply Hl.
    + by apply Hnone.
  - change (boxes w' !! j ≡ boxes w !! j) in Hm. destruct (decide (j ∈ ids)) as [Hin|Hin].
    + rewrite decide_True by (apply elem_of_app; by left).
      destruct (boxes w0 !! j); [by rewrite Hm|]. rewrite Hs in Hm. by inversion Hm.
    + rewrite decide_False by (rewrite elem_of_app, list_elem_of_singleton; naive_solver). by rewrite Hm.
Qed.

Lemma swept_refl w : st_inv (wStore w) -> swept [] w w.
Proof. intros Hi. split_and!; [done..|]. intros j. by rewrite decide_False by apply not_elem_of_nil. Qed.

Lemma swept_mfor w0 l : clock_ok (wNow w0) ->
  forall done_ids w, swept done_ids w0 w -> NoDup (done_ids ++ (b_ID <$> l)) ->
  wp (mfor l (fun b => ignore (ReconcileOne newToken cfg (b_TenantID b) (b_ID b))))
     (fun w' r => r = Ok tt /\ swept (done_ids ++ (b_ID <$> l)) w0 w') w.
Proof.
  intros Hclk. induction l as [|b l IH]; intros ids w Hs Hnd.
  { apply wp_ret. by rewrite app_nil_r. }
  cbn [mfor]. wp_step. wp_step. apply wp_intro. intros w' r He. rewrite fmap_cons, cons_middle, app_assoc in Hnd |- *.
  apply IH; [|done]. eapply swept_step; [|done..].
  apply NoDup_app in Hnd as ((_ & Hd & _)%NoDup_app & _). intros Hin. apply (Hd _ Hin). by left.
Qed.

Lemma sweep_swept w :
  st_inv (wStore w) -> clock_ok (wNow w) ->
  wp (sweep newToken cfg) (fun w' r => r = Ok tt /\
    ((exists ids, dom (boxes w) ≡ list_to_set ids /\ swept ids w w') \/ (w' = w /\ ~ st_healthy (wStore w)))) w.
Proof.
  intros Hi Hclk. unfold sweep. wp_step. wp_step. apply wp_on_store.
  eapply wp_mono; [by apply st_List_spec|]. intros s' r (-> & Hl & Hh).
  replace (w <| wStore := wStore w |>) with w by by destruct w. cbv beta iota.
  destruct r as [l|e]; [|apply wp_ret; split; [done|]; right; split; [done|]; by intros ?%Hh].
  destruct (Hl l eq_refl) as [Hnd Hin].
  eapply wp_mono; [apply (swept_mfor w l Hclk []); [by apply swept_refl|done]|].
  intros w' r [-> Hs]. split; [done|]. left. exists (b_ID <$> l). split; [|exact Hs].
  intros id. rewrite elem_of_dom, elem_of_list_to_set, list_elem_of_fmap. split.
  - intros [b Hb]. exists b. destruct (st_view_id _ _ _ Hi Hb) as [Hid _]. split; [done|].
    apply Hin. rewrite Hid. auto.
  - intros (b & -> & Hb). apply Hin in Hb as [Hb _]. by exists b.
Qed.

(** A sweep takes every box through exactly one lifecycle step: when the
    store lists its rows, each box of the table moves by one step from where it
    stood when the sweep began, whatever happens to the others; when the store
    does not, nothing changes.  No box appears. *)
Theorem sweep_steps w w' r :
  st_inv (wStore w) -> clock_ok (wNow w) -> sweep newToken cfg w = (w', r) ->
  r = Ok tt /\ st_inv (wStore w') /\ wNow w' = wNow w /\
  ((forall id, match boxes w !! id with
               | Some b => lifecycle (rc_Idle cfg) (wNow w) b (boxes w' !! id)
               | None => boxes w' !! id = None
               end) \/
   (w' = w /\ ~ st_healthy (wStore w))).
Proof.
  intros Hi Hclk He. destruct (wp_all _ _ _ _ _ He (sweep_swept w Hi Hclk)) as [-> [(ids & Hd & Hs)|[-> Hh]]].
  - destruct Hs as (Hi' & Hn & Hs). split_and!; [done..|]. left. intros id. specialize (Hs id).
    specialize (Hd id). rewrite elem_of_dom, elem_of_list_to_set in Hd. case_decide as Hin; [done|].
    destruct (boxes w !! id); [|by inversion Hs]. destruct Hin. apply Hd. by eexists.
  - split_and!; [done..|]. by right.
Qed.

(** A box table in which every box is persistent and failed does not move. *)
Lemma lifecycle_failed idle now b o :
  b_Ephemeral b = false -> b_Phase b = PhaseFailed -> lifecycle idle now b o -> o ≡ Some b.
Proof.
  intros He Hf Hl. inversion Hl as [? Hb|? ? Hp ? Hb|? Hp ? Hb|? Hp Hr Hb|? ? ? ? Hp ? Hb|? ? ? Hp Hb
    |? Hp ? Hb|? Hp ? ? ? ? ? Hb|? Hp ? Hb|Hg]; subst; try congruence.
  - by constructor.
  - unfold may_provision in Hp. destruct Hp as [Hp|[[Hp _]|[Hp _]]]; congruence.
  - unfold may_provision in Hp. destruct Hp as [[Hp|[[Hp _]|[Hp _]]]|[Hp _]]; congruence.
  - destruct Hg as [?|[_ ?]]; congruence.
Qed.

(** * Progress: what a step does when the store works *)

Definition ready (w : W) : Prop := st_inv (wStore w) /\ st_healthy (wStore w) /\ clock_ok (wNow w).
Definition holds (w : W) (id : string) (b : Box) : Prop := boxes w !! id ≡ Some b.

#[export] Instance holds_proper : Proper ((=) ==> (=) ==> (≡) ==> iff) holds.
Proof. intros ?? -> ?? -> ?? Hb. unfold holds. by rewrite Hb. Qed.

Lemma holds_row w id b :
  ready w -> holds w id b -> exists c, boxes w !! id = Some c /\ c ≡ b /\ b_ID c = id /\ storable c.
Proof.
  intros [Hi _] Hb. unfold holds in Hb. destruct (boxes w !! id) as [c|] eqn:Hc; [|by inversion Hb].
  exists c. split; [done|]. split; [by apply (inj Some)|]. by apply (st_view_id _ _ _ Hi).
Qed.

Lemma wp_get_ready {A} tenant id c (f : Box -> M W A) Q w :
  ready w -> boxes w !! id = Some c -> b_TenantID c = tenant -> wp (f c) Q w ->
  wp (on_store (st_Get tenant id) ≫= f) Q w.
Proof.
  intros (Hi & Hh & _) Hc Ht HQ. wp_step. apply wp_on_store.
  eapply wp_mono; [by apply st_Get_spec|]. intros s' r (-> & _ & Hr & _).
  rewrite (Hr Hh c Hc Ht). by destruct w.
Qed.

Lemma wp_update_ready id c b w :
  ready w -> boxes w !! id = Some c -> b_ID c = id -> same_key c b -> storable b ->
  wp (update b) (fun w' r => ready w' /\ wNow w' = wNow w /\ wCompute w' = wCompute w /\
    exists b2, r = Ok b2 /\ b2 ≡ b /\ storable b2 /\ holds w' id b) w.
Proof.
  intros (Hi & Hh & Hclk) Hc Hid Hk Hs. unfold update, clock. wp_step. apply wp_gets. apply wp_on_store.
  assert (b_ID b = id) as Hid' by (destruct Hk; congruence).
  eapply wp_mono; [apply st_Update_spec; [done|done|by apply clock_in_range|]|].
  { intros old. rewrite Hid'. unfold boxes in Hc. rewrite Hc. by intros [= <-]. }
  intros s' r (Hi' & Hh' & Hr). specialize (Hh' Hh).
  destruct r as [b2|e]; [|destruct Hr as [_ []]; split; [done|]; rewrite Hid'; by exists c].
  destruct Hr as (Hb2 & Hs2 & b' & Hb' & Hv). split_and!; try done. exists b2. split_and!; [done..|].
  unfold holds, boxes in *. simpl. rewrite Hv, Hid', lookup_alter, decide_True, Hc by done. by constructor.
Qed.

Lemma wp_setPhase_ready id c b p msg w :
  ready w -> boxes w !! id = Some c -> b_ID c = id -> same_key c b -> storable b -> phase_storable p ->
  CanTransition (b_Phase b) p = true ->
  wp (setPhase b p msg) (fun w' r => r = Ok tt /\ ready w' /\ wNow w' = wNow w /\ wCompute w' = wCompute w /\
    holds w' id (entered (wNow w) b p msg)) w.
Proof.
  intros Hr Hb Hid Hk Hs Hp Hc. unfold setPhase. rewrite Hc. simpl. unfold clock. wp_step. apply wp_gets. wp_step.
  eapply wp_mono; [apply (wp_update_ready id c); [done..| |]|].
  - unfold entered. by destruct (_ && _).
  - destruct Hr as (_ & _ & Hclk%clock_in_range). unfold storable in *. destruct (_ && _); simpl; naive_solver.
  - intros w' r (Hr' & Hn & Hcm & b2 & -> & _ & _ & Hh). apply wp_ret. done.
Qed.

(** The lifetime half of a detached ephemeral box's step. *)
Definition after_lifetime (now : time) (b : Box) : Box :=
  let act := EvalLifetime b now in
  if ra_Reap act then entered now b PhaseDestroying "ephemeral: lifetime expired"
  else match ra_SetDeadline act with Some d => b <| b_Deadline := Some d |> | None => b end.

Lemma detached_SetDeadline b now d :
  b_Attached b = false -> ra_Reap (EvalLifetime b now) = false ->
  (ra_SetDeadline (EvalLifetime b now) = Some d -> d = now + b_Grace b) /\
  ra_ClearDeadline (EvalLifetime b now) = false.
Proof.
  intros Ha Hr. destruct (EvalLifetime_cases b now) as [?|[[-> Hc]|(_ & -> & -> & _)]]; [congruence| |].
  - split; [done|]. apply not_true_is_false. intros ?%Hc. congruence.
  - split; [by intros [= <-]|done].
Qed.

Lemma wp_detached_step tenant id b w :
  ready w -> holds w id b -> b_TenantID b = tenant -> b_Phase b = PhaseRunning ->
  b_Ephemeral b = true -> b_Attached b = false ->
  wp (ReconcileOne newToken cfg tenant id) (fun w' r => r = Ok tt /\ ready w' /\ wNow w' = wNow w /\
    wCompute w' = wCompute w /\ holds w' id (after_lifetime (wNow w) b)) w.
Proof.
  intros Hrd Hb Ht Hph He Ha. destruct (holds_row _ _ _ Hrd Hb) as (c & Hc & Hcb & Hid & Hs).
  assert (Hcc : after_lifetime (wNow w) c ≡ after_lifetime (wNow w) b).
  { unfold after_lifetime. assert (EvalLifetime c (wNow w) = EvalLifetime b (wNow w)) as -> by by rewrite Hcb.
    destruct (ra_Reap _); [by rewrite Hcb|]. destruct (ra_SetDeadline _); [|done].
    rewrite (forget_eq _ _ Hcb). by constructor. }
  unfold ReconcileOne. eapply wp_get_ready; [done..|by rewrite Hcb|].
  assert (b_Phase c = PhaseRunning) as Hph' by by rewrite Hcb.
  assert (b_Attached c = false) as Ha' by by rewrite Hcb.
  rewrite Hph'. assert (b_Ephemeral c = true) as -> by by rewrite Hcb. wp_step.
  unfold reconcileLifetime. wp_step. apply wp_gets. unfold after_lifetime in Hcc at 1.
  destruct (ra_Reap (EvalLifetime c (wNow w))) eqn:Hreap.
  - wp_step. eapply wp_mono; [apply (wp_setPhase_ready id c); [done..|by rewrite Hph']|].
    intros w' r (-> & Hrd' & Hn & Hcm & Hh). do 2 apply wp_ret. by rewrite <- Hcc.
  - destruct (detached_SetDeadline c (wNow w) (wNow w + b_Grace c) Ha' Hreap) as [_ Hclr].
    destruct (ra_SetDeadline (EvalLifetime c (wNow w))) as [d|] eqn:Hd.
    + destruct (detached_SetDeadline c (wNow w) d Ha' Hreap) as [Hdd _].
      specialize (Hdd Hd). subst d. wp_step. eapply wp_mono; [apply (wp_update_ready id c); [done..|]|].
      * destruct Hrd as (_ & _ & Hclk). unfold storable, clock_ok, in_int64, in_range in *. simpl.
        split_and!; try naive_solver. intros d [= <-].
        destruct (EvalLifetime_cases c (wNow w)) as [?|[[??]|(_ & _ & _ & ?)]]; [congruence..|]. lia.
      * intros w' r (Hrd' & Hn & Hcm & b2 & -> & Hb2 & Hs2 & Hh). wp_step. rewrite Hclr.
        do 2 apply wp_ret. assert (b_Attached b2 = false) as -> by by rewrite Hb2.
        apply wp_ret. by rewrite <- Hcc.
    + wp_step. apply wp_ret. wp_step. rewrite Hclr. do 2 apply wp_ret. rewrite Ha'. apply wp_ret. split_and!; try done.
      rewrite <- Hcc. unfold holds. by rewrite Hc.
Qed.

(** The provider destroys the instance it is asked to. *)
Definition destroys (ref : string) : Prop := ref = ""%string \/ forall c : C, snd (cp_Destroy ref c) = Ok tt.

Lemma wp_destroying_step tenant id b w :
  ready w -> holds w id b -> b_TenantID b = tenant -> b_Phase b = PhaseDestroying -> destroys (b_InstanceRef b) ->
  wp (ReconcileOne newToken cfg tenant id) (fun w' r => r = Ok tt /\ boxes w' !! id = None) w.
Proof.
  intros Hrd Hb Ht Hph Hd. destruct (holds_row _ _ _ Hrd Hb) as (c & Hc & Hcb & Hid & Hs).
  unfold ReconcileOne. eapply wp_get_ready; [done..|by rewrite Hcb|].
  assert (b_Phase c = PhaseDestroying) as -> by by rewrite Hcb.
  assert (b_InstanceRef c = b_InstanceRef b) as Href by by rewrite Hcb.
  assert (b_TenantID c = tenant) as Htc by by rewrite Hcb.
  unfold destroy. wp_step.
  eapply (wp_mono _ (fun w1 r => r = Ok tt /\ st_inv (wStore w1) /\ st_healthy (wStore w1) /\
            boxes w1 ≡ boxes w)).
  { destruct Hrd as (Hi & Hh & Hclk%clock_in_range). destruct (rc_Hooks cfg) as [hk|] eqn:Hk; [|by apply wp_ret].
    wp_step. unfold on_hooks. apply wp_zoom.
    eapply wp_mono; [by apply (cfg_hooks hk eq_refl c (wNow w) (wStore w) (wHooks w) Hi)|].
    intros [s' h'] r (Hi' & Hv & Hh'). split_and!; try done. by apply Hh'. }
  intros w1 r (-> & Hi1 & Hh1 & Hv1). wp_step. rewrite Href.
  eapply (wp_mono _ (fun w2 r => r = Ok tt /\ wStore w2 = wStore w1)).
  { destruct Hd as [-> |Hd]; [by apply wp_ret|]. case_bool_decide; [by apply wp_ret|]. simpl.
    unfold on_compute. apply wp_zoom, wp_intro. intros c' r Hr. specialize (Hd (wCompute w1)). by rewrite Hr in Hd. }
  intros w2 r [-> Hs2]. apply wp_on_store. rewrite Hs2.
  eapply wp_mono; [by apply st_Delete_spec|]. intros s' r (_ & _ & Hr).
  destruct r as [[]|e]; [|by destruct Hr as [_ []]]. split; [done|]. unfold boxes. simpl. rewrite Hid in Hr.
  destruct Hr as [-> |[_ (b0 & Hb0 & Hne)]]; [by rewrite lookup_delete_eq|].
  destruct Hne. specialize (Hv1 id). unfold boxes in *. rewrite Hb0, Hc in Hv1.
  apply (inj Some) in Hv1. by rewrite Hv1.
Qed.

(** The periodic sweep reaching a box at time [t]. *)
Definition tick (tenant id : string) (t : time) : M W unit :=
  modify (fun w => w <| wNow := t |>) ;; ignore (ReconcileOne newToken cfg tenant id).

(** Ready at any time the clock may show. *)
Definition working (w : W) : Prop := st_inv (wStore w) /\ st_healthy (wStore w).

Lemma wp_tick_detached tenant id b t w :
  working w -> clock_ok t -> holds w id b -> b_TenantID b = tenant -> b_Phase b = PhaseRunning ->
  b_Ephemeral b = true -> b_Attached b = false ->
  wp (tick tenant id t) (fun w' r => r = Ok tt /\ working w' /\ holds w' id (after_lifetime t b)) w.
Proof.
  intros [Hi Hh] Ht Hb Htn Hph He Ha. unfold tick. wp_step. apply wp_modify. wp_step.
  eapply wp_mono; [by apply (wp_detached_step tenant id b)|].
  intros w' r (-> & (? & ? & _) & _ & _ & Hh'). done.
Qed.

Lemma wp_ticks_pending tenant id b d ts w :
  working w -> Forall clock_ok ts -> Forall (fun t => t < d) ts -> holds w id b -> b_TenantID b = tenant ->
  b_Phase b = PhaseRunning -> b_Ephemeral b = true -> b_Attached b = false -> b_MaxTTL b <= 0 ->
  0 < b_Grace b -> b_Deadline b = Some d ->
  wp (mfor ts (tick tenant id)) (fun w' r => r = Ok tt /\ working w' /\ holds w' id b) w.
Proof.
  intros Hw Hclk Hts Hb Ht Hph He Ha Hm Hg Hd. revert w Hw Hb.
  induction Hts as [|t ts Hlt _ IH]; intros w Hw Hb; [by apply wp_ret|].
  inversion_clear Hclk as [|? ? Ht0 Hclk']. cbn [mfor]. wp_step.
  eapply wp_mono; [by apply (wp_tick_detached tenant id b)|]. intros w' r (-> & Hw' & Hb').
  apply IH; [done..|]. revert Hb'. unfold after_lifetime. rewrite EvalLifetime_detached by auto.
  rewrite (proj2 (Z.leb_gt _ _) Hg), Hd, (proj2 (Z.leb_gt _ _) Hlt). done.
Qed.

Lemma countdown tenant id b t0 ts t1 t2 w w1 w2 r1 r2 :
  working w -> Forall clock_ok (t0 :: t1 :: t2 :: ts) ->
  holds w id b -> b_TenantID b = tenant -> b_Phase b = PhaseRunning -> b_Ephemeral b = true ->
  b_Attached b = false -> b_MaxTTL b <= 0 -> 0 < b_Grace b -> b_Deadline b = None ->
  Forall (fun t => t < t0 + b_Grace b) ts -> t0 + b_Grace b <= t1 -> destroys (b_InstanceRef b) ->
  mfor (t0 :: ts) (tick tenant id) w = (w1, r1) -> mfor [t1; t2] (tick tenant id) w1 = (w2, r2) ->
  holds w1 id (b <| b_Deadline := Some (t0 + b_Grace b) |>) /\ boxes w2 !! id = None.
Proof.
  intros Hw Hclk Hb Ht Hph He Ha Hm Hg Hdl Hts Ht1 Hd E1 E2.
  inversion_clear Hclk as [|? ? C0 Hclk']. inversion_clear Hclk' as [|? ? C1 Hclk].
  inversion_clear Hclk as [|? ? C2 Cts].
  set (bd := b <| b_Deadline := Some (t0 + b_Grace b) |>).
  assert (Hmid : working w1 /\ holds w1 id bd).
  { apply (wp_all _ (fun w1 _ => working w1 /\ holds w1 id bd) _ _ _ E1). cbn [mfor]. wp_step.
    eapply wp_mono; [apply (wp_tick_detached tenant id b); try done|].
    intros w' r (-> & Hw' & Hb'). revert Hb'. unfold after_lifetime. rewrite EvalLifetime_detached by auto.
    rewrite (proj2 (Z.leb_gt _ _) Hg), Hdl. intros Hb'.
    eapply wp_mono; [by apply (wp_ticks_pending tenant id bd (t0 + b_Grace b))|]. by intros ? ? (_ & ? & ?). }
  destruct Hmid as [Hw1 Hb1]. split; [done|].
  apply (wp_all _ (fun w2 _ => boxes w2 !! id = None) _ _ _ E2). cbn [mfor]. wp_step.
  eapply wp_mono; [by apply (wp_tick_detached tenant id bd)|]. intros w' r (-> & Hw' & Hb').
  revert Hb'. unfold after_lifetime. rewrite EvalLifetime_detached by auto. simpl.
  rewrite (proj2 (Z.leb_gt _ _) Hg), (proj2 (Z.leb_le _ _) Ht1). simpl. intros Hb'.
  wp_step. unfold tick. wp_step. apply wp_modify. wp_step. destruct Hw'.
  eapply wp_mono; [by eapply (wp_destroying_step tenant id)|]. by intros w'' r (-> & Hn).
Qed.

(** C6. The grace countdown runs as specified: when the owner's session is
    gone, the first tick stamps a deadline one grace period ahead, ticks before
    it change nothing (none restarts the countdown), the first tick at or after
    it marks the box for destruction, and the next one removes its row once the
    provider has destroyed the instance. *)
Theorem countdown_timeline tenant id b t0 ts t1 t2 w w1 w2 r1 r2 :
  st_inv (wStore w) -> st_healthy (wStore w) -> Forall clock_ok (t0 :: t1 :: t2 :: ts) ->
  boxes w !! id = Some b -> b_TenantID b = tenant -> b_Phase b = PhaseRunning -> b_Ephemeral b = true ->
  b_Attached b = false -> b_MaxTTL b <= 0 -> 0 < b_Grace b -> b_Deadline b = None ->
  Forall (fun t => t < t0 + b_Grace b) ts -> t0 + b_Grace b <= t1 -> destroys (b_InstanceRef b) ->
  mfor (t0 :: ts) (tick tenant id) w = (w1, r1) -> mfor [t1; t2] (tick tenant id) w1 = (w2, r2) ->
  boxes w1 !! id ≡ Some (b <| b_Deadline := Some (t0 + b_Grace b) |>) /\ boxes w2 !! id = None.
Proof.
  intros Hi Hh Hclk Hb. intros. eapply countdown; try done. unfold holds. by rewrite Hb.
Qed.

(** * Shutdown *)

(** The boxes a drain suspends, and what it leaves of one. *)
Definition drainable (tenant : string) (b : Box) : Prop :=
  b_Ephemeral b = false /\ b_Phase b = PhaseRunning /\ (tenant = ""%string \/ b_TenantID b = tenant).
Definition drained (now : time) (b : Box) : Box :=
  entered now (b <| b_AgentConnected := false |>) PhaseSuspended "suspended (shutdown)".

(** Every instance the drain asks for is suspended. *)
Definition suspends (susp : Suspender C) : Prop := forall ref (c : C), snd (cp_Suspend ref c) = Ok tt.

Definition drain_outcome (susp : Suspender C) (healthy : Prop) (now : time) (b : Box) (o : option Box) : Prop :=
  (o ≡ Some b \/ (b_Ephemeral b = false /\ b_Phase b = PhaseRunning /\ o ≡ Some (drained now b))) /\
  (healthy -> suspends susp -> b_Ephemeral b = false -> b_Phase b = PhaseRunning -> o ≡ Some (drained now b)).

Definition draining (susp : Suspender C) (ids : list string) (w0 w : W) : Prop :=
  st_inv (wStore w) /\ wNow w = wNow w0 /\ (st_healthy (wStore w0) -> st_healthy (wStore w)) /\
  forall j, if decide (j ∈ ids)
            then exists b, boxes w0 !! j = Some b /\
                           drain_outcome susp (st_healthy (wStore w0)) (wNow w0) b (boxes w !! j)
            else boxes w !! j ≡ boxes w0 !! j.

Lemma drained_storable now b : in_range now -> storable b -> storable (drained now b).
Proof. intros Hn Hs. unfold storable, drained, entered in *. simpl. naive_solver. Qed.

Lemma wp_drainOne susp b w0 w :
  st_inv (wStore w) -> clock_ok (wNow w) -> (st_healthy (wStore w0) -> st_healthy (wStore w)) ->
  holds w (b_ID b) b -> storable b ->
  wp (drainOne susp b) (fun w' r => r = Ok tt /\ (st_healthy (wStore w0) -> st_healthy (wStore w')) /\
    moved (b_ID b) (boxes w' !! b_ID b) w w' /\
    drain_outcome susp (st_healthy (wStore w0)) (wNow w) b (boxes w' !! b_ID b)) w.
Proof.
  intros Hi Hclk Hh Hb Hs. set (id := b_ID b) in *.
  assert (Hm : moved id (Some b) w w) by (eapply moved_equiv; [exact Hb|by apply moved_refl]).
  assert (Hat : forall w' o, moved id o w w' -> moved id (boxes w' !! id) w w').
  { intros w' o Ho. eapply moved_equiv; [|exact Ho]. symmetry. by eapply moved_at. }
  unfold drainOne. destruct (b_Ephemeral b || _) eqn:Hskip.
  { apply wp_ret. split_and!; [done|done|by eapply Hat|]. split; [by left|]. intros _ _ He Hp.
    rewrite He, Hp in Hskip. done. }
  go_bool. wp_step. wp_step. unfold on_compute. apply wp_zoom, wp_intro. intros c' [[]|e] Hsus.
  2:{ apply wp_ret. split_and!; [done|done|by eapply Hat|]. split; [by left|]. intros _ Hall.
      specialize (Hall (b_InstanceRef b) (wCompute w)). by rewrite Hsus in Hall. }
  wp_step. set (w1 := w <| wCompute := c' |>).
  assert (Hc : CanTransition (b_Phase (b <| b_AgentConnected := false |>)) PhaseSuspended = true).
  { simpl. by match goal with Hx : b_Phase b = _ |- _ => rewrite Hx end. }
  apply wp_intro. intros w' r Hr. split; [done|].
  assert (Hfin : st_healthy (wStore w0) -> ready w' /\ holds w' id (drained (wNow w) b)).
  { intros Hw0. apply (wp_all _ (fun w' _ => ready w' /\ holds w' id (drained (wNow w) b)) _ _ _ Hr).
    unfold holds in Hb. destruct (boxes w !! id) as [c|] eqn:Hbc; [|by inversion Hb].
    apply (inj Some) in Hb. destruct (st_view_id _ _ _ Hi Hbc) as [Hcid _].
    eapply wp_mono; [apply (wp_setPhase_ready id c); try done|].
    - split_and!; [done|by apply Hh|done].
    - by apply equiv_same_key in Hb.
    - by intros w2 r2 (_ & ? & _ & _ & ?). }
  split; [by intros [(_ & ? & _) _]%Hfin|].
  assert (Hsafe : moved id (Some b) w w' \/ moved id (Some (drained (wNow w) b)) w w').
  { apply (wp_all _ (fun w' _ => moved id (Some b) w w' \/ moved id (Some (drained (wNow w) b)) w w') _ _ _ Hr).
    eapply wp_mono; [by apply (wp_setPhase id b)|]. intros w2 r2 [?|[_ ?]]; [by left|by right]. }
  split; [destruct Hsafe; by eapply Hat|]. split; [|by intros [_ ?]%Hfin].
  destruct Hsafe as [Hm'|Hm']; [left|right; split_and!; [done|done|]]; by apply moved_at in Hm'.
Qed.

Lemma draining_mfor susp w0 l : clock_ok (wNow w0) ->
  (forall b, b ∈ l -> boxes w0 !! b_ID b = Some b) -> (forall b, b ∈ l -> storable b) ->
  forall ids w, draining susp ids w0 w -> NoDup (ids ++ (b_ID <$> l)) ->
  wp (mfor l (drainOne susp)) (fun w' r => r = Ok tt /\ draining susp (ids ++ (b_ID <$> l)) w0 w') w.
Proof.
  intros Hclk. induction l as [|b l IH]; intros Hl Hst ids w Hd Hnd.
  { apply wp_ret. by rewrite app_nil_r. }
  cbn [mfor]. wp_step. rewrite fmap_cons, cons_middle, app_assoc in Hnd |- *.
  assert (Hni : b_ID b ∉ ids).
  { apply NoDup_app in Hnd as ((_ & Hx & _)%NoDup_app & _). intros Hin. apply (Hx _ Hin). by left. }
  destruct Hd as (Hi & Hn & Hh & Hd).
  assert (Hb : holds w (b_ID b) b).
  { specialize (Hd (b_ID b)). rewrite decide_False in Hd by done. unfold holds. rewrite Hd, Hl by left. done. }
  eapply wp_mono; [apply (wp_drainOne susp b w0); [done|by rewrite Hn|done|done|apply Hst; by left]|].
  intros w' r (-> & Hh' & (Hi' & Hn' & Hm) & Ho). rewrite Hn in Ho.
  apply IH; [by intros; apply Hl; right|by intros; apply Hst; right| |done].
  split_and!; [done|congruence|done|]. intros j. specialize (Hd j). specialize (Hm j).
  change (boxes w' !! j ≡ (if decide (j = b_ID b) then boxes w' !! b_ID b else boxes w !! j)) in Hm.
  destruct (decide (j = b_ID b)) as [->|Hj].
  - rewrite decide_True by (apply elem_of_app; right; by left). exists b. split; [apply Hl; by left|done].
  - destruct (decide (j ∈ ids)) as [Hin|Hin].
    + rewrite decide_True by (apply elem_of_app; by left). destruct Hd as (b' & Hb' & [Ho1 Ho2]).
      exists b'. split; [done|]. split; [by rewrite Hm|]. intros. rewrite Hm. by apply Ho2.
    + rewrite decide_False by (rewrite elem_of_app, list_elem_of_singleton; naive_solver). by rewrite Hm.
Qed.

(** C7. Draining suspends exactly the persistent running boxes of its tenant:
    every other box keeps its row, no box is lost, and when the store works and
    the provider suspends what it is asked to, each of them ends up Suspended
    with its agent marked gone. *)
Theorem Drain_suspends susp tenant w w' r :
  cp_suspender = Some susp -> st_inv (wStore w) -> clock_ok (wNow w) ->
  Drain tenant w = (w', r) ->
  r = Ok tt /\ forall id b, boxes w !! id = Some b ->
    (boxes w' !! id ≡ Some b \/ (drainable tenant b /\ boxes w' !! id ≡ Some (drained (wNow w) b))) /\
    (st_healthy (wStore w) -> suspends susp -> drainable tenant b -> boxes w' !! id ≡ Some (drained (wNow w) b)).
Proof.
  intros Hsus Hi Hclk He.
  apply (wp_all _ (fun w' r => r = Ok tt /\ forall id b, boxes w !! id = Some b ->
    (boxes w' !! id ≡ Some b \/ (drainable tenant b /\ boxes w' !! id ≡ Some (drained (wNow w) b))) /\
    (st_healthy (wStore w) -> suspends susp -> drainable tenant b -> boxes w' !! id ≡ Some (drained (wNow w) b)))
    _ _ _ He).
  clear He. unfold Drain. rewrite Hsus. wp_step. wp_step. apply wp_on_store.
  eapply wp_mono; [by apply st_List_spec|]. intros s' l (-> & Hl & Hh).
  replace (w <| wStore := wStore w |>) with w by by destruct w. cbv beta iota.
  destruct l as [l|e].
  2:{ apply wp_ret. split; [done|]. intros id b Hb. split; [left; by rewrite Hb|]. by intros ?%Hh. }
  destruct (Hl l eq_refl) as [Hnd Hin].
  eapply wp_mono; [apply (draining_mfor susp w l Hclk) with (ids := []); [..|exact Hnd]|].
  - intros b Hb. by apply Hin.
  - intros b Hb. apply Hin in Hb as [Hb _]. by apply (st_view_id _ _ _ Hi Hb).
  - split_and!; [done..|]. intros j. by rewrite decide_False by apply not_elem_of_nil.
  - intros w1 r1 (-> & _ & _ & _ & Hd). split; [done|]. intros id b Hb. specialize (Hd id). simpl in Hd.
    destruct (st_view_id _ _ _ Hi Hb) as [Hid _].
    assert (Hmem : id ∈ b_ID <$> l <-> tenant = ""%string \/ b_TenantID b = tenant).
    { rewrite list_elem_of_fmap. split.
      - intros (c & -> & Hc). apply Hin in Hc as [Hc Ht]. unfold boxes in Hb. rewrite Hb in Hc. by simplify_eq.
      - intros Ht. exists b. split; [done|]. apply Hin. by rewrite Hid. }
    unfold drainable. case_decide as Hj.
    + destruct Hd as (b' & Hb' & Ho & Hall). rewrite Hb in Hb'. simplify_eq. naive_solver.
    + rewrite Hb in Hd. split; [by left|]. naive_solver.
Qed.
End steps.
