(* ===== verification/Agentproto.v ===== *)
(** The agent wire protocol ([internal/agentproto/agentproto.go]): the
    length-prefixed JSON frames of the handshake and the stream headers, and
    the binary frames of an exec stream.

    A reader is the bytes still to come, ending in EOF; a writer is the bytes
    written so far and, when the peer is about to go away, how many more it
    takes.  [var h T; return h, readFrame(r, &h)] returns the decoded [h], as
    the compiler in use evaluates it. *)
From stdpp Require Import base option list strings gmap.
From Stdlib Require Import Ascii ZArith Lia.
From S2P Require Import Prelude GoStrings Json.
Local Open Scope Z_scope.

(** * Bytes on a stream *)
Fixpoint stake (n : nat) (s : string) : string :=
  match n, s with S k, String c s' => String c (stake k s') | _, _ => EmptyString end.
Fixpoint sdrop (n : nat) (s : string) : string :=
  match n, s with S k, String _ s' => sdrop k s' | _, _ => s end.

(** [io.ReadFull]: EOF only when nothing was read. *)
Definition ReadFull (n : nat) : M string string := fun s =>
  if (n <=? slen s)%nat then (sdrop n s, Ok (stake n s))
  else (EmptyString, Err (if (slen s =? 0)%nat then io_EOF else io_ErrUnexpectedEOF)).

Record Writer : Type := mkWriter { wr_out : string; wr_room : option nat }.
Definition closed_pipe : error := Sentinel "io" "io: read/write on closed pipe".
Definition Write (p : string) : M Writer unit := fun w =>
  match wr_room w with
  | None => (mkWriter (wr_out w +:+ p) None, Ok tt)
  | Some k => if (slen p <=? k)%nat then (mkWriter (wr_out w +:+ p) (Some (k - slen p)%nat), Ok tt)
              else (mkWriter (wr_out w +:+ stake k p) (Some 0%nat), Err closed_pipe)
  end.

(** [binary.BigEndian.PutUint32] and [Uint32]. *)
Definition be32 (z : Z) : string :=
  let u := uint32 z in
  String (byte_of (u / 2 ^ 24)) (String (byte_of (u / 2 ^ 16 mod 256))
    (String (byte_of (u / 2 ^ 8 mod 256)) (String (byte_of (u mod 256)) EmptyString))).
Definition un_be32 (s : string) : Z :=
  match s with
  | String a (String b (String c (String d _))) =>
      ((byte_val a * 256 + byte_val b) * 256 + byte_val c) * 256 + byte_val d
  | _ => 0
  end.

(** * Frames *)
Record Handshake : Type := mkHandshake {
  hs_WorkspaceID : string;
  hs_Token : string
}.
Record OpenFrame : Type := mkOpenFrame {
  of_Kind : string
}.
Record ShellHeader : Type := mkShellHeader {
  sh_Cmd : string;
  sh_Cols : Z;
  sh_Rows : Z
}.
Record ForwardHeader : Type := mkForwardHeader {
  fh_Port : Z
}.
Record ExecHeader : Type := mkExecHeader {
  eh_Cmd : list string
}.

Definition KindShell : string := "shell".
Definition KindForward : string := "forward".
Definition KindExec : string := "exec".
Definition KindSSH : string := "ssh".

Definition maxFrame : Z := 65536.
Definition zlen (s : string) : Z := Z.of_nat (slen s).

Definition frame_too_large (n : Z) : error := Errorf ("agentproto: frame too large (" +:+ itoa n +:+ ")").

Definition writeFrame (v : json) : M Writer unit :=
  let b := print v in
  if maxFrame <? zlen b then throw (frame_too_large (zlen b))
  else Write (be32 (zlen b)) ;; Write b.

Definition readFrame {T} (fs : Fields T) (zero : T) : M string T :=
  hdr ← ReadFull 4;
  let n := un_be32 hdr in
  if maxFrame <? n then throw (frame_too_large n)
  else
  b ← ReadFull (Z.to_nat n);
  of_result (unmarshal fs b zero).

Definition handshake_json (h : Handshake) : json :=
  JObj [("workspace_id", JStr (hs_WorkspaceID h)); ("token", JStr (hs_Token h))]%string.
Definition handshake_fields : Fields Handshake :=
  [("workspace_id", str_field (fun s h => mkHandshake s (hs_Token h)));
   ("token", str_field (fun s h => mkHandshake (hs_WorkspaceID h) s))]%string.
Definition open_json (f : OpenFrame) : json := JObj [("kind", JStr (of_Kind f))]%string.
Definition open_fields : Fields OpenFrame := [("kind", str_field (fun s _ => mkOpenFrame s))]%string.
Definition shell_json (h : ShellHeader) : json :=
  JObj [("cmd", JStr (sh_Cmd h)); ("cols", JNum (itoa (sh_Cols h))); ("rows", JNum (itoa (sh_Rows h)))]%string.
Definition shell_fields : Fields ShellHeader :=
  [("cmd", str_field (fun s h => mkShellHeader s (sh_Cols h) (sh_Rows h)));
   ("cols", uint_field 16 (fun z h => mkShellHeader (sh_Cmd h) z (sh_Rows h)));
   ("rows", uint_field 16 (fun z h => mkShellHeader (sh_Cmd h) (sh_Cols h) z))]%string.
Definition forward_json (h : ForwardHeader) : json := JObj [("port", JNum (itoa (fh_Port h)))]%string.
Definition forward_fields : Fields ForwardHeader := [("port", uint_field 32 (fun z _ => mkForwardHeader z))]%string.
(** The empty argv is the nil slice. *)
Definition exec_json (h : ExecHeader) : json :=
  JObj [("cmd", match eh_Cmd h with [] => JNull | l => JArr (map JStr l) end)]%string.
Definition exec_fields : Fields ExecHeader := [("cmd", strs_field (fun l _ => mkExecHeader l))]%string.

Definition WriteHandshake (h : Handshake) : M Writer unit := writeFrame (handshake_json h).
Definition ReadHandshake : M string Handshake := readFrame handshake_fields (mkHandshake "" "").
Definition WriteOpenFrame (f : OpenFrame) : M Writer unit := writeFrame (open_json f).
Definition ReadOpenFrame : M string OpenFrame := readFrame open_fields (mkOpenFrame "").
Definition WriteShellHeader (h : ShellHeader) : M Writer unit := writeFrame (shell_json h).
Definition ReadShellHeader : M string ShellHeader := readFrame shell_fields (mkShellHeader "" 0 0).
Definition WriteForwardHeader (h : ForwardHeader) : M Writer unit := writeFrame (forward_json h).
Definition ReadForwardHeader : M string ForwardHeader := readFrame forward_fields (mkForwardHeader 0).
Definition WriteExecHeader (h : ExecHeader) : M Writer unit := writeFrame (exec_json h).
Definition ReadExecHeader : M string ExecHeader := readFrame exec_fields (mkExecHeader []).

(** * Exec frames *)
Definition ExecStdout : ascii := byte_of 1.
Definition ExecStderr : ascii := byte_of 2.
Definition ExecExit : ascii := byte_of 3.
Definition ExecStdin : ascii := byte_of 4.
Definition ExecStdinClose : ascii := byte_of 5.

Definition WriteExecData (typ : ascii) (data : string) : M Writer unit :=
  if maxFrame <? zlen data
  then throw (Errorf ("agentproto: exec data frame too large (" +:+ itoa (zlen data) +:+ ")"))
  else Write (String typ (be32 (zlen data))) ;; Write data.

Definition WriteExecStdinClose : M Writer unit := Write (String ExecStdinClose (be32 0)).

Definition WriteExecExit (code : Z) : M Writer unit :=
  Write (String ExecExit (be32 4 +:+ be32 (uint32 code))).

(** [ReadExecFrame]: type, data and exit code. *)
Definition ReadExecFrame : M string (ascii * string * Z) :=
  h ← ReadFull 5;
  match h with
  | String typ hdr =>
      let n := un_be32 hdr in
      if maxFrame <? n then throw (Errorf ("agentproto: exec frame too large (" +:+ itoa n +:+ ")"))
      else
      payload ← ReadFull (Z.to_nat n);
      if bool_decide (typ = ExecExit) then
        if negb (zlen payload =? 4)
        then throw (Errorf ("agentproto: bad exit frame length " +:+ itoa (zlen payload)))
        else mret (typ, EmptyString, int32 (un_be32 payload))
      else mret (typ, payload, 0)
  | EmptyString => throw io_EOF
  end.

(** * Lemmas: bytes *)
Lemma stake_app p t : stake (slen p) (p +:+ t) = p.
Proof. induction p as [|c p IH]; [by destruct t|]. rewrite string_app_cons. simpl. by rewrite IH. Qed.

Lemma sdrop_app p t : sdrop (slen p) (p +:+ t) = t.
Proof. induction p as [|c p IH]; [by destruct t|]. by rewrite string_app_cons. Qed.

Lemma stake_all n s : (slen s <= n)%nat -> stake n s = s.
Proof. revert n. induction s as [|a s IH]; intros [|n] Hn; simpl in *; try done; try lia. f_equal. apply IH. lia. Qed.
Lemma slen_stake n s : slen (stake n s) = (n `min` slen s)%nat.
Proof. revert s; induction n as [|n IH]; intros [|c s]; simpl; [done..|]. by rewrite IH. Qed.

Lemma slen_sdrop n s : slen (sdrop n s) = (slen s - n)%nat.
Proof. revert s; induction n as [|n IH]; intros [|c s]; simpl; [done..|]. by rewrite IH. Qed.

Lemma ReadFull_app p t : ReadFull (slen p) (p +:+ t) = (t, Ok p).
Proof.
  unfold ReadFull. rewrite slen_app, (proj2 (Nat.leb_le _ _)) by lia. by rewrite stake_app, sdrop_app.
Qed.

Lemma slen_be32 z : slen (be32 z) = 4%nat.
Proof. done. Qed.

Lemma uint32_range z : 0 <= uint32 z < 2 ^ 32.
Proof. apply Z.mod_pos_bound. lia. Qed.

Lemma uint32_id z : 0 <= z < 2 ^ 32 -> uint32 z = z.
Proof. apply Z.mod_small. Qed.

Lemma un_be32_be32 z : un_be32 (be32 z) = uint32 z.
Proof.
  unfold be32. cbn [un_be32]. pose proof (uint32_range z) as Hu. set (u := uint32 z) in *.
  assert (0 <= u / 2 ^ 24 < 256) by (split; [apply Z.div_pos; lia|apply Z.div_lt_upper_bound; lia]).
  rewrite !byte_val_of by (done || apply Z.mod_pos_bound; lia).
  change (2 ^ 24) with 16777216. change (2 ^ 16) with 65536. change (2 ^ 8) with 256.
  assert (u / 65536 = u / 256 / 256) as -> by (rewrite Z.div_div by lia; done).
  assert (u / 16777216 = u / 256 / 256 / 256) as -> by (rewrite !Z.div_div by lia; done).
  pose proof (Z.div_mod u 256). pose proof (Z.div_mod (u / 256) 256). pose proof (Z.div_mod (u / 256 / 256) 256). lia.
Qed.

Lemma Write_ok p out : Write p (mkWriter out None) = (mkWriter (out +:+ p) None, Ok tt).
Proof. done. Qed.

Lemma zlen_range s : 0 <= zlen s.
Proof. unfold zlen. lia. Qed.

(** * Headers

    What a framed type promises: its encoding is a document that prints to
    itself and decodes to the value it came from. *)
Class Framed (T : Type) : Type := {
  fr_json : T -> json;
  fr_fields : Fields T;
  fr_zero : T;
  fr_ok : T -> bool;
  fr_json_ok x : fr_ok x = true -> json_ok (fr_json x) = true;
  fr_decode x : fr_ok x = true -> decode_struct fr_fields (fr_json x) fr_zero = Ok x
}.

#[export] Program Instance handshake_framed : Framed Handshake := {|
  fr_json := handshake_json; fr_fields := handshake_fields; fr_zero := mkHandshake "" "";
  fr_ok h := utf8 (hs_WorkspaceID h) && utf8 (hs_Token h)
|}.
Next Obligation. intros h Hok. simpl. by rewrite andb_true_r. Qed.
Next Obligation. by intros [] _. Qed.

#[export] Program Instance open_framed : Framed OpenFrame := {|
  fr_json := open_json; fr_fields := open_fields; fr_zero := mkOpenFrame ""; fr_ok f := utf8 (of_Kind f)
|}.
Next Obligation. intros h Hok. simpl. by rewrite Hok. Qed.
Next Obligation. by intros [] _. Qed.

#[local] Arguments uint_field : simpl never.
#[local] Arguments itoa : simpl never.
#[local] Arguments strs_of : simpl never.
Definition is_uint (bits z : Z) : bool := (0 <=? z) && (z <? 2 ^ bits).

Lemma uint_field_itoa {T} bits (set : Z -> T -> T) z t :
  is_uint bits z = true -> uint_field bits set (JNum (itoa z)) t = Ok (set z t).
Proof.
  unfold is_uint, uint_field, num_field. intros. go_bool. rewrite uint_literal_itoa by done.
  by rewrite (proj2 (Z.ltb_lt _ _)).
Qed.

#[export] Program Instance shell_framed : Framed ShellHeader := {|
  fr_json := shell_json; fr_fields := shell_fields; fr_zero := mkShellHeader "" 0 0;
  fr_ok h := utf8 (sh_Cmd h) && is_uint 16 (sh_Cols h) && is_uint 16 (sh_Rows h)
|}.
Next Obligation. intros h [[Hu _]%andb_true_iff _]%andb_true_iff. simpl. by rewrite !itoa_num_ok, Hu. Qed.
Next Obligation.
  intros [c x y] [[_ Hx]%andb_true_iff Hy]%andb_true_iff. simpl in *.
  rewrite uint_field_itoa by done. simpl. by rewrite uint_field_itoa.
Qed.

#[export] Program Instance forward_framed : Framed ForwardHeader := {|
  fr_json := forward_json; fr_fields := forward_fields; fr_zero := mkForwardHeader 0; fr_ok h := is_uint 32 (fh_Port h)
|}.
Next Obligation. intros h Hok. simpl. by rewrite itoa_num_ok. Qed.
Next Obligation. intros [p] Hok. simpl in *. by rewrite uint_field_itoa. Qed.

#[export] Program Instance exec_framed : Framed ExecHeader := {|
  fr_json := exec_json; fr_fields := exec_fields; fr_zero := mkExecHeader []; fr_ok h := forallb utf8 (eh_Cmd h)
|}.
Next Obligation.
  intros [[|c l]] Hok; [done|]. simpl in *. rewrite !andb_true_r. apply andb_true_iff in Hok as [-> Hok]. simpl.
  induction l as [|x l IH]; [done|]. simpl in *. apply andb_true_iff in Hok as [-> Hok]. by apply IH.
Qed.
Next Obligation.
  intros [l] _. assert (strs_of (map JStr l) = Some l) as Hl.
  { unfold strs_of. apply mapM_Some. induction l; simpl; constructor; done. }
  destruct l as [|c l]; [done|]. cbn [map] in Hl. simpl. by rewrite Hl.
Qed.

Lemma frame_bytes {T} `{Framed T} (x : T) :
  fr_ok x = true -> zlen (print (fr_json x)) <= maxFrame ->
  exists bytes, (forall out, writeFrame (fr_json x) (mkWriter out None) = (mkWriter (out +:+ bytes) None, Ok tt)) /\
    slen bytes = (4 + slen (print (fr_json x)))%nat /\
    forall rest, readFrame fr_fields fr_zero (bytes +:+ rest) = (rest, Ok x).
Proof.
  intros Hok Hlen. set (b := print (fr_json x)) in *. exists (be32 (zlen b) +:+ b).
  unfold writeFrame. fold b. rewrite (proj2 (Z.ltb_ge maxFrame (zlen b))) by done. split; [|split].
  - intros out. rewrite (bind_eq_ok _ _ _ _ _ (Write_ok _ _)), Write_ok. by rewrite string_app_assoc.
  - by rewrite slen_app.
  - intros rest. unfold readFrame. rewrite <- string_app_assoc.
    rewrite (bind_eq_ok _ _ _ _ _ (ReadFull_app (be32 (zlen b)) _)), un_be32_be32.
    pose proof (zlen_range b). unfold maxFrame in *. rewrite uint32_id by lia.
    rewrite (proj2 (Z.ltb_ge 65536 (zlen b))) by done. unfold zlen at 1. rewrite Nat2Z.id.
    rewrite (bind_eq_ok _ _ _ _ _ (ReadFull_app b rest)). unfold of_result, unmarshal, b.
    by rewrite parse_print, fr_decode by auto using fr_json_ok.
Qed.

(** Whatever header is framed onto a stream is what the peer reads off
    it: writing succeeds, and reading the bytes back, with anything after them,
    yields the header and leaves exactly what follows.  It holds for every
    frame type of the protocol whose text is valid UTF-8 and whose encoding
    fits a frame. *)
Theorem frame_roundtrip {T} `{Framed T} (x : T) out rest :
  fr_ok x = true -> zlen (print (fr_json x)) <= maxFrame ->
  exists bytes, writeFrame (fr_json x) (mkWriter out None) = (mkWriter (out +:+ bytes) None, Ok tt) /\
    slen bytes = (4 + slen (print (fr_json x)))%nat /\
    readFrame fr_fields fr_zero (bytes +:+ rest) = (rest, Ok x).
Proof.
  intros Hok Hlen. destruct (frame_bytes x Hok Hlen) as (bytes & Hw & Hl & Hr). by exists bytes.
Qed.

Lemma frame_roundtrip_witness :
  let h := mkShellHeader "bash -l <x>" 211 55 in
  exists bytes, writeFrame (fr_json h) (mkWriter "" None) = (mkWriter bytes None, Ok tt) /\
    ReadShellHeader (bytes +:+ "raw pty bytes") = ("raw pty bytes"%string, Ok h).
Proof.
  intros h. destruct (frame_roundtrip h "" "raw pty bytes") as (bytes & Hw & _ & Hr);
    [reflexivity|vm_compute; discriminate|]. exists bytes. split; [exact Hw|exact Hr].
Defined.

(** * Exec streams *)
Inductive ExecFrame : Type :=
| FData (typ : ascii) (data : string)   (* stdout, stderr or stdin bytes *)
| FStdinClose
| FExit (code : Z).

Definition write_frame (f : ExecFrame) : M Writer unit :=
  match f with
  | FData typ data => WriteExecData typ data
  | FStdinClose => WriteExecStdinClose
  | FExit code => WriteExecExit code
  end.
(** What the reader makes of a frame. *)
Definition frame_view (f : ExecFrame) : ascii * string * Z :=
  match f with
  | FData typ data => (typ, data, 0)
  | FStdinClose => (ExecStdinClose, EmptyString, 0)
  | FExit code => (ExecExit, EmptyString, code)
  end.
Definition frame_ok (f : ExecFrame) : bool :=
  match f with
  | FData typ data => negb (bool_decide (typ = ExecExit)) && (zlen data <=? maxFrame)
  | FStdinClose => true
  | FExit code => (- 2 ^ 31 <=? code) && (code <? 2 ^ 31)
  end.
(** Read frames until [n] have come. *)
Fixpoint read_frames (n : nat) : M string (list (ascii * string * Z)) :=
  match n with
  | O => mret []
  | S n' => f ← ReadExecFrame; l ← read_frames n'; mret (f :: l)
  end.

Lemma read_header typ n rest :
  0 <= n < 2 ^ 32 -> ReadFull 5 (String typ (be32 n) +:+ rest) = (rest, Ok (String typ (be32 n))).
Proof. intros _. change 5%nat with (slen (String typ (be32 n))). apply ReadFull_app. Qed.

Lemma exec_frame_bytes f :
  frame_ok f = true -> exists bytes,
    (forall out, write_frame f (mkWriter out None) = (mkWriter (out +:+ bytes) None, Ok tt)) /\
    (forall rest, ReadExecFrame (bytes +:+ rest) = (rest, Ok (frame_view f))).
Proof.
  intros Hok. destruct f as [typ data| |code]; simpl in Hok.
  - apply andb_true_iff in Hok as [Ht Hl]. go_bool. exists (String typ (be32 (zlen data)) +:+ data). split.
    + intros out. simpl. unfold WriteExecData. rewrite (proj2 (Z.ltb_ge maxFrame (zlen data))) by done.
      rewrite (bind_eq_ok _ _ _ _ _ (Write_ok _ _)), Write_ok. by rewrite string_app_assoc.
    + intros rest. unfold ReadExecFrame. pose proof (zlen_range data). unfold maxFrame in *.
      rewrite <- string_app_assoc, (bind_eq_ok _ _ _ _ _ (read_header typ (zlen data) _ ltac:(lia))).
      rewrite un_be32_be32, uint32_id by lia. rewrite (proj2 (Z.ltb_ge 65536 (zlen data))) by done.
      unfold zlen. rewrite Nat2Z.id, (bind_eq_ok _ _ _ _ _ (ReadFull_app data rest)).
      by rewrite bool_decide_eq_false_2.
  - exists (String ExecStdinClose (be32 0)). split; [done|]. intros rest. unfold ReadExecFrame.
    rewrite (bind_eq_ok _ _ _ _ _ (read_header ExecStdinClose 0 rest ltac:(lia))). reflexivity.
  - apply andb_true_iff in Hok as [H1 H2]. go_bool. exists (String ExecExit (be32 4 +:+ be32 (uint32 code))).
    split; [done|]. intros rest. unfold ReadExecFrame.
    rewrite <- string_app_cons, <- string_app_assoc, (bind_eq_ok _ _ _ _ _ (read_header ExecExit 4 _ ltac:(lia))).
    rewrite un_be32_be32, uint32_id by lia. simpl.
    change (Z.to_nat 4) with (slen (be32 (uint32 code))).
    rewrite (bind_eq_ok _ _ _ _ _ (ReadFull_app (be32 (uint32 code)) rest)).
    change (bool_decide (ExecExit = ExecExit)) with true. rewrite un_be32_be32.
    change (zlen (be32 (uint32 code)) =? 4) with true. cbv iota beta delta [negb mret M_ret].
    do 3 f_equal. rewrite (uint32_id (uint32 code)) by apply uint32_range.
    rewrite int32_uint32. apply int32_id. unfold in_int32. lia.
Qed.

(** C10. An exec stream arrives frame by frame as it was sent: any sequence of
    output, stdin, end-of-stdin and exit frames, each within the frame bound,
    is written in full and read back in order with the same types, bytes and
    exit codes (negative codes included), leaving what follows untouched. *)
Theorem exec_stream_roundtrip fs out :
  forallb frame_ok fs = true ->
  exists bytes, mfor fs write_frame (mkWriter out None) = (mkWriter (out +:+ bytes) None, Ok tt) /\
    forall rest, read_frames (length fs) (bytes +:+ rest) = (rest, Ok (map frame_view fs)).
Proof.
  revert out. induction fs as [|f fs IH]; intros out Hok.
  { exists EmptyString. simpl. by rewrite string_app_nil_r. }
  simpl in Hok. apply andb_true_iff in Hok as [Hf Hok].
  destruct (exec_frame_bytes f Hf) as (b1 & Hw & Hr).
  destruct (IH (out +:+ b1) Hok) as (b2 & Hw2 & Hr2). exists (b1 +:+ b2). split.
  - cbn [mfor]. rewrite (bind_eq_ok _ _ _ _ _ (Hw out)), Hw2. by rewrite string_app_assoc.
  - intros rest. cbn [length read_frames map]. rewrite <- string_app_assoc.
    rewrite (bind_eq_ok _ _ _ _ _ (Hr _)), (bind_eq_ok _ _ _ _ _ (Hr2 rest)). done.
Qed.

Lemma exec_stream_roundtrip_witness :
  let fs := [FData ExecStdout "hi"; FData ExecStderr ""; FExit (-1)] in
  exists bytes, mfor fs write_frame (mkWriter "" None) = (mkWriter bytes None, Ok tt) /\
    forall rest, read_frames 3 (bytes +:+ rest) = (rest, Ok (map frame_view fs)).
Proof. intros fs. destruct (exec_stream_roundtrip fs "" ltac:(vm_compute; reflexivity)) as (b & Hw & Hr). by exists b. Defined.

(** * Bounds and broken streams *)
Lemma ReadFull_consumes n s s' r :
  ReadFull n s = (s', r) -> (slen s <= slen s' + n)%nat /\ (slen s' <= slen s)%nat.
Proof.
  unfold ReadFull. destruct (n <=? slen s)%nat eqn:E; intros [= <- _].
  - rewrite slen_sdrop. lia.
  - apply Nat.leb_gt in E. simpl. lia.
Qed.

Lemma un_be32_nonneg s : 0 <= un_be32 s.
Proof.
  destruct s as [|a [|b [|c [|d s]]]]; simpl; try lia.
  pose proof (byte_val_range a). pose proof (byte_val_range b). pose proof (byte_val_range c). pose proof (byte_val_range d).
  lia.
Qed.

(** C11. A peer cannot make the reader take more than a frame: whatever the
    bytes, reading one exec frame consumes at most five bytes of header and
    65536 of payload, and a header announcing more is refused with only the
    header read. *)
Theorem ReadExecFrame_bounded s s' r :
  ReadExecFrame s = (s', r) ->
  zlen s <= zlen s' + 5 + maxFrame /\
  (forall typ hdr, stake 5 s = String typ hdr -> (5 <= slen s)%nat -> maxFrame < un_be32 hdr ->
     s' = sdrop 5 s /\ is_ok r = false).
Proof.
  intros He. unfold zlen, maxFrame in *. unfold ReadExecFrame in He. unfold mbind in He at 1. unfold M_bind in He at 1.
  destruct (ReadFull 5 s) as [s1 [h|e]] eqn:E1; pose proof (ReadFull_consumes _ _ _ _ E1) as [Hc1 _].
  2:{ simplify_eq. split; [lia|]. intros typ hdr _ Hlen. unfold ReadFull in E1.
      by rewrite (proj2 (Nat.leb_le _ _) Hlen) in E1. }
  assert (Hh : stake 5 s = h /\ s1 = sdrop 5 s).
  { unfold ReadFull in E1. destruct (5 <=? slen s)%nat; by simplify_eq. }
  destruct Hh as [<- ->]. destruct (stake 5 s) as [|typ hdr]; [unfold throw in He; simplify_eq; split; [lia|done]|].
  destruct (maxFrame <? un_be32 hdr) eqn:Hn; unfold maxFrame in Hn; go_bool.
  { unfold throw in He. simplify_eq. split; [lia|done]. }
  split; [|intros ? ? [= <- <-] ? ?; lia].
  unfold mbind, M_bind in He. destruct (ReadFull (Z.to_nat (un_be32 hdr)) (sdrop 5 s)) as [s2 [p|e]] eqn:E2;
    pose proof (ReadFull_consumes _ _ _ _ E2) as [Hc2 _]; pose proof (un_be32_nonneg hdr);
    [|simplify_eq; lia].
  assert (s' = s2) as -> by (repeat case_match; unfold throw, mret, M_ret in *; by simplify_eq). lia.
Qed.

(** C12. A stream that dies right after a frame header, with its payload still
    owed, is reported as a plain [io.EOF], exactly as one that ended between
    frames; only a payload cut after its first byte is [io.ErrUnexpectedEOF]. *)
Theorem exec_frame_cut typ n k :
  0 < n <= maxFrame -> (Z.of_nat k < n) ->
  snd (ReadExecFrame (String typ (be32 n) +:+ pad_dec k 0)) =
    Err (if (k =? 0)%nat then io_EOF else io_ErrUnexpectedEOF) /\
  snd (ReadExecFrame "") = Err io_EOF.
Proof.
  intros Hn Hk. split; [|done]. unfold maxFrame in *. unfold ReadExecFrame.
  rewrite (bind_eq_ok _ _ _ _ _ (read_header typ n _ ltac:(lia))). rewrite un_be32_be32, uint32_id by lia.
  rewrite (proj2 (Z.ltb_ge maxFrame n)) by (unfold maxFrame; lia).
  unfold mbind, M_bind, ReadFull. rewrite slen_pad_dec, (proj2 (Nat.leb_gt _ _)) by lia. done.
Qed.

Lemma exec_frame_cut_witness :
  snd (ReadExecFrame (String ExecStdout (be32 12))) = Err io_EOF /\ snd (ReadExecFrame "") = Err io_EOF.
Proof. apply (exec_frame_cut ExecStdout 12 0); unfold maxFrame; lia. Defined.

Lemma ReadExecFrame_bounded_witness :
  let s := String ExecStdout (be32 1000000) +:+ "xyz" in
  fst (ReadExecFrame s) = "xyz"%string /\ is_ok (snd (ReadExecFrame s)) = false.
Proof.
  intros s. refine (proj2 (ReadExecFrame_bounded s _ _ (surjective_pairing _)) ExecStdout (be32 1000000) _ _ _).
  - reflexivity.
  - vm_compute. repeat constructor.
  - vm_compute. reflexivity.
Defined.
