(* ===== verification/Agenthub.v ===== *)
(** The agent hub ([internal/agenthub/agenthub.go]): hopboxd's side of the
    agents' reverse connections.  The hub keeps at most one yamux session per
    workspace, opens streams on it, and tells a sink when an agent comes or
    goes.

    yamux and the network are the class [Yamux]: a session is named by the
    connection it runs on, and a stream the hub opens is the writer it writes
    the headers to.  One goroutine per dialling agent runs [accept]; the lock
    makes the table update of [Register] and [Unregister] one step, and the
    report to the sink, which is made after the unlock, another, so goroutines
    interleave between the two. *)
From stdpp Require Import base option list strings gmap.
From Stdlib Require Import Ascii ZArith Lia.
From S2P Require Import Prelude GoStrings Json Agentproto.
Local Open Scope Z_scope.

Record Stream : Type := mkStream {
  sm_id : nat;
  sm_w : Writer
}.

Class Yamux (Y : Type) : Type := {
  ym_Client : nat -> M Y unit;              (* yamux.Client(conn, cfg) *)
  ym_IsClosed : Y -> nat -> bool;
  ym_Close : nat -> M Y unit;
  ym_CloseConn : nat -> M Y unit;           (* conn.Close() *)
  ym_OpenStream : nat -> M Y Stream;
  ym_CloseStream : nat -> M Y unit
}.

(** A session that has closed stays closed; a new session is another one. *)
Definition keeps_closed {Y} `{Yamux Y} (y y' : Y) : Prop :=
  forall s, ym_IsClosed y s = true -> ym_IsClosed y' s = true.
Class YamuxSpec (Y : Type) `{Yamux Y} : Prop := {
  ym_Client_closed n s y : s <> n -> ym_IsClosed y s = true -> ym_IsClosed (ym_Client n y).1 s = true;
  ym_Close_closed n y : keeps_closed y (ym_Close n y).1;
  ym_CloseConn_closed n y : keeps_closed y (ym_CloseConn n y).1
}.

(** [StateSink]. *)
Class StateSink (S : Type) : Type := {
  SetAgentConnected : string -> bool -> S -> S
}.

Record Hub (Y S : Type) : Type := mkHub {
  hb_sessions : gmap string nat;
  hb_yamux : Y;
  hb_sink : option S
}.
Arguments mkHub {Y S}.
Arguments hb_sessions {Y S}.
Arguments hb_yamux {Y S}.
Arguments hb_sink {Y S}.

Section hub.
Context {Y S : Type} `{Yamux Y} `{StateSink S}.
Notation HB := (Hub Y S).

#[export] Instance set_hb_sessions : Setter (@hb_sessions Y S) :=
  fun f h => mkHub (f (hb_sessions h)) (hb_yamux h) (hb_sink h).
#[export] Instance set_hb_yamux : Setter (@hb_yamux Y S) :=
  fun f h => mkHub (hb_sessions h) (f (hb_yamux h)) (hb_sink h).
#[export] Instance set_hb_sink : Setter (@hb_sink Y S) :=
  fun f h => mkHub (hb_sessions h) (hb_yamux h) (f (hb_sink h)).

Definition on_yamux {A} (m : M Y A) : M HB A := zoom hb_yamux (fun y h => h <| hb_yamux := y |>) m.

Definition New (y : Y) : HB := mkHub ∅ y None.
Definition WithSink (s : S) (h : HB) : HB := h <| hb_sink := Some s |>.

Definition get (workspaceID : string) : M HB (option nat) := gets (fun h => hb_sessions h !! workspaceID).

Definition Connected (workspaceID : string) : M HB bool :=
  s ← get workspaceID;
  h ← gets id;
  mret (match s with Some sess => negb (ym_IsClosed (hb_yamux h) sess) | None => false end).

(** [Register] up to its unlock. *)
Definition register_locked (workspaceID : string) (sess : nat) : M HB bool :=
  h ← gets id;
  match hb_sessions h !! workspaceID with
  | Some old =>
      if negb (ym_IsClosed (hb_yamux h) old) then mret false
      else
        ignore (on_yamux (ym_Close old)) ;;
        modify (fun h => h <| hb_sessions := <[workspaceID := sess]> (hb_sessions h) |>) ;;
        mret true
  | None =>
      modify (fun h => h <| hb_sessions := <[workspaceID := sess]> (hb_sessions h) |>) ;;
      mret true
  end.

(** [Unregister] up to its unlock: whether the session was the active one. *)
Definition unregister_locked (workspaceID : string) (sess : nat) : M HB bool :=
  h ← gets id;
  if negb (bool_decide (hb_sessions h !! workspaceID = Some sess)) then mret false
  else
    modify (fun h => h <| hb_sessions := delete workspaceID (hb_sessions h) |>) ;;
    mret true.

(** [if h.sink != nil { h.sink.SetAgentConnected(...) }] *)
Definition report (workspaceID : string) (connected : bool) : M HB unit :=
  modify (fun h => h <| hb_sink := SetAgentConnected workspaceID connected <$> hb_sink h |>).

Definition Register (workspaceID : string) (sess : nat) : M HB bool :=
  ok ← register_locked workspaceID sess;
  if ok : bool then report workspaceID true ;; mret true else mret false.

Definition Unregister (workspaceID : string) (sess : nat) : M HB unit :=
  ok ← unregister_locked workspaceID sess;
  if ok : bool then report workspaceID false else mret tt.

(** * Opening streams *)
Definition no_agent (workspaceID : string) : error :=
  Errorf ("agenthub: workspace " +:+ quote workspaceID +:+ " has no connected agent").

Definition openStream (workspaceID : string) : M HB Stream :=
  sess ← get workspaceID;
  h ← gets id;
  match sess with
  | None => throw (no_agent workspaceID)
  | Some s =>
      if ym_IsClosed (hb_yamux h) s then throw (no_agent workspaceID)
      else wrapping "agenthub: open stream" (on_yamux (ym_OpenStream s))
  end.

(** [if err := write(stream, ...); err != nil { stream.Close(); return wrapped }] *)
Definition write_or_close (prefix : string) (write : M Writer unit) (stream : Stream) : M HB Stream :=
  match write (sm_w stream) with
  | (w, Ok _) => mret (mkStream (sm_id stream) w)
  | (_, Err e) => ignore (on_yamux (ym_CloseStream (sm_id stream))) ;; throw (ErrWrap prefix e)
  end.

Definition write_open (kind : string) : Stream -> M HB Stream :=
  write_or_close "agenthub: write open frame" (WriteOpenFrame (mkOpenFrame kind)).

Definition OpenShell (workspaceID : string) (hdr : ShellHeader) : M HB Stream :=
  stream ← openStream workspaceID;
  stream ← write_open KindShell stream;
  write_or_close "agenthub: write shell header" (WriteShellHeader hdr) stream.

Definition OpenForward (workspaceID : string) (port : Z) : M HB Stream :=
  stream ← openStream workspaceID;
  stream ← write_open KindForward stream;
  write_or_close "agenthub: write forward header" (WriteForwardHeader (mkForwardHeader port)) stream.

Definition OpenSSH (workspaceID : string) : M HB Stream :=
  stream ← openStream workspaceID;
  write_open KindSSH stream.

Definition OpenExec (workspaceID : string) (cmd : list string) : M HB Stream :=
  stream ← openStream workspaceID;
  stream ← write_open KindExec stream;
  write_or_close "agenthub: write exec header" (WriteExecHeader (mkExecHeader cmd)) stream.

(** * Accepting agents *)
Notation TokenResolver := (string -> result string).

(** [accept] up to the unlock of [Register], for the agent dialling on
    connection [n] whose bytes are [input]; the workspace it now serves. *)
Definition accept_open (resolve : TokenResolver) (n : nat) (input : string) : M HB (option string) :=
  let reject := ignore (on_yamux (ym_CloseConn n)) ;; mret None in
  match (ReadHandshake input).2 with
  | Err _ => reject
  | Ok hs =>
      match resolve (hs_Token hs) with
      | Err _ => reject
      | Ok wsID =>
          if negb (bool_decide (hs_WorkspaceID hs = ""%string)) && negb (bool_decide (hs_WorkspaceID hs = wsID))
          then reject
          else
            c ← try (on_yamux (ym_Client n));
            match c with
            | Err _ => reject
            | Ok _ =>
                ok ← register_locked wsID n;
                if ok : bool then mret (Some wsID)
                else ignore (on_yamux (ym_Close n)) ;; reject
            end
      end
  end.

(** [Serve]: each accepted connection gets its goroutine; an accept error ends
    the loop, quietly when the context is done.  [None]: still accepting. *)
Fixpoint serve_loop (ctx_done : bool) (accepts : list (result nat)) : list nat * option (result unit) :=
  match accepts with
  | [] => ([], None)
  | Ok conn :: l => let '(spawned, r) := serve_loop ctx_done l in (conn :: spawned, r)
  | Err e :: _ => ([], Some (if ctx_done then Ok tt else Err e))
  end.
Definition Serve (resolve : option TokenResolver) (ctx_done : bool) (accepts : list (result nat)) :
    list nat * option (result unit) :=
  match resolve with
  | None => ([], Some (Err (Errorf "agenthub: Serve requires a TokenResolver (call WithResolver)")))
  | Some _ => serve_loop ctx_done accepts
  end.

(** * The goroutines of [accept], interleaved *)
Inductive agent : Type :=
| Reporting (ws : string)     (* registered, the sink not told yet *)
| Serving (ws : string)       (* blocked on CloseChan *)
| Leaving (ws : string)       (* unregistered, the sink not told yet *)
| Done.

Record HubState : Type := mkHubState {
  hs_hub : HB;
  hs_agents : gmap nat agent
}.

Inductive label : Type :=
| LDial (resolve : TokenResolver) (n : nat) (input : string)
| LReport (n : nat)
| LDrop (n : nat)
| LNet.                       (* sessions die, frames move *)

Inductive hub_step : label -> HubState -> HubState -> Prop :=
| HS_dial resolve n input h h' r ag :
    ag !! n = None ->
    accept_open resolve n input h = (h', Ok r) ->
    hub_step (LDial resolve n input) (mkHubState h ag)
      (mkHubState h' (<[n := match r with Some ws => Reporting ws | None => Done end]> ag))
| HS_came n ws h ag :
    ag !! n = Some (Reporting ws) ->
    hub_step (LReport n) (mkHubState h ag) (mkHubState (report ws true h).1 (<[n := Serving ws]> ag))
| HS_drop n ws h h' r ag :
    ag !! n = Some (Serving ws) ->
    ym_IsClosed (hb_yamux h) n = true ->       (* <-sess.CloseChan() *)
    unregister_locked ws n h = (h', Ok r) ->
    hub_step (LDrop n) (mkHubState h ag) (mkHubState h' (<[n := if r then Leaving ws else Done]> ag))
| HS_left n ws h ag :
    ag !! n = Some (Leaving ws) ->
    hub_step (LReport n) (mkHubState h ag) (mkHubState (report ws false h).1 (<[n := Done]> ag))
| HS_net h y ag :
    keeps_closed (hb_yamux h) y ->
    hub_step LNet (mkHubState h ag) (mkHubState (h <| hb_yamux := y |>) ag).

Inductive hub_exec : list label -> HubState -> HubState -> Prop :=
| HE_nil w : hub_exec [] w w
| HE_snoc tr l w1 w2 w3 : hub_exec tr w1 w2 -> hub_step l w2 w3 -> hub_exec (tr ++ [l]) w1 w3.
End hub.

(** * Lemmas: one step *)
Section lemmas.
Context {Y S : Type} `{YamuxSpec Y} `{StateSink S}.
Notation HB := (Hub Y S).
Notation HW := (@HubState Y S).

Definition closed_but (n : nat) (y y' : Y) : Prop :=
  forall s, s <> n -> ym_IsClosed y s = true -> ym_IsClosed y' s = true.

Lemma keeps_but n (y y' : Y) : keeps_closed y y' -> closed_but n y y'.
Proof. intros Hk s _. apply Hk. Qed.

Lemma keeps_trans (x y z : Y) : keeps_closed x y -> keeps_closed y z -> keeps_closed x z.
Proof. unfold keeps_closed. eauto. Qed.

Lemma closed_but_trans n (x y z : Y) : closed_but n x y -> closed_but n y z -> closed_but n x z.
Proof. unfold closed_but. eauto. Qed.

Definition authorized (resolve : string -> result string) (input ws : string) : Prop :=
  exists hs, (ReadHandshake input).2 = Ok hs /\ resolve (hs_Token hs) = Ok ws /\
             (hs_WorkspaceID hs = ""%string \/ hs_WorkspaceID hs = ws).

(** What a handler does to the hub: its sessions move by [R], and the sink is
    not told. *)
Definition hub_moves (R : Y -> Y -> Prop) (h h' : HB) : Prop :=
  R (hb_yamux h) (hb_yamux h') /\ hb_sink h' = hb_sink h.

Lemma hub_moves_same (h h' : HB) :
  hb_yamux h' = hb_yamux h -> hb_sink h' = hb_sink h -> hub_moves keeps_closed h h'.
Proof. intros Hy Hs. split; [|done]. rewrite Hy. by intros s. Qed.

Lemma hub_moves_yamux {A} (R : Y -> Y -> Prop) (m : M Y A) (h : HB) :
  R (hb_yamux h) (m (hb_yamux h)).1 ->
  wp (on_yamux m) (fun h' _ => hub_moves R h h' /\ hb_sessions h' = hb_sessions h) h.
Proof.
  intros Hc. unfold on_yamux. apply wp_zoom, wp_intro. intros y r Hm. rewrite Hm in Hc. by split_and!.
Qed.

#[local] Ltac stp := cbn beta iota; wp_step; cbn beta iota.

Lemma register_locked_spec n ws (h : HB) :
  wp (register_locked ws n) (fun h' r => hub_moves keeps_closed h h' /\
    match r with
    | Ok true => hb_sessions h' = <[ws := n]> (hb_sessions h) /\
                 forall s, hb_sessions h !! ws = Some s -> ym_IsClosed (hb_yamux h) s = true
    | _ => h' = h
    end) h.
Proof.
  unfold register_locked. stp. stp. unfold id. destruct (hb_sessions h !! ws) as [old|] eqn:Hold.
  - destruct (ym_IsClosed (hb_yamux h) old) eqn:Hc; cbn [negb]; [|stp; auto using hub_moves_same].
    stp. stp. eapply wp_mono; [apply (hub_moves_yamux keeps_closed), ym_Close_closed|].
    intros h1 r (Hm & Ht). do 3 stp. split; [done|]. rewrite <- Ht. split; [done|]. by intros s [= <-].
  - do 3 stp. split; [by apply hub_moves_same|]. by split.
Qed.

Lemma unregister_locked_eq n ws (h : HB) :
  unregister_locked ws n h =
    if bool_decide (hb_sessions h !! ws = Some n)
    then (h <| hb_sessions := delete ws (hb_sessions h) |>, Ok true) else (h, Ok false).
Proof. unfold unregister_locked, gets, modify, mbind, M_bind, id. by destruct (bool_decide _). Qed.

Lemma accept_open_spec resolve n input (h : HB) :
  wp (accept_open resolve n input) (fun h' r => hub_moves (closed_but n) h h' /\
    match r with
    | Ok (Some ws) => authorized resolve input ws /\ hb_sessions h' = <[ws := n]> (hb_sessions h) /\
                      forall s, s <> n -> hb_sessions h !! ws = Some s -> ym_IsClosed (hb_yamux h') s = true
    | _ => hb_sessions h' = hb_sessions h
    end) h.
Proof.
  unfold accept_open.
  assert (Hrej : forall h1, hub_moves (closed_but n) h h1 -> hb_sessions h1 = hb_sessions h ->
    wp (ignore (on_yamux (ym_CloseConn n)) ;; mret None) (fun h' r => hub_moves (closed_but n) h h' /\
      match r with
      | Ok (Some ws) => authorized resolve input ws /\ hb_sessions h' = <[ws := n]> (hb_sessions h) /\
                        forall s, s <> n -> hb_sessions h !! ws = Some s -> ym_IsClosed (hb_yamux h') s = true
      | _ => hb_sessions h' = hb_sessions h
      end) h1).
  { intros h1 [Hm1 Hm2] Ht. do 2 stp. eapply wp_mono; [apply (hub_moves_yamux keeps_closed), ym_CloseConn_closed|].
    intros h2 r ([Hk Hs] & Ht2). stp. split; [|congruence]. split; [|congruence].
    eapply closed_but_trans; [done|]. by apply keeps_but. }
  assert (Hrefl : hub_moves (closed_but n) h h) by (split; [by intros s|done]).
  destruct ((ReadHandshake input).2) as [hs|e] eqn:Hhs; [|by apply Hrej].
  destruct (resolve (hs_Token hs)) as [ws|e] eqn:Hres; [|by apply Hrej].
  destruct (negb _ && negb _) eqn:Hid; [by apply Hrej|].
  do 2 stp. eapply wp_mono; [apply (hub_moves_yamux (closed_but n)); intros s; apply ym_Client_closed|].
  intros h1 c ([Hc Hs] & Ht). destruct c as [u|e]; [|by apply Hrej].
  stp. eapply wp_mono; [apply register_locked_spec|]. intros h2 ok ([Hk2 Hs2] & Hok).
  assert (Hm2 : hub_moves (closed_but n) h h2).
  { split; [|congruence]. eapply closed_but_trans; [done|]. by apply keeps_but. }
  destruct ok as [[|]|e].
  - stp. split; [done|]. destruct Hok as [Ht2 Hold]. rewrite Ht in Ht2, Hold. split; [|split; [done|]].
    + exists hs. split_and!; [done..|]. apply andb_false_iff in Hid as [Hid|Hid]; go_bool; tauto.
    + intros s _ Hl. by apply Hk2, Hold.
  - subst h2. do 2 stp. eapply wp_mono; [apply (hub_moves_yamux keeps_closed), ym_Close_closed|].
    intros h2 r ([Hk Hs'] & Ht'). apply Hrej; [|congruence]. split; [|congruence].
    eapply closed_but_trans; [apply Hm2|]. by apply keeps_but.
  - subst h2. split; [done|congruence].
Qed.

(** * Executions *)
Notation start h := (mkHubState h ∅).
Notation table w := (hb_sessions (hs_hub w)).
Notation closed w n := (ym_IsClosed (hb_yamux (hs_hub w)) n).

(** The agent behind a table entry. *)
Definition serves (ws : string) (a : agent) : Prop := a = Reporting ws \/ a = Serving ws.
Definition entries_served (w : HW) : Prop :=
  forall ws n, table w !! ws = Some n -> exists a, hs_agents w !! n = Some a /\ serves ws a.

Lemma report_table ws c (h : HB) : hb_sessions (report ws c h).1 = hb_sessions h.
Proof. done. Qed.

(** An agent that moves on without leaving [ws] keeps its entries served. *)
Lemma served_update (ag : gmap nat agent) n a a' ws (t : gmap string nat) :
  (forall v m, t !! v = Some m -> exists b, ag !! m = Some b /\ serves v b) ->
  ag !! n = Some a -> (forall v, serves v a -> v = ws) -> (t !! ws = Some n -> serves ws a') ->
  forall v m, t !! v = Some m -> exists b, <[n := a']> ag !! m = Some b /\ serves v b.
Proof.
  intros Hs Hn Ha Ha' v m Hv. destruct (Hs v m Hv) as (b & Hb & Hsv).
  destruct (decide (m = n)) as [->|Hne]; [|rewrite lookup_insert_ne by done; eauto].
  rewrite lookup_insert_eq. exists a'. split; [done|]. simplify_eq. rewrite (Ha v Hsv) in *. auto.
Qed.

Lemma step_served l (w w' : HW) : hub_step l w w' -> entries_served w -> entries_served w'.
Proof.
  intros Hst Hs. destruct Hst as [resolve n input h h' r ag Hn He|n ws h ag Hn|n ws h h' r ag Hn Hc He|n ws h ag Hn|h y ag Hk];
    unfold entries_served in *; simpl in *.
  - pose proof (wp_all _ _ _ _ _ He (accept_open_spec resolve n input h)) as [_ Hr]. simpl in Hr.
    intros v m. destruct r as [ws|].
    + destruct Hr as (_ & -> & _). destruct (decide (v = ws)) as [->|Hne].
      * rewrite lookup_insert_eq. intros [= <-]. exists (Reporting ws). rewrite lookup_insert_eq. split; [done|by left].
      * rewrite lookup_insert_ne by done. intros Hv. destruct (Hs v m Hv) as (a & Ha & Hsv). exists a.
        rewrite lookup_insert_ne; [done|congruence].
    + rewrite Hr. intros Hv. destruct (Hs v m Hv) as (a & Ha & Hsv). exists a.
      rewrite lookup_insert_ne; [done|congruence].
  - apply (served_update ag n (Reporting ws) (Serving ws) ws); [done|done|by intros v [[= ->]|?]|by right].
  - rewrite unregister_locked_eq in He. case_bool_decide as Ht; simplify_eq; simpl.
    + apply (served_update ag n (Serving ws) (Leaving ws) ws); [|done|by intros v [?|[= ->]]|].
      * intros v m [_ Hv]%lookup_delete_Some. by apply Hs.
      * by rewrite lookup_delete_eq.
    + apply (served_update ag n (Serving ws) Done ws); [done|done|by intros v [?|[= ->]]|done].
  - apply (served_update ag n (Leaving ws) Done ws); [done|done|by intros v [?|?]|].
    intros Ht. destruct (Hs _ _ Ht) as (a & Ha & [->| ->]); congruence.
  - done.
Qed.

Lemma exec_served tr (h : HB) w : hb_sessions h = ∅ -> hub_exec tr (start h) w -> entries_served w.
Proof.
  intros Hh. remember (start h) as w0 eqn:E. induction 1 as [|tr l w1 w2 w3 He IH Hst]; subst.
  - intros ws n. simpl. by rewrite Hh, lookup_empty.
  - eapply step_served; eauto.
Qed.

(** The table only grows by a dial that presented the workspace's token. *)
Lemma exec_authorized tr (h : HB) w ws n :
  hb_sessions h = ∅ -> hub_exec tr (start h) w -> table w !! ws = Some n ->
  exists resolve input, LDial resolve n input ∈ tr /\ authorized resolve input ws.
Proof.
  intros Hh. remember (start h) as w0 eqn:E. intros He. revert ws n.
  induction He as [|tr l w1 w2 w3 He IH Hst]; intros ws n; subst.
  { simpl. by rewrite Hh, lookup_empty. }
  intros Ht. specialize (IH eq_refl).
  assert (table w2 !! ws = Some n -> exists resolve input, LDial resolve n input ∈ tr ++ [l] /\ authorized resolve input ws)
    as Hold.
  { intros Hold. destruct (IH ws n Hold) as (re & i & Hin & Ha). exists re, i. split; [|done]. apply elem_of_app. by left. }
  destruct Hst as [resolve m input h1 h' r ag Hn Ha|m v h1 ag Hn|m v h1 h' r ag Hn Hc Hu|m v h1 ag Hn|h1 y ag Hk]; simpl in *; auto.
  - pose proof (wp_all _ _ _ _ _ Ha (accept_open_spec resolve m input h1)) as [_ Hr]. simpl in Hr.
    destruct r as [v|]; [|rewrite Hr in Ht; auto]. destruct Hr as (Hau & Hr & _). rewrite Hr in Ht.
    destruct (decide (v = ws)) as [->|Hne]; [|rewrite lookup_insert_ne in Ht by done; auto].
    rewrite lookup_insert_eq in Ht. simplify_eq. exists resolve, input. split; [|done]. apply elem_of_app. right. by left.
  - rewrite unregister_locked_eq in Hu. case_bool_decide; simplify_eq; [|auto]. simpl in Ht.
    apply lookup_delete_Some in Ht as [_ Ht]. auto.
Qed.

Lemma step_closed l (w w' : HW) n :
  hub_step l w w' -> is_Some (hs_agents w !! n) ->
  is_Some (hs_agents w' !! n) /\ (closed w n = true -> closed w' n = true).
Proof.
  assert (forall (ag : gmap nat agent) m a, is_Some (ag !! n) -> is_Some (<[m := a]> ag !! n)) as Hin.
  { intros ag m a Hs. apply lookup_insert_is_Some'. by right. }
  intros Hst Hn. destruct Hst as [resolve m input h h' r ag Hm He|m ws h ag Hm|m ws h h' r ag Hm Hc He|m ws h ag Hm|h y ag Hk];
    simpl in *; (split; [by auto|]); auto.
  - pose proof (wp_all _ _ _ _ _ He (accept_open_spec resolve m input h)) as [[Hk _] _]. apply Hk.
    intros ->. rewrite Hm in Hn. by destruct Hn.
  - rewrite unregister_locked_eq in He. case_bool_decide; by simplify_eq.
Qed.

Lemma step_keeps l (w w' : HW) ws n :
  hub_step l w w' -> entries_served w -> table w !! ws = Some n -> closed w' n = false -> table w' !! ws = Some n.
Proof.
  intros Hst Hs Ht Hc. destruct (Hs ws n Ht) as (a & Ha & _).
  destruct Hst as [resolve m input h h' r ag Hm He|m v h ag Hm|m v h h' r ag Hm Hd He|m v h ag Hm|h y ag Hk]; simpl in *; auto.
  - pose proof (wp_all _ _ _ _ _ He (accept_open_spec resolve m input h)) as [_ Hr]. simpl in Hr.
    destruct r as [v|]; [|by rewrite Hr]. destruct Hr as (_ & -> & Hold). destruct (decide (v = ws)) as [->|Hne].
    + rewrite (Hold n) in Hc; [done| |done]. intros ->. congruence.
    + by rewrite lookup_insert_ne.
  - rewrite unregister_locked_eq in He. case_bool_decide as Hv; simplify_eq; [|done]. simpl in *.
    rewrite lookup_delete_ne; [done|]. intros ->. congruence.
Qed.

Lemma exec_keeps tr (w w' : HW) ws n :
  hub_exec tr w w' -> entries_served w -> table w !! ws = Some n -> closed w' n = false ->
  entries_served w' /\ table w' !! ws = Some n.
Proof.
  intros He Hs Ht. induction He as [|tr l w1 w2 w3 He IH Hst]; [done|]. intros Hc.
  destruct (closed w2 n) eqn:Hc2.
  - exfalso. assert (forall tr (w1 w2 : HW), hub_exec tr w1 w2 -> is_Some (hs_agents w1 !! n) -> is_Some (hs_agents w2 !! n)) as Hag.
    { clear -H0. intros tr w1 w2 He. induction He as [|tr l w1 w2 w3 He IH Hst]; [done|]. intros Hn.
      by eapply step_closed; [|apply IH]. }
    destruct (Hs ws n Ht) as (a & Ha & _). pose proof (Hag _ _ _ He (mk_is_Some _ _ Ha)) as Hn2.
    destruct (step_closed _ _ _ n Hst Hn2) as [_ Hk]. by rewrite Hk in Hc.
  - destruct (IH Hs Ht eq_refl) as [Hs2 Ht2]. split; [by eapply step_served|by eapply step_keeps].
Qed.

(** C17. The agent of a workspace cannot be hijacked: in every interleaving of
    dialling agents, whoever holds a workspace's session presented a token that
    resolved to that workspace (and named it, or nothing), and as long as that
    session lives no other agent takes its place, whatever tokens are
    presented, reports are delayed or sessions die elsewhere. *)
Theorem agent_not_displaced tr tr' (h : HB) w w' ws n :
  hb_sessions h = ∅ -> hub_exec tr (start h) w -> hub_exec tr' w w' -> table w !! ws = Some n ->
  (exists resolve input, LDial resolve n input ∈ tr /\ authorized resolve input ws) /\
  (closed w' n = false -> table w' !! ws = Some n).
Proof.
  intros Hh He He' Ht. split; [by eapply exec_authorized|]. intros Hc.
  by eapply (exec_keeps tr'); [done|eapply exec_served| |].
Qed.
End lemmas.

(** * What the sink is told *)
#[export] Instance log_sink : StateSink (list (string * bool)) :=
  {| SetAgentConnected ws c log := (ws, c) :: log |}.
(** The last word on a workspace. *)
Fixpoint told (log : list (string * bool)) (ws : string) : bool :=
  match log with
  | [] => false
  | (v, c) :: log' => if bool_decide (v = ws) then c else told log' ws
  end.

Section sink.
Context {Y : Type} `{YamuxSpec Y}.
Notation HW := (@HubState Y (list (string * bool))).
Notation start h := (mkHubState h ∅).

Definition pending (a : agent) : option (string * bool) :=
  match a with Reporting ws => Some (ws, true) | Leaving ws => Some (ws, false) | _ => None end.
(** No report is waiting to be made. *)
Definition settled (w : HW) : Prop := forall n a, hs_agents w !! n = Some a -> pending a = None.

(** Executions in which nothing comes between a table update and its report. *)
Inductive serial_exec : HW -> HW -> Prop :=
| SE_nil w : serial_exec w w
| SE_snoc l w1 w2 w3 :
    serial_exec w1 w2 -> hub_step l w2 w3 ->
    match l with LDial _ _ _ | LDrop _ => settled w2 | _ => True end ->
    serial_exec w1 w3.

Definition sink_inv (w : HW) : Prop :=
  exists log, hb_sink (hs_hub w) = Some log /\
  let t := hb_sessions (hs_hub w) in
  (settled w /\ forall ws, told log ws = bool_decide (is_Some (t !! ws))) \/
  exists n a v, hs_agents w !! n = Some a /\ pending a = Some v /\
    (forall m b, m <> n -> hs_agents w !! m = Some b -> pending b = None) /\
    (forall ws, told (v :: log) ws = bool_decide (is_Some (t !! ws))).

Lemma settled_insert (ag : gmap nat agent) n a :
  (forall m b, ag !! m = Some b -> pending b = None) -> pending a = None ->
  forall m b, <[n := a]> ag !! m = Some b -> pending b = None.
Proof. intros Hs Ha m b [[_ <-]|[_ Hb]]%lookup_insert_Some; [done|by eapply Hs]. Qed.

Lemma settled_but (ag : gmap nat agent) n a :
  (forall m b, m <> n -> ag !! m = Some b -> pending b = None) -> pending a = None ->
  forall m b, <[n := a]> ag !! m = Some b -> pending b = None.
Proof. intros Hs Ha m b [[_ <-]|[Hne Hb]]%lookup_insert_Some; [done|by eapply Hs]. Qed.

Lemma told_insert (t : gmap string nat) log ws n :
  (forall v, told log v = bool_decide (is_Some (t !! v))) ->
  forall v, told ((ws, true) :: log) v = bool_decide (is_Some (<[ws := n]> t !! v)).
Proof.
  intros Ht v. simpl. case_bool_decide as Hv.
  - subst v. rewrite lookup_insert_eq. done.
  - by rewrite lookup_insert_ne by done.
Qed.

Lemma told_delete (t : gmap string nat) log ws :
  (forall v, told log v = bool_decide (is_Some (t !! v))) ->
  forall v, told ((ws, false) :: log) v = bool_decide (is_Some (delete ws t !! v)).
Proof.
  intros Ht v. simpl. case_bool_decide as Hv.
  - subst v. rewrite lookup_delete_eq. symmetry. apply bool_decide_eq_false_2. by intros [].
  - by rewrite lookup_delete_ne by done.
Qed.

(** The report a pending agent makes settles the hub. *)
Lemma sink_report n a v a' (h : Hub Y (list (string * bool))) ag :
  sink_inv (mkHubState h ag) -> ag !! n = Some a -> pending a = Some v -> pending a' = None ->
  sink_inv (mkHubState (report v.1 v.2 h).1 (<[n := a']> ag)).
Proof.
  intros (log & Hlog & Hcase) Hn Hp Ha'. destruct v as [ws c]. simpl in *.
  exists ((ws, c) :: log). simpl. rewrite Hlog. split; [done|]. left.
  destruct Hcase as [[Hs _]|(m & b & u & Hm & Hu & Hoth & Ht)].
  { specialize (Hs _ _ Hn). congruence. }
  destruct (decide (m = n)) as [->|Hne].
  2:{ specialize (Hoth n a (not_eq_sym Hne) Hn). congruence. }
  rewrite Hn in Hm. simplify_eq. split; [|exact Ht]. by refine (settled_but _ _ _ Hoth _).
Qed.

Lemma step_sink l w w' :
  hub_step l w w' -> match l with LDial _ _ _ | LDrop _ => settled w | _ => True end -> sink_inv w -> sink_inv w'.
Proof.
  intros Hst Hl Hi.
  destruct Hst as [resolve n input h h' r ag Hn He|n ws h ag Hn|n ws h h' r ag Hn Hc He|n ws h ag Hn|h y ag Hk].
  - destruct Hi as (log & Hlog & [[_ Ht]|(m & b & u & Hm & Hu & _)]); [|by rewrite (Hl m b Hm) in Hu].
    pose proof (wp_all _ _ _ _ _ He (accept_open_spec resolve n input h)) as [[_ Hsk] Hr].
    exists log. simpl in *. split; [congruence|]. destruct r as [ws|].
    + destruct Hr as (_ & -> & _). right. exists n, (Reporting ws), (ws, true). rewrite lookup_insert_eq. split_and!; [done|done| |].
      * intros m b Hne. rewrite lookup_insert_ne by done. apply Hl.
      * by apply told_insert.
    + rewrite Hr. left. split; [|done]. refine (settled_insert _ _ _ Hl _). done.
  - by apply (sink_report n (Reporting ws) (ws, true) (Serving ws)).
  - destruct Hi as (log & Hlog & [[_ Ht]|(m & b & u & Hm & Hu & _)]); [|by rewrite (Hl m b Hm) in Hu].
    rewrite unregister_locked_eq in He. exists log. case_bool_decide; simplify_eq; simpl in *; (split; [done|]).
    + right. exists n, (Leaving ws), (ws, false). rewrite lookup_insert_eq. split_and!; [done|done| |].
      * intros m b Hne. rewrite lookup_insert_ne by done. apply Hl.
      * by apply told_delete.
    + left. split; [|done]. refine (settled_insert _ _ _ Hl _). done.
  - by apply (sink_report n (Leaving ws) (ws, false) Done).
  - destruct Hi as (log & Hlog & Hcase). by exists log.
Qed.

(** When no agent comes or goes between the hub's table update and its
    report, the sink always ends up with the truth: once every report is made,
    what it was last told about a workspace is whether the hub has an agent for
    it. *)
Theorem sink_agrees y w :
  serial_exec (start (WithSink [] (New y))) w -> settled w ->
  exists log, hb_sink (hs_hub w) = Some log /\
    forall ws, told log ws = bool_decide (is_Some (hb_sessions (hs_hub w) !! ws)).
Proof.
  intros He Hs. assert (sink_inv w) as (log & Hlog & Hcase).
  { clear Hs. remember (start _) as w0 eqn:E. induction He as [|l w1 w2 w3 He IH Hst Hl]; subst.
    - exists []. split; [done|]. left. split; [done|]. intros ws. simpl. rewrite lookup_empty. symmetry.
      apply bool_decide_eq_false_2. by intros [].
    - eapply step_sink; eauto. }
  exists log. split; [done|]. destruct Hcase as [[_ Ht]|(m & b & u & Hm & Hu & _)]; [done|].
  by rewrite (Hs m b Hm) in Hu.
Qed.
End sink.

(** * A network, for concrete executions *)
Module Net.
Record Net : Type := mkNet {
  nt_closed : gset nat;
  nt_streams : nat
}.

#[export] Instance net : Yamux Net := {|
  ym_Client n y := (y, Ok tt);
  ym_IsClosed y s := bool_decide (s ∈ nt_closed y);
  ym_Close n y := (mkNet ({[n]} ∪ nt_closed y) (nt_streams y), Ok tt);
  ym_CloseConn n y := (y, Ok tt);
  ym_OpenStream n y := (mkNet (nt_closed y) (S (nt_streams y)), Ok (mkStream (nt_streams y) (mkWriter "" None)));
  ym_CloseStream n y := (y, Ok tt)
|}.

#[export] Instance net_spec : YamuxSpec Net.
Proof.
  split; [by intros n s y _| |by intros n y s]. intros n y s. simpl. rewrite !bool_decide_eq_true. set_solver.
Qed.

Definition idle : Net := mkNet ∅ 0.
Definition tokens (t : string) : result string :=
  if bool_decide (t = "tok"%string) then Ok "ws-1"%string else Err (Sentinel "store" "store: not found").
(** The bytes of an agent's handshake. *)
Definition hello : string := Eval vm_compute in
  wr_out (WriteHandshake (mkHandshake "ws-1" "tok") (mkWriter "" None)).1.
Definition hub0 : Hub Net (list (string * bool)) := WithSink [] (New idle).
Definition with_closed (l : list nat) (t : gmap string nat) (log : list (string * bool)) : Hub Net (list (string * bool)) :=
  mkHub t (mkNet (list_to_set l) 0) (Some log).
Notation NW := (@HubState Net (list (string * bool))).
Definition start0 : NW := mkHubState hub0 ∅.

(** A scheduler: a step of the agent [n], or the death of its session. *)
Definition run1 (o : label + nat) (w : NW) : option NW :=
  let h := hs_hub w in let ag := hs_agents w in
  match o with
  | inl (LDial resolve n input) =>
      match ag !! n, accept_open resolve n input h with
      | None, (h', Ok r) => Some (mkHubState h' (<[n := match r with Some ws => Reporting ws | None => Done end]> ag))
      | _, _ => None
      end
  | inl (LReport n) =>
      match ag !! n with
      | Some (Reporting ws) => Some (mkHubState (report ws true h).1 (<[n := Serving ws]> ag))
      | Some (Leaving ws) => Some (mkHubState (report ws false h).1 (<[n := Done]> ag))
      | _ => None
      end
  | inl (LDrop n) =>
      match ag !! n with
      | Some (Serving ws) =>
          if ym_IsClosed (hb_yamux h) n then
            match unregister_locked ws n h with
            | (h', Ok r) => Some (mkHubState h' (<[n := if r : bool then Leaving ws else Done]> ag))
            | _ => None
            end
          else None
      | _ => None
      end
  | inl LNet => None
  | inr n => Some (mkHubState (h <| hb_yamux := (ym_Close n (hb_yamux h)).1 |>) ag)
  end.
Definition op_label (o : label + nat) : label := match o with inl l => l | inr _ => LNet end.
Fixpoint run (os : list (label + nat)) (w : NW) : option NW :=
  match os with [] => Some w | o :: os' => run1 o w ≫= run os' end.
Definition settled_now (w : NW) : bool :=
  forallb (fun na => match pending na.2 with None => true | Some _ => false end) (map_to_list (hs_agents w)).
Fixpoint run_serial (os : list (label + nat)) (w : NW) : option NW :=
  match os with
  | [] => Some w
  | o :: os' =>
      if match o with inl (LDial _ _ _) | inl (LDrop _) => settled_now w | _ => true end
      then run1 o w ≫= run_serial os' else None
  end.

Lemma run1_step o (w w' : NW) : run1 o w = Some w' -> hub_step (op_label o) w w'.
Proof.
  destruct w as [h ag]. destruct o as [[re n i|n|n|]|n]; simpl; intros Hr.
  - destruct (ag !! n) eqn:Hn; [done|]. destruct (accept_open re n i h) as [h' [r|]] eqn:He; [|done].
    simplify_eq. by apply HS_dial.
  - destruct (ag !! n) as [[ws|ws|ws|]|] eqn:Hn; simplify_eq; [exact (HS_came n ws h ag Hn)|exact (HS_left n ws h ag Hn)].
  - destruct (ag !! n) as [[ws|ws|ws|]|] eqn:Hn; try done. destruct (bool_decide _) eqn:Hc; [|done].
    destruct (unregister_locked ws n h) as [h' [r|]] eqn:He; [|done]. simplify_eq. by apply (HS_drop n ws h h' r ag).
  - done.
  - simplify_eq. apply HS_net. exact (ym_Close_closed n (hb_yamux h)).
Qed.

Lemma hub_exec_cons l (w1 w2 w3 : NW) tr : hub_step l w1 w2 -> hub_exec tr w2 w3 -> hub_exec (l :: tr) w1 w3.
Proof.
  intros Hst He. revert Hst. induction He as [|tr' k u1 u2 u3 He IH Hst2]; intros Hst.
  - apply (HE_snoc [] l _ w1); [constructor|done].
  - apply (HE_snoc (l :: tr') k _ u2); auto.
Qed.

Lemma run_exec os (w w' : NW) : run os w = Some w' -> hub_exec (map op_label os) w w'.
Proof.
  revert w. induction os as [|o os IH]; intros w; simpl; intros Hr; [simplify_eq; constructor|].
  apply bind_Some in Hr as (w1 & Hr1 & Hr). eapply hub_exec_cons; [by apply run1_step|auto].
Qed.

Lemma settled_now_true (w : NW) : settled_now w = true -> settled w.
Proof.
  unfold settled_now, settled. intros Hs n a Hn. rewrite forallb_forall in Hs.
  specialize (Hs (n, a)). simpl in Hs. destruct (pending a); [|done].
  discriminate Hs. apply list_elem_of_In. by apply elem_of_map_to_list.
Qed.

Lemma serial_exec_cons l (w1 w2 w3 : NW) :
  hub_step l w1 w2 -> match l with LDial _ _ _ | LDrop _ => settled w1 | _ => True end ->
  serial_exec w2 w3 -> serial_exec w1 w3.
Proof.
  intros Hst Hl He. revert Hst Hl. induction He as [|k u1 u2 u3 He IH Hst2 Hk]; intros Hst Hl.
  - by apply (SE_snoc l _ w1); [constructor| |].
  - apply (SE_snoc k _ u2); auto.
Qed.

Lemma run_serial_exec os (w w' : NW) : run_serial os w = Some w' -> serial_exec w w'.
Proof.
  revert w. induction os as [|o os IH]; intros w; simpl; intros Hr; [simplify_eq; constructor|].
  destruct (match o with inl (LDial _ _ _) | inl (LDrop _) => settled_now w | _ => true end) eqn:Hs; [|done].
  apply bind_Some in Hr as (w1 & Hr1 & Hr). eapply serial_exec_cons; [by apply run1_step| |auto].
  destruct o as [[]|]; simpl; auto using settled_now_true.
Qed.
End Net.
Import Net.

Lemma agent_not_displaced_witness :
  exists w w', hub_exec [LDial tokens 1 hello; LReport 1] start0 w /\
    hub_exec [LDial tokens 2 hello] w w' /\ hb_sessions (hs_hub w') !! "ws-1" = Some 1%nat.
Proof.
  set (w := default start0 (run [inl (LDial tokens 1 hello); inl (LReport 1)] start0)).
  set (w' := default start0 (run [inl (LDial tokens 2 hello)] w)).
  assert (hub_exec [LDial tokens 1 hello; LReport 1] start0 w) as H1
    by (apply (run_exec [inl (LDial tokens 1 hello); inl (LReport 1)]); vm_compute; reflexivity).
  assert (hub_exec [LDial tokens 2 hello] w w') as H2
    by (apply (run_exec [inl (LDial tokens 2 hello)]); vm_compute; reflexivity).
  exists w, w'. split; [exact H1|]. split; [exact H2|].
  refine (proj2 (agent_not_displaced _ _ hub0 w w' "ws-1" 1 _ H1 H2 _) _); vm_compute; reflexivity.
Defined.

Lemma sink_agrees_witness :
  exists w log, serial_exec start0 w /\ hb_sink (hs_hub w) = Some log /\ told log "ws-1" = false /\
    told log "ws-1" = bool_decide (is_Some (hb_sessions (hs_hub w) !! "ws-1"%string)).
Proof.
  set (os := [inl (LDial tokens 1 hello); inl (LReport 1); inr 1; inl (LDrop 1); inl (LReport 1)]%nat).
  set (w := default start0 (run_serial os start0)).
  assert (serial_exec start0 w) as He by (apply (run_serial_exec os); vm_compute; reflexivity).
  assert (settled w) as Hs by (apply settled_now_true; vm_compute; reflexivity).
  destruct (sink_agrees idle w He Hs) as (log & Hlog & Ht). exists w, log. split; [exact He|]. split; [exact Hlog|].
  split; [|apply Ht]. rewrite Ht. vm_compute. reflexivity.
Defined.

(** The report is made after the unlock, so it can be overtaken: an agent
    drops, its successor registers and reports first, and then the old agent's
    report arrives.  The sink is left believing that the workspace has no
    agent, with every report made and the hub holding a live session. *)
Theorem sink_race :
  let trace := [LDial tokens 1 hello; LReport 1; LNet; LDrop 1; LDial tokens 2 hello; LReport 2; LReport 1]%nat in
  exists w log, hub_exec trace start0 w /\ settled w /\ hb_sink (hs_hub w) = Some log /\
    (Connected "ws-1" (hs_hub w)).2 = Ok true /\ told log "ws-1" = false.
Proof.
  set (os := [inl (LDial tokens 1 hello); inl (LReport 1); inr 1; inl (LDrop 1); inl (LDial tokens 2 hello);
              inl (LReport 2); inl (LReport 1)]%nat).
  set (w := default start0 (run os start0)). intros trace.
  exists w, [("ws-1", false); ("ws-1", true); ("ws-1", true)]%string. split_and!.
  - apply (run_exec os). vm_compute. reflexivity.
  - apply settled_now_true. vm_compute. reflexivity.
  - vm_compute. reflexivity.
  - vm_compute. reflexivity.
  - reflexivity.
Qed.
