(* ===== verification/Agentssh.v ===== *)
(** The agent's SSH server ([internal/agentssh/agentssh.go], [keys.go]): who may
    open a session, the session's request machine, the command it runs, and the
    host key on disk.  The SSH library is the class [SSH] and the operating
    system below a command the class [Procs]; a session channel is its requests
    in order and the actions they cause. *)
From stdpp Require Import base option list strings gmap.
From Stdlib Require Import Ascii ZArith Lia.
From S2P Require Import Prelude GoStrings Json.
Local Open Scope Z_scope.

(** * The SSH library *)
Class SSH (K : Type) : Type := {
  key_Marshal : K -> string;
  key_is_cert : K -> bool;                                    (* key.( *ssh.Certificate) *)
  cert_Authenticate : (K -> bool) -> string -> K -> result unit;  (* CertChecker with IsUserAuthority *)
  ssh_ParseAuthorizedKey : string -> result (K * string)      (* the key and the rest *)
}.

(** What the certificate checker documents: an accepted certificate is signed by
    an authority and, when it names principals, names the user; and a parsed key
    takes something off the input. *)
Class SSHSpec (K : Type) `{SSH K} : Type := {
  cert_signer : K -> K;
  cert_principals : K -> list string;
  cert_Authenticate_ok auth user k :
    cert_Authenticate auth user k = Ok tt ->
    auth (cert_signer k) = true /\ (cert_principals k = [] \/ user ∈ cert_principals k);
  ssh_ParseAuthorizedKey_shorter s k r :
    ssh_ParseAuthorizedKey s = Ok (k, r) -> (slen r < slen s)%nat
}.

Record Config (K : Type) : Type := mkConfig {
  cf_HostKey : option K;
  cf_TrustedUserCA : option K;
  cf_Principal : string;
  cf_AuthorizedKeys : list K;
  cf_Shell : string;
  cf_HomeDir : string;
  cf_Trusted : bool
}.
Arguments mkConfig {K}.
Arguments cf_HostKey {K}.
Arguments cf_TrustedUserCA {K}.
Arguments cf_Principal {K}.
Arguments cf_AuthorizedKeys {K}.
Arguments cf_Shell {K}.
Arguments cf_HomeDir {K}.
Arguments cf_Trusted {K}.

(** [keyEqual]: constant-time comparison. *)
Fixpoint key_diff (a b : string) (diff : Z) : Z :=
  match a, b with
  | String x a', String y b' => key_diff a' b' (Z.lor diff (Z.lxor (byte_val x) (byte_val y)))
  | _, _ => diff
  end.
Definition keyEqual (a b : string) : bool :=
  if negb (slen a =? slen b)%nat then false else key_diff a b 0 =? 0.

Section auth.
Context {K : Type} `{SSH K}.

Definition unauthorized : error := Errorf "agentssh: unauthorized credential".
Definition not_owner (user : string) : error :=
  Errorf ("agentssh: " +:+ quote user +:+ " is not the workspace owner").

(** [checker.IsUserAuthority]. *)
Definition is_authority (cfg : Config K) (auth : K) : bool :=
  match cf_TrustedUserCA cfg with Some ca => keyEqual (key_Marshal auth) (key_Marshal ca) | None => false end.

(** [PublicKeyCallback]. *)
Definition PublicKeyCallback (cfg : Config K) (user : string) (key : K) : result unit :=
  let fallback :=
    if existsb (fun ak => keyEqual (key_Marshal key) (key_Marshal ak)) (cf_AuthorizedKeys cfg)
    then Ok tt else Err unauthorized in
  match cf_TrustedUserCA cfg with
  | Some _ =>
      if key_is_cert key then
        if negb (bool_decide (cf_Principal cfg = ""%string)) && negb (bool_decide (user = cf_Principal cfg))
        then Err (not_owner user)
        else cert_Authenticate (is_authority cfg) user key
      else fallback
  | None => fallback
  end.

(** How [Serve] sets up the connection: [None] when it refuses to start. *)
Inductive client_auth : Type :=
| NoClientAuth
| PublicKeyAuth (callback : string -> K -> result unit).
Definition server_auth (cfg : Config K) : result client_auth :=
  match cf_HostKey cfg with
  | None => Err (Errorf "agentssh: nil host key")
  | Some _ => Ok (if cf_Trusted cfg then NoClientAuth else PublicKeyAuth (PublicKeyCallback cfg))
  end.

(** [ParseAuthorizedKeys], with fuel for its loop. *)
Fixpoint parse_keys (fuel : nat) (rest : string) : option (list K) :=
  match fuel with
  | O => None
  | S f =>
      match rest with
      | EmptyString => Some []
      | _ =>
          match ssh_ParseAuthorizedKey rest with
          | Err _ => Some []
          | Ok (key, r) => cons key <$> parse_keys f r
          end
      end
  end.
Definition no_keys : error := Errorf "agentssh: no public keys found".
Definition ParseAuthorizedKeys (b : string) : result (list K) :=
  match parse_keys (S (slen b)) b with
  | Some [] | None => Err no_keys
  | Some keys => Ok keys
  end.
End auth.

(** * A session channel *)
Record ptyReq : Type := mkPtyReq {
  pty_Term : string;
  pty_Cols : Z;
  pty_Rows : Z;
  pty_Wpx : Z;
  pty_Hpx : Z;
  pty_Modes : string
}.
Record winchReq : Type := mkWinchReq {
  wc_Cols : Z;
  wc_Rows : Z;
  wc_Wpx : Z;
  wc_Hpx : Z
}.

(** [ssh.Unmarshal] of each payload; a failed one leaves the zero value. *)
Class SSHWire : Type := {
  un_pty : string -> option ptyReq;
  un_winch : string -> option winchReq;
  un_exec : string -> option string;        (* execReq.Command *)
  un_subsystem : string -> option string    (* subsystemReq.Name *)
}.

(** What happens on the channel: a request, or the pty of the command that was
    started coming up ([*ptmx = f]). *)
Inductive event : Type :=
| Request (typ payload : string)
| PtyUp.

Inductive action : Type :=
| Reply (ok : bool)
| Setsize (cols rows : Z)
| RunCommand (cmdline : list string) (home : string) (hasPTY : bool) (cols rows : Z)
| RunSFTP (home : string).

Record Session : Type := mkSession {
  ss_ptmx : bool;
  ss_started : bool;
  ss_hasPTY : bool;
  ss_cols : Z;
  ss_rows : Z
}.
Definition new_session : Session := mkSession false false false 80 24.

Section session.
Context `{SSHWire}.
Variable Getenv : string -> string.
Variable Stat : string -> bool.             (* os.Stat succeeds *)

Definition loginShell (shell : string) : string :=
  if negb (bool_decide (shell = ""%string)) then shell
  else if negb (bool_decide (Getenv "SHELL" = ""%string)) then Getenv "SHELL"
  else default "/bin/sh"%string (find Stat ["/bin/bash"; "/bin/sh"]%string).

Definition shellDashC (shell command : string) : list string := [loginShell shell; "-c"%string; command].

(** One turn of [handleSession]'s loop. *)
Definition handle_event (shell home : string) (ev : event) (s : Session) : Session * list action :=
  match ev with
  | PtyUp => (mkSession true (ss_started s) (ss_hasPTY s) (ss_cols s) (ss_rows s), [])
  | Request typ payload =>
      if bool_decide (typ = "pty-req"%string) then
        let s' := match un_pty payload with
                  | Some p =>
                      if 0 <? pty_Cols p
                      then mkSession (ss_ptmx s) (ss_started s) true (uint16 (pty_Cols p)) (uint16 (pty_Rows p))
                      else mkSession (ss_ptmx s) (ss_started s) true (ss_cols s) (ss_rows s)
                  | None => s
                  end in
        (s', [Reply true])
      else if bool_decide (typ = "window-change"%string) then
        match un_winch payload with
        | Some w =>
            (mkSession (ss_ptmx s) (ss_started s) (ss_hasPTY s) (uint16 (wc_Cols w)) (uint16 (wc_Rows w)),
             if ss_ptmx s then [Setsize (uint16 (wc_Cols w)) (uint16 (wc_Rows w))] else [])
        | None => (s, [])
        end
      else if bool_decide (typ = "env"%string) then (s, [Reply true])
      else if bool_decide (typ = "shell"%string) || bool_decide (typ = "exec"%string) then
        if ss_started s then (s, [Reply false])
        else
          let cmdline :=
            if bool_decide (typ = "exec"%string) then shellDashC shell (default ""%string (un_exec payload))
            else [loginShell shell] in
          (mkSession (ss_ptmx s) true (ss_hasPTY s) (ss_cols s) (ss_rows s),
           [Reply true; RunCommand cmdline home (ss_hasPTY s) (ss_cols s) (ss_rows s)])
      else if bool_decide (typ = "subsystem"%string) then
        let name := default ""%string (un_subsystem payload) in
        if ss_started s || negb (bool_decide (name = "sftp"%string)) then (s, [Reply false])
        else (mkSession (ss_ptmx s) true (ss_hasPTY s) (ss_cols s) (ss_rows s), [Reply true; RunSFTP home])
      else (s, [Reply false])
  end.

Fixpoint handleSession (shell home : string) (reqs : list event) (s : Session) : Session * list action :=
  match reqs with
  | [] => (s, [])
  | ev :: reqs' =>
      let '(s1, a1) := handle_event shell home ev s in
      let '(s2, a2) := handleSession shell home reqs' s1 in (s2, a1 ++ a2)
  end.
End session.

(** * Running a command *)
Inductive wait_err : Type :=
| WaitNil
| ExitError (code : Z)     (* -1 when a signal ended it *)
| WaitOther.               (* not started, or its output could not be copied *)

Definition exitCode (err : wait_err) : Z :=
  match err with WaitNil => 0 | ExitError code => code | WaitOther => 1 end.

(** Commands as functions of all the input they are given. *)
Class Procs : Type := {
  os_Environ : list string;
  proc_pty : list string -> string -> list string -> Z * Z -> string -> result (string * wait_err);
  proc_StdinPipe : list string -> bool;
  proc_pipes : list string -> string -> list string -> string -> result (string * string * wait_err)
}.

(** What is sent on the channel: output, stderr, and the exit-status before the
    close. *)
Record ChanOut : Type := mkChanOut {
  co_out : string;
  co_err : string;
  co_status : Z
}.
Definition exitClose (out err : string) (code : Z) : ChanOut := mkChanOut out err (uint32 code).

Section run.
Context `{Procs}.
Definition cmd_env (home : string) : list string :=
  os_Environ ++ ["TERM=xterm-256color"%string] ++
  (if bool_decide (home = ""%string) then [] else ["HOME=" +:+ home]%string).

Definition crlf : string := String (byte_of 13) (String (byte_of 10) EmptyString).
Definition runCommand (cmdline : list string) (home : string) (hasPTY : bool) (cols rows : Z) (input : string) : ChanOut :=
  if hasPTY then
    match proc_pty cmdline home (cmd_env home) (cols, rows) input with
    | Err e => exitClose "" ("hopbox: pty: " +:+ Error e +:+ crlf) 1
    | Ok (out, err) => exitClose out "" (exitCode err)
    end
  else if negb (proc_StdinPipe cmdline) then exitClose "" "" 1
  else
    match proc_pipes cmdline home (cmd_env home) input with
    | Err _ => exitClose "" "" (exitCode WaitOther)
    | Ok (out, err, w) => exitClose out err (exitCode w)
    end.

(** [runSFTP]: whether the server came up, and how it ended, which is not
    reported. *)
Definition runSFTP (up : bool) : Z := if up then 0 else 1.
End run.

(** * The host key *)
Section hostkey.
Context {K : Type}.
Variable ParsePrivateKey : string -> result K.
Variable encode_key : K -> string.        (* ssh.MarshalPrivateKey, PEM-encoded *)
Variable writable : string -> bool.       (* os.WriteFile succeeds there *)
Variable write_error : error.

(** [LoadOrCreateHostKey]; [fresh] is the key [ed25519.GenerateKey] would make,
    and the state is the files. *)
Definition LoadOrCreateHostKey (fresh : K) (path : string) : M (gmap string string) K := fun fs =>
  match fs !! path with
  | Some b => (fs, map_err (ErrWrap ("agentssh: parse host key " +:+ path)) (ParsePrivateKey b))
  | None =>
      if writable path then (<[path := encode_key fresh]> fs, Ok fresh)
      else (fs, Err (ErrWrap ("agentssh: write host key " +:+ path) write_error))
  end.
End hostkey.

(** * Lemmas *)
Lemma lor_zero a b : 0 <= a -> 0 <= b -> Z.lor a b = 0 -> a = 0 /\ b = 0.
Proof. intros _ _ Hl. by apply Z.lor_eq_0_iff. Qed.

Lemma key_diff_zero a b d :
  0 <= d -> slen a = slen b -> (key_diff a b d = 0 <-> d = 0 /\ a = b).
Proof.
  revert b d. induction a as [|x a IH]; intros [|y b] d Hd Hl; simpl in *; try done; [tauto|].
  pose proof (byte_val_range x). pose proof (byte_val_range y).
  assert (0 <= Z.lxor (byte_val x) (byte_val y)) as Hx by (apply Z.lxor_nonneg; lia).
  rewrite IH; [|by apply Z.lor_nonneg|by injection Hl]. rewrite Z.lor_eq_0_iff, Z.lxor_eq_0_iff. split.
  - intros [[Hd0 Hxy] ->]. apply byte_val_inj in Hxy. by subst.
  - by intros [-> [= -> ->]].
Qed.

Lemma keyEqual_eq a b : keyEqual a b = true <-> a = b.
Proof.
  unfold keyEqual. destruct (slen a =? slen b)%nat eqn:Hl; simpl.
  - apply Nat.eqb_eq in Hl. rewrite Z.eqb_eq, key_diff_zero by done. tauto.
  - split; [done|]. intros ->. by rewrite Nat.eqb_refl in Hl.
Qed.

Section auth_lemmas.
Context {K : Type} `{SSHSpec K}.

Lemma authorized_key (keys : list K) key :
  existsb (fun ak => keyEqual (key_Marshal key) (key_Marshal ak)) keys = true ->
  exists ak, ak ∈ keys /\ key_Marshal ak = key_Marshal key.
Proof.
  intros (ak & Hin & He)%existsb_exists. apply keyEqual_eq in He. exists ak. split; [by apply list_elem_of_In|done].
Qed.


Lemma parse_keys_total fuel s : (slen s < fuel)%nat -> exists keys, parse_keys (K:=K) fuel s = Some keys.
Proof.
  revert s. induction fuel as [|f IH]; intros s Hf; [lia|]. simpl. destruct s as [|c s]; [by eexists|].
  destruct (ssh_ParseAuthorizedKey (String c s)) as [[key r]|e] eqn:Hp; [|by eexists].
  apply ssh_ParseAuthorizedKey_shorter in Hp. destruct (IH r) as (keys & ->); [lia|]. by eexists.
Qed.

(** The loop of [ParseAuthorizedKeys] ends, with a key at least or an error. *)
Lemma ParseAuthorizedKeys_total b :
  match ParseAuthorizedKeys (K:=K) b with Ok keys => keys <> [] | Err e => e = no_keys end.
Proof.
  unfold ParseAuthorizedKeys. destruct (parse_keys_total (S (slen b)) b) as (keys & ->); [lia|]. by destruct keys.
Qed.
End auth_lemmas.

(** Once written, the host key is found again: the box keeps its identity. *)
Lemma LoadOrCreateHostKey_stable {K} (parse : string -> result K) (encode : K -> string) writable werr k path fs fs' :
  (forall k, parse (encode k) = Ok k) ->
  LoadOrCreateHostKey parse encode writable werr k path fs = (fs', Ok k) -> fs !! path = None ->
  forall k', LoadOrCreateHostKey parse encode writable werr k' path fs' = (fs', Ok k).
Proof.
  intros Hpe. unfold LoadOrCreateHostKey. intros Hl Hn k'. rewrite Hn in Hl. destruct (writable path); [|done].
  simplify_eq. rewrite lookup_insert_eq. simpl. by rewrite Hpe.
Qed.

(** * The session machine *)
Definition is_run (a : action) : bool :=
  match a with RunCommand _ _ _ _ _ | RunSFTP _ => true | _ => false end.
Definition is_reply (a : action) : bool := match a with Reply _ => true | _ => false end.
Definition wants_reply (ev : event) : bool :=
  match ev with Request typ _ => negb (bool_decide (typ = "window-change"%string)) | PtyUp => false end.
Definition count {A} (p : A -> bool) (l : list A) : nat := length (List.filter p l).
Definition in_uint16 (z : Z) : Prop := 0 <= z < 2 ^ 16.
(** The sizes of a terminal are 16-bit. *)
Definition sized (a : action) : Prop :=
  match a with
  | Setsize c r | RunCommand _ _ _ c r => in_uint16 c /\ in_uint16 r
  | _ => True
  end.

Lemma count_app {A} (p : A -> bool) l k : count p (l ++ k) = (count p l + count p k)%nat.
Proof. unfold count. by rewrite List.filter_app, length_app. Qed.

Lemma uint16_in z : in_uint16 (uint16 z).
Proof. apply Z.mod_pos_bound. lia. Qed.
#[export] Hint Resolve uint16_in : go.

Section session_lemmas.
Context `{SSHWire}.
Variable Getenv : string -> string.
Variable Stat : string -> bool.
Notation handle_event := (handle_event Getenv Stat).
Notation handleSession := (handleSession Getenv Stat).

Definition session_ok (s : Session) : Prop := in_uint16 (ss_cols s) /\ in_uint16 (ss_rows s).

Lemma handle_event_spec shell home ev s s' acts :
  handle_event shell home ev s = (s', acts) -> session_ok s ->
  session_ok s' /\ Forall sized acts /\ count is_reply acts = (if wants_reply ev then 1 else 0)%nat /\
  (count is_run acts = if negb (ss_started s) && ss_started s' then 1 else 0)%nat /\
  (ss_started s = true -> ss_started s' = true).
Proof.
  intros He [Hc Hr]. unfold handle_event in He. destruct ev as [typ payload|].
  2:{ simplify_eq. split_and!; try done. simpl. by destruct (ss_started s). }
  assert (forall b, negb b && b = false) as Hnb by by intros [].
  unfold wants_reply, session_ok. repeat case_bool_decide; simpl in *;
    repeat match type of He with
    | context [match ?x with Some _ => _ | None => _ end] => destruct x
    | context [if ?x then _ else _] => destruct x eqn:?
    end; simplify_eq; simpl; rewrite ?Hnb, ?Forall_cons, ?Forall_nil; simpl;
    repeat match goal with H : ss_started s = _ |- _ => rewrite !H end; split_and!; auto with go; try congruence;
    destruct (ss_started s); done.
Qed.

(** Whatever a client asks of a session channel, one command at most is
    run in it, each request that wants an answer gets exactly one, and every
    terminal size passed on fits the 16 bits the kernel's ioctl takes. *)
Theorem session_runs_once shell home evs :
  let '(_, acts) := handleSession shell home evs new_session in
  (count is_run acts <= 1)%nat /\ count is_reply acts = count wants_reply evs /\ Forall sized acts.
Proof.
  assert (forall evs s0 s acts, handleSession shell home evs s0 = (s, acts) -> session_ok s0 ->
    (count is_run acts <= if ss_started s0 then 0 else 1)%nat /\ count is_reply acts = count wants_reply evs /\
    Forall sized acts) as Hgen.
  { clear. intros evs. induction evs as [|ev evs IH]; intros s0 s acts He Hok; simpl in He.
    { injection He as <- <-. split_and!; [|done..]. unfold count. simpl. lia. }
    destruct (handle_event shell home ev s0) as [s1 a1] eqn:H1. destruct (handleSession shell home evs s1) as [s2 a2] eqn:H2.
    simplify_eq. destruct (handle_event_spec _ _ _ _ _ _ H1 Hok) as (Hok1 & Hz & Hrep & Hrun & Hmono).
    destruct (IH _ _ _ H2 Hok1) as (Hrun2 & Hrep2 & Hz2). rewrite !count_app, Hrep, Hrep2, Hrun. split_and!.
    - destruct (ss_started s0); [rewrite Hmono in Hrun2 by done; simpl; lia|]. destruct (ss_started s1); simpl in *; lia.
    - change (count wants_reply (ev :: evs)) with (length (if wants_reply ev then ev :: List.filter wants_reply evs else List.filter wants_reply evs)).
      unfold count. by destruct (wants_reply ev).
    - by apply Forall_app. }
  destruct (handleSession shell home evs new_session) as [s acts] eqn:He.
  destruct (Hgen _ _ _ _ He) as (? & ? & ?); [|done]. by split.
Qed.
End session_lemmas.

(** A concrete key type: a plain key, or a certificate with its signer. *)
Module Keys.
Inductive key : Type :=
| Plain (bytes : string)
| Cert (bytes signer : string) (principals : list string).
Definition bytes_of (k : key) : string := match k with Plain b => b | Cert b _ _ => b end.
Definition signer_of (k : key) : key := match k with Plain b => Plain b | Cert _ s _ => Plain s end.
Definition principals_of (k : key) : list string := match k with Plain _ => [] | Cert _ _ l => l end.

#[export] Instance ssh : SSH key := {|
  key_Marshal := bytes_of;
  key_is_cert k := match k with Cert _ _ _ => true | Plain _ => false end;
  cert_Authenticate auth user k :=
    if auth (signer_of k) && (bool_decide (principals_of k = []) || bool_decide (user ∈ principals_of k))
    then Ok tt else Err (Errorf "ssh: certificate refused");
  ssh_ParseAuthorizedKey s := match s with String _ r => Ok (Plain s, r) | EmptyString => Err io_EOF end
|}.

#[export] Program Instance ssh_spec : SSHSpec key := {| cert_signer := signer_of; cert_principals := principals_of |}.
Next Obligation.
  intros auth user k. simpl. destruct (auth (signer_of k)); [|done]. simpl.
  intros Hc. split; [done|]. destruct (_ || _) eqn:He; [|done]. apply orb_true_iff in He as [He|He]; go_bool; tauto.
Qed.
Next Obligation. intros [|c s] k r; simpl; [done|]. intros [= _ <-]. simpl. lia. Qed.

Definition cfg : Config key := mkConfig (Some (Plain "host")) (Some (Plain "CA")) "alice" [Plain "old"] "" "" false.
End Keys.
#[local] Existing Instance Keys.ssh.
#[local] Existing Instance Keys.ssh_spec.

