(* ===== verification/Agent.v ===== *)
(** The agent inside a workspace ([cmd/hopbox-agent]: [main.go], [ssh.go],
    [dns.go], [home.go]): dispatching the streams the hub opens, running
    commands, forwarding to local services, and the environment it prepares.
    The loops of [main] around it are in [Agentloop].

    The operating system below it is the class [AgentOS]: a command, a service
    or a terminal is a function of all the bytes it is given, and a command's
    output is the sequence of writes it makes.  A stream is a [Duplex]: the
    bytes the hub sends, and the writer back to it. *)
From Equations Require Import Equations.
From stdpp Require Import base option list strings gmap.
From Stdlib Require Import Ascii ZArith Lia.
From S2P Require Import Prelude GoStrings Json Agentproto Agenthub Agentssh.
Local Open Scope Z_scope.

Record Duplex : Type := mkDuplex {
  dx_in : string;
  dx_out : Writer
}.
Definition on_in {A} (m : M string A) : M Duplex A := zoom dx_in (fun s d => mkDuplex s (dx_out d)) m.
Definition on_out {A} (m : M Writer A) : M Duplex A := zoom dx_out (fun w d => mkDuplex (dx_in d) w) m.

(** [exec.Cmd]: program and arguments, directory, environment. *)
Record Cmd : Type := mkCmd {
  cm_Args : list string;
  cm_Dir : string;
  cm_Env : list string
}.

Inductive exec_outcome : Type :=
| NoStdinPipe
| StartFailed (e : error)
| Ran (writes : list (ascii * string)) (err : wait_err).

Class AgentOS : Type := {
  ao_environ : list string;                              (* os.Environ() *)
  ao_Getenv : string -> string;
  ao_isdir : string -> bool;                             (* os.Stat, IsDir *)
  ao_exec : Cmd -> string -> exec_outcome;
  ao_dial : string -> result (string -> string);         (* net.Dial("tcp", addr) *)
  ao_pty : Cmd -> Z * Z -> result (string -> string);    (* pty.StartWithSize *)
  ao_ssh : option (string -> string)                     (* agentssh.Serve, when there is a host key *)
}.

(** * Exec: output frames *)
Lemma sdrop_shorter n s : s <> EmptyString -> (0 < n)%nat -> (slen (sdrop n s) < slen s)%nat.
Proof. intros Hs Hn. rewrite slen_sdrop. destruct s; [done|simpl; lia]. Qed.

(** [execWriter.Write]: the count written so far is the total it returns. *)
Equations? write_chunks (chunk : positive) (typ : ascii) (total : Z) (p : string) : M Writer Z by wf (slen p) lt :=
  write_chunks chunk typ total EmptyString := mret total;
  write_chunks chunk typ total (String c p') :=
    let p := String c p' in
    let b := stake (Pos.to_nat chunk) p in
    WriteExecData typ b ;; write_chunks chunk typ (total + zlen b) (sdrop (Pos.to_nat chunk) p).
Proof. apply sdrop_shorter; [done|]. lia. Qed.
Definition execChunk : positive := 32768.
Definition exec_Write (typ : ascii) (p : string) : M Writer Z := write_chunks execChunk typ 0 p.

(** The stdin pump, with fuel: what the command is given.  It stops at an
    end-of-stdin frame or when the stream ends. *)
Fixpoint stdin_pump (fuel : nat) (s : string) : option string :=
  match fuel with
  | O => None
  | S f =>
      match ReadExecFrame s with
      | (_, Err _) => Some EmptyString
      | (s', Ok (typ, data, _)) =>
          if bool_decide (typ = ExecStdin) then (fun r => data +:+ r) <$> stdin_pump f s'
          else if bool_decide (typ = ExecStdinClose) then Some EmptyString
          else stdin_pump f s'
      end
  end.
(** Every frame takes five bytes at least. *)
Definition stdin_of (s : string) : string := default EmptyString (stdin_pump (S (slen s)) s).

Section agent.
Context `{AgentOS}.

(** [cmd.Wait]'s outcome as an exit code: an output that could not be sent is
    an error of its own when the command itself succeeded. *)
Definition wait_code (err : wait_err) (copied : bool) : Z :=
  match err with
  | ExitError code => int32 code
  | WaitOther => 1
  | WaitNil => if copied then 0 else 1
  end.

Definition lf : string := String (byte_of 10) EmptyString.

(** [handleExec] once the header is read. *)
Definition run_exec (argv : list string) : M Duplex unit :=
  match argv with
  | [] => ignore (on_out (WriteExecExit 2))
  | _ =>
      d ← gets dx_in;
      match ao_exec (mkCmd argv "" (ao_environ ++ ["TERM=dumb"%string])) (stdin_of d) with
      | NoStdinPipe => ignore (on_out (WriteExecExit 126))
      | StartFailed e =>
          ignore (on_out (WriteExecData ExecStderr ("hopbox-agent: " +:+ Error e +:+ lf))) ;;
          ignore (on_out (WriteExecExit 127))
      | Ran writes err =>
          c ← try (on_out (mfor writes (fun wr => exec_Write wr.1 wr.2 ;; mret tt)));
          ignore (on_out (WriteExecExit (wait_code err (is_ok c))))
      end
  end.

Definition handleExec : M Duplex unit :=
  h ← try (on_in ReadExecHeader);
  match h with
  | Err _ => mret tt
  | Ok hdr => run_exec (eh_Cmd hdr)
  end.

(** * Forwarding and shells *)
Definition forward_addr (port : Z) : string := "127.0.0.1:" +:+ itoa port.

(** Bridge the stream to [f], the peer: everything in, everything out. *)
Definition bridge (f : string -> string) : M Duplex unit :=
  s ← gets dx_in;
  ignore (on_out (Write (f s))).

Definition run_forward (port : Z) : M Duplex unit :=
  match ao_dial (forward_addr port) with
  | Err _ => mret tt
  | Ok service => bridge service
  end.

Definition handleForward : M Duplex unit :=
  h ← try (on_in ReadForwardHeader);
  match h with
  | Err _ => mret tt
  | Ok hdr => run_forward (fh_Port hdr)
  end.

Definition workspaceHome : string := default "/"%string (find ao_isdir ["/home/dev"; "/root"]%string).

Definition envWithout (env : list string) (key : string) : list string :=
  List.filter (fun e => negb (has_prefix (key +:+ "=") e)) env.

Definition buildCommand (spec : string) : Cmd :=
  let spec := if bool_decide (spec = ""%string) then "/bin/bash"%string else spec in
  let args := if contains_byte " " spec then ["/bin/sh"; "-c"; spec]%string else [spec] in
  let home := workspaceHome in
  mkCmd args home (envWithout ao_environ "HOME" ++ ["TERM=xterm-256color"; "HOME=" +:+ home]%string).

(** [handleShell] once the header is read. *)
Definition run_shell (hdr : ShellHeader) : M Duplex unit :=
  let ws := if sh_Cols hdr =? 0 then (80, 24) else (sh_Cols hdr, sh_Rows hdr) in
  match ao_pty (buildCommand (sh_Cmd hdr)) ws with
  | Err _ => mret tt
  | Ok term => bridge term
  end.

Definition handleShell : M Duplex unit :=
  h ← try (on_in ReadShellHeader);
  match h with
  | Err _ => mret tt
  | Ok hdr => run_shell hdr
  end.

Definition handleSSH : M Duplex unit :=
  match ao_ssh with
  | None => mret tt
  | Some serve => bridge serve
  end.

Definition handleStream : M Duplex unit :=
  o ← try (on_in ReadOpenFrame);
  match o with
  | Err _ => mret tt
  | Ok f =>
      if bool_decide (of_Kind f = KindForward) then handleForward
      else if bool_decide (of_Kind f = KindExec) then handleExec
      else if bool_decide (of_Kind f = KindSSH) then handleSSH
      else handleShell
  end.

(** * Preparing the workspace *)

Definition dns_sep (c : ascii) : bool :=
  (byte_val c =? 32) || (byte_val c =? 44) || (byte_val c =? 9) || (byte_val c =? 10).

(** [ensureDNS]: the resolv.conf it writes, if any. *)
Definition ensureDNS : option string :=
  let spec := ao_Getenv "HOPBOX_DNS" in
  if bool_decide (spec = ""%string) then None
  else
    let b := join "" (map (fun ns => "nameserver " +:+ ns +:+ lf) (fields_func dns_sep spec)) in
    if bool_decide (b = ""%string) then None else Some b.

(** [mountHome]: the device and where it is mounted, when both are named and
    the directory can be made. *)
Definition mountHome (mkdir : string -> bool) : option (string * string) :=
  let dev := ao_Getenv "HOPBOX_HOME_DEV" in
  let target := ao_Getenv "HOPBOX_HOME_MOUNT" in
  if bool_decide (dev = ""%string) || bool_decide (target = ""%string) then None
  else if mkdir target then Some (dev, target) else None.

(** [loadSSHConfig]: the server's configuration from the environment. *)
Definition loadSSHConfig {K} `{SSH K} (host_key : string -> option K) (ReadFile : string -> option string) :
    Agentssh.Config K :=
  let keyPath := if bool_decide (ao_Getenv "HOPBOX_SSH_HOST_KEY" = ""%string)
                 then "/var/lib/hopbox/ssh_host_ed25519_key"%string else ao_Getenv "HOPBOX_SSH_HOST_KEY" in
  match host_key keyPath with
  | None => mkConfig None None "" [] "" "" false
  | Some signer =>
      let ca := ao_Getenv "HOPBOX_TRUSTED_USER_CA" in
      let trusted_ca :=
        if bool_decide (ca = ""%string) then None
        else match ParseAuthorizedKeys ca with Ok keys => head keys | Err _ => None end in
      let inline := ao_Getenv "HOPBOX_AUTHORIZED_KEYS" in
      let f := ao_Getenv "HOPBOX_AUTHORIZED_KEYS_FILE" in
      let blob := if negb (bool_decide (inline = ""%string)) then inline
                  else if negb (bool_decide (f = ""%string)) then default ""%string (ReadFile f)
                  else ""%string in
      let keys := if bool_decide (blob = ""%string) then []
                  else match ParseAuthorizedKeys blob with Ok keys => keys | Err _ => [] end in
      mkConfig (Some signer) trusted_ca (ao_Getenv "HOPBOX_PRINCIPAL") keys "" workspaceHome
        (bool_decide (ao_Getenv "HOPBOX_SSH_TRUSTED" = "1"%string))
  end.
End agent.

(** * Lemmas: writers *)
Lemma Write_done p w w' : Write p w = (w', Ok tt) -> wr_out w' = wr_out w +:+ p.
Proof.
  unfold Write. destruct (wr_room w) as [k|]; [|by intros [= <-]]. destruct (slen p <=? k)%nat; [by intros [= <-]|done].
Qed.

(** A header that was written is the frame of its value. *)
Lemma writeFrame_done {T} `{Framed T} (x : T) w w' :
  fr_ok x = true -> writeFrame (fr_json x) w = (w', Ok tt) ->
  exists bytes, wr_out w' = wr_out w +:+ bytes /\ forall rest, readFrame fr_fields fr_zero (bytes +:+ rest) = (rest, Ok x).
Proof.
  intros Hok Hw. unfold writeFrame in Hw. destruct (maxFrame <? zlen (print (fr_json x))) eqn:Hl; [done|].
  apply Z.ltb_ge in Hl. destruct (frame_bytes x Hok Hl) as (bytes & Hb & Hlen & Hr). exists bytes. split; [|exact Hr].
  apply bind_ok in Hw as (w1 & [] & H1 & H2). apply Write_done in H1. apply Write_done in H2.
  assert (bytes = be32 (zlen (print (fr_json x))) +:+ print (fr_json x)) as ->.
  { specialize (Hb EmptyString). unfold writeFrame in Hb. rewrite (proj2 (Z.ltb_ge _ _)) in Hb by done.
    rewrite (bind_eq_ok _ _ _ _ _ (Write_ok _ _)), Write_ok in Hb. injection Hb as Hb.
    by rewrite !string_app_nil_l in Hb. }
  by rewrite H2, H1, string_app_assoc.
Qed.

(** * Lemmas: the stdin pump *)
Lemma ReadFull_shorter n s s' b : ReadFull n s = (s', Ok b) -> slen s = (n + slen s')%nat.
Proof.
  unfold ReadFull. destruct (n <=? slen s)%nat eqn:E; intros [= <- _]. apply Nat.leb_le in E.
  rewrite slen_sdrop. lia.
Qed.

Lemma ReadExecFrame_shorter s s' f : ReadExecFrame s = (s', Ok f) -> (slen s' + 5 <= slen s)%nat.
Proof.
  intros Hr. unfold ReadExecFrame in Hr. apply bind_ok in Hr as (s1 & h & H1 & Hr). apply ReadFull_shorter in H1.
  destruct h as [|typ hdr]; [done|]. destruct (maxFrame <? un_be32 hdr); [done|].
  apply bind_ok in Hr as (s2 & p & H2 & Hr). apply ReadFull_shorter in H2.
  assert (s' = s2) as -> by (repeat case_match; unfold throw, mret, M_ret in Hr; congruence). lia.
Qed.

(** The pump ends: its fuel always suffices. *)
Lemma stdin_pump_total fuel s : (slen s < fuel)%nat -> is_Some (stdin_pump fuel s).
Proof.
  revert s. induction fuel as [|f IH]; intros s Hf; [lia|]. simpl.
  destruct (ReadExecFrame s) as [s' [[[typ data] code]|e]] eqn:Hr; [|by eexists].
  apply ReadExecFrame_shorter in Hr. destruct (bool_decide (typ = ExecStdin)).
  - destruct (IH s') as (r & ->); [lia|]. by eexists.
  - destruct (bool_decide _); [by eexists|]. apply IH. lia.
Qed.

Lemma stdin_pump_mono fuel fuel' s r : stdin_pump fuel s = Some r -> (fuel <= fuel')%nat -> stdin_pump fuel' s = Some r.
Proof.
  revert fuel' s r. induction fuel as [|f IH]; intros [|f'] s r Hp Hle; try done; [lia|]. simpl in *.
  destruct (ReadExecFrame s) as [s' [[[typ data] code]|e]]; [|done]. destruct (bool_decide (typ = ExecStdin)).
  - destruct (stdin_pump f s') as [q|] eqn:Hq; [|done]. by rewrite (IH f' s' q) by (done || lia).
  - destruct (bool_decide _); [done|]. apply IH; [done|lia].
Qed.

(** The pump's turns, without fuel. *)
Lemma stdin_of_frame s s' typ data code :
  ReadExecFrame s = (s', Ok (typ, data, code)) ->
  stdin_of s = if bool_decide (typ = ExecStdin) then data +:+ stdin_of s'
               else if bool_decide (typ = ExecStdinClose) then EmptyString else stdin_of s'.
Proof.
  intros Hr. unfold stdin_of. pose proof (ReadExecFrame_shorter _ _ _ Hr) as Hs.
  destruct (stdin_pump_total (S (slen s')) s') as (r & Hp); [lia|]. rewrite Hp.
  cbn [stdin_pump]. rewrite Hr, (stdin_pump_mono _ (slen s) s' r Hp) by lia. by repeat case_bool_decide.
Qed.

Lemma stdin_of_end s s' e : ReadExecFrame s = (s', Err e) -> stdin_of s = EmptyString.
Proof. intros Hr. unfold stdin_of. cbn [stdin_pump]. by rewrite Hr. Qed.

(** * From the hub to the handler *)
Section dispatch.
Context `{AgentOS} {Y S : Type} `{Yamux Y} `{StateSink S}.
Notation HB := (Hub Y S).
(** A stream starts with nothing written on it. *)
Hypothesis fresh_stream : forall s y y' st, ym_OpenStream s y = (y', Ok st) -> wr_out (sm_w st) = EmptyString.

Lemma openStream_ok ws (h h' : HB) st :
  openStream ws h = (h', Ok st) ->
  wr_out (sm_w st) = EmptyString /\
  exists sess, hb_sessions h !! ws = Some sess /\ ym_IsClosed (hb_yamux h) sess = false.
Proof.
  unfold openStream. intros Ho. apply bind_ok in Ho as (h1 & s & [= <- <-] & Ho).
  apply bind_ok in Ho as (h2 & h3 & [= <- <-] & Ho). unfold id in Ho.
  destruct (hb_sessions h !! ws) as [sess|]; [|done]. destruct (ym_IsClosed (hb_yamux h) sess) eqn:Hc; [done|].
  unfold wrapping, on_yamux, zoom in Ho. destruct (ym_OpenStream sess (hb_yamux h)) as [y r] eqn:Hs.
  destruct r as [st'|e]; [|done]. cbn [map_err] in Ho. simplify_eq. split; [exact (fresh_stream _ _ _ _ Hs)|by exists sess].
Qed.

Lemma write_or_close_ok {T} `{Framed T} prefix (x : T) st st' (h h' : HB) :
  fr_ok x = true -> write_or_close prefix (writeFrame (fr_json x)) st h = (h', Ok st') ->
  exists bytes, wr_out (sm_w st') = wr_out (sm_w st) +:+ bytes /\
    forall rest, readFrame fr_fields fr_zero (bytes +:+ rest) = (rest, Ok x).
Proof.
  intros Hok. unfold write_or_close. destruct (writeFrame (fr_json x) (sm_w st)) as [w [[]|e]] eqn:Hw.
  - intros [= <- <-]. by apply writeFrame_done.
  - intros Hc. apply bind_ok in Hc as (? & ? & _ & Hc). done.
Qed.

(** A stream opened with a kind and a header dispatches to the handler of that
    kind, which gets the header and the rest of the stream. *)
Lemma handleStream_open kind bytes rest w :
  (forall rest, readFrame open_fields (mkOpenFrame "") (bytes +:+ rest) = (rest, Ok (mkOpenFrame kind))) ->
  handleStream (mkDuplex (bytes +:+ rest) w) =
    (if bool_decide (kind = KindForward) then handleForward
     else if bool_decide (kind = KindExec) then handleExec
     else if bool_decide (kind = KindSSH) then handleSSH
     else handleShell) (mkDuplex rest w).
Proof.
  intros Hr. unfold handleStream, try, on_in, zoom, mbind, M_bind, ReadOpenFrame. cbn [dx_in dx_out]. by rewrite Hr.
Qed.

Lemma open_bytes {T} `{Framed T} ws kind prefix (x : T) (h h' : HB) st :
  (let open := openStream ws ≫= write_open kind in
   (open ≫= write_or_close prefix (writeFrame (fr_json x))) h = (h', Ok st)) ->
  ascii_text kind = true -> fr_ok x = true ->
  (exists sess, hb_sessions h !! ws = Some sess /\ ym_IsClosed (hb_yamux h) sess = false) /\
  exists b1 b2, wr_out (sm_w st) = b1 +:+ b2 /\
    (forall rest, readFrame open_fields (mkOpenFrame "") (b1 +:+ rest) = (rest, Ok (mkOpenFrame kind))) /\
    (forall rest, readFrame fr_fields fr_zero (b2 +:+ rest) = (rest, Ok x)).
Proof.
  intros Ho Hk Hx. apply bind_ok in Ho as (h1 & st1 & Ho & Ho2). apply bind_ok in Ho as (h0 & st0 & Ho0 & Ho1).
  apply openStream_ok in Ho0 as [He Hl]. split; [done|].
  assert (fr_ok (mkOpenFrame kind) = true) as Hko by (simpl; by apply ascii_text_utf8).
  destruct (write_or_close_ok _ (mkOpenFrame kind) _ _ _ _ Hko Ho1) as (b1 & Hb1 & Hr1).
  destruct (write_or_close_ok _ x _ _ _ _ Hx Ho2) as (b2 & Hb2 & Hr2). exists b1, b2. split_and!; [|done|done].
  by rewrite Hb2, Hb1, He, string_app_nil_l.
Qed.

Lemma bind_assoc {W A B C} (m : M W A) (f : A -> M W B) (g : B -> M W C) w :
  (x ← m; f x ≫= g) w = ((m ≫= f) ≫= g) w.
Proof. unfold mbind, M_bind. by destruct (m w) as [w' [a|e]]. Qed.

Definition opened (h : HB) (ws : string) : Prop :=
  exists sess, hb_sessions h !! ws = Some sess /\ ym_IsClosed (hb_yamux h) sess = false.

Lemma OpenExec_served (h h' : HB) ws st rest w (cmd : list string) :
  forallb utf8 cmd = true -> OpenExec ws cmd h = (h', Ok st) ->
  opened h ws /\ handleStream (mkDuplex (wr_out (sm_w st) +:+ rest) w) = run_exec cmd (mkDuplex rest w).
Proof.
  intros Hu Ho. unfold OpenExec in Ho.
  change (WriteExecHeader (mkExecHeader cmd)) with (writeFrame (fr_json (mkExecHeader cmd))) in Ho. rewrite bind_assoc in Ho.
  destruct (open_bytes ws KindExec _ (mkExecHeader cmd) h h' st Ho eq_refl Hu) as (Hl & b1 & b2 & -> & Hr1 & Hr2).
  split; [done|]. rewrite <- string_app_assoc, (handleStream_open KindExec b1 _ _ Hr1).
  assert (ReadExecHeader (b2 +:+ rest) = (rest, Ok (mkExecHeader cmd))) as Hr by exact (Hr2 rest).
  change (handleExec (mkDuplex (b2 +:+ rest) w) = run_exec cmd (mkDuplex rest w)).
  unfold handleExec, try, on_in, zoom, mbind, M_bind. cbn [dx_in dx_out]. by rewrite Hr.
Qed.

Lemma OpenShell_served (h h' : HB) ws st rest w hdr :
  fr_ok hdr = true -> OpenShell ws hdr h = (h', Ok st) ->
  opened h ws /\ handleStream (mkDuplex (wr_out (sm_w st) +:+ rest) w) = run_shell hdr (mkDuplex rest w).
Proof.
  intros Hu Ho. unfold OpenShell in Ho.
  change (WriteShellHeader hdr) with (writeFrame (fr_json hdr)) in Ho. rewrite bind_assoc in Ho.
  destruct (open_bytes ws KindShell _ hdr h h' st Ho eq_refl Hu) as (Hl & b1 & b2 & -> & Hr1 & Hr2).
  split; [done|]. rewrite <- string_app_assoc, (handleStream_open KindShell b1 _ _ Hr1).
  assert (ReadShellHeader (b2 +:+ rest) = (rest, Ok (hdr))) as Hr by exact (Hr2 rest).
  change (handleShell (mkDuplex (b2 +:+ rest) w) = run_shell hdr (mkDuplex rest w)).
  unfold handleShell, try, on_in, zoom, mbind, M_bind. cbn [dx_in dx_out]. by rewrite Hr.
Qed.

Lemma OpenForward_served (h h' : HB) ws st rest w port :
  0 <= port < 2 ^ 32 -> OpenForward ws port h = (h', Ok st) ->
  opened h ws /\ handleStream (mkDuplex (wr_out (sm_w st) +:+ rest) w) = run_forward port (mkDuplex rest w).
Proof.
  intros Hp Ho. unfold OpenForward in Ho.
  change (WriteForwardHeader (mkForwardHeader port)) with (writeFrame (fr_json (mkForwardHeader port))) in Ho. rewrite bind_assoc in Ho.
  assert (is_uint 32 port = true) as Hu by (unfold is_uint; apply andb_true_iff; lia).
  destruct (open_bytes ws KindForward _ (mkForwardHeader port) h h' st Ho eq_refl Hu) as (Hl & b1 & b2 & -> & Hr1 & Hr2).
  split; [done|]. rewrite <- string_app_assoc, (handleStream_open KindForward b1 _ _ Hr1).
  assert (ReadForwardHeader (b2 +:+ rest) = (rest, Ok (mkForwardHeader port))) as Hr by exact (Hr2 rest).
  change (handleForward (mkDuplex (b2 +:+ rest) w) = run_forward port (mkDuplex rest w)).
  unfold handleForward, try, on_in, zoom, mbind, M_bind. cbn [dx_in dx_out]. by rewrite Hr.
Qed.

Lemma OpenSSH_served (h h' : HB) ws st rest w  :
  OpenSSH ws h = (h', Ok st) ->
  opened h ws /\ handleStream (mkDuplex (wr_out (sm_w st) +:+ rest) w) = handleSSH (mkDuplex rest w).
Proof.
  intros Ho. unfold OpenSSH in Ho. apply bind_ok in Ho as (h0 & st0 & Ho0 & Ho1).
  apply openStream_ok in Ho0 as [He Hl]. split; [done|].
  assert (fr_ok (mkOpenFrame KindSSH) = true) as Hko by reflexivity.
  destruct (write_or_close_ok _ (mkOpenFrame KindSSH) _ _ _ _ Hko Ho1) as (b1 & Hb1 & Hr1).
  by rewrite Hb1, He, string_app_nil_l, (handleStream_open KindSSH b1 _ _ Hr1).
Qed.

(** What the control plane asks for is what the agent does.  A stream is
    only opened on a live session of the workspace, and the agent reading it
    runs the handler of the kind that was asked for, on exactly the arguments
    the caller gave (argv, command and terminal size, or port), with the bytes
    that follow as its input. *)
Theorem hub_request_served (h h' : HB) ws st rest w :
  (forall cmd, forallb utf8 cmd = true -> OpenExec ws cmd h = (h', Ok st) ->
     opened h ws /\ handleStream (mkDuplex (wr_out (sm_w st) +:+ rest) w) = run_exec cmd (mkDuplex rest w)) /\
  (forall hdr, fr_ok hdr = true -> OpenShell ws hdr h = (h', Ok st) ->
     opened h ws /\ handleStream (mkDuplex (wr_out (sm_w st) +:+ rest) w) = run_shell hdr (mkDuplex rest w)) /\
  (forall port, 0 <= port < 2 ^ 32 -> OpenForward ws port h = (h', Ok st) ->
     opened h ws /\ handleStream (mkDuplex (wr_out (sm_w st) +:+ rest) w) = run_forward port (mkDuplex rest w)) /\
  (OpenSSH ws h = (h', Ok st) ->
     opened h ws /\ handleStream (mkDuplex (wr_out (sm_w st) +:+ rest) w) = handleSSH (mkDuplex rest w)).
Proof.
  split_and!; intros; [by apply (OpenExec_served h h')|by apply (OpenShell_served h h')|by apply (OpenForward_served h h')|
    by apply (OpenSSH_served h h')].
Qed.
End dispatch.

(** A stream that takes everything keeps doing so. *)
Lemma Write_room p w w' r : wr_room w = None -> Write p w = (w', r) -> wr_room w' = None.
Proof. unfold Write. intros ->. by intros [= <- _]. Qed.

Lemma writeFrame_room v w w' r : wr_room w = None -> writeFrame v w = (w', r) -> wr_room w' = None.
Proof.
  intros Hr Hw. unfold writeFrame in Hw. destruct (maxFrame <? zlen (print v)); [by injection Hw as <- _|].
  unfold mbind, M_bind in Hw. destruct (Write _ w) as [w1 [u|e]] eqn:H1; apply Write_room in H1; [|done|congruence|done].
  by apply Write_room in Hw.
Qed.

Section room.
Context {Y S : Type} `{Yamux Y} `{StateSink S}.
Notation HB := (Hub Y S).
Lemma write_or_close_room prefix v st st' (h h' : HB) :
  wr_room (sm_w st) = None -> write_or_close prefix (writeFrame v) st h = (h', Ok st') -> wr_room (sm_w st') = None.
Proof.
  unfold write_or_close. intros Hr. destruct (writeFrame v (sm_w st)) as [w [[]|e]] eqn:Hw.
  - intros [= <- <-]. by apply writeFrame_room in Hw.
  - intros Hc. by apply bind_ok in Hc as (? & ? & _ & Hc).
Qed.

Hypothesis open_room : forall s y y' st, ym_OpenStream s y = (y', Ok st) -> wr_room (sm_w st) = None.
Lemma OpenExec_room ws cmd (h h' : HB) st : OpenExec ws cmd h = (h', Ok st) -> wr_room (sm_w st) = None.
Proof.
  intros Ho. unfold OpenExec in Ho. apply bind_ok in Ho as (h1 & st1 & Ho1 & Ho). apply bind_ok in Ho as (h2 & st2 & Ho2 & Ho).
  apply write_or_close_room in Ho; [done|]. apply write_or_close_room in Ho2; [done|].
  unfold openStream in Ho1. apply bind_ok in Ho1 as (? & s & [= <- <-] & Ho1).
  apply bind_ok in Ho1 as (? & ? & [= <- <-] & Ho1). unfold id in Ho1.
  destruct (hb_sessions h !! ws) as [sess|]; [|done]. destruct (ym_IsClosed (hb_yamux h) sess) eqn:Hc; [done|].
  unfold wrapping, on_yamux, zoom in Ho1. destruct (ym_OpenStream sess (hb_yamux h)) as [y r] eqn:Hs.
  destruct r as [st'|e]; [|done]. cbn [map_err] in Ho1. simplify_eq. exact (open_room _ _ _ _ Hs).
Qed.
End room.

(** * A command's output as frames *)
Equations? chunk_list (chunk : positive) (p : string) : list string by wf (slen p) lt :=
  chunk_list chunk EmptyString := [];
  chunk_list chunk (String c p') :=
    let p := String c p' in
    stake (Pos.to_nat chunk) p :: chunk_list chunk (sdrop (Pos.to_nat chunk) p).
Proof. apply sdrop_shorter; [done|]. lia. Qed.

Lemma stake_sdrop n s : stake n s +:+ sdrop n s = s.
Proof. revert s; induction n as [|n IH]; intros [|c s]; simpl; try done. by rewrite string_app_cons, IH. Qed.

Lemma chunk_list_spec chunk p :
  join "" (chunk_list chunk p) = p /\ Forall (fun b => (slen b <= Pos.to_nat chunk)%nat) (chunk_list chunk p).
Proof.
  funelim (chunk_list chunk p); simp chunk_list; [done|]. cbn zeta. destruct H as [Hj Hf]. split.
  - assert (forall x l, join "" (x :: l) = x +:+ join "" l) as Hc.
    { intros x [|y l]; [by rewrite string_app_nil_r|done]. }
    by rewrite Hc, Hj, stake_sdrop.
  - constructor; [|done]. rewrite slen_stake. lia.
Qed.

Lemma mfor_concat_map {W A B} (g : A -> list B) (l : list A) (m : B -> M W unit) w :
  mfor (concat (map g l)) m w = mfor l (fun a => mfor (g a) m) w.
Proof.
  revert w. induction l as [|x l IH]; intros w; [done|]. simpl. rewrite mfor_app. unfold mbind, M_bind.
  destruct (mfor (g x) m w) as [w' [a|e]]; [apply IH|done].
Qed.

Lemma mfor_ext {W A} (l : list A) (m m' : A -> M W unit) w : (forall a w, m a w = m' a w) -> mfor l m w = mfor l m' w.
Proof.
  intros Hm. revert w. induction l as [|x l IH]; intros w; [done|]. simpl. unfold mbind, M_bind. rewrite Hm.
  by destruct (m' x w) as [w' [a|e]].
Qed.

Definition chunk_frames (wr : ascii * string) : list ExecFrame := map (FData wr.1) (chunk_list execChunk wr.2).

Lemma write_chunks_frames chunk typ total p w :
  (write_chunks chunk typ total p ;; mret tt) w = mfor (map (FData typ) (chunk_list chunk p)) write_frame w.
Proof.
  revert w. funelim (write_chunks chunk typ total p); intros w; simp write_chunks chunk_list; [done|].
  cbn zeta. cbn [map mfor write_frame]. unfold mbind, M_bind.
  destruct (WriteExecData typ (stake (Pos.to_nat chunk) (String c p')) w) as [w1 [[]|e]]; [|done].
  specialize (H tt w1 w1). unfold mbind, M_bind in H. by rewrite <- H.
Qed.

(** The frames of a run command: its writes in order, in chunks, and its exit
    code. *)
Definition exec_frames (writes : list (ascii * string)) (code : Z) : list ExecFrame :=
  concat (map chunk_frames writes) ++ [FExit code].

Lemma chunk_frames_ok wr : wr.1 <> ExecExit -> forallb frame_ok (chunk_frames wr) = true.
Proof.
  intros Ht. unfold chunk_frames. destruct (chunk_list_spec execChunk wr.2) as [_ Hf].
  induction Hf as [|b l Hb Hf IH]; [done|]. cbn [map forallb frame_ok]. rewrite IH, andb_true_r, andb_true_iff. split.
  - by rewrite bool_decide_eq_false_2.
  - apply Z.leb_le. unfold zlen, maxFrame, execChunk in *. lia.
Qed.

Lemma exec_frames_ok writes code :
  Forall (fun wr => wr.1 <> ExecExit) writes -> in_int32 code -> forallb frame_ok (exec_frames writes code) = true.
Proof.
  intros Hw Hc. unfold exec_frames. rewrite forallb_app. apply andb_true_iff. split.
  - induction Hw as [|wr l Hwr Hw IH]; [done|]. cbn [map concat]. by rewrite forallb_app, chunk_frames_ok.
  - cbn [forallb frame_ok]. unfold in_int32 in Hc. rewrite andb_true_r. apply andb_true_iff. lia.
Qed.

(** On a stream that takes everything, the agent sends exactly those frames. *)
Lemma run_exec_frames `{AgentOS} argv d out writes err :
  argv <> [] -> ao_exec (mkCmd argv "" (ao_environ ++ ["TERM=dumb"%string])) (stdin_of d) = Ran writes err ->
  Forall (fun wr => wr.1 <> ExecExit) writes -> in_int32 (wait_code err true) ->
  exists bytes, run_exec argv (mkDuplex d (mkWriter out None)) = (mkDuplex d (mkWriter (out +:+ bytes) None), Ok tt) /\
    mfor (exec_frames writes (wait_code err true)) write_frame (mkWriter out None) = (mkWriter (out +:+ bytes) None, Ok tt).
Proof.
  intros Hargv Hrun Hw Hc.
  assert (forall fs out, forallb frame_ok fs = true ->
    exists bytes, mfor fs write_frame (mkWriter out None) = (mkWriter (out +:+ bytes) None, Ok tt)) as Hfs.
  { clear. intros fs. induction fs as [|f fs IH]; intros out Hok; [exists EmptyString; simpl; by rewrite string_app_nil_r|].
    cbn [forallb] in Hok. apply andb_true_iff in Hok as [Hf Hok]. destruct (exec_frame_bytes f Hf) as (b & Hb & _).
    destruct (IH (out +:+ b) Hok) as (b2 & H2). exists (b +:+ b2). cbn [mfor].
    by rewrite (bind_eq_ok _ _ _ _ _ (Hb out)), H2, string_app_assoc. }
  pose proof (exec_frames_ok _ _ Hw Hc) as Hok. unfold exec_frames in Hok. rewrite forallb_app in Hok.
  apply andb_true_iff in Hok as [Ho1 Ho2]. destruct (Hfs _ out Ho1) as (b1 & H1). destruct (Hfs _ (out +:+ b1) Ho2) as (b2 & H2).
  exists (b1 +:+ b2). unfold exec_frames. rewrite mfor_app, (bind_eq_ok _ _ _ _ _ H1), H2, string_app_assoc. split; [|done].
  destruct argv as [|a0 argv]; [done|]. unfold run_exec. unfold mbind at 1. unfold M_bind at 1, gets. cbn [dx_in]. rewrite Hrun.
  assert (mfor writes (fun wr => exec_Write wr.1 wr.2 ;; mret tt) (mkWriter out None) = (mkWriter (out +:+ b1) None, Ok tt)) as H3.
  { rewrite <- H1, mfor_concat_map. apply mfor_ext. intros wr w. apply write_chunks_frames. }
  assert (try (on_out (mfor writes (fun wr => exec_Write wr.1 wr.2 ;; mret tt))) (mkDuplex d (mkWriter out None)) =
    (mkDuplex d (mkWriter (out +:+ b1) None), Ok (Ok tt))) as H4.
  { unfold try, on_out, zoom. cbn [dx_out dx_in]. by rewrite H3. }
  rewrite (bind_eq_ok _ _ _ _ _ H4). unfold ignore, on_out, zoom. cbn [dx_out dx_in is_ok].
  cbn [mfor write_frame] in H2. apply bind_ok in H2 as (w1 & [] & H5 & H6). injection H6 as ->.
  by rewrite H5.
Qed.

(** * A concrete agent *)
Module Demo.
Definition greet (argv : list string) (stdin : string) : exec_outcome :=
  match argv with
  | "cat"%string :: _ => Ran [(ExecStdout, stdin)] WaitNil
  | "fail"%string :: _ => Ran [(ExecStderr, "no"%string)] (ExitError (-1))
  | _ => StartFailed (Errorf "not found")
  end.
#[export] Instance os : AgentOS := {|
  ao_environ := ["PATH=/bin"; "HOME=/"]%string;
  ao_Getenv k := if bool_decide (k = "HOPBOX_DNS"%string) then "1.1.1.1, 8.8.8.8"%string else "";
  ao_isdir d := bool_decide (d = "/root"%string);
  ao_exec c stdin := greet (cm_Args c) stdin;
  ao_dial addr := if bool_decide (addr = "127.0.0.1:8080"%string) then Ok (fun req => "echo " +:+ req) else Err io_EOF;
  ao_pty c ws := Ok (fun s => s);
  ao_ssh := None
|}.
Definition hub1 : Hub Net.Net (list (string * bool)) := Net.with_closed [] {["ws-1"%string := 1%nat]} [].
End Demo.
#[local] Existing Instance Demo.os.
#[local] Existing Instance Net.net.

Example resolv_conf :
  ensureDNS = Some ("nameserver 1.1.1.1" +:+ lf +:+ "nameserver 8.8.8.8" +:+ lf).
Proof. vm_compute. reflexivity. Qed.

Example shell_command : buildCommand "ls -la" =
  mkCmd ["/bin/sh"; "-c"; "ls -la"] "/root" ["PATH=/bin"; "TERM=xterm-256color"; "HOME=/root"].
Proof. vm_compute. reflexivity. Qed.

Lemma hub_request_served_witness :
  let h := Demo.hub1 in
  exists h' st, OpenForward "ws-1" 8080 h = (h', Ok st) /\
    handleStream (mkDuplex (wr_out (sm_w st) +:+ "GET") (mkWriter "" None)) =
      run_forward 8080 (mkDuplex "GET" (mkWriter "" None)) /\
    wr_out (dx_out (run_forward 8080 (mkDuplex "GET" (mkWriter "" None))).1) = "echo GET"%string.
Proof.
  intros h. destruct (OpenForward "ws-1" 8080 h) as [h' r] eqn:Ho.
  destruct r as [st|e]; [|exfalso; vm_compute in Ho; discriminate Ho]. exists h', st. split; [reflexivity|].
  assert (forall s y y' st, ym_OpenStream (Y:=Net.Net) s y = (y', Ok st) -> wr_out (sm_w st) = ""%string) as Hf
    by (intros s y y' st0 Hs; injection Hs as _ <-; reflexivity).
  split; [|vm_compute; reflexivity].
  exact (proj2 (proj1 (proj2 (proj2 (hub_request_served Hf h h' "ws-1" st "GET" (mkWriter "" None))))
    8080 ltac:(lia) Ho)).
Defined.
