(* ===== verification/Boxmeta.v ===== *)
(** The box metadata API ([internal/core/boxmeta/boxmeta.go]): the documents a
    box can read about itself and the owner commands that tune its lifecycle,
    each resolved by the caller's source address.

    A request is its remote address, its declared content length and the body
    bytes; a response is a status and a document.  [json.Encoder]'s indentation
    is not modelled, and the shortest decimal text of a double is the parameter
    [fmt_float]. *)
From stdpp Require Import base option list strings gmap.
From Stdlib Require Import Ascii ZArith Lia Floats.SpecFloat.
From S2P Require Import Prelude GoStrings GoTime GoNet Json Agentproto Box Store World.
Local Open Scope string_scope.
Local Open Scope list_scope.
Local Open Scope Z_scope.

(** * HTTP *)
Record Request : Type := mkRequest {
  rq_RemoteAddr : string;
  rq_ContentLength : Z;
  rq_Body : string
}.
Inductive Body : Type :=
| NoBody
| Text (s : string)
| Document (v : json).
Record Response : Type := mkResponse { rs_Status : Z; rs_Body : Body }.
Definition StatusOK : Z := 200.
Definition StatusNoContent : Z := 204.
Definition StatusBadRequest : Z := 400.
Definition StatusNotFound : Z := 404.

(** * The commands, as they change a box *)
Record heartbeat_body : Type := mkHeartbeatBody { hb_Load : float64 }.
Record keepalive_body : Type := mkKeepAliveBody { ka_Duration : string }.
Record autosuspend_body : Type := mkAutoSuspendBody { as_Enabled : bool }.
Record idle_body : Type := mkIdleBody { id_Timeout : string }.
Record status_body : Type := mkStatusBody { sb_State : string; sb_Status : string }.

Definition do_heartbeat (idle : IdleConfig) (now : time) (b : Box) (req : heartbeat_body) : Box :=
  RecordHeartbeat b (hb_Load req) now idle.
Definition do_keepAlive (now : time) (b : Box) (req : keepalive_body) : Box :=
  let d := if bool_decide (ka_Duration req = ""%string) then 5 * Minute
           else match ParseDuration (ka_Duration req) with Ok p => p | Err _ => 5 * Minute end in
  b <| b_KeepAliveUntil := Add now d |>.
Definition do_autoSuspend (b : Box) (req : autosuspend_body) : Box := b <| b_AutoSuspend := as_Enabled req |>.
Definition do_idle (b : Box) (req : idle_body) : Box :=
  if bool_decide (id_Timeout req = ""%string) then b <| b_IdleTimeoutOverride := 0 |>
  else match ParseDuration (id_Timeout req) with
       | Ok d => b <| b_IdleTimeoutOverride := d |>
       | Err _ => b
       end.
Definition do_status (b : Box) (req : status_body) : Box :=
  b <| b_AgentState := sb_State req |> <| b_AgentStatus := sb_Status req |>.

(** Whatever a command decodes to, it is one of these updates. *)
Inductive Command : Type :=
| CHeartbeat (req : heartbeat_body)
| CKeepAlive (req : keepalive_body)
| CAutoSuspend (req : autosuspend_body)
| CIdle (req : idle_body)
| CStatus (req : status_body).
Definition run_command (idle : IdleConfig) (now : time) (c : Command) (b : Box) : Box :=
  match c with
  | CHeartbeat r => do_heartbeat idle now b r
  | CKeepAlive r => do_keepAlive now b r
  | CAutoSuspend r => do_autoSuspend b r
  | CIdle r => do_idle b r
  | CStatus r => do_status b r
  end.

(** * Decoding a body *)

(** [json.NewDecoder(http.MaxBytesReader(w, r.Body, 1<<10)).Decode(&req)]: one
    value within the first 1024 bytes; what follows it is not read. *)
Definition max_body : nat := 1024.
Definition decode_body {T} (fs : Fields T) (zero : T) (body : string) : result T :=
  match parse_value (S max_body) (stake max_body body) with
  | Some (v, _) => decode_struct fs v zero
  | None => Err syntax_error
  end.

Definition heartbeat_fields : Fields heartbeat_body := [("load", float_field (fun x _ => mkHeartbeatBody x))]%string.
Definition keepalive_fields : Fields keepalive_body := [("duration", str_field (fun s _ => mkKeepAliveBody s))]%string.
Definition autosuspend_fields : Fields autosuspend_body := [("enabled", bool_field (fun b _ => mkAutoSuspendBody b))]%string.
Definition idle_fields : Fields idle_body := [("timeout", str_field (fun s _ => mkIdleBody s))]%string.
Definition status_fields : Fields status_body :=
  [("state", str_field (fun s r => mkStatusBody s (sb_Status r)));
   ("status", str_field (fun s r => mkStatusBody (sb_State r) s))]%string.

(** * Views *)
Definition nsString (t : time) : string := itoa (Unix t) +:+ "." +:+ pad_dec 9 (Nanosecond t).
Definition unix (t : time) : Z := if IsZero t then 0 else Unix t.

Section server.
Context {W : Type}.
Variable fmt_float : float64 -> string.
Variable resolve : string -> M W Box.
Variable mutate : option (string -> (Box -> Box) -> M W unit).
Variable idleCfg : IdleConfig.
Variable now : time.

Definition idle_unset (c : IdleConfig) : bool := (ic_Timeout c =? 0) && SFeqb (ic_LoadThreshold c) (S754_zero false).
(** [New]'s idle policy. *)
Definition idle_policy : IdleConfig := if idle_unset idleCfg then DefaultIdle else idleCfg.

Definition meta (b : Box) : json :=
  let idle := EffectiveIdle b idle_policy in
  let omitempty k s := if bool_decide (s = ""%string) then [] else [(k, JStr s)] in
  JObj ([("name", JStr (b_Name b)); ("owner", JStr (b_Owner b)); ("image", JStr (b_ImageRef b));
         ("ip", JStr (b_IP b)); ("phase", JStr (phase_string (b_Phase b))); ("ephemeral", JBool (b_Ephemeral b));
         ("mem_mb", JNum (itoa (b_MemMB b))); ("cpu_millis", JNum (itoa (b_CPUMillis b)));
         ("load", JNum (fmt_float (b_Load b))); ("idle", JBool (IsIdle b now idle));
         ("last_active", JNum (itoa (unix (b_LastActive b)))); ("auto_suspend", JBool (b_AutoSuspend b));
         ("keep_alive_until", JNum (itoa (unix (b_KeepAliveUntil b))));
         ("idle_timeout_sec", JNum (itoa (whole_seconds (ic_Timeout idle))))]
        ++ omitempty "agent_state" (b_AgentState b) ++ omitempty "agent_status" (b_AgentStatus b)
        ++ [("started_at", JNum (itoa (Unix (b_CreatedAt b)))); ("server_time_ns", JStr (nsString now))]).

Definition unknown_box (r : Request) : Response :=
  mkResponse StatusNotFound (Text ("unknown box for source " +:+ rq_RemoteAddr r)).

Definition boxOf (r : Request) : M W Box := resolve (host_of (rq_RemoteAddr r)).

Definition me (r : Request) : M W Response :=
  b ← try (boxOf r);
  mret (match b with
        | Err _ => unknown_box r
        | Ok b => mkResponse StatusOK (Document (meta b))
        end).

Definition get_time (r : Request) : M W Response :=
  mret (mkResponse StatusOK (Document (JObj [("server_time_ns", JStr (nsString now));
                                             ("unix_secs", JNum (itoa (Unix now)))]%string))).

(** [apply]: decode, then mutate the calling box. *)
Definition apply {T} (fs : Fields T) (zero : T) (fn : Box -> T -> Box) (r : Request) : M W Response :=
  let ip := host_of (rq_RemoteAddr r) in
  match (if rq_ContentLength r =? 0 then Ok zero else decode_body fs zero (rq_Body r)) with
  | Err _ => mret (mkResponse StatusBadRequest (Text "bad request body"))
  | Ok req =>
      match mutate with
      | None => mret (mkResponse StatusNoContent NoBody)
      | Some mutate =>
          res ← try (mutate ip (fun b => fn b req));
          mret (match res with Err _ => unknown_box r | Ok _ => mkResponse StatusNoContent NoBody end)
      end
  end.

Definition heartbeat : Request -> M W Response :=
  apply heartbeat_fields (mkHeartbeatBody (S754_zero false)) (do_heartbeat idle_policy now).
Definition keepAlive : Request -> M W Response := apply keepalive_fields (mkKeepAliveBody "") (do_keepAlive now).
Definition autoSuspend : Request -> M W Response := apply autosuspend_fields (mkAutoSuspendBody false) do_autoSuspend.
Definition idle : Request -> M W Response := apply idle_fields (mkIdleBody "") do_idle.
Definition status : Request -> M W Response := apply status_fields (mkStatusBody "" "") do_status.

(** [Handler]: the route table; no other method or path is served. *)
Definition Handler (method path : string) : option (Request -> M W Response) :=
  if bool_decide (method = "GET"%string) then
    if bool_decide (path = "/v1/me"%string) then Some me
    else if bool_decide (path = "/v1/me/time"%string) then Some get_time else None
  else if bool_decide (method = "POST"%string) then
    if bool_decide (path = "/v1/me/heartbeat"%string) then Some heartbeat
    else if bool_decide (path = "/v1/me/keep-alive"%string) then Some keepAlive
    else if bool_decide (path = "/v1/me/auto-suspend"%string) then Some autoSuspend
    else if bool_decide (path = "/v1/me/idle"%string) then Some idle
    else if bool_decide (path = "/v1/me/status"%string) then Some status else None
  else None.
End server.

(** * What the handlers do *)
Section effects.
Context {W : Type}.
Variable fmt_float : float64 -> string.
Variable resolve : string -> M W Box.
Variable mutate : option (string -> (Box -> Box) -> M W unit).
Variable idleCfg : IdleConfig.
Variable now : time.
Hypothesis resolve_reads : forall ip w, fst (resolve ip w) = w.

(** The outcome of a command request: refused before anything is touched,
    accepted with nothing to write to, or run once on the caller's box. *)
Definition ran_command (r : Request) (w w' : W) (resp : Response) : Prop :=
  (rs_Status resp = StatusBadRequest /\ w' = w) \/
  (mutate = None /\ rs_Status resp = StatusNoContent /\ w' = w) \/
  (exists mutate' cmd res, mutate = Some mutate' /\
     mutate' (host_of (rq_RemoteAddr r)) (run_command (idle_policy idleCfg) now cmd) w = (w', res) /\
     rs_Status resp = if is_ok res then StatusNoContent else StatusNotFound).

Lemma apply_runs {T} (fs : Fields T) zero fn (cmd_of : T -> Command) r w w' res :
  (forall req, (fun b => fn b req) = run_command (idle_policy idleCfg) now (cmd_of req)) ->
  apply mutate fs zero fn r w = (w', res) ->
  exists resp, res = Ok resp /\ ran_command r w w' resp.
Proof.
  intros Hfn He. unfold apply in He.
  destruct (if rq_ContentLength r =? 0 then Ok zero else decode_body fs zero (rq_Body r)) as [req|e].
  2:{ unfold mret, M_ret in He. simplify_eq. eexists. split; [done|]. by left. }
  unfold ran_command. destruct mutate as [mutate'|] eqn:Hm.
  2:{ unfold mret, M_ret in He. simplify_eq. eexists. split; [done|]. right. by left. }
  unfold mbind, M_bind, try in He. destruct (mutate' _ _ w) as [w1 r1] eqn:Hr. unfold mret, M_ret in He. simplify_eq.
  eexists. split; [done|]. right. right. exists mutate', (cmd_of req), r1. split_and!; [done| |by destruct r1].
  by rewrite <- Hfn.
Qed.

(** The metadata API does what its route table says and no more: a GET
    never changes anything, and a POST either is refused with a bad-request
    status before anything is touched, or runs exactly one owner command, once,
    on the box its source address resolves to, answering 204 or (when there is
    no such box, or it cannot be saved) 404.  No request makes a handler fail. *)
Theorem Handler_effects method path h r w w' res :
  Handler fmt_float resolve mutate idleCfg now method path = Some h -> h r w = (w', res) ->
  exists resp, res = Ok resp /\
    if bool_decide (method = "GET"%string)
    then w' = w /\ (rs_Status resp = StatusOK \/ rs_Status resp = StatusNotFound)
    else ran_command r w w' resp.
Proof.
  unfold Handler. destruct (bool_decide (method = "GET"%string)).
  - destruct (bool_decide (path = "/v1/me"%string)).
    + intros [= <-] He. unfold me, boxOf, mbind, M_bind, try in He.
      pose proof (resolve_reads (host_of (rq_RemoteAddr r)) w) as Hw.
      destruct (resolve _ w) as [w1 r1]. simpl in Hw. subst w1. unfold mret, M_ret in He. simplify_eq.
      eexists. split; [done|]. split; [done|]. destruct r1; [by left|by right].
    + destruct (bool_decide (path = _)); [|done]. intros [= <-] He. unfold get_time, mret, M_ret in He. simplify_eq.
      eexists. split; [done|]. auto.
  - destruct (bool_decide (method = "POST"%string)); [|done]. intros Hh He.
    repeat (destruct (bool_decide (path = _)); [injection Hh as <-|]); [..|done].
    + by eapply (apply_runs heartbeat_fields _ _ CHeartbeat).
    + by eapply (apply_runs keepalive_fields _ _ CKeepAlive).
    + by eapply (apply_runs autosuspend_fields _ _ CAutoSuspend).
    + by eapply (apply_runs idle_fields _ _ CIdle).
    + by eapply (apply_runs status_fields _ _ CStatus).
Qed.
End effects.

(** A table that knows no box. *)
Definition no_box : string -> M unit Box := fun _ => throw ErrNotFound.
Lemma Handler_effects_witness :
  let r := mkRequest "10.1.2.3:4455" 5 "{x" in
  exists resp, heartbeat None DefaultIdle 0 r tt = (tt, Ok resp) /\ rs_Status resp = StatusBadRequest.
Proof.
  intros r.
  destruct (Handler_effects (fun _ => "0"%string) no_box None DefaultIdle 0 (fun _ _ => eq_refl)
    "POST" "/v1/me/heartbeat" (heartbeat None DefaultIdle 0) r tt tt
    (snd (heartbeat None DefaultIdle 0 r tt)) eq_refl) as (resp & Hr & Hc).
  - vm_compute. reflexivity.
  - exists resp. rewrite <- Hr. split; [vm_compute; reflexivity|]. vm_compute in Hr. injection Hr as <-. reflexivity.
Defined.
