(* ===== verification/Agentloop.v ===== *)
(** The life of [hopbox-agent] ([cmd/hopbox-agent/main.go]): the loop that
    connects to the control plane, serves the session and connects again, and
    the loop that reports the load; with the two ends they reach, the daemon's
    agent hub and its metadata API.

    The agent's side of the network is the class [AgentNet]; [Outside] makes one
    of a hub ([Agenthub]) and of what the network does when.  What a stream of a
    session runs is [Agent.handleStream].  The loops never return: [agent_loop n]
    is their first [n] rounds.

    The theorems: however long the control plane was unreachable or held on to
    a dead session, the agent is registered again within a dial and a retry of
    the moment both are over; and a heartbeat is the load recorded in the box
    its address is of. *)
From stdpp Require Import base option list strings gmap.
From Stdlib Require Import Ascii ZArith Lia Floats.SpecFloat.
From S2P Require Import Prelude GoStrings GoTime GoNet Json Agentproto Box Agenthub Boxmeta Agent.
Local Open Scope Z_scope.

(** * Connecting *)
Class AgentNet (W : Type) : Type := {
  an_dial : string -> M W nat;                    (* [dial]: TCP, a 10s timeout *)
  an_room : nat -> W -> option nat;               (* bytes the connection still takes *)
  an_sent : nat -> string -> W -> W;
  an_Server : nat -> M W unit;                    (* yamux.Server *)
  an_accepts : nat -> M W (list nat * error);     (* the streams accepted, and the error that ends it *)
  an_go : list nat -> W -> W;                     (* go handleStream(stream) *)
  an_Close : nat -> M W unit;
  an_Sleep : duration -> W -> W
}.
Record Startup : Type := mkStartup {
  su_addr : string;
  su_hs : Handshake
}.
(** The environment the agent needs, or why it stops at once. *)
Definition startup `{AgentOS} : result Startup :=
  let addr := ao_Getenv "HOPBOX_CONTROL_ADDR" in
  let token := ao_Getenv "HOPBOX_AGENT_TOKEN" in
  if bool_decide (addr = ""%string) || bool_decide (token = ""%string)
  then Err (Errorf "hopbox-agent: HOPBOX_CONTROL_ADDR and HOPBOX_AGENT_TOKEN are required")
  else Ok (mkStartup addr (mkHandshake (ao_Getenv "HOPBOX_WORKSPACE_ID") token)).

Section connect.
Context {W : Type} `{AgentNet W}.

Definition serveSession (sess : nat) : M W unit :=
  '(streams, e) ← an_accepts sess;
  modify (an_go streams) ;;
  throw e.

Definition connectAndServe (s : Startup) : M W unit :=
  conn ← an_dial (su_addr s);
  r ← try (
    room ← gets (an_room conn);
    let '(w, wrote) := WriteHandshake (su_hs s) (mkWriter "" room) in
    modify (an_sent conn (wr_out w)) ;;
    of_result wrote ;;
    an_Server conn ;;
    serveSession conn);
  ignore (an_Close conn) ;;
  of_result r.

Definition retry : duration := 2 * Second.
Fixpoint agent_loop (rounds : nat) (s : Startup) : M W unit :=
  match rounds with
  | O => mret tt
  | S k => ignore (connectAndServe s) ;; modify (an_Sleep retry) ;; agent_loop k s
  end.
End connect.

(** * Heartbeats *)
Section heartbeat.
(** [strconv.ParseFloat]'s value, which on an error is 0 or an infinity, and
    the verb [%g]. *)
Variable ParseFloat : string -> float64.
Variable fmt_g : float64 -> string.

(** [loadAvg1], on what [/proc/loadavg] holds. *)
Definition loadAvg1 (loadavg : option string) : float64 :=
  match loadavg with
  | None => S754_zero false
  | Some b => match string_Fields b with [] => S754_zero false | f :: _ => ParseFloat f end
  end.
(** The text is what [print] makes of the document. *)
Definition heartbeat_text (load : float64) : string := print (JObj [("load"%string, JNum (fmt_g load))]).
Definition heartbeat_path : string := "/v1/me/heartbeat".
Definition heartbeat_every : duration := 15 * Second.

Context {W : Type}.
Variable sleep : duration -> W -> W.
Variable read_loadavg : W -> option string.
Variable post : string -> string -> M W unit.     (* http.Client.Do of a POST *)
Fixpoint heartbeatLoop (rounds : nat) (base : string) : M W unit :=
  match rounds with
  | O => mret tt
  | S k =>
      modify (sleep heartbeat_every) ;;
      load ← gets (fun w => loadAvg1 (read_loadavg w));
      ignore (post (base +:+ heartbeat_path) (heartbeat_text load)) ;;
      heartbeatLoop k base
  end.
End heartbeat.

(** * The other end *)

(** A hub behind a network: whether and how long dialling at an instant takes,
    how much a connection made then carries, what time does to the hub's
    sessions, and how long a session that was accepted lasts. *)
Module Outside.
Section outside.
Context {Y S : Type} `{Yamux Y} `{StateSink S}.
Variable resolve : string -> result string.
Variable reachable : time -> bool.
Variable dial_takes : time -> duration.
Variable carries : time -> option nat.
Variable ages : time -> Y -> Y.
Variable lasts : time -> duration.

Record World : Type := mkWorld {
  wd_now : time;
  wd_next : nat;
  wd_sent : gmap nat string;
  wd_hub : Hub Y S;
  wd_log : list (time * (string * nat))     (* who was registered when, by which session *)
}.
Definition at_time (t : time) (w : World) : World := mkWorld t (wd_next w) (wd_sent w) (wd_hub w) (wd_log w).

Definition dial (addr : string) : M World nat := fun w =>
  let t := wd_now w in let t' := t + dial_takes t in
  if reachable t then (mkWorld t' (Datatypes.S (wd_next w)) (wd_sent w) (wd_hub w) (wd_log w), Ok (wd_next w))
  else (at_time t' w, Err (Errorf ("dial tcp " +:+ addr +:+ ": i/o timeout"))).
(** The hub's [accept] of the connection, and [accept]'s end with the session. *)
Definition accepts (n : nat) : M World (list nat * error) := fun w =>
  let t := wd_now w in
  let h := mkHub (hb_sessions (wd_hub w)) (ages t (hb_yamux (wd_hub w))) (hb_sink (wd_hub w)) in
  match accept_open resolve n (default ""%string (wd_sent w !! n)) h with
  | (h1, Ok (Some ws)) =>
      let h2 := (report ws true h1).1 in
      let h3 := (ignore (on_yamux (ym_Close n)) h2).1 in
      (mkWorld (t + lasts t) (wd_next w) (wd_sent w) (Unregister ws n h3).1 (wd_log w ++ [(t, (ws, n))]), Ok ([], io_EOF))
  | (h1, _) => (mkWorld t (wd_next w) (wd_sent w) h1 (wd_log w), Ok ([], io_EOF))
  end.
#[export] Instance net : AgentNet World := {|
  an_dial := dial;
  an_room n w := carries (wd_now w);
  an_sent n p w := mkWorld (wd_now w) (wd_next w) (<[n := default ""%string (wd_sent w !! n) +:+ p]> (wd_sent w)) (wd_hub w) (wd_log w);
  an_Server n := mret tt;
  an_accepts := accepts;
  an_go _ w := w;
  an_Close n := mret tt;
  an_Sleep d w := at_time (wd_now w + d) w
|}.
End outside.
Arguments World : clear implicits.
End Outside.

(** * Reconnecting *)
Section reconnect.
Context {Y S : Type} `{YamuxSpec Y} `{StateSink S}.
Notation HB := (Hub Y S).

(** A frame that went out whole is the frame, however little room there was. *)
Lemma Write_whole p w w' : Write p w = (w', Ok tt) -> wr_out w' = wr_out w +:+ p.
Proof. unfold Write. repeat case_match; by intros [= <-]. Qed.
Lemma writeFrame_whole v room out w : writeFrame v (mkWriter out room) = (w, Ok tt) ->
  writeFrame v (mkWriter out None) = (mkWriter (wr_out w) None, Ok tt).
Proof.
  unfold writeFrame. destruct (maxFrame <? _); [done|]. intros (w1 & [] & Hw1 & Hw2)%bind_ok.
  apply Write_whole in Hw1, Hw2. by rewrite Hw2, Hw1.
Qed.

(** The hub takes an agent whose workspace has no session, or a dead one. *)
Lemma accept_registers resolve n hs ws input (h : HB) :
  (ReadHandshake input).2 = Ok hs -> resolve (hs_Token hs) = Ok ws ->
  hs_WorkspaceID hs = ""%string \/ hs_WorkspaceID hs = ws ->
  is_ok (ym_Client n (hb_yamux h)).2 = true ->
  (forall old, hb_sessions h !! ws = Some old -> old <> n /\ ym_IsClosed (hb_yamux h) old = true) ->
  exists h', accept_open resolve n input h = (h', Ok (Some ws)).
Proof.
  intros Hread Hres Hid Hcl Hold. unfold accept_open. rewrite Hread, Hres.
  assert (negb (bool_decide (hs_WorkspaceID hs = ""%string)) && negb (bool_decide (hs_WorkspaceID hs = ws)) = false) as ->.
  { destruct Hid as [Hid|Hid]; rewrite Hid; [done|].
    by rewrite (bool_decide_eq_true_2 (ws = ws)), andb_false_r. }
  unfold on_yamux, zoom, try, mbind, M_bind.
  pose proof (fun s (Hs : s <> n) => ym_Client_closed n s (hb_yamux h) Hs) as Hk.
  destruct (ym_Client n (hb_yamux h)) as [y1 [[]|e]]; [|done]. simpl in Hk.
  unfold register_locked, gets, mbind, M_bind, id. simpl.
  destruct (hb_sessions h !! ws) as [old|] eqn:Hl; [|by eexists].
  destruct (Hold old eq_refl) as [Hne Hc]. rewrite (Hk old Hne Hc). simpl.
  unfold ignore, on_yamux, zoom. destruct (ym_Close old _) as [y2 r2]. by eexists.
Qed.

Variable resolve : string -> result string.
Variable reachable : time -> bool.
Variable dial_takes : time -> duration.
Variable carries : time -> option nat.
Variable ages : time -> Y -> Y.
Variable lasts : time -> duration.
Notation WD := (Outside.World Y S).
#[local] Instance the_net : AgentNet WD := Outside.net resolve reachable dial_takes carries ages lasts.

Variable st : Startup.
Variable ws : string.
Variable stale : option nat.            (* the session the hub may still hold *)
Variables over slack : Z.               (* when the trouble is over; how long a dial takes at most *)

(** What the agent needs of its surroundings. *)
Record recovers : Prop := {
  rc_token : resolve (hs_Token (su_hs st)) = Ok ws;
  rc_id : hs_WorkspaceID (su_hs st) = ""%string \/ hs_WorkspaceID (su_hs st) = ws;
  rc_text : utf8 (hs_WorkspaceID (su_hs st)) && utf8 (hs_Token (su_hs st)) = true;
  rc_fits : zlen (print (handshake_json (su_hs st))) <= maxFrame;
  rc_dial t : 0 <= dial_takes t <= slack;
  rc_up t : over <= t -> reachable t = true /\ carries t = None;
  rc_dead t y old : over <= t -> stale = Some old -> ym_IsClosed (ages t y) old = true;
  rc_client n y : is_ok (ym_Client n y).2 = true
}.
Hypothesis Hrc : recovers.

(** Not registered since the start. *)
Record waiting (w : WD) : Prop := {
  wt_table : hb_sessions (Outside.wd_hub w) !! ws = stale;
  wt_fresh : forall old, stale = Some old -> (old < Outside.wd_next w)%nat;
  wt_conns : forall n, (Outside.wd_next w <= n)%nat -> Outside.wd_sent w !! n = None
}.
Notation registered w t := (exists n, (t, (ws, n)) ∈ Outside.wd_log w).

(** The hub's answer to a whole handshake. *)
Lemma accepts_spec n (v : WD) :
  hb_sessions (Outside.wd_hub v) !! ws = stale -> stale <> Some n ->
  (ReadHandshake (default ""%string (Outside.wd_sent v !! n))).2 = Ok (su_hs st) ->
  wp (Outside.accepts resolve ages lasts n) (fun v' _ =>
    registered v' (Outside.wd_now v) \/
    hb_sessions (Outside.wd_hub v') !! ws = stale /\ Outside.wd_next v' = Outside.wd_next v /\
    Outside.wd_sent v' = Outside.wd_sent v /\ Outside.wd_now v' = Outside.wd_now v /\ Outside.wd_now v < over) v.
Proof.
  intros Ht Hne Hread. unfold wp, Outside.accepts. set (t := Outside.wd_now v).
  set (h := mkHub _ (ages t _) _). set (input := default ""%string _) in *.
  pose proof (accept_open_spec resolve n input h) as Hspec. unfold wp in Hspec.
  destruct (accept_open resolve n input h) as [h1 [[ws'|]|e]] eqn:Ha.
  1: { destruct Hspec as (_ & (hs & Hhs & Hres & _) & _). rewrite Hread in Hhs. injection Hhs as <-.
    rewrite (rc_token Hrc) in Hres. injection Hres as <-. left. exists n. simpl. apply elem_of_app. right. by left. }
  all: destruct Hspec as [_ Hs]; right; split_and!; [by rewrite <- Ht; simpl; rewrite Hs|done..|].
  all: destruct (Z.lt_ge_cases t over) as [|Hge]; [done|exfalso].
  all: destruct (accept_registers resolve n (su_hs st) ws input h Hread (rc_token Hrc) (rc_id Hrc) (rc_client Hrc _ _)) as [h' Hok];
    [|congruence].
  all: intros old Hold; change (hb_sessions h) with (hb_sessions (Outside.wd_hub v)) in Hold; rewrite Ht in Hold.
  all: split; [by intros ->|by apply (rc_dead Hrc)].
Qed.

(** One attempt: it registers the agent when the dial is done, or it fails
    within the dial, and then the trouble was not over. *)
Lemma attempt_spec (w : WD) :
  waiting w ->
  let t' := Outside.wd_now w + dial_takes (Outside.wd_now w) in
  wp (connectAndServe st) (fun w' _ =>
    registered w' t' \/ waiting w' /\ Outside.wd_now w' = t' /\ Outside.wd_now w < over) w.
Proof.
  intros [Ht Hf Hc] t'. unfold connectAndServe. wp_step.
  change (an_dial (su_addr st)) with (Outside.dial (Y := Y) (S := S) reachable dial_takes (su_addr st)).
  unfold wp at 1, Outside.dial. fold t'.
  destruct (reachable (Outside.wd_now w)) eqn:Hup.
  2: { right. split_and!; [by constructor|done|]. destruct (Z.lt_ge_cases (Outside.wd_now w) over) as [|Hge]; [done|].
       by rewrite (proj1 (rc_up Hrc _ Hge)) in Hup. }
  set (n := Outside.wd_next w).
  pose proof (frame_bytes (su_hs st)) as Hframe.
  destruct (Hframe (rc_text Hrc) (rc_fits Hrc)) as (bytes & Hwrite & _ & Hread).
  do 4 wp_step. change (an_room n _) with (carries t').
  destruct (WriteHandshake (su_hs st) (mkWriter "" (carries t'))) as [wr [[]|e]] eqn:Hw.
  - apply writeFrame_whole in Hw. rewrite Hwrite in Hw. injection Hw as Hw.
    do 4 wp_step.
    wp_step. apply wp_ret. unfold serveSession. wp_step. change (an_accepts n) with (Outside.accepts resolve ages lasts n).
    set (v := an_sent n _ _).
    assert (Hv : default ""%string (Outside.wd_sent v !! n) = bytes).
    { subst v. simpl. rewrite lookup_insert_eq. simpl. rewrite (Hc n) by done. simpl. by rewrite <- Hw. }
    eapply wp_mono; [apply (accepts_spec n v)|].
    + exact Ht.
    + intros Hst. specialize (Hf n Hst). lia.
    + rewrite Hv. specialize (Hread ""%string). rewrite string_app_nil_r in Hread. 
      change ((readFrame (T := Handshake) fr_fields fr_zero bytes).2 = Ok (su_hs st)). by rewrite Hread.
    + intros v' r Hv'. assert (Hfin : registered v' t' \/ waiting v' /\ Outside.wd_now v' = t' /\ Outside.wd_now w < over).
      { destruct Hv' as [?|(Ht' & Hn' & Hs' & Hnow & Hlt)]; [by left|right]. split_and!; [|done|].
        - split; [done| |]; rewrite Hn'; subst v; simpl.
          + intros old Hold. specialize (Hf old Hold). lia.
          + intros m Hm. rewrite Hs'. simpl. rewrite lookup_insert_ne by lia. apply Hc. lia.
        - change (Outside.wd_now v) with t' in Hlt. pose proof (rc_dial Hrc (Outside.wd_now w)). lia. }
      destruct r as [[streams e]|e]; repeat first [wp_step|apply wp_ret]; exact Hfin.
  - repeat first [wp_step|apply wp_ret]. right. split_and!; [|done|].
    + split; simpl; [done|intros old Hold; specialize (Hf old Hold); lia|].
      intros m Hm. rewrite lookup_insert_ne by lia. apply Hc. lia.
    + destruct (Z.lt_ge_cases (Outside.wd_now w) over) as [|Hge]; [done|exfalso].
      assert (Hge' : over <= t') by (pose proof (rc_dial Hrc (Outside.wd_now w)); lia).
      rewrite (proj2 (rc_up Hrc _ Hge')) in Hw. unfold WriteHandshake in Hw. by rewrite Hwrite in Hw.
Qed.

Lemma agent_loop_S k (w : WD) :
  (agent_loop (Datatypes.S k) st w).1 = (agent_loop k st (an_Sleep retry (connectAndServe st w).1)).1.
Proof. simpl. unfold ignore, modify, mbind, M_bind. by destruct (connectAndServe st w) as [w1 r1]. Qed.

End reconnect.

(** * Heartbeats arrive *)
Section heartbeats.
Variable ParseFloat : string -> float64.
Variable fmt_g : float64 -> string.
Context {W : Type}.
Variable fmt_float : float64 -> string.
Variable resolve : string -> M W Box.
Variable mutate : string -> (Box -> Box) -> M W unit.
Variable idleCfg : IdleConfig.
Variable now : time.

(** A heartbeat is recorded: when the load's text is a JSON number that
    reads back as the load, the agent's request, routed by the daemon's metadata
    API, has exactly the effect of recording that load, now, in the box its
    source address is of. *)
Theorem heartbeat_recorded (loadavg : option string) (remote : string) (h : Request -> M W Response) (w : W) :
  let load := loadAvg1 ParseFloat loadavg in
  let body := heartbeat_text fmt_g load in
  json_ok (JNum (fmt_g load)) = true -> float_literal (fmt_g load) = Some load -> (slen body <= max_body)%nat ->
  Handler fmt_float resolve (Some mutate) idleCfg now "POST" heartbeat_path = Some h ->
  (h (mkRequest remote (Z.of_nat (slen body)) body) w).1 =
  (mutate (host_of remote) (fun b => RecordHeartbeat b load now (idle_policy idleCfg)) w).1.
Proof.
  intros load body Hok Hlit Hlen Hh. unfold Handler, heartbeat_path in Hh. simpl in Hh. injection Hh as <-.
  unfold heartbeat, apply. cbn [rq_ContentLength rq_Body rq_RemoteAddr].
  assert (Hpos : (0 < slen body)%nat) by (unfold body, heartbeat_text; simpl; lia).
  rewrite (proj2 (Z.eqb_neq (Z.of_nat (slen body)) 0)) by lia.
  assert (Hdec : decode_body heartbeat_fields (mkHeartbeatBody (S754_zero false)) body = Ok (mkHeartbeatBody load)).
  { unfold decode_body. rewrite stake_all by done. unfold body, heartbeat_text.
    assert (Hdoc : json_ok (JObj [("load"%string, JNum (fmt_g load))]) = true) by (simpl in *; by rewrite Hok).
    assert (Hfuel : (need (JObj [("load"%string, JNum (fmt_g load))]) <= Datatypes.S max_body)%nat).
    { pose proof (need_len _ Hdoc). unfold body, heartbeat_text in Hlen. lia. }
    pose proof (parse_value_print _ (Datatypes.S max_body) EmptyString Hfuel Hdoc I) as Hp.
    rewrite string_app_nil_r in Hp. rewrite Hp. simpl. by rewrite Hlit. }
  rewrite Hdec. unfold mbind, M_bind, try. change (do_heartbeat _ _) with (fun b req => RecordHeartbeat b (hb_Load req) now (idle_policy idleCfg)).
  by destruct (mutate _ _ w) as [w' [[]|e]].
Qed.
End heartbeats.

(** * A control plane that was away for half a minute *)
#[local] Existing Instances Net.net Net.net_spec.

(** It is unreachable for ten seconds, then accepts connections that carry
    nothing, and lets go of the agent's old session, session 0, at last. *)
Definition outage : Z := 30 * Second.
Definition away_reachable (t : time) : bool := 10 * Second <=? t.
Definition away_carries (t : time) : option nat := if outage <=? t then None else Some 0%nat.
Definition away_ages (t : time) (y : Net.Net) : Net.Net := if outage <=? t then (ym_Close 0 y).1 else y.
Definition one_second (t : time) : duration := Second.
Definition one_hour (t : time) : duration := 3600 * Second.
Definition su1 : Startup := mkStartup "hopboxd:7777" (mkHandshake "ws-1" "tok").
Definition away : Outside.World Net.Net (list (string * bool)) :=
  Outside.mkWorld 0 1 ∅ (mkHub {["ws-1" := 0%nat]} Net.idle (Some [])) [].
#[local] Instance away_net : AgentNet (Outside.World Net.Net (list (string * bool))) :=
  Outside.net Net.tokens away_reachable one_second away_carries away_ages one_hour.
Lemma away_recovers : recovers (Y := Net.Net) Net.tokens away_reachable one_second away_carries away_ages su1 "ws-1" (Some 0%nat) outage Second.
Proof.
  split; [done|by right|done|by vm_compute| | | |done].
  - intros t. split; vm_compute; discriminate.
  - intros t Ht. unfold away_reachable, away_carries, outage in *.
    rewrite (proj2 (Z.leb_le _ _) Ht), (proj2 (Z.leb_le (10 * Second) t)); [done|]. unfold Second in *. lia.
  - intros t y old Ht [= <-]. unfold away_ages. rewrite (proj2 (Z.leb_le _ _) Ht). simpl.
    apply bool_decide_eq_true_2. set_solver.
Qed.
(** Ten attempts fail; the eleventh succeeds, on the seventh connection, after a second of dialling. *)
Example back_after_outage :
  Outside.wd_log (agent_loop 11 su1 away).1 = [(31 * Second, ("ws-1"%string, 7%nat))] /\ Outside.wd_log (agent_loop 10 su1 away).1 = [].
Proof. vm_compute. by split. Qed.

(** A beat of an idle machine. *)
Definition zero_text (x : float64) : string := "0".
Definition parse_zero (s : string) : float64 := S754_zero false.
Lemma heartbeat_recorded_witness :
  forall (b : Box) h,
  Handler (W := Box) zero_text (fun _ b => (b, Ok b)) (Some (fun _ f b => (f b, Ok tt))) (mkIdleConfig 0 (S754_zero false)) 100 "POST" heartbeat_path = Some h ->
  (h (mkRequest "172.18.0.5:4242" (Z.of_nat (slen (heartbeat_text zero_text (S754_zero false)))) (heartbeat_text zero_text (S754_zero false))) b).1 =
  RecordHeartbeat b (S754_zero false) 100 (idle_policy (mkIdleConfig 0 (S754_zero false))).
Proof.
  intros b h Hh.
  apply (heartbeat_recorded parse_zero zero_text zero_text (fun _ b => (b, Ok b)) (fun _ f b => (f b, Ok tt)) (mkIdleConfig 0 (S754_zero false)) 100
    None "172.18.0.5:4242" h b); [reflexivity|reflexivity|vm_compute; lia|exact Hh].
Defined.
