(* ===== verification/Boxd.v ===== *)
(** The box daemon's own glue ([cmd/boxd/main.go]): the write seam of the
    metadata API, the agent hub's state sink and the startup reset, over any
    box store that can also look a box up by address.  The flags and the
    addresses derived from them are in [Daemon], the sequence of [run] in
    [Startup]. *)
From stdpp Require Import base option list strings gmap.
From Stdlib Require Import Ascii ZArith Lia.
From S2P Require Import Prelude GoStrings GoTime GoNet Sql Box Ports Store World Reconcile BoxSqlite.
Local Open Scope Z_scope.

(** [GetByIP], which is not part of [box.Store]. *)
Class BoxByIP (S : Type) `{BoxStoreSpec S} : Type := {
  st_GetByIP : string -> M S Box;
  st_GetByIP_spec ip s :
    st_inv s ->
    wp (st_GetByIP ip) (fun s' r => s' = s /\
      forall b, r = Ok b -> ip <> ""%string /\ b_IP b = ip /\ st_view s !! b_ID b = Some b) s
}.

(** [portOf] *)
Definition portOf (addr def : string) : string :=
  match SplitHostPort addr with
  | Ok (_, p) => if bool_decide (p = ""%string) then def else p
  | Err _ => def
  end.

Definition engineTenant : string := "default".

Section boxd.
Context {S C H : Type} `{BoxByIP S} `{Compute C}.
Notation W := (World S C H).

(** [mutate]: resolve the calling box by address, apply, persist. *)
Definition mutate (ip : string) (fn : Box -> Box) : M W unit :=
  b ← on_store (st_GetByIP ip);
  update (fn b) ;;
  mret tt.

(** [boxSink.SetAgentConnected] *)
Definition SetAgentConnected (id : string) (connected : bool) : M W unit :=
  r ← try (on_store (st_Get "" id));
  match r with
  | Err _ => mret tt
  | Ok b =>
      u ← try (update (b <| b_AgentConnected := connected |>));
      match u with
      | Err _ => mret tt
      | Ok _ => Trigger id (b_TenantID b)
      end
  end.

Definition resetOne (b : Box) : M W unit :=
  if b_Attached b then ignore (update (b <| b_Attached := false |>)) else mret tt.
Definition resetSessions : M W unit :=
  r ← try (on_store (st_List engineTenant));
  match r with
  | Err _ => mret tt
  | Ok boxes => mfor boxes resetOne
  end.
End boxd.

(** * boxd's store provides the lookup *)
Lemma order_by_updated_elem l r : r ∈ order_by_updated_desc l <-> r ∈ l.
Proof. unfold order_by_updated_desc. by rewrite (order_by_desc_perm r_updated_at l). Qed.

Lemma row_ip r b : scan r = Ok b -> b_IP b = r_ip r.
Proof.
  unfold scan. intros Hs.
  repeat match type of Hs with
  | (?x ≫= _) = _ => destruct x eqn:?; [cbn [mbind result_bind] in Hs|done]
  end. by simplify_eq.
Qed.

Section sqlite.
Variable plan : list Row -> list Row.
Hypothesis plan_perm : forall l, plan l ≡ₚ l.
Variable constraint_err : error.
#[local] Existing Instance boxsqlite_store.
#[local] Existing Instance boxsqlite_spec.

Lemma GetByIP_law ip db :
  db_inv db ->
  wp (GetByIP plan ip) (fun db' r => db' = db /\
    forall b, r = Ok b -> ip <> ""%string /\ b_IP b = ip /\ db_view db !! b_ID b = Some b) db.
Proof.
  intros Hi. unfold GetByIP. case_bool_decide as Hip; [apply wp_throw; by split|].
  unfold one. apply wp_exec; [by intros|]. intros _. unfold wp. split; [done|]. intros b Hb.
  set (where_ := fun r => bool_decide (r_ip r = ip)) in Hb.
  destruct (order_by_updated_desc (select plan where_ db)) as [|r l] eqn:Hs; [done|].
  assert (Hr : r ∈ select plan where_ db) by (apply order_by_updated_elem; rewrite Hs; by left).
  apply (elem_of_select plan plan_perm) in Hr as [Hw Hr]. unfold where_ in Hw. go_bool.
  split; [done|]. split; [by rewrite (row_ip r b Hb)|]. apply (db_view_lookup db); [done|].
  exists r. split; [done|]. by rewrite (proj1 (scan_key _ _ Hb)).
Qed.

#[export] Instance boxsqlite_byip : @BoxByIP DB (boxsqlite_store plan constraint_err) (boxsqlite_spec plan plan_perm constraint_err).
Proof. refine {| st_GetByIP := GetByIP plan |}. intros ip db Hi. by apply GetByIP_law. Defined.
End sqlite.
