(* ===== verification/Workspace.v ===== *)
(** The dev-environment resource and its store interface
    ([internal/core/workspace/workspace.go], [internal/core/store/store.go]): a
    box decorated with a persistent home and gateway endpoints, the [Store]
    interface as a class, and its contract over an abstract map of workspaces. *)
From stdpp Require Import base option list strings gmap fin_maps.
From Stdlib Require Import ZArith Lia.
From S2P Require Import Prelude GoStrings GoTime Json Box Store.
Local Open Scope Z_scope.

Module Workspace.
Record IngressPort : Type := mkIngressPort {
  ip_Name : string;
  ip_Port : Z
}.

#[export] Instance set_ip_Name : Setter ip_Name := fun f x => mkIngressPort (f (x.(ip_Name))) x.(ip_Port).
#[export] Instance set_ip_Port : Setter ip_Port := fun f x => mkIngressPort x.(ip_Name) (f (x.(ip_Port))).
Record Endpoint : Type := mkEndpoint {
  ep_Name : string;
  ep_URL : string;
  ep_Port : Z;
  ep_Ref : string
}.

#[export] Instance set_ep_Name : Setter ep_Name := fun f x => mkEndpoint (f (x.(ep_Name))) x.(ep_URL) x.(ep_Port) x.(ep_Ref).
#[export] Instance set_ep_URL : Setter ep_URL := fun f x => mkEndpoint x.(ep_Name) (f (x.(ep_URL))) x.(ep_Port) x.(ep_Ref).
#[export] Instance set_ep_Port : Setter ep_Port := fun f x => mkEndpoint x.(ep_Name) x.(ep_URL) (f (x.(ep_Port))) x.(ep_Ref).
#[export] Instance set_ep_Ref : Setter ep_Ref := fun f x => mkEndpoint x.(ep_Name) x.(ep_URL) x.(ep_Port) (f (x.(ep_Ref))).
Record Workspace : Type := mkWorkspace {
  w_Box : Box;
  w_Ingress : list IngressPort;
  w_HomeMount : string;
  w_Endpoints : list Endpoint
}.

#[export] Instance set_w_Box : Setter w_Box := fun f x => mkWorkspace (f (x.(w_Box))) x.(w_Ingress) x.(w_HomeMount) x.(w_Endpoints).
#[export] Instance set_w_Ingress : Setter w_Ingress := fun f x => mkWorkspace x.(w_Box) (f (x.(w_Ingress))) x.(w_HomeMount) x.(w_Endpoints).
#[export] Instance set_w_HomeMount : Setter w_HomeMount := fun f x => mkWorkspace x.(w_Box) x.(w_Ingress) (f (x.(w_HomeMount))) x.(w_Endpoints).
#[export] Instance set_w_Endpoints : Setter w_Endpoints := fun f x => mkWorkspace x.(w_Box) x.(w_Ingress) x.(w_HomeMount) (f (x.(w_Endpoints))).

Definition New (newID : string) (now : time) (tenantID owner name imageRef : string) : Workspace :=
  mkWorkspace (Box.New newID now tenantID owner name imageRef) [] "" [].
End Workspace.
Import Workspace.

Definition store_ErrNotFound : error := Sentinel "store" "store: not found".

(** * The interface *)
Class WorkspaceStore (S : Type) : Type := {
  ws_GetWorkspace : string -> string -> M S Workspace;
  ws_GetByName : string -> string -> M S Workspace;
  ws_GetByToken : string -> M S Workspace;
  ws_GetByIP : string -> M S Workspace;
  ws_ListWorkspaces : string -> M S (list Workspace);
  ws_ListAll : M S (list Workspace);
  ws_CreateWorkspace : Workspace -> M S unit;
  ws_UpdateWorkspace : time -> Workspace -> M S Workspace;  (* the caller's, as Update leaves it *)
  ws_DeleteWorkspace : string -> string -> M S unit
}.

(** * The contract *)

(** The store keeps everything but the agent's self-report. *)
Definition kept_box (b : Box) : Box := b <| b_AgentState := ""%string |> <| b_AgentStatus := ""%string |>.
Definition kept (w : Workspace) : Workspace := w <| w_Box := kept_box (w_Box w) |>.

(** Names and addresses are UTF-8 and ports are 32-bit. *)
Definition port_ok (p : IngressPort) : Prop := utf8 (ip_Name p) = true /\ in_int32 (ip_Port p).
Definition endpoint_ok (e : Endpoint) : Prop :=
  utf8 (ep_Name e) = true /\ utf8 (ep_URL e) = true /\ utf8 (ep_Ref e) = true /\ in_int32 (ep_Port e).
Definition w_storable (w : Workspace) : Prop :=
  storable (w_Box w) /\ Forall port_ok (w_Ingress w) /\ Forall endpoint_ok (w_Endpoints w).

(** The columns an UPDATE leaves alone. *)
Definition w_same_key (w v : Workspace) : Prop := same_key (w_Box w) (w_Box v).

Class WorkspaceStoreSpec (S : Type) `{WorkspaceStore S} : Type := {
  ws_view : S -> gmap string Workspace;
  ws_inv : S -> Prop;
  ws_healthy : S -> Prop;

  ws_view_id s id w : ws_inv s -> ws_view s !! id = Some w -> b_ID (w_Box w) = id /\ w_storable w /\ kept w = w;
  ws_view_name s i j w v :
    ws_inv s -> ws_view s !! i = Some w -> ws_view s !! j = Some v ->
    b_TenantID (w_Box w) = b_TenantID (w_Box v) -> b_Name (w_Box w) = b_Name (w_Box v) -> i = j;

  ws_Get_spec tenant id s :
    ws_inv s ->
    wp (ws_GetWorkspace tenant id) (fun s' r => s' = s /\
      (forall w, r = Ok w -> ws_view s !! id = Some w /\ b_TenantID (w_Box w) = tenant) /\
      (ws_healthy s -> forall w, ws_view s !! id = Some w -> b_TenantID (w_Box w) = tenant -> r = Ok w) /\
      (ws_healthy s -> (forall w, ws_view s !! id = Some w -> b_TenantID (w_Box w) <> tenant) ->
         r = Err store_ErrNotFound)) s;

  ws_GetByName_spec tenant name s :
    ws_inv s ->
    wp (ws_GetByName tenant name) (fun s' r => s' = s /\
      (forall w, r = Ok w -> ws_view s !! b_ID (w_Box w) = Some w /\ b_TenantID (w_Box w) = tenant /\
                             b_Name (w_Box w) = name) /\
      (ws_healthy s -> (exists w, r = Ok w) \/ r = Err store_ErrNotFound) /\
      (ws_healthy s -> forall id w, ws_view s !! id = Some w -> b_TenantID (w_Box w) = tenant ->
         b_Name (w_Box w) = name -> r = Ok w)) s;

  ws_GetByToken_spec token s :
    ws_inv s ->
    wp (ws_GetByToken token) (fun s' r => s' = s /\
      forall w, r = Ok w -> token <> ""%string /\ b_BootstrapToken (w_Box w) = token /\
                            ws_view s !! b_ID (w_Box w) = Some w) s;

  ws_GetByIP_spec ip s :
    ws_inv s ->
    wp (ws_GetByIP ip) (fun s' r => s' = s /\
      forall w, r = Ok w -> ip <> ""%string /\ b_IP (w_Box w) = ip /\
                            ws_view s !! b_ID (w_Box w) = Some w) s;

  ws_List_spec tenant s :
    ws_inv s ->
    wp (ws_ListWorkspaces tenant) (fun s' r => s' = s /\
      (forall l, r = Ok l -> NoDup (b_ID ∘ w_Box <$> l) /\
         forall w, w ∈ l <-> ws_view s !! b_ID (w_Box w) = Some w /\ b_TenantID (w_Box w) = tenant) /\
      (ws_healthy s -> is_ok r = true)) s;

  ws_ListAll_spec s :
    ws_inv s ->
    wp ws_ListAll (fun s' r => s' = s /\
      (forall l, r = Ok l -> NoDup (b_ID ∘ w_Box <$> l) /\
         forall w, w ∈ l <-> ws_view s !! b_ID (w_Box w) = Some w) /\
      (ws_healthy s -> is_ok r = true)) s;

  ws_Create_spec w s :
    ws_inv s -> w_storable w ->
    wp (ws_CreateWorkspace w) (fun s' r => ws_inv s' /\ (ws_healthy s -> ws_healthy s') /\
      match r with
      | Ok _ => ws_view s !! b_ID (w_Box w) = None /\ ws_view s' = <[b_ID (w_Box w) := kept w]> (ws_view s)
      | Err _ => ws_view s' = ws_view s
      end) s;

  (* an UPDATE of an absent row is an error and changes nothing *)
  ws_Update_spec now w s :
    ws_inv s -> w_storable w -> in_range now ->
    (forall old, ws_view s !! b_ID (w_Box w) = Some old -> w_same_key old w) ->
    wp (ws_UpdateWorkspace now w) (fun s' r => ws_inv s' /\ (ws_healthy s -> ws_healthy s') /\
      let w1 := w <| w_Box := (w_Box w) <| b_UpdatedAt := now |> |> in
      match r with
      | Ok w2 => w2 = w1 /\ is_Some (ws_view s !! b_ID (w_Box w)) /\
                 ws_view s' = <[b_ID (w_Box w) := kept w1]> (ws_view s)
      | Err _ => ws_view s' = ws_view s /\ ~ (ws_healthy s /\ is_Some (ws_view s !! b_ID (w_Box w)))
      end) s;

  ws_Delete_spec tenant id s :
    ws_inv s ->
    wp (ws_DeleteWorkspace tenant id) (fun s' r => ws_inv s' /\ (ws_healthy s -> ws_healthy s') /\
      match r with
      | Ok _ => ws_view s' = delete id (ws_view s) \/
                (ws_view s' = ws_view s /\ exists w, ws_view s !! id = Some w /\ b_TenantID (w_Box w) <> tenant)
      | Err _ => ws_view s' = ws_view s /\ ~ ws_healthy s
      end) s
}.

(** * Lemmas *)
Lemma kept_box_equiv b : kept_box b ≡ b.
Proof. by constructor. Qed.

Lemma kept_storable w : w_storable w -> w_storable (kept w).
Proof. by intros (? & ? & ?). Qed.

Lemma kept_kept w : kept (kept w) = kept w.
Proof. done. Qed.
#[export] Hint Resolve kept_storable : go.
