(* ===== verification/WorkspaceSqlite.v ===== *)
(** The workspace store ([internal/core/store/sqlite/sqlite.go], with the table
    of [schema.sql]): the [workspaces] table as rows of SQL values, the JSON
    columns, and the statements, shown to meet the contract of [Workspace].  A
    box's lifetime and suspension state is one JSON column, so it survives
    storage only as far as JSON text does.  The agent's self-report has no
    column and is lost.  [Open], with its schema and migrations, is in
    [Migrate]. *)
From stdpp Require Import base option list strings gmap fin_maps.
From Stdlib Require Import Ascii ZArith Lia Floats.SpecFloat.
From S2P Require Import Prelude GoStrings GoTime Json Sql Box Store Workspace.
Import Workspace.Workspace.
Local Open Scope string_scope.
Local Open Scope list_scope.
Local Open Scope Z_scope.

Module WorkspaceSqlite.

(** * The JSON columns *)
Definition port_json (p : IngressPort) : json :=
  JObj [("name", JStr (ip_Name p)); ("port", JNum (itoa (ip_Port p)))].
Definition endpoint_json (e : Endpoint) : json :=
  JObj [("name", JStr (ep_Name e)); ("url", JStr (ep_URL e)); ("port", JNum (itoa (ep_Port e)));
        ("ref", JStr (ep_Ref e))].
Definition port_fields : Fields IngressPort :=
  [("name", str_field (fun v p => p <| ip_Name := v |>)); ("port", int_field 32 (fun v p => p <| ip_Port := v |>))].
Definition endpoint_fields : Fields Endpoint :=
  [("name", str_field (fun v e => e <| ep_Name := v |>)); ("url", str_field (fun v e => e <| ep_URL := v |>));
   ("port", int_field 32 (fun v e => e <| ep_Port := v |>)); ("ref", str_field (fun v e => e <| ep_Ref := v |>))].

(** [marshalJSON]: a nil or empty slice is written as an empty array. *)
Definition marshalJSON (l : list json) : string := print (JArr l).

(** [json.Unmarshal] into a slice of structs. *)
Fixpoint decode_items {T} (fs : Fields T) (zero : T) (l : list json) : result (list T) :=
  match l with
  | [] => Ok []
  | j :: l' => x ← decode_struct fs j zero; xs ← decode_items fs zero l'; Ok (x :: xs)
  end.
Definition unmarshal_list {T} (fs : Fields T) (zero : T) (s : string) : result (list T) :=
  match parse s with
  | Some (JArr l) => decode_items fs zero l
  | Some JNull => Ok []
  | Some _ => Err (type_error "array")
  | None => Err syntax_error
  end.

Record lifetimeJSON : Type := mkLifetimeJSON {
  lt_Ephemeral : bool;
  lt_Grace : duration;
  lt_MaxTTL : duration;
  lt_Deadline : option time;
  lt_AutoSuspend : bool;
  lt_KeepAliveUntil : option time;
  lt_IdleTimeoutOverride : duration;
  lt_LastActive : option time;
  lt_Load : float64
}.

#[export] Instance set_lt_Ephemeral : Setter lt_Ephemeral := fun f x => mkLifetimeJSON (f (x.(lt_Ephemeral))) x.(lt_Grace) x.(lt_MaxTTL) x.(lt_Deadline) x.(lt_AutoSuspend) x.(lt_KeepAliveUntil) x.(lt_IdleTimeoutOverride) x.(lt_LastActive) x.(lt_Load).
#[export] Instance set_lt_Grace : Setter lt_Grace := fun f x => mkLifetimeJSON x.(lt_Ephemeral) (f (x.(lt_Grace))) x.(lt_MaxTTL) x.(lt_Deadline) x.(lt_AutoSuspend) x.(lt_KeepAliveUntil) x.(lt_IdleTimeoutOverride) x.(lt_LastActive) x.(lt_Load).
#[export] Instance set_lt_MaxTTL : Setter lt_MaxTTL := fun f x => mkLifetimeJSON x.(lt_Ephemeral) x.(lt_Grace) (f (x.(lt_MaxTTL))) x.(lt_Deadline) x.(lt_AutoSuspend) x.(lt_KeepAliveUntil) x.(lt_IdleTimeoutOverride) x.(lt_LastActive) x.(lt_Load).
#[export] Instance set_lt_Deadline : Setter lt_Deadline := fun f x => mkLifetimeJSON x.(lt_Ephemeral) x.(lt_Grace) x.(lt_MaxTTL) (f (x.(lt_Deadline))) x.(lt_AutoSuspend) x.(lt_KeepAliveUntil) x.(lt_IdleTimeoutOverride) x.(lt_LastActive) x.(lt_Load).
#[export] Instance set_lt_AutoSuspend : Setter lt_AutoSuspend := fun f x => mkLifetimeJSON x.(lt_Ephemeral) x.(lt_Grace) x.(lt_MaxTTL) x.(lt_Deadline) (f (x.(lt_AutoSuspend))) x.(lt_KeepAliveUntil) x.(lt_IdleTimeoutOverride) x.(lt_LastActive) x.(lt_Load).
#[export] Instance set_lt_KeepAliveUntil : Setter lt_KeepAliveUntil := fun f x => mkLifetimeJSON x.(lt_Ephemeral) x.(lt_Grace) x.(lt_MaxTTL) x.(lt_Deadline) x.(lt_AutoSuspend) (f (x.(lt_KeepAliveUntil))) x.(lt_IdleTimeoutOverride) x.(lt_LastActive) x.(lt_Load).
#[export] Instance set_lt_IdleTimeoutOverride : Setter lt_IdleTimeoutOverride := fun f x => mkLifetimeJSON x.(lt_Ephemeral) x.(lt_Grace) x.(lt_MaxTTL) x.(lt_Deadline) x.(lt_AutoSuspend) x.(lt_KeepAliveUntil) (f (x.(lt_IdleTimeoutOverride))) x.(lt_LastActive) x.(lt_Load).
#[export] Instance set_lt_LastActive : Setter lt_LastActive := fun f x => mkLifetimeJSON x.(lt_Ephemeral) x.(lt_Grace) x.(lt_MaxTTL) x.(lt_Deadline) x.(lt_AutoSuspend) x.(lt_KeepAliveUntil) x.(lt_IdleTimeoutOverride) (f (x.(lt_LastActive))) x.(lt_Load).
#[export] Instance set_lt_Load : Setter lt_Load := fun f x => mkLifetimeJSON x.(lt_Ephemeral) x.(lt_Grace) x.(lt_MaxTTL) x.(lt_Deadline) x.(lt_AutoSuspend) x.(lt_KeepAliveUntil) x.(lt_IdleTimeoutOverride) x.(lt_LastActive) (f (x.(lt_Load))).
Definition lifetime_zero : lifetimeJSON := mkLifetimeJSON false 0 0 None false None 0 None (S754_zero false).
Definition lifetime_fields : Fields lifetimeJSON :=
  [("ephemeral", bool_field (fun v t => t <| lt_Ephemeral := v |>));
   ("grace", int_field 64 (fun v t => t <| lt_Grace := v |>));
   ("max_ttl", int_field 64 (fun v t => t <| lt_MaxTTL := v |>));
   ("deadline", time_field (fun v t => t <| lt_Deadline := v |>));
   ("auto_suspend", bool_field (fun v t => t <| lt_AutoSuspend := v |>));
   ("keep_alive_until", time_field (fun v t => t <| lt_KeepAliveUntil := v |>));
   ("idle_timeout_override", int_field 64 (fun v t => t <| lt_IdleTimeoutOverride := v |>));
   ("last_active", time_field (fun v t => t <| lt_LastActive := v |>));
   ("load", float_field (fun v t => t <| lt_Load := v |>))].

Definition nilIfZero (t : time) : option time := if IsZero t then None else Some t.

(** [Time.MarshalJSON] refuses years outside 0 to 9999. *)
Definition json_time (t : time) : option json :=
  if (- (366 * day_secs * Second) <=? t) && (t <? (3652365 - day_shift) * day_secs * Second)
  then Some (JStr (Format t)) else None.
Definition time_member (k : string) (o : option time) : option (list (string * json)) :=
  match o with
  | None => Some []
  | Some t => v ← json_time t; Some [(k, v)]
  end.
Definition load_member (k : string) (x : float64) : option (list (string * json)) :=
  if float_zero x then Some [] else l ← print_float x; Some [(k, JNum l)].

Definition lifetime_of (b : Box) : lifetimeJSON :=
  mkLifetimeJSON (b_Ephemeral b) (b_Grace b) (b_MaxTTL b) (b_Deadline b) (b_AutoSuspend b)
    (nilIfZero (b_KeepAliveUntil b)) (b_IdleTimeoutOverride b) (nilIfZero (b_LastActive b)) (b_Load b).
(** Every member is [omitempty]. *)
Definition lifetime_members (t : lifetimeJSON) : option (list (string * json)) :=
  dl ← time_member "deadline" (lt_Deadline t);
  ka ← time_member "keep_alive_until" (lt_KeepAliveUntil t);
  la ← time_member "last_active" (lt_LastActive t);
  ld ← load_member "load" (lt_Load t);
  Some (omit_empty (negb (lt_Ephemeral t)) "ephemeral" (JBool (lt_Ephemeral t)) ++
        omit_empty (lt_Grace t =? 0) "grace" (JNum (itoa (lt_Grace t))) ++
        omit_empty (lt_MaxTTL t =? 0) "max_ttl" (JNum (itoa (lt_MaxTTL t))) ++
        dl ++
        omit_empty (negb (lt_AutoSuspend t)) "auto_suspend" (JBool (lt_AutoSuspend t)) ++
        ka ++
        omit_empty (lt_IdleTimeoutOverride t =? 0) "idle_timeout_override" (JNum (itoa (lt_IdleTimeoutOverride t))) ++
        la ++ ld).
Definition marshalLifetime (b : Box) : string :=
  match lifetime_members (lifetime_of b) with Some l => print (JObj l) | None => "{}"%string end.
Definition unmarshalLifetime (s : string) (b : Box) : result Box :=
  lt ← map_err (ErrWrap ("parse lifetime " +:+ quote s)) (unmarshal lifetime_fields s lifetime_zero);
  Ok (b <| b_Ephemeral := lt_Ephemeral lt |> <| b_Grace := lt_Grace lt |> <| b_MaxTTL := lt_MaxTTL lt |>
        <| b_Deadline := lt_Deadline lt |> <| b_AutoSuspend := lt_AutoSuspend lt |>
        <| b_IdleTimeoutOverride := lt_IdleTimeoutOverride lt |> <| b_Load := lt_Load lt |>
        <| b_KeepAliveUntil := default (b_KeepAliveUntil b) (lt_KeepAliveUntil lt) |>
        <| b_LastActive := default (b_LastActive b) (lt_LastActive lt) |>).

(** * Rows *)
Record Row : Type := mkRow {
  c_id : string;
  c_tenant_id : string;
  c_owner : string;
  c_name : string;
  c_image_ref : string;
  c_mem_mb : Z;
  c_cpu_millis : Z;
  c_phase : string;
  c_instance_ref : string;
  c_ip : string;
  c_home_mount : string;
  c_bootstrap_token : string;
  c_agent_connected : Z;
  c_attached : Z;
  c_message : string;
  c_ingress_spec : string;
  c_endpoints : string;
  c_backend : string;
  c_lifetime : string;
  c_created_at : string;
  c_updated_at : string
}.

Definition DB : Type := Table Row.

Definition b2i (b : bool) : Z := if b then 1 else 0.

(** The arguments of the INSERT, in column order. *)
Definition insert_row (w : Workspace) : Row :=
  let b := w_Box w in
  mkRow (b_ID b) (b_TenantID b) (b_Owner b) (b_Name b) (b_ImageRef b) (b_MemMB b) (b_CPUMillis b)
    (phase_string (b_Phase b)) (b_InstanceRef b) (b_IP b) (w_HomeMount w) (b_BootstrapToken b)
    (b2i (b_AgentConnected b)) (b2i (b_Attached b)) (b_Message b)
    (marshalJSON (map port_json (w_Ingress w))) (marshalJSON (map endpoint_json (w_Endpoints w)))
    (b_Backend b) (marshalLifetime b) (Format (b_CreatedAt b)) (Format (b_UpdatedAt b)).

(** The UPDATE's SET list. *)
Definition update_row (w : Workspace) (r : Row) : Row :=
  let b := w_Box w in
  mkRow (c_id r) (c_tenant_id r) (c_owner r) (c_name r) (b_ImageRef b) (b_MemMB b) (b_CPUMillis b)
    (phase_string (b_Phase b)) (b_InstanceRef b) (b_IP b) (w_HomeMount w) (b_BootstrapToken b)
    (b2i (b_AgentConnected b)) (b2i (b_Attached b)) (b_Message b)
    (marshalJSON (map port_json (w_Ingress w))) (marshalJSON (map endpoint_json (w_Endpoints w)))
    (b_Backend b) (marshalLifetime b) (c_created_at r) (Format (b_UpdatedAt b)).

Definition parse_ts (column s : string) : result time :=
  match Parse s with
  | Some t => Ok t
  | None => Err (ErrWrap ("parse " +:+ column +:+ " " +:+ quote s) (Errorf ("parsing time " +:+ quote s)))
  end.

Definition scan (r : Row) : result Workspace :=
  ingress ← map_err (ErrWrap ("parse ingress_spec " +:+ quote (c_ingress_spec r)))
              (unmarshal_list port_fields (mkIngressPort "" 0) (c_ingress_spec r));
  endpoints ← map_err (ErrWrap ("parse endpoints " +:+ quote (c_endpoints r)))
              (unmarshal_list endpoint_fields (mkEndpoint "" "" 0 "") (c_endpoints r));
  let b := mkBox (c_id r) (c_tenant_id r) (c_owner r) (c_name r) (c_image_ref r) (c_backend r)
             (c_mem_mb r) (c_cpu_millis r) false 0 0 None false zero_time 0
             (phase_of_string (c_phase r)) (c_instance_ref r) (c_ip r) (c_bootstrap_token r)
             (negb (c_agent_connected r =? 0)) (negb (c_attached r =? 0)) (c_message r) (S754_zero false)
             zero_time "" "" zero_time zero_time in
  b ← unmarshalLifetime (c_lifetime r) b;
  created ← parse_ts "created_at" (c_created_at r);
  updated ← parse_ts "updated_at" (c_updated_at r);
  Ok (mkWorkspace (b <| b_CreatedAt := created |> <| b_UpdatedAt := updated |>) ingress (c_home_mount r) endpoints).

(** * Statements *)
Section statements.
Variable plan : list Row -> list Row.
Variable constraint_err : error.

Definition one (order : list Row -> list Row) (where_ : Row -> bool) : M DB Workspace :=
  exec (fun db => (db, match order (select plan where_ db) with
                       | [] => Err store_ErrNotFound
                       | r :: _ => scan r
                       end)).

Definition GetWorkspace (tenantID id : string) : M DB Workspace :=
  one (fun l => l) (fun r => bool_decide (c_tenant_id r = tenantID) && bool_decide (c_id r = id)).
Definition GetByName (tenantID name : string) : M DB Workspace :=
  one (fun l => l) (fun r => bool_decide (c_tenant_id r = tenantID) && bool_decide (c_name r = name)).
Definition GetByToken (token : string) : M DB Workspace :=
  if bool_decide (token = ""%string) then throw store_ErrNotFound
  else one (fun l => l) (fun r => bool_decide (c_bootstrap_token r = token)).
Definition GetByIP (ip : string) : M DB Workspace :=
  if bool_decide (ip = ""%string) then throw store_ErrNotFound
  else one (order_by_desc c_updated_at) (fun r => bool_decide (c_ip r = ip)).

(** [list]: no condition selects every row. *)
Definition list_where (where_ : Row -> bool) : M DB (list Workspace) :=
  exec (fun db => (db, scan_rows scan (select plan where_ db))).
Definition ListWorkspaces (tenantID : string) : M DB (list Workspace) :=
  list_where (fun r => bool_decide (c_tenant_id r = tenantID)).
Definition ListAll : M DB (list Workspace) := list_where (fun _ => true).

(** PRIMARY KEY and UNIQUE(tenant_id, name). *)
Definition violates (r r' : Row) : bool :=
  bool_decide (c_id r = c_id r') ||
  (bool_decide (c_tenant_id r = c_tenant_id r') && bool_decide (c_name r = c_name r')).

Definition CreateWorkspace (w : Workspace) : M DB unit :=
  exec (fun db =>
    if existsb (violates (insert_row w)) (db_rows db) then (db, Err constraint_err)
    else (mkDB (db_rows db ++ [insert_row w]) (db_fault db), Ok tt)).

(** WHERE tenant_id=? AND id=? *)
Definition hit (tenantID id : string) (r : Row) : bool :=
  bool_decide (c_tenant_id r = tenantID) && bool_decide (c_id r = id).

Definition UpdateWorkspace (now : time) (w : Workspace) : M DB Workspace :=
  let w := w <| w_Box := (w_Box w) <| b_UpdatedAt := now |> |> in
  let h := hit (b_TenantID (w_Box w)) (b_ID (w_Box w)) in
  exec (fun db =>
    (update_rows h (update_row w) db,
     if existsb h (db_rows db) then Ok w else Err store_ErrNotFound)).

Definition DeleteWorkspace (tenantID id : string) : M DB unit :=
  exec (fun db => (delete_rows (hit tenantID id) db, Ok tt)).

#[export] Instance sqlite_store : WorkspaceStore DB := {|
  ws_GetWorkspace := GetWorkspace; ws_GetByName := GetByName; ws_GetByToken := GetByToken; ws_GetByIP := GetByIP;
  ws_ListWorkspaces := ListWorkspaces; ws_ListAll := ListAll; ws_CreateWorkspace := CreateWorkspace;
  ws_UpdateWorkspace := UpdateWorkspace; ws_DeleteWorkspace := DeleteWorkspace
|}.
End statements.

(** * Lemmas: the JSON columns *)
Lemma int_field_itoa {T} bits (set : Z -> T -> T) z t :
  - 2 ^ (bits - 1) <= z < 2 ^ (bits - 1) -> int_field bits set (JNum (itoa z)) t = Ok (set z t).
Proof.
  intros Hz. unfold int_field, num_field. rewrite int_literal_itoa.
  by rewrite (proj2 (Z.leb_le _ _)), (proj2 (Z.ltb_lt _ _)) by lia.
Qed.

Lemma store_cons {T} (fs : Fields T) a k v l t t' :
  field_for fs k = Some a -> a v t = Ok t' -> store_members fs ((k, v) :: l) t = store_members fs l t'.
Proof. intros Hf Ha. simpl. by rewrite Hf, Ha. Qed.

Lemma decode_items_ok {T} (fs : Fields T) zero (enc : T -> json) l :
  Forall (fun x => decode_struct fs (enc x) zero = Ok x) l -> decode_items fs zero (map enc l) = Ok l.
Proof. induction 1 as [|x l Hx _ IH]; simpl; [done|]. rewrite Hx. simpl. by rewrite IH. Qed.

Lemma unmarshal_marshal {T} (fs : Fields T) zero (enc : T -> json) l :
  Forall (fun x => json_ok (enc x) = true /\ decode_struct fs (enc x) zero = Ok x) l ->
  unmarshal_list fs zero (marshalJSON (map enc l)) = Ok l.
Proof.
  intros Hl. unfold unmarshal_list, marshalJSON. rewrite parse_print.
  - apply decode_items_ok. eapply Forall_impl; [exact Hl|]. by intros x [_ ?].
  - simpl. rewrite forallb_forall. intros j (x & <- & Hx)%in_map_iff.
    apply list_elem_of_In in Hx. by apply (proj1 (Forall_forall _ _) Hl).
Qed.

Lemma port_column l : Forall port_ok l -> unmarshal_list port_fields (mkIngressPort "" 0) (marshalJSON (map port_json l)) = Ok l.
Proof.
  intros Hl. apply unmarshal_marshal. eapply Forall_impl; [exact Hl|]. intros [n p] [Hn Hp]. simpl in Hn, Hp. split.
  - cbn -[utf8 num_ok]. rewrite Hn, itoa_num_ok. done.
  - unfold port_json, decode_struct. do 2 (erewrite store_cons; [|reflexivity|reflexivity || by apply int_field_itoa]). done.
Qed.

Lemma endpoint_column l :
  Forall endpoint_ok l -> unmarshal_list endpoint_fields (mkEndpoint "" "" 0 "") (marshalJSON (map endpoint_json l)) = Ok l.
Proof.
  intros Hl. apply unmarshal_marshal. eapply Forall_impl; [exact Hl|]. intros [n u p r] (Hn & Hu & Hr & Hp). simpl in Hn, Hu, Hr, Hp. split.
  - cbn -[utf8 num_ok]. rewrite Hn, Hu, Hr, itoa_num_ok. done.
  - unfold endpoint_json, decode_struct. do 4 (erewrite store_cons; [|reflexivity|reflexivity || by apply int_field_itoa]). done.
Qed.

(** Reading a member list after another. *)
Lemma store_app {T} (fs : Fields T) l1 l2 t t' :
  store_members fs l1 t = Ok t' -> store_members fs (l1 ++ l2) t = store_members fs l2 t'.
Proof.
  revert t. induction l1 as [|[k v] l1 IH]; intros t; simpl; [by intros [= <-]|].
  destruct (field_for fs k) as [a|]; [|by apply IH]. destruct (a v t); simpl; [by apply IH|done].
Qed.

Lemma store_one {T} (fs : Fields T) k v t : store_members fs [(k, v)] t = match field_for fs k with Some a => a v t | None => Ok t end.
Proof. simpl. destruct (field_for fs k) as [a|]; [|done]. by destruct (a v t). Qed.

(** One omittable member: left out it stands for the value already there. *)
Lemma store_omit {T} (fs : Fields T) (empty : bool) k v t t' :
  (empty = true -> t' = t) -> (empty = false -> store_members fs [(k, v)] t = Ok t') ->
  store_members fs (omit_empty empty k v) t = Ok t'.
Proof. destruct empty; intros He Hn; [by rewrite He|by apply Hn]. Qed.

Lemma json_time_ok t : in_range t -> json_time t = Some (JStr (Format t)).
Proof.
  intros [H1 H2]. unfold json_time. assert (0 <= 366 * day_secs * Second) by (by vm_compute).
  by rewrite (proj2 (Z.leb_le _ _)), (proj2 (Z.ltb_lt _ _)) by lia.
Qed.

Definition opt_in_range (o : option time) : Prop := match o with Some t => in_range t | None => True end.
Lemma time_member_ok k o :
  opt_in_range o -> time_member k o = Some (match o with None => [] | Some t => [(k, JStr (Format t))] end).
Proof. intros Ho. destruct o as [t|]; simpl; [|done]. by rewrite json_time_ok. Qed.

Lemma nilIfZero_range t : in_range t -> opt_in_range (nilIfZero t).
Proof. unfold nilIfZero. by destruct (IsZero t). Qed.

Lemma nilIfZero_default t : default zero_time (nilIfZero t) = t.
Proof. unfold nilIfZero, IsZero. destruct (t =? 0) eqn:E; go_bool; by subst. Qed.

Lemma store_time (fs : Fields lifetimeJSON) k (o : option time) set t :
  opt_in_range o -> (o = None -> set None t = t) -> field_for fs k = Some (time_field set) ->
  store_members fs (match o with None => [] | Some x => [(k, JStr (Format x))] end) t = Ok (set o t).
Proof.
  intros Ho Hn Hf. destruct o as [x|]; [|by rewrite Hn]. rewrite store_one, Hf. simpl. by rewrite Parse_Format.
Qed.

Lemma load_member_ok k x :
  float_kept x = true ->
  exists l, load_member k x = Some l /\ forallb (fun '(k, v) => utf8 k && json_ok v) l = utf8 k || float_zero x /\
    forall (fs : Fields lifetimeJSON) t set, field_for fs k = Some (float_field set) -> (set (S754_zero false) t = t) ->
      store_members fs l t = Ok (set x t).
Proof.
  unfold float_kept, load_member. intros Hk. destruct (float_zero x) eqn:Hz.
  - exists []. simpl in Hk. rewrite orb_false_r in Hk. go_bool. subst x. split; [done|].
    split; [simpl; by rewrite orb_true_r|]. intros fs t set _ ->. done.
  - simpl in Hk. rewrite bool_decide_eq_false_2 in Hk by (intros ->; done). simpl in Hk.
    destruct (print_float x) as [l|]; [|done]. go_bool. exists [(k, JNum l)]. split; [done|].
    split; [simpl; unfold num_ok; by rewrite bool_decide_eq_true_2, orb_false_r, !andb_true_r by done|].
    intros fs t set Hf _. rewrite store_one, Hf. simpl.
    match goal with H : float_literal l = _ |- _ => by rewrite H end.
Qed.

(** A lifetime column that can be written and read. *)
Definition lifetime_ok (t : lifetimeJSON) : Prop :=
  in_int64 (lt_Grace t) /\ in_int64 (lt_MaxTTL t) /\ in_int64 (lt_IdleTimeoutOverride t) /\
  opt_in_range (lt_Deadline t) /\ opt_in_range (lt_KeepAliveUntil t) /\ opt_in_range (lt_LastActive t) /\
  float_kept (lt_Load t) = true.

Lemma int64_field {T} (set : Z -> T -> T) z t : in_int64 z -> int_field 64 set (JNum (itoa z)) t = Ok (set z t).
Proof. unfold in_int64, int64_min, int64_max. intros. apply int_field_itoa. lia. Qed.

Lemma store_int (fs : Fields lifetimeJSON) k z set t :
  in_int64 z -> field_for fs k = Some (int_field 64 set) -> set 0 t = t ->
  store_members fs (omit_empty (z =? 0) k (JNum (itoa z))) t = Ok (set z t).
Proof.
  intros Hz Hf H0. apply store_omit; [by intros ->%Z.eqb_eq|]. intros _. rewrite store_one, Hf. by apply int64_field.
Qed.

Lemma omit_ok e k v : utf8 k = true -> json_ok v = true -> forallb (fun '(k, v) => utf8 k && json_ok v) (omit_empty e k v) = true.
Proof. destruct e; simpl; [done|]. by intros -> ->. Qed.

Lemma times_ok k o : utf8 k = true -> opt_in_range o ->
  forallb (fun '(k, v) => utf8 k && json_ok v) (match o with None => [] | Some t => [(k, JStr (Format t))] end) = true.
Proof.
  intros Hk Ho. destruct o as [t|]; simpl; [|done]. by rewrite Hk, Format_utf8.
Qed.

Lemma lifetime_roundtrip t :
  lifetime_ok t ->
  exists l, lifetime_members t = Some l /\ json_ok (JObj l) = true /\
            store_members lifetime_fields l lifetime_zero = Ok t.
Proof.
  intros (Hg & Hm & Hi & Hd & Hk & Hl & Hld). unfold lifetime_members.
  rewrite !time_member_ok by done. simpl.
  destruct (load_member_ok "load" (lt_Load t) Hld) as (ll & -> & Hll & Hstore). simpl.
  eexists. split; [done|]. split.
  - cbn [json_ok]. rewrite !forallb_app, !times_ok, Hll by done. rewrite !omit_ok by (done || apply itoa_num_ok). done.
  - destruct t as [e g m d a k i l x]; simpl in *. unfold lifetime_zero.
    rewrite (store_app _ _ _ _ (mkLifetimeJSON e 0 0 None false None 0 None (S754_zero false)));
      [|apply store_omit; by destruct e].
    rewrite (store_app _ _ _ _ (mkLifetimeJSON e g 0 None false None 0 None (S754_zero false)));
      [|exact (store_int lifetime_fields "grace" g (fun v t => t <| lt_Grace := v |>) (mkLifetimeJSON e 0 0 None false None 0 None (S754_zero false)) Hg eq_refl eq_refl)].
    rewrite (store_app _ _ _ _ (mkLifetimeJSON e g m None false None 0 None (S754_zero false)));
      [|exact (store_int lifetime_fields "max_ttl" m (fun v t => t <| lt_MaxTTL := v |>) (mkLifetimeJSON e g 0 None false None 0 None (S754_zero false)) Hm eq_refl eq_refl)].
    rewrite (store_app _ _ _ _ (mkLifetimeJSON e g m d false None 0 None (S754_zero false)));
      [|exact (store_time lifetime_fields "deadline" d (fun v t => t <| lt_Deadline := v |>) (mkLifetimeJSON e g m None false None 0 None (S754_zero false)) Hd (fun _ => eq_refl) eq_refl)].
    rewrite (store_app _ _ _ _ (mkLifetimeJSON e g m d a None 0 None (S754_zero false)));
      [|apply store_omit; by destruct a].
    rewrite (store_app _ _ _ _ (mkLifetimeJSON e g m d a k 0 None (S754_zero false)));
      [|exact (store_time lifetime_fields "keep_alive_until" k (fun v t => t <| lt_KeepAliveUntil := v |>) (mkLifetimeJSON e g m d a None 0 None (S754_zero false)) Hk (fun _ => eq_refl) eq_refl)].
    rewrite (store_app _ _ _ _ (mkLifetimeJSON e g m d a k i None (S754_zero false)));
      [|exact (store_int lifetime_fields "idle_timeout_override" i (fun v t => t <| lt_IdleTimeoutOverride := v |>) (mkLifetimeJSON e g m d a k 0 None (S754_zero false)) Hi eq_refl eq_refl)].
    rewrite (store_app _ _ _ _ (mkLifetimeJSON e g m d a k i l (S754_zero false)));
      [|exact (store_time lifetime_fields "last_active" l (fun v t => t <| lt_LastActive := v |>) (mkLifetimeJSON e g m d a k i None (S754_zero false)) Hl (fun _ => eq_refl) eq_refl)].
    exact (Hstore lifetime_fields (mkLifetimeJSON e g m d a k i l (S754_zero false)) (fun v t => t <| lt_Load := v |>) eq_refl eq_refl).
Qed.

Lemma lifetime_of_ok b : storable b -> lifetime_ok (lifetime_of b).
Proof.
  intros (_ & Hg & Hd & Hk & Hl & _ & _ & Hm & Hi & Hld & _). unfold lifetime_ok. simpl.
  split_and!; try done; try by apply nilIfZero_range. destruct (b_Deadline b); [by apply Hd|done].
Qed.

Lemma lifetime_column b b0 :
  storable b -> b_KeepAliveUntil b0 = zero_time -> b_LastActive b0 = zero_time ->
  unmarshalLifetime (marshalLifetime b) b0 =
    Ok (b0 <| b_Ephemeral := b_Ephemeral b |> <| b_Grace := b_Grace b |> <| b_MaxTTL := b_MaxTTL b |>
        <| b_Deadline := b_Deadline b |> <| b_AutoSuspend := b_AutoSuspend b |>
        <| b_IdleTimeoutOverride := b_IdleTimeoutOverride b |> <| b_Load := b_Load b |>
        <| b_KeepAliveUntil := b_KeepAliveUntil b |> <| b_LastActive := b_LastActive b |>).
Proof.
  intros Hs H0 H1. destruct (lifetime_roundtrip _ (lifetime_of_ok b Hs)) as (l & Hl & Hok & Hst).
  unfold unmarshalLifetime, marshalLifetime, unmarshal. rewrite Hl, parse_print by done.
  unfold decode_struct. rewrite Hst. simpl. by rewrite H0, H1, !nilIfZero_default.
Qed.

(** * Lemmas: rows *)
Lemma scan_update w r :
  w_storable w -> c_id r = b_ID (w_Box w) -> c_tenant_id r = b_TenantID (w_Box w) -> c_owner r = b_Owner (w_Box w) ->
  c_name r = b_Name (w_Box w) -> Parse (c_created_at r) = Some (b_CreatedAt (w_Box w)) ->
  scan (update_row w r) = Ok (kept w).
Proof.
  intros (Hs & Hin & Hen) Hid Ht Ho Hn Hc. pose proof Hs as (Hp & _ & _ & _ & _ & _ & Hu & _).
  unfold scan. simpl. rewrite port_column, endpoint_column by done. simpl.
  rewrite (lifetime_column (w_Box w)) by done. simpl.
  unfold parse_ts. rewrite Hc, (Parse_Format (b_UpdatedAt (w_Box w))) by done. simpl.
  rewrite Hid, Ht, Ho, Hn, Hp. destruct w as [b i h e]. simpl.
  destruct (b_AgentConnected b) eqn:Hac, (b_Attached b) eqn:Hat; simpl; f_equal; unfold kept, kept_box; simpl;
    f_equal; destruct b; simpl in *; by subst.
Qed.

Lemma ws_scan_insert w : w_storable w -> scan (insert_row w) = Ok (kept w).
Proof.
  intros Hs. change (insert_row w) with (update_row w (insert_row w)).
  apply scan_update; try done. apply Parse_Format. by destruct Hs as ((_ & _ & _ & _ & _ & ? & _) & _).
Qed.

(** Storing a workspace and reading its row back loses the agent's
    self-report and nothing else: the JSON columns carry the ingress ports, the
    endpoints and the whole lifetime and suspension state (optional and zero
    instants, durations, flags and the load) through text and back. *)
Theorem scan_insert_workspace w : w_storable w -> scan (insert_row w) = Ok (kept w).
Proof. apply ws_scan_insert. Qed.

Lemma scan_insert_workspace_witness :
  let b := (Box.New "0a1b" (Second * 63835596800) "t1" "alice" "proj" "ubuntu")
             <| b_Deadline := Some (Second * 63835596900 + 5) |> <| b_Load := f64_0_2 |>
             <| b_AgentState := "busy"%string |> <| b_Grace := 90 * Second |> in
  let w := mkWorkspace b [mkIngressPort "app" 8080] "/homes/0a1b" [mkEndpoint "app" "https://app-0a1b.gw" 8080 "app-0a1b"] in
  scan (insert_row w) = Ok (kept w).
Proof.
  intros b w. apply (scan_insert_workspace w). split; [apply storableb_ok; vm_compute; reflexivity|].
  split; repeat constructor; vm_compute; congruence.
Defined.

(** What scanning keeps of a row's key. *)
Lemma ws_scan_key r w :
  scan r = Ok w ->
  b_ID (w_Box w) = c_id r /\ b_TenantID (w_Box w) = c_tenant_id r /\ b_Owner (w_Box w) = c_owner r /\
  b_Name (w_Box w) = c_name r /\ Parse (c_created_at r) = Some (b_CreatedAt (w_Box w)) /\
  b_IP (w_Box w) = c_ip r /\ b_BootstrapToken (w_Box w) = c_bootstrap_token r.
Proof.
  unfold scan, parse_ts, unmarshalLifetime. intros Hs.
  repeat match type of Hs with
  | (match ?x with Ok _ => _ | Err _ => _ end ≫= _) = _ => destruct x eqn:?; [cbn [mbind result_bind map_err] in Hs|done]
  | (map_err _ ?x ≫= _) = _ => destruct x eqn:?; [cbn [mbind result_bind map_err] in Hs|done]
  | ((_ ≫= _) ≫= _) = _ => destruct (unmarshal _ _ _) eqn:?; [cbn [mbind result_bind map_err] in Hs|done]
  | (match ?x with Some _ => _ | None => _ end ≫= _) = _ => destruct x eqn:?; [cbn [mbind result_bind] in Hs|done]
  end.
  by simplify_eq.
Qed.

(** * The table meets the contract *)
Definition row_ok (r : Row) : Prop := exists w, scan r = Ok w /\ w_storable w /\ kept w = w.
Definition db_view : DB -> gmap string Workspace := table_view c_id scan.
Definition db_inv (db : DB) : Prop :=
  Forall row_ok (db_rows db) /\ NoDup (c_id <$> db_rows db) /\
  (forall r r', r ∈ db_rows db -> r' ∈ db_rows db -> violates r r' = true -> c_id r = c_id r').
Definition db_healthy (db : DB) : Prop := db_fault db = None.

Lemma ws_db_keyed db : db_inv db -> keyed c_id scan db.
Proof. intros (Hok & Hnd & _). split; [|done]. eapply Forall_impl; [exact Hok|]. intros r (b & Hb & _). eauto. Qed.

Lemma ws_db_view_lookup db id w :
  db_inv db -> db_view db !! id = Some w <-> exists r, r ∈ db_rows db /\ c_id r = id /\ scan r = Ok w.
Proof. intros Hi. by apply table_view_lookup, ws_db_keyed. Qed.

Lemma ws_db_row db r : db_inv db -> r ∈ db_rows db -> row_ok r.
Proof. intros (Hok & _) Hr. by apply (proj1 (Forall_forall _ _) Hok). Qed.

Lemma ws_violates_sym r r' : violates r r' = violates r' r.
Proof. unfold violates. f_equal; [by apply bool_decide_ext|]. f_equal; by apply bool_decide_ext. Qed.

Lemma existsb_none {A} (f : A -> bool) l : existsb f l = false -> forall x, x ∈ l -> f x = false.
Proof.
  intros He x Hx. destruct (f x) eqn:E; [|done]. rewrite <- He. symmetry. apply existsb_exists.
  exists x. by rewrite <- list_elem_of_In.
Qed.

Section laws.
Variable plan : list Row -> list Row.
Hypothesis plan_perm : forall l, plan l ≡ₚ l.
Variable constraint_err : error.

(** Whatever a single-row query answers is in the table and meets its test. *)
Lemma one_sound order where_ db :
  db_inv db -> (forall l, order l ≡ₚ l) ->
  wp (one plan order where_) (fun db' r => db' = db /\
    (forall w, r = Ok w -> exists row, row ∈ db_rows db /\ where_ row = true /\ scan row = Ok w) /\
    (db_healthy db -> (exists row, row ∈ db_rows db /\ where_ row = true) -> exists w, r = Ok w) /\
    (db_healthy db -> (forall row, row ∈ db_rows db -> where_ row = false) -> r = Err store_ErrNotFound)) db.
Proof.
  intros Hi Ho. unfold one, db_healthy. apply wp_exec; [intros e He; split_and!; congruence|].
  intros _. unfold wp. assert (Hsel : forall r, r ∈ order (select plan where_ db) <-> where_ r = true /\ r ∈ db_rows db).
  { intros r. rewrite (Ho _). by apply elem_of_select. }
  destruct (order (select plan where_ db)) as [|r l] eqn:Hs.
  - split_and!; try done. intros _ (row & Hr). exfalso. apply (not_elem_of_nil row). apply Hsel. tauto.
  - destruct (proj1 (Hsel r) ltac:(left)) as [Hw Hr]. destruct (ws_db_row db r Hi Hr) as (w & Hw' & _).
    split_and!; [done| | |].
    + intros w2 Hw2. by exists r.
    + intros _ _. by exists w.
    + intros _ Hn. rewrite Hn in Hw by done. done.
Qed.

Lemma GetWorkspace_law tenant id db :
  db_inv db ->
  wp (GetWorkspace plan tenant id) (fun db' r => db' = db /\
    (forall w, r = Ok w -> db_view db !! id = Some w /\ b_TenantID (w_Box w) = tenant) /\
    (db_healthy db -> forall w, db_view db !! id = Some w -> b_TenantID (w_Box w) = tenant -> r = Ok w) /\
    (db_healthy db -> (forall w, db_view db !! id = Some w -> b_TenantID (w_Box w) <> tenant) ->
       r = Err store_ErrNotFound)) db.
Proof.
  intros Hi. eapply wp_mono; [by apply (one_sound (fun l => l))|]. intros db' r (-> & Hok & Hsome & Hnone).
  assert (Hs : forall w, r = Ok w -> db_view db !! id = Some w /\ b_TenantID (w_Box w) = tenant).
  { intros w Hw. destruct (Hok w Hw) as (row & Hr & Hh & Hsc). go_bool.
    destruct (ws_scan_key _ _ Hsc) as (_ & -> & _). split; [|done]. apply ws_db_view_lookup; eauto. }
  split_and!; [done|done| |].
  - intros Hh w Hv Ht. destruct (proj1 (ws_db_view_lookup _ _ _ Hi) Hv) as (row & Hr & Hid & Hsc).
    destruct (Hsome Hh) as (w2 & ->).
    { exists row. split; [done|]. destruct (ws_scan_key _ _ Hsc) as (_ & Hten & _).
      by rewrite !bool_decide_eq_true_2 by congruence. }
    destruct (Hs w2 eq_refl) as [Hv2 _]. congruence.
  - intros Hh Hn. apply Hnone; [done|]. intros row Hr. destruct (ws_db_row db row Hi Hr) as (w & Hsc & _).
    apply not_true_iff_false. intros Ht. go_bool. apply (Hn w).
    + apply ws_db_view_lookup; eauto.
    + by destruct (ws_scan_key _ _ Hsc) as (_ & -> & _).
Qed.

Lemma GetByName_law tenant name db :
  db_inv db ->
  wp (GetByName plan tenant name) (fun db' r => db' = db /\
    (forall w, r = Ok w -> db_view db !! b_ID (w_Box w) = Some w /\ b_TenantID (w_Box w) = tenant /\ b_Name (w_Box w) = name) /\
    (db_healthy db -> (exists w, r = Ok w) \/ r = Err store_ErrNotFound) /\
    (db_healthy db -> forall id w, db_view db !! id = Some w -> b_TenantID (w_Box w) = tenant ->
       b_Name (w_Box w) = name -> r = Ok w)) db.
Proof.
  intros Hi. eapply wp_mono; [by apply (one_sound (fun l => l))|]. intros db' r (-> & Hok & Hsome & Hnone).
  assert (Hs : forall w, r = Ok w ->
    db_view db !! b_ID (w_Box w) = Some w /\ b_TenantID (w_Box w) = tenant /\ b_Name (w_Box w) = name).
  { intros w Hw. destruct (Hok w Hw) as (row & Hr & Hh & Hsc). go_bool.
    destruct (ws_scan_key _ _ Hsc) as (Hid & -> & _ & -> & _). split_and!; [|done..]. apply ws_db_view_lookup; eauto. }
  set (where_ := fun row => bool_decide (c_tenant_id row = tenant) && bool_decide (c_name row = name)) in *.
  split_and!; [done|done| |].
  - intros Hh. destruct (existsb where_ (db_rows db)) eqn:He.
    + left. apply Hsome; [done|]. apply existsb_exists in He as (row & Hr & Hw). exists row. by rewrite list_elem_of_In.
    + right. apply Hnone; [done|]. intros row Hr. apply not_true_iff_false. intros Hw.
      apply not_true_iff_false in He. apply He, existsb_exists. exists row. by rewrite <- list_elem_of_In.
  - intros Hh id w Hv Ht Hn. destruct (proj1 (ws_db_view_lookup _ _ _ Hi) Hv) as (row & Hr & Hid & Hsc).
    destruct (ws_scan_key _ _ Hsc) as (_ & Hten & _ & Hnm & _).
    destruct (Hsome Hh) as (w2 & ->).
    { exists row. split; [done|]. unfold where_. by rewrite !bool_decide_eq_true_2 by congruence. }
    destruct (Hs w2 eq_refl) as (Hv2 & Ht2 & Hn2).
    destruct (proj1 (ws_db_view_lookup _ _ _ Hi) Hv2) as (row2 & Hr2 & Hid2 & Hsc2).
    destruct (ws_scan_key _ _ Hsc2) as (_ & Hten2 & _ & Hnm2 & _).
    assert (c_id row = c_id row2); [|congruence]. destruct Hi as (_ & _ & Hk). apply Hk; [done..|].
    unfold violates. apply orb_true_iff. right. by rewrite !bool_decide_eq_true_2 by congruence.
Qed.

Lemma GetByToken_law token db :
  db_inv db ->
  wp (GetByToken plan token) (fun db' r => db' = db /\
    forall w, r = Ok w -> token <> ""%string /\ b_BootstrapToken (w_Box w) = token /\
                          db_view db !! b_ID (w_Box w) = Some w) db.
Proof.
  intros Hi. unfold GetByToken. case_bool_decide; [apply wp_throw; by split|].
  eapply wp_mono; [by apply (one_sound (fun l => l))|]. intros db' r (-> & Hok & _). split; [done|].
  intros w Hw. destruct (Hok w Hw) as (row & Hr & Hh & Hsc). go_bool.
  destruct (ws_scan_key _ _ Hsc) as (Hid & _ & _ & _ & _ & _ & ->). split_and!; [done..|].
  apply ws_db_view_lookup; [done|]. by exists row.
Qed.

Lemma ws_GetByIP_law ip db :
  db_inv db ->
  wp (GetByIP plan ip) (fun db' r => db' = db /\
    forall w, r = Ok w -> ip <> ""%string /\ b_IP (w_Box w) = ip /\
                          db_view db !! b_ID (w_Box w) = Some w) db.
Proof.
  intros Hi. unfold GetByIP. case_bool_decide; [apply wp_throw; by split|].
  eapply wp_mono; [apply (one_sound (order_by_desc c_updated_at)); [done|apply order_by_desc_perm]|].
  intros db' r (-> & Hok & _). split; [done|].
  intros w Hw. destruct (Hok w Hw) as (row & Hr & Hh & Hsc). go_bool.
  destruct (ws_scan_key _ _ Hsc) as (Hid & _ & _ & _ & _ & -> & _). split_and!; [done..|].
  apply ws_db_view_lookup; [done|]. by exists row.
Qed.

Lemma list_where_law where_ db :
  db_inv db ->
  wp (list_where plan where_) (fun db' r => db' = db /\
    (forall l, r = Ok l -> NoDup (b_ID ∘ w_Box <$> l) /\
       forall w, w ∈ l <-> exists row, row ∈ db_rows db /\ where_ row = true /\ scan row = Ok w) /\
    (db_healthy db -> is_ok r = true)) db.
Proof.
  intros Hi. unfold list_where, db_healthy. apply wp_exec; [intros e He; split_and!; congruence|].
  intros _. unfold wp.
  assert (Hok : Forall (fun r => exists w, scan r = Ok w) (select plan where_ db)).
  { apply Forall_forall. intros r [_ Hr]%elem_of_select; [|done]. destruct (ws_db_row db r Hi Hr) as (w & ? & _). eauto. }
  destruct (scan_rows_ok _ _ Hok) as (ws & -> & Hf). split_and!; [done| |done]. intros l [= <-]. split.
  - assert (b_ID ∘ w_Box <$> ws = c_id <$> select plan where_ db) as ->.
    { clear -Hf. induction Hf as [|r w l ws Hs _ IH]; [done|].
      rewrite !fmap_cons, IH. simpl. by rewrite (proj1 (ws_scan_key _ _ Hs)). }
    apply NoDup_select; [done|]. by destruct Hi as (_ & ? & _).
  - intros w. rewrite (scan_rows_elem _ _ _ _ Hf). split.
    + intros (r & [Hw Hr]%elem_of_select & Hs); [by exists r|done].
    + intros (r & Hr & Hw & Hs). exists r. split; [|done]. by apply elem_of_select.
Qed.

Lemma CreateWorkspace_law w db :
  db_inv db -> w_storable w ->
  wp (CreateWorkspace constraint_err w) (fun db' r => db_inv db' /\ (db_healthy db -> db_healthy db') /\
    match r with
    | Ok _ => db_view db !! b_ID (w_Box w) = None /\ db_view db' = <[b_ID (w_Box w) := kept w]> (db_view db)
    | Err _ => db_view db' = db_view db
    end) db.
Proof.
  intros Hi Hs. unfold CreateWorkspace. apply wp_exec; [done|]. intros Hh. unfold wp.
  destruct (existsb _ _) eqn:Hex; [done|]. pose proof (existsb_none _ _ Hex) as Hnv.
  assert (Hnew : forall r, r ∈ db_rows db -> c_id r <> b_ID (w_Box w)).
  { intros r Hr Heq. specialize (Hnv r Hr). unfold violates in Hnv. simpl in Hnv. go_bool. congruence. }
  pose proof (ws_scan_insert w Hs) as Hscan.
  destruct (keyed_insert _ _ db (insert_row w) (kept w) (ws_db_keyed _ Hi) Hscan Hnew) as [[Hok Hnd] Hv].
  split_and!; [|done| |done].
  - destruct Hi as (Hrow & _ & Hkey). split_and!; [|done|].
    + apply Forall_app. split; [done|]. constructor; [|done]. exists (kept w). split_and!; [done|by apply kept_storable|done].
    + simpl. intros r r' [Hr| ->%list_elem_of_singleton]%elem_of_app [Hr'| ->%list_elem_of_singleton]%elem_of_app Hvi.
      * by apply Hkey.
      * rewrite ws_violates_sym, Hnv in Hvi by done. done.
      * rewrite Hnv in Hvi by done. done.
      * done.
  - by apply (table_view_none c_id scan); [apply ws_db_keyed|].
Qed.

Lemma UpdateWorkspace_law now w db :
  db_inv db -> w_storable w -> in_range now ->
  (forall old, db_view db !! b_ID (w_Box w) = Some old -> w_same_key old w) ->
  wp (UpdateWorkspace now w) (fun db' r => db_inv db' /\ (db_healthy db -> db_healthy db') /\
    let w1 := w <| w_Box := (w_Box w) <| b_UpdatedAt := now |> |> in
    match r with
    | Ok w2 => w2 = w1 /\ is_Some (db_view db !! b_ID (w_Box w)) /\
               db_view db' = <[b_ID (w_Box w) := kept w1]> (db_view db)
    | Err _ => db_view db' = db_view db /\ ~ (db_healthy db /\ is_Some (db_view db !! b_ID (w_Box w)))
    end) db.
Proof.
  intros Hi Hs Hnow Hkey. unfold UpdateWorkspace. set (w1 := w <| w_Box := _ |>).
  assert (Hs1 : w_storable w1) by (unfold w_storable, storable in *; simpl; naive_solver).
  apply wp_exec; [intros e He; split_and!; try done; unfold db_healthy; intros [? _]; congruence|].
  intros Hh. unfold wp. set (h := hit (b_TenantID (w_Box w1)) (b_ID (w_Box w1))).
  assert (Hrow : forall r, r ∈ db_rows db -> c_id r = b_ID (w_Box w) -> h r = true /\
    scan (update_row w1 r) = Ok (kept w1)).
  { intros r Hr Hid. destruct (ws_db_row db r Hi Hr) as (old & Hold & _).
    pose proof (ws_scan_key _ _ Hold) as (H1 & H2 & H3 & H4 & H5 & _).
    destruct (Hkey old) as (K1 & K2 & K3 & K4 & K5). { apply ws_db_view_lookup; [done|]. exists r. by rewrite Hid. }
    split.
    - unfold h, hit. simpl. by rewrite !bool_decide_eq_true_2 by congruence.
    - apply scan_update; simpl; congruence. }
  assert (Hhit : forall r, r ∈ db_rows db -> h r = true ->
    c_id r = b_ID (w_Box w) /\ c_id (update_row w1 r) = b_ID (w_Box w) /\ scan (update_row w1 r) = Ok (kept w1)).
  { intros r Hr Hhr. unfold h, hit in Hhr. simpl in Hhr. go_bool. split_and!; [done..|]. by apply Hrow. }
  destruct (keyed_update c_id scan db h (update_row w1) _ (kept w1) (ws_db_keyed _ Hi) Hhit) as ([Hok Hnd] & Hsome & Hnone).
  split; [|split; [done|]].
  - destruct Hi as (Hrow' & _ & Hk). split_and!; [|done|].
    + apply Forall_forall. intros r [(r0 & Hr0 & Hid & ->)|[Hr _]]%elem_of_update_rows.
      * exists (kept w1). split_and!; [by apply Hhit|by apply kept_storable|done].
      * by apply (proj1 (Forall_forall _ _) Hrow').
    + intros r r' Hr Hr'. assert (Hpre : forall x, x ∈ db_rows (update_rows h (update_row w1) db) ->
        exists x0, x0 ∈ db_rows db /\ c_id x0 = c_id x /\ c_tenant_id x0 = c_tenant_id x /\ c_name x0 = c_name x).
      { intros x [(x0 & ? & ? & ->)|[? ?]]%elem_of_update_rows; [by exists x0|by exists x]. }
      destruct (Hpre r Hr) as (r0 & Hr0 & E0 & E1 & E2), (Hpre r' Hr') as (r0' & Hr0' & E0' & E1' & E2').
      intros Hv. rewrite <- E0, <- E0'. apply Hk; [done..|]. revert Hv. unfold violates.
      by rewrite <- E0, <- E1, <- E2, <- E0', <- E1', <- E2'.
  - destruct (existsb h (db_rows db)) eqn:Hex; simpl.
    + apply existsb_exists in Hex as (r & Hr & Hhr). apply list_elem_of_In in Hr. destruct (Hhit r Hr Hhr) as (Hid & _).
      destruct (ws_db_row db r Hi Hr) as (old & Hold & _).
      assert (Hv : db_view db !! b_ID (w_Box w) = Some old) by (apply ws_db_view_lookup; eauto).
      split_and!; [done|by eexists|]. unfold db_view. rewrite Hsome by by exists r.
      apply map_eq. intros j. rewrite lookup_alter, lookup_insert. case_decide; [subst j|done].
      change (table_view c_id scan db) with (db_view db). by rewrite Hv.
    + pose proof (existsb_none _ _ Hex) as Hno. split; [by apply Hnone|].
      intros [_ [old Hv]]. apply ws_db_view_lookup in Hv as (r & Hr & Hid & _); [|done].
      specialize (Hno r Hr). by rewrite (proj1 (Hrow r Hr Hid)) in Hno.
Qed.

Lemma DeleteWorkspace_law tenant id db :
  db_inv db ->
  wp (DeleteWorkspace tenant id) (fun db' r => db_inv db' /\ (db_healthy db -> db_healthy db') /\
    match r with
    | Ok _ => db_view db' = delete id (db_view db) \/
              (db_view db' = db_view db /\ exists w, db_view db !! id = Some w /\ b_TenantID (w_Box w) <> tenant)
    | Err _ => db_view db' = db_view db /\ ~ db_healthy db
    end) db.
Proof.
  intros Hi. unfold DeleteWorkspace. apply wp_exec; [intros e He; split_and!; try done; unfold db_healthy; congruence|].
  intros Hh. unfold wp. set (h := hit tenant id).
  destruct (keyed_delete c_id scan db h (ws_db_keyed _ Hi)) as ([Hok Hnd] & Hv).
  split; [|split; [done|]].
  - destruct Hi as (Hrow & _ & Hk). split_and!; [|done|].
    + apply Forall_forall. intros r [_ Hr]%elem_of_delete_rows. by apply (proj1 (Forall_forall _ _) Hrow).
    + intros r r' [_ Hr]%elem_of_delete_rows [_ Hr']%elem_of_delete_rows. by apply Hk.
  - assert (Hother : forall j w, j <> id -> db_view (delete_rows h db) !! j = Some w <-> db_view db !! j = Some w).
    { intros j w Hj. unfold db_view. rewrite Hv, table_view_lookup by by apply ws_db_keyed. split.
      - intros (r & Hr & _ & Hid & Hs). by exists r.
      - intros (r & Hr & Hid & Hs). exists r. split_and!; try done. unfold h, hit.
        apply andb_false_iff. right. apply bool_decide_eq_false_2. congruence. }
    destruct (db_view db !! id) as [w|] eqn:Hw.
    2:{ left. rewrite delete_id by done. apply view_ext. intros j w. destruct (decide (j = id)) as [->|]; [|by apply Hother].
        rewrite Hw. split; [|done]. intros Hx. apply Hv in Hx as (r & Hr & _ & Hid & Hs).
        rewrite <- Hw. apply ws_db_view_lookup; eauto. }
    pose proof Hw as (r & Hr & Hid & Hs)%ws_db_view_lookup; [|done].
    assert (Huniq : forall r', r' ∈ db_rows db -> c_id r' = id -> scan r' = Ok w).
    { intros r' Hr' Hid'. destruct (ws_db_row db r' Hi Hr') as (w' & Hs' & _).
      assert (db_view db !! id = Some w') by (apply ws_db_view_lookup; eauto). congruence. }
    destruct (decide (b_TenantID (w_Box w) = tenant)) as [Ht|Ht].
    + left. apply view_ext. intros j x. rewrite lookup_delete_Some. destruct (decide (j = id)) as [->|Hj].
      * split; [|by intros [? _]]. intros Hx. apply Hv in Hx as (r' & Hr' & Hh' & Hid' & _).
        pose proof (ws_scan_key _ _ (Huniq r' Hr' Hid')) as (_ & Ht' & _). unfold h, hit in Hh'.
        rewrite !bool_decide_eq_true_2 in Hh' by congruence. done.
      * rewrite Hother by done. naive_solver.
    + right. split; [|by exists w]. apply view_ext. intros j x. destruct (decide (j = id)) as [->|]; [|by apply Hother].
      unfold db_view. rewrite Hv, table_view_lookup by by apply ws_db_keyed. split.
      * intros (r' & Hr' & _ & ?). by exists r'.
      * intros (r' & Hr' & Hid' & Hs'). exists r'. split_and!; try done. unfold h, hit. apply andb_false_iff. left.
        apply bool_decide_eq_false_2. pose proof (ws_scan_key _ _ (Huniq r' Hr' Hid')) as (_ & Ht' & _). congruence.
Qed.

#[export] Instance sqlite_spec : @WorkspaceStoreSpec DB (sqlite_store plan constraint_err).
Proof.
  refine {| ws_view := db_view; ws_inv := db_inv; ws_healthy := db_healthy |}.
  - intros db id w Hi (r & Hr & Hid & Hs)%ws_db_view_lookup; [|done]. destruct (ws_db_row db r Hi Hr) as (w' & Hs' & Hst & Hk).
    rewrite Hs in Hs'. simplify_eq. by rewrite (proj1 (ws_scan_key _ _ Hs)).
  - intros db i j w v Hi (r & Hr & <- & Hs)%ws_db_view_lookup (r' & Hr' & <- & Hs')%ws_db_view_lookup Ht Hn; [|done..].
    destruct Hi as (_ & _ & Hk). apply Hk; [done..|]. unfold violates.
    apply ws_scan_key in Hs as (_ & <- & _ & <- & _). apply ws_scan_key in Hs' as (_ & <- & _ & <- & _).
    rewrite Ht, Hn. apply orb_true_iff. right. by rewrite !bool_decide_eq_true_2.
  - intros. by apply GetWorkspace_law.
  - intros. by apply GetByName_law.
  - intros. by apply GetByToken_law.
  - intros. by apply ws_GetByIP_law.
  - intros tenant db Hi. eapply wp_mono; [by apply list_where_law|]. intros db' r (-> & Hl & Hh). split_and!; [done| |done].
    intros l Hr. destruct (Hl l Hr) as [Hnd Hin]. split; [done|]. intros w. rewrite Hin, (ws_db_view_lookup _ _ _ Hi). split.
    + intros (row & Hrow & Ht & Hs). go_bool. destruct (ws_scan_key _ _ Hs) as (-> & -> & _). eauto.
    + intros [(row & Hrow & Hid & Hs) Ht]. exists row. split_and!; [done| |done].
      destruct (ws_scan_key _ _ Hs) as (_ & Ht' & _). apply bool_decide_eq_true_2. congruence.
  - intros db Hi. eapply wp_mono; [by apply list_where_law|]. intros db' r (-> & Hl & Hh). split_and!; [done| |done].
    intros l Hr. destruct (Hl l Hr) as [Hnd Hin]. split; [done|]. intros w. rewrite Hin, (ws_db_view_lookup _ _ _ Hi). split.
    + intros (row & Hrow & _ & Hs). destruct (ws_scan_key _ _ Hs) as (-> & _). eauto.
    + intros (row & Hrow & Hid & Hs). by exists row.
  - intros. by apply CreateWorkspace_law.
  - intros. by apply UpdateWorkspace_law.
  - intros. by apply DeleteWorkspace_law.
Defined.
End laws.
End WorkspaceSqlite.
