(* ===== verification/Sshca.v ===== *)
(** The SSH certificate authority ([internal/sshca/sshca.go]): the CA key on
    disk and the user certificates it signs.  Key generation, signing and
    encoding are arguments. *)
From stdpp Require Import base option list strings gmap.
From Stdlib Require Import Ascii ZArith Lia.
From S2P Require Import Prelude GoStrings GoTime Agentssh.
Local Open Scope Z_scope.

Record Certificate (K : Type) : Type := mkCertificate {
  ct_Key : K;
  ct_Serial : Z;
  ct_UserCert : bool;
  ct_KeyId : string;
  ct_ValidPrincipals : list string;
  ct_ValidAfter : Z;
  ct_ValidBefore : Z;
  ct_Extensions : gmap string string;
  ct_SignatureKey : K
}.
Arguments mkCertificate {K}.
Arguments ct_Key {K}.
Arguments ct_Serial {K}.
Arguments ct_UserCert {K}.
Arguments ct_KeyId {K}.
Arguments ct_ValidPrincipals {K}.
Arguments ct_ValidAfter {K}.
Arguments ct_ValidBefore {K}.
Arguments ct_Extensions {K}.
Arguments ct_SignatureKey {K}.

Definition uint64 (z : Z) : Z := z mod 2 ^ 64.

Section ca.
Context {K : Type}.
Variable sign : Certificate K -> result unit.      (* cert.SignCert *)

(** [SignUserCert]; [serial] is the random serial, when the draw succeeds. *)
Definition SignUserCert (ca : option K) (serial : result Z) (now : time) (userPub : K) (keyID : string)
    (principals : list string) (ttl : duration) : result (Certificate K) :=
  match ca with
  | None => Err (Errorf "sshca: nil CA signer")
  | Some signer =>
      match principals with
      | [] => Err (Errorf "sshca: at least one principal is required")
      | _ =>
          n ← serial;
          let cert := mkCertificate userPub n true keyID principals
            (uint64 (Unix (Add now (-1 * Minute)))) (uint64 (Unix (Add now ttl)))
            {["permit-pty" := ""; "permit-user-rc" := ""]}%string signer in
          match sign cert with
          | Err e => Err (ErrWrap "sshca: sign cert" e)
          | Ok _ => Ok cert
          end
      end
  end.

Variable ParsePrivateKey : string -> result K.
Variable encode_key : K -> string.
Variable writable : string -> bool.
Variable write_error : error.

(** [LoadOrCreateCA]; [fresh] is the key [ed25519.GenerateKey] would make. *)
Definition LoadOrCreateCA (fresh : K) (path : string) : M (gmap string string) K := fun fs =>
  match fs !! path with
  | Some b => (fs, map_err (ErrWrap ("sshca: parse CA key " +:+ path)) (ParsePrivateKey b))
  | None =>
      if writable path then (<[path := encode_key fresh]> fs, Ok fresh)
      else (fs, Err (ErrWrap ("sshca: write CA key " +:+ path) write_error))
  end.

(** The certificates it makes: user certificates for exactly the given
    principals, signed by the CA. *)
Lemma SignUserCert_ok ca serial now pub id ps ttl cert :
  SignUserCert ca serial now pub id ps ttl = Ok cert ->
  ps <> [] /\ ct_ValidPrincipals cert = ps /\ ct_UserCert cert = true /\ ca = Some (ct_SignatureKey cert) /\
  ct_Key cert = pub /\ ct_KeyId cert = id /\ ct_ValidBefore cert = uint64 (Unix (Add now ttl)) /\
  ct_Extensions cert !! "permit-port-forwarding"%string = None.
Proof.
  unfold SignUserCert. destruct ca as [signer|]; [|done]. destruct ps as [|p ps]; [done|].
  destruct serial as [n|e]; [|done]. simpl. destruct (sign _); [|done]. intros [= <-]. by split_and!.
Qed.

Lemma LoadOrCreateCA_stable k path fs fs' :
  (forall k, ParsePrivateKey (encode_key k) = Ok k) ->
  LoadOrCreateCA k path fs = (fs', Ok k) -> fs !! path = None -> forall k', LoadOrCreateCA k' path fs' = (fs', Ok k).
Proof.
  intros Hpe. unfold LoadOrCreateCA. intros Hl Hn k'. rewrite Hn in Hl. destruct (writable path); [|done].
  simplify_eq. rewrite lookup_insert_eq. simpl. by rewrite Hpe.
Qed.
End ca.
