(* ===== verification/Api.v ===== *)
(** The public API ([internal/api/server.go], [auth.go]): authentication, the
    workspace calls over the store, and the Exec, Shell and SSH streams bridged
    to a workspace's agent through the hub.

    A call runs on the control plane's state: the store and the hub, the clock
    and the source of identifiers.  The request context is the metadata and the
    principal the interceptor put there.  A stream's incoming half is the
    messages the client sends and the error that ends them; its outgoing half is
    the class [Sender].  The agent's side of a hub stream is a function from all
    the bytes written on it to all the bytes it answers. *)
From stdpp Require Import base option list strings gmap.
From Stdlib Require Import Ascii ZArith Lia.
From S2P Require Import Prelude GoStrings GoTime Json Box Ports Store Sql Agentproto Agenthub Agentssh Agent Sshca Workspace.
Import Workspace.
Local Open Scope Z_scope.

(** [Hub], the interface the server needs. *)
Class ApiHub (B : Type) : Type := {
  hub_Connected : string -> M B bool;
  hub_OpenShell : string -> ShellHeader -> M B Stream;
  hub_OpenExec : string -> list string -> M B Stream;
  hub_OpenSSH : string -> M B Stream
}.

#[export] Instance agenthub_api {Y S} `{Yamux Y} : ApiHub (Hub Y S) := {|
  hub_Connected := Agenthub.Connected; hub_OpenShell := Agenthub.OpenShell;
  hub_OpenExec := Agenthub.OpenExec; hub_OpenSSH := Agenthub.OpenSSH
|}.

(** The client's half of a stream. *)
Class Sender (G Msg : Type) : Type := { Send : Msg -> M G unit }.

Record ApiWorld (S B : Type) : Type := mkApiWorld {
  aw_store : S;
  aw_hub : B;
  aw_now : time;
  aw_fresh : nat
}.
Arguments mkApiWorld {S B}.
Arguments aw_store {S B}.
Arguments aw_hub {S B}.
Arguments aw_now {S B}.
Arguments aw_fresh {S B}.

(** * Messages ([gen/hopbox/v1]) *)
Record EndpointMsg : Type := mkEndpointMsg {
  em_Name : string;
  em_Url : string;
  em_Port : Z
}.
Record WorkspaceMsg : Type := mkWorkspaceMsg {
  wm_Id : string;
  wm_TenantId : string;
  wm_Owner : string;
  wm_Name : string;
  wm_ImageRef : string;
  wm_MemMb : Z;
  wm_Phase : string;
  wm_AgentConnected : bool;
  wm_Message : string;
  wm_Endpoints : list EndpointMsg
}.
Record CreateWorkspaceRequest : Type := mkCreate {
  cq_Name : string;
  cq_ImageRef : string;
  cq_MemMb : Z;
  cq_Ingress : list (string * Z)
}.
Inductive ExecClientMsg : Type :=
| ExecOpen (nameOrId : string) (cmd : list string)
| ExecStdinMsg (data : string)
| ExecClientOther.
Inductive ExecServerMsg : Type :=
| ExecStdoutMsg (data : string)
| ExecStderrMsg (data : string)
| ExecExitCode (code : Z).
Inductive ShellClientMsg : Type :=
| ShellOpen (nameOrId cmd : string) (cols rows : Z)
| ShellData (data : string)
| ShellResize (cols rows : Z).
Inductive SSHClientMsg : Type :=
| SSHOpen (nameOrId : string)
| SSHData (data : string).

(** * Authentication *)
Record Context : Type := mkContext {
  cx_metadata : option (string -> list string);
  cx_principal : option Principal
}.
Definition withPrincipal (ctx : Context) (pr : Principal) : Context := mkContext (cx_metadata ctx) (Some pr).
Definition principalFromCtx (ctx : Context) : option Principal := cx_principal ctx.

Definition tokenFromCtx (ctx : Context) : string :=
  match cx_metadata ctx with
  | None => ""
  | Some md =>
      match md "authorization"%string with
      | v :: _ => trim_space (trim_prefix "Bearer " v)
      | [] => match md "hopbox-token"%string with v :: _ => trim_space v | [] => "" end
      end
  end.

Definition missing_token : error :=
  ErrStatus Unauthenticated "missing api token (run `hopbox login --token <token>`)".
Definition invalid_token : error := ErrStatus Unauthenticated "invalid api token".

Definition authenticate {I} `{Identity I} (ctx : Context) : M I Principal :=
  let tok := tokenFromCtx ctx in
  if bool_decide (tok = ""%string) then throw missing_token
  else
    r ← try (id_Authenticate (mkCredential "api-key" tok));
    match r with Err _ => throw invalid_token | Ok pr => mret pr end.

(** [AuthUnaryInterceptor] and [AuthStreamInterceptor]: the handler runs on the
    rest of the state with the caller's principal in its context. *)
Definition AuthInterceptor {I W A} `{Identity I} (handler : Context -> M W A) (ctx : Context) : M (I * W) A :=
  pr ← zoom fst (fun i w => (i, w.2)) (authenticate ctx);
  zoom snd (fun w s => (s.1, w)) (handler (withPrincipal ctx pr)).

Definition privileged (pr : Principal) : bool :=
  existsb (fun r => bool_decide (r = "system"%string) || bool_decide (r = "tenant-admin"%string)) (pp_Roles pr).

Definition certTTL : duration := 12 * Hour.

Record Server (K : Type) : Type := mkServer {
  sv_tenant : string;
  sv_owner : string;
  sv_ca : option K
}.
Arguments mkServer {K}.
Arguments sv_tenant {K}.
Arguments sv_owner {K}.
Arguments sv_ca {K}.

Definition toProto (w : Workspace) : WorkspaceMsg :=
  let b := w_Box w in
  mkWorkspaceMsg (b_ID b) (b_TenantID b) (b_Owner b) (b_Name b) (b_ImageRef b) (b_MemMB b) (phase_string (b_Phase b))
    (b_AgentConnected b) (b_Message b) (map (fun e => mkEndpointMsg (ep_Name e) (ep_URL e) (ep_Port e)) (w_Endpoints w)).

Section server.
Context {S B K : Type} `{WorkspaceStore S} `{ApiHub B}.
Notation W := (ApiWorld S B).
Variable newID : nat -> string.
Variable srv : Server K.

Definition on_store {A} (m : M S A) : M W A := zoom aw_store (fun s w => mkApiWorld s (aw_hub w) (aw_now w) (aw_fresh w)) m.
Definition on_hub {A} (m : M B A) : M W A := zoom aw_hub (fun b w => mkApiWorld (aw_store w) b (aw_now w) (aw_fresh w)) m.
Definition draw_id : M W string :=
  fun w => (mkApiWorld (aw_store w) (aw_hub w) (aw_now w) (Datatypes.S (aw_fresh w)), Ok (newID (aw_fresh w))).

(** [principal] *)
Definition principal (ctx : Context) : Principal :=
  match principalFromCtx ctx with
  | Some pr => pr
  | None => mkPrincipal (sv_owner srv) (sv_tenant srv) "" ["owner"%string]
  end.

Definition not_found (nameOrID : string) : error :=
  ErrStatus NotFound ("workspace " +:+ quote nameOrID +:+ " not found").

Definition resolve (ctx : Context) (nameOrID : string) : M W Workspace :=
  let pr := principal ctx in
  r ← try (on_store (ws_GetWorkspace (pp_TenantID pr) nameOrID));
  r ← match r with
      | Err e => if errors_Is e store_ErrNotFound
                 then try (on_store (ws_GetByName (pp_TenantID pr) nameOrID)) else mret r
      | Ok _ => mret r
      end;
  match r with
  | Err e =>
      if errors_Is e store_ErrNotFound then throw (not_found nameOrID)
      else throw (ErrStatus Internal ("resolve " +:+ quote nameOrID +:+ ": " +:+ Error e))
  | Ok w =>
      if negb (bool_decide (b_Owner (w_Box w) = pp_ID pr)) && negb (privileged pr)
      then throw (not_found nameOrID)
      else mret w
  end.

Definition bad_ingress (ip : string * Z) : bool := bool_decide (ip.1 = ""%string) || (ip.2 <=? 0).

Definition CreateWorkspace (ctx : Context) (r : CreateWorkspaceRequest) : M W WorkspaceMsg :=
  if bool_decide (cq_Name r = ""%string) || bool_decide (cq_ImageRef r = ""%string)
  then throw (ErrStatus InvalidArgument "name and image_ref are required")
  else
    let pr := principal ctx in
    id ← draw_id;
    now ← gets aw_now;
    let w := Workspace.New id now (pp_TenantID pr) (pp_ID pr) (cq_Name r) (cq_ImageRef r) in
    let w := w <| w_Box := (w_Box w) <| b_MemMB := cq_MemMb r |> |> in
    if existsb bad_ingress (cq_Ingress r)
    then throw (ErrStatus InvalidArgument "ingress entries need a name and port > 0")
    else
      let w := w <| w_Ingress := map (fun ip => mkIngressPort ip.1 ip.2) (cq_Ingress r) |> in
      c ← try (on_store (ws_CreateWorkspace w));
      match c with
      | Err e => throw (ErrStatus Internal ("create: " +:+ Error e))
      | Ok _ => mret (toProto w)
      end.

Definition GetWorkspace (ctx : Context) (nameOrID : string) : M W WorkspaceMsg :=
  w ← resolve ctx nameOrID;
  mret (toProto w).

Definition ListWorkspaces (ctx : Context) : M W (list WorkspaceMsg) :=
  let pr := principal ctx in
  r ← try (on_store (ws_ListWorkspaces (pp_TenantID pr)));
  match r with
  | Err e => throw (ErrStatus Internal ("list: " +:+ Error e))
  | Ok ws =>
      mret (map toProto (List.filter (fun w => bool_decide (b_Owner (w_Box w) = pp_ID pr) || privileged pr) ws))
  end.

Definition DeleteWorkspace (ctx : Context) (nameOrID : string) : M W unit :=
  w ← resolve ctx nameOrID;
  now ← gets aw_now;
  let w := w <| w_Box := (w_Box w) <| b_Phase := PhaseDestroying |> |> in
  u ← try (on_store (ws_UpdateWorkspace now w));
  match u with
  | Err e =>
      if errors_Is e store_ErrNotFound then throw (not_found nameOrID)
      else throw (ErrStatus Internal ("delete: " +:+ Error e))
  | Ok _ => mret tt
  end.

(** [IssueSSHCert]: the certificate's text, its principal and its expiry. *)
Definition IssueSSHCert (ParseAuthorizedKey : string -> result K) (sign : Certificate K -> result unit)
    (MarshalCert : Certificate K -> string) (serial : result Z) (ctx : Context) (publicKey : string) :
    M W (string * string * Z) :=
  match sv_ca srv with
  | None => throw (ErrStatus FailedPrecondition "ssh certificate login is not enabled on this server")
  | Some ca =>
      match ParseAuthorizedKey publicKey with
      | Err e => throw (ErrStatus InvalidArgument ("parse public key: " +:+ Error e))
      | Ok pub =>
          let principal := pp_ID (principal ctx) in
          now ← gets aw_now;
          match SignUserCert sign (Some ca) serial now pub (principal +:+ "@hopbox") [principal] certTTL with
          | Err e => throw (ErrStatus Internal ("sign cert: " +:+ Error e))
          | Ok cert => mret (MarshalCert cert, principal, wrap64 (ct_ValidBefore cert))
          end
      end
  end.

(** * Streams *)
Definition not_connected (w : Workspace) : error :=
  ErrStatus FailedPrecondition ("workspace " +:+ quote (b_Name (w_Box w)) +:+ " agent not connected (phase="
    +:+ phase_string (b_Phase (w_Box w)) +:+ ")").

(** The part the three streams share: resolve, check the agent, open. *)
Definition open_agent (ctx : Context) (nameOrID what : string) (open : string -> M B Stream) : M W Stream :=
  w ← resolve ctx nameOrID;
  c ← on_hub (hub_Connected (b_ID (w_Box w)));
  if negb c then throw (not_connected w)
  else
    s ← try (on_hub (open (b_ID (w_Box w))));
    match s with
    | Err e => throw (ErrStatus Internal ("open " +:+ what +:+ ": " +:+ Error e))
    | Ok st => mret st
    end.

(** [Exec]'s stdin pump: client to agent, until the client half-closes. *)
Fixpoint exec_stdin (msgs : list ExecClientMsg) : M Writer unit :=
  match msgs with
  | [] => ignore WriteExecStdinClose
  | m :: msgs' =>
      match m with
      | ExecStdinMsg d =>
          r ← try (WriteExecData ExecStdin d);
          match r with Err _ => mret tt | Ok _ => exec_stdin msgs' end
      | _ => exec_stdin msgs'
      end
  end.

(** [Exec]'s relay: agent to client, with fuel; [None] when it ran out. *)
Fixpoint exec_relay {G} `{Sender G ExecServerMsg} (fuel : nat) (agent : string) (g : G) : option (G * result unit) :=
  match fuel with
  | O => None
  | Datatypes.S f =>
      match ReadExecFrame agent with
      | (_, Err rerr) =>
          Some (g, if errors_Is rerr io_EOF then Ok tt
                   else Err (ErrStatus Internal ("exec read: " +:+ Error rerr)))
      | (agent', Ok (typ, data, code)) =>
          let step m := match Send m g with
                        | (g', Err e) => Some (g', Err e)
                        | (g', Ok _) => exec_relay f agent' g'
                        end in
          if bool_decide (typ = ExecStdout) then step (ExecStdoutMsg data)
          else if bool_decide (typ = ExecStderr) then step (ExecStderrMsg data)
          else if bool_decide (typ = ExecExit) then Some (Send (ExecExitCode code) g)
          else exec_relay f agent' g
      end
  end.

Section exec.
Context {G : Type} `{Sender G ExecServerMsg}.
Variable agent : string -> string.      (* the agent's side of the stream *)

(** [Exec]: the outcome, or [None] if the relay ran out of fuel. *)
Definition Exec (ctx : Context) (msgs : list ExecClientMsg) (end_err : error) (w : W) (g : G) :
    option (W * G * result unit) :=
  match msgs with
  | [] => Some (w, g, Err end_err)
  | ExecOpen nameOrID cmd :: rest =>
      match cmd with
      | [] => Some (w, g, Err (ErrStatus InvalidArgument "cmd is required"))
      | _ =>
          match open_agent ctx nameOrID "exec" (fun id => hub_OpenExec id cmd) w with
          | (w', Err e) => Some (w', g, Err e)
          | (w', Ok st) =>
              let reply := agent (wr_out (exec_stdin rest (sm_w st)).1) in
              (fun gr : G * result unit => (w', gr.1, gr.2)) <$> exec_relay (Datatypes.S (slen reply)) reply g
          end
      end
  | _ :: _ => Some (w, g, Err (ErrStatus InvalidArgument "first Exec message must be `open`"))
  end.
End exec.

(** The byte bridges of [Shell] and [SSH]: each direction runs until it fails,
    and the first failure ends the call, quietly when it is the end of input.
    The bytes from the agent arrive in the pieces its [Read]s return. *)
Section bridge.
Context {G Msg : Type} `{Sender G Msg}.
Variable wrap : string -> Msg.
Fixpoint agent_to_client (reads : list string) (rerr : error) (g : G) : G * error :=
  match reads with
  | [] => (g, rerr)
  | d :: reads' =>
      if bool_decide (d = ""%string) then agent_to_client reads' rerr g
      else match Send (wrap d) g with
           | (g', Err serr) => (g', serr)
           | (g', Ok _) => agent_to_client reads' rerr g'
           end
  end.
End bridge.
Fixpoint client_to_agent (datas : list (option string)) (rerr : error) : Writer -> Writer * error := fun w =>
  match datas with
  | [] => (w, rerr)
  | None :: l => client_to_agent l rerr w
  | Some d :: l =>
      match Write d w with
      | (w', Err werr) => (w', werr)
      | (w', Ok _) => client_to_agent l rerr w'
      end
  end.
Definition bridge_result (first : error) : result unit :=
  if errors_Is first io_EOF then Ok tt else Err first.

(** [Shell] and [SSH] up to the bridge: the stream it runs on. *)
Definition Shell (ctx : Context) (msgs : list ShellClientMsg) (end_err : error) : M W Stream :=
  match msgs with
  | [] => throw end_err
  | ShellOpen nameOrID cmd cols rows :: _ =>
      open_agent ctx nameOrID "shell" (fun id => hub_OpenShell id (mkShellHeader cmd (uint16 cols) (uint16 rows)))
  | _ :: _ => throw (ErrStatus InvalidArgument "first Shell message must be `open`")
  end.
Definition shell_data (m : ShellClientMsg) : option string :=
  match m with ShellData d => Some d | _ => None end.

Definition SSH (ctx : Context) (msgs : list SSHClientMsg) (end_err : error) : M W Stream :=
  match msgs with
  | [] => throw end_err
  | SSHOpen nameOrID :: _ => open_agent ctx nameOrID "ssh" hub_OpenSSH
  | _ :: _ => throw (ErrStatus InvalidArgument "first SSH message must be `open`")
  end.
Definition ssh_data (m : SSHClientMsg) : option string :=
  match m with SSHData d => Some d | _ => None end.
End server.

(** * Lemmas: the relay *)
#[export] Instance record {Msg} : Sender (list Msg) Msg := {| Send m := modify (fun l => l ++ [m]) |}.

Section relay.
Context {G : Type} `{Sender G ExecServerMsg}.

Lemma exec_relay_total fuel agent (g : G) : (slen agent < fuel)%nat -> is_Some (exec_relay fuel agent g).
Proof.
  revert agent g. induction fuel as [|f IH]; intros agent g Hf; [lia|]. simpl.
  destruct (ReadExecFrame agent) as [agent' [[[typ data] code]|e]] eqn:Hr; [|by eexists].
  apply ReadExecFrame_shorter in Hr.
  repeat case_bool_decide; try (by eexists); try (apply IH; lia).
  - destruct (Send _ g) as [g' [[]|e]]; [apply IH; lia|by eexists].
  - destruct (Send _ g) as [g' [[]|e]]; [apply IH; lia|by eexists].
Qed.
End relay.


(** The client's view of a frame. *)
Definition frame_msg (f : ExecFrame) : list ExecServerMsg :=
  match f with
  | FData typ data =>
      if bool_decide (typ = ExecStdout) then [ExecStdoutMsg data]
      else if bool_decide (typ = ExecStderr) then [ExecStderrMsg data] else []
  | FStdinClose => []
  | FExit code => [ExecExitCode code]
  end.
Definition is_exit (f : ExecFrame) : bool := match f with FExit _ => true | _ => false end.

Lemma exec_relay_frames fs code out fuel (g : list ExecServerMsg) :
  forallb frame_ok (fs ++ [FExit code]) = true -> existsb is_exit fs = false ->
  exists bytes, mfor (fs ++ [FExit code]) write_frame (mkWriter out None) = (mkWriter (out +:+ bytes) None, Ok tt) /\
    ((slen bytes < fuel)%nat ->
     exec_relay fuel bytes g = Some (g ++ concat (map frame_msg fs) ++ [ExecExitCode code], Ok tt)).
Proof.
  revert out fuel g. induction fs as [|f fs IH]; intros out fuel g Hok Hex; simpl in Hok, Hex.
  - apply andb_true_iff in Hok as [Hf _]. destruct (exec_frame_bytes (FExit code) Hf) as (b & Hw & Hr). exists b. split.
    + cbn [app mfor]. by rewrite (bind_eq_ok _ _ _ _ _ (Hw out)).
    + intros Hfu. destruct fuel as [|fuel]; [lia|]. cbn [exec_relay].
      specialize (Hr EmptyString). rewrite string_app_nil_r in Hr. rewrite Hr. cbn [frame_view]. reflexivity.
  - apply andb_true_iff in Hok as [Hf Hok]. apply orb_false_iff in Hex as [He Hex].
    destruct (exec_frame_bytes f Hf) as (b1 & Hw & Hr).
    destruct (IH (out +:+ b1) (Nat.pred fuel) (g ++ frame_msg f) Hok Hex) as (b2 & Hw2 & Hr2).
    exists (b1 +:+ b2). split.
    { cbn [app mfor]. by rewrite (bind_eq_ok _ _ _ _ _ (Hw out)), Hw2, string_app_assoc. }
    intros Hfu. destruct fuel as [|fuel]; [lia|]. rewrite slen_app in Hfu. cbn [Nat.pred] in Hr2.
    assert (slen b2 < fuel)%nat as Hlt.
    { pose proof (ReadExecFrame_shorter _ _ _ (Hr b2)) as Hs. rewrite slen_app in Hs. lia. }
    specialize (Hr2 Hlt). cbn [exec_relay]. rewrite Hr.
    assert (forall m, Send (Msg:=ExecServerMsg) m g = (g ++ [m], Ok tt)) as Hsend by done.
    destruct f as [typ data| |c]; cbn [frame_view frame_msg is_exit] in *; [| |done].
    + cbn [map concat frame_msg]. simpl in Hf. apply andb_true_iff in Hf as [Hf _]. apply negb_true_iff in Hf. rewrite Hf.
      destruct (bool_decide (typ = ExecStdout)); [by rewrite Hsend, Hr2, <- !app_assoc|].
      destruct (bool_decide (typ = ExecStderr)); [by rewrite Hsend, Hr2, <- !app_assoc|].
      rewrite app_nil_r in Hr2. by rewrite Hr2.
    + change (bool_decide (ExecStdinClose = ExecStdout)) with false.
      change (bool_decide (ExecStdinClose = ExecStderr)) with false.
      change (bool_decide (ExecStdinClose = ExecExit)) with false. rewrite app_nil_r in Hr2. by rewrite Hr2.
Qed.

(** * Lemmas: stdin *)
Definition stdin_text (msgs : list ExecClientMsg) : string :=
  join "" (omap (fun m => match m with ExecStdinMsg d => Some d | _ => None end) msgs).
(** Each stdin message fits a frame. *)
Definition stdin_ok (m : ExecClientMsg) : bool := match m with ExecStdinMsg d => zlen d <=? maxFrame | _ => true end.

Lemma exec_stdin_bytes msgs out :
  forallb stdin_ok msgs = true ->
  exists bytes, exec_stdin msgs (mkWriter out None) = (mkWriter (out +:+ bytes) None, Ok tt) /\ stdin_of bytes = stdin_text msgs.
Proof.
  revert out. induction msgs as [|m msgs IH]; intros out Hok.
  - destruct (exec_frame_bytes FStdinClose eq_refl) as (b & Hw & Hr). exists b. split.
    + cbn [exec_stdin]. unfold ignore. by rewrite (Hw out : WriteExecStdinClose _ = _).
    + specialize (Hr EmptyString). rewrite string_app_nil_r in Hr. by rewrite (stdin_of_frame _ _ _ _ _ Hr).
  - cbn [forallb] in Hok. apply andb_true_iff in Hok as [Hm Hok]. destruct m as [n c|d|]; [by apply IH| |by apply IH].
    assert (frame_ok (FData ExecStdin d) = true) as Hf by (cbn [frame_ok]; by rewrite andb_true_iff).
    destruct (exec_frame_bytes _ Hf) as (b & Hw & Hr). destruct (IH (out +:+ b) Hok) as (b2 & Hw2 & Hr2).
    exists (b +:+ b2). cbn [exec_stdin write_frame] in *. unfold try, mbind, M_bind. rewrite (Hw out). split.
    + by rewrite Hw2, string_app_assoc.
    + rewrite (stdin_of_frame _ _ _ _ _ (Hr b2)), Hr2. unfold stdin_text. cbn [omap list_omap].
      by rewrite join_nil_cons.
Qed.

(** * Exec, end to end *)
Section api_exec_served.
Context `{AgentOS} {Y S K T : Type} `{Yamux Y} `{StateSink S} `{WorkspaceStore T}.
Notation W := (ApiWorld T (Hub Y S)).
Hypothesis fresh_stream : forall s y y' st, ym_OpenStream s y = (y', Ok st) -> sm_w st = mkWriter "" None.
Variable srv : Server K.

(** The agent on the other end of the stream. *)
Definition agent_side (bytes : string) : string :=
  wr_out (dx_out (handleStream (mkDuplex bytes (mkWriter "" None))).1).

Lemma open_agent_inv ctx name what open (w w' : W) st :
  open_agent srv ctx name what open w = (w', Ok st) ->
  exists id h, (open id h).2 = Ok st.
Proof.
  intros Ho. unfold open_agent in Ho. apply bind_ok in Ho as (w1 & ws & _ & Ho). apply bind_ok in Ho as (w2 & c & _ & Ho).
  destruct (negb c); [done|]. apply bind_ok in Ho as (w3 & r & Hr & Ho). destruct r as [st'|e]; [|done].
  unfold mret, M_ret in Ho. simplify_eq. unfold try, on_hub, zoom in Hr. exists (b_ID (w_Box ws)), (aw_hub w2).
  destruct (open (b_ID (w_Box ws)) (aw_hub w2)) as [h r]. by simplify_eq.
Qed.

(** A command run over the API behaves as if run locally.  Once the stream
    is open, the command inside the workspace is given exactly the bytes of the
    client's stdin messages, the client receives the command's writes in order,
    each on the stream it was made on and cut into chunks that join back to it,
    then its exit code, and the call succeeds. *)
Lemma api_exec_served ctx name cmd rest end_err (w w' : W) st writes err (got : list ExecServerMsg) :
  cmd <> [] -> forallb utf8 cmd = true -> forallb stdin_ok rest = true ->
  open_agent srv ctx name "exec" (fun id => hub_OpenExec id cmd) w = (w', Ok st) ->
  ao_exec (mkCmd cmd "" (ao_environ ++ ["TERM=dumb"%string])) (stdin_text rest) = Ran writes err ->
  Forall (fun wr => wr.1 = ExecStdout \/ wr.1 = ExecStderr) writes -> in_int32 (wait_code err true) ->
  let pieces wr := chunk_list execChunk wr.2 in
  let msg typ d := if bool_decide (typ = ExecStdout) then ExecStdoutMsg d else ExecStderrMsg d in
  Exec srv agent_side ctx (ExecOpen name cmd :: rest) end_err w got =
    Some (w', got ++ concat (map (fun wr => map (msg wr.1) (pieces wr)) writes) ++ [ExecExitCode (wait_code err true)], Ok tt) /\
  forall wr, wr ∈ writes -> join "" (pieces wr) = wr.2.
Proof.
  intros Hcmd Hu Hin Hopen Hrun Hty Hcode pieces msg. split; [|intros wr _; apply chunk_list_spec].
  unfold Exec. destruct cmd as [|c cmd]; [done|]. rewrite Hopen.
  destruct (open_agent_inv _ _ _ _ _ _ _ Hopen) as (id & h & Hst).
  destruct (hub_OpenExec id (c :: cmd) h) as [h' r] eqn:Ho. simpl in Hst. subst r.
  assert (wr_room (sm_w st) = None) as Hroom.
  { apply (OpenExec_room (fun s y y' st Hs => f_equal wr_room (fresh_stream s y y' st Hs)) _ _ _ _ _ Ho). }
  destruct (sm_w st) as [out room] eqn:Hw. simpl in Hroom. subst room.
  destruct (exec_stdin_bytes rest out Hin) as (bin & Hbin & Htext). rewrite Hbin. cbn [fst wr_out].
  unfold agent_side.
  destruct (OpenExec_served (fun s y y' st Hs => f_equal wr_out (fresh_stream s y y' st Hs)) h h' id st bin
    (mkWriter "" None) (c :: cmd) Hu Ho) as [_ Hserve].
  rewrite Hw in Hserve. cbn [wr_out] in Hserve. rewrite Hserve. rewrite <- Htext in Hrun.
  assert (Forall (fun wr : ascii * string => wr.1 <> ExecExit) writes) as Hne.
  { eapply Forall_impl; [exact Hty|]. intros wr [->| ->]; by vm_compute. }
  destruct (run_exec_frames (c :: cmd) bin "" writes err Hcmd Hrun Hne Hcode) as (bytes & Hb1 & Hb2).
  rewrite Hb1. cbn [fst dx_out wr_out]. rewrite string_app_nil_l.
  destruct (exec_relay_frames (concat (map chunk_frames writes)) (wait_code err true) "" (Datatypes.S (slen bytes)) got)
    as (b & Hb3 & Hrel).
  { by apply exec_frames_ok. }
  { clear. induction writes as [|wr l IH]; [done|]. cbn [map concat]. rewrite existsb_app, IH, orb_false_r.
    unfold chunk_frames. by induction (chunk_list execChunk wr.2). }
  unfold exec_frames in Hb2. rewrite Hb3 in Hb2. injection Hb2 as Hb2. rewrite !string_app_nil_l in Hb2. subst b.
  rewrite Hrel by lia. cbn [fst snd fmap option_fmap option_map].
  assert (concat (map frame_msg (concat (map chunk_frames writes))) =
    concat (map (fun wr => map (msg wr.1) (pieces wr)) writes)) as ->; [|done].
  clear -Hty. unfold pieces, msg. induction Hty as [|wr l Hwr Hty IH]; [done|].
  cbn [map concat]. rewrite map_app, concat_app, IH. f_equal. unfold chunk_frames.
  induction (chunk_list execChunk wr.2) as [|d ds IHd]; [done|]. cbn [map concat frame_msg]. rewrite IHd.
  destruct Hwr as [-> | ->]; [done|]. by change (bool_decide (ExecStderr = ExecStdout)) with false.
Qed.
End api_exec_served.

(** * Who sees what *)
Section isolation.
Context {S B K : Type} `{WorkspaceStoreSpec S} `{ApiHub B}.
Notation W := (ApiWorld S B).
Variable newID : nat -> string.
Variable srv : Server K.
Notation view w := (ws_view (aw_store w)).

(** The workspaces a caller may see: its own, in its tenant; a privileged one
    sees its whole tenant. *)
Definition visible (pr : Principal) (v : Workspace) : Prop :=
  b_TenantID (w_Box v) = pp_TenantID pr /\ (b_Owner (w_Box v) = pp_ID pr \/ privileged pr = true).
Definition answers (pr : Principal) (w : W) (v : Workspace) : Prop :=
  visible pr v /\ view w !! b_ID (w_Box v) = Some v.

Lemma wp_store {A} (m : M S A) (Q : W -> result A -> Prop) w :
  wp m (fun s r => Q (mkApiWorld s (aw_hub w) (aw_now w) (aw_fresh w)) r) (aw_store w) -> wp (on_store m) Q w.
Proof. unfold wp, on_store, zoom. by destruct (m (aw_store w)). Qed.

(** A name or an id leads to a workspace the caller may see, or nowhere. *)
Lemma resolve_spec ctx name w :
  ws_inv (aw_store w) ->
  wp (resolve srv ctx name) (fun w' r => w' = w /\ forall v, r = Ok v -> answers (principal srv ctx) w v /\
    (b_ID (w_Box v) = name \/ b_Name (w_Box v) = name)) w.
Proof.
  intros Hi. set (pr := principal srv ctx).
  assert (forall v, b_TenantID (w_Box v) = pp_TenantID pr ->
    negb (bool_decide (b_Owner (w_Box v) = pp_ID pr)) && negb (privileged pr) = false -> visible pr v) as Hvis.
  { intros v Ht Ho. split; [done|]. apply andb_false_iff in Ho as [Ho|Ho]; go_bool; tauto. }
  assert (forall (r : result Workspace) (w' : W), w' = w ->
    (forall v, r = Ok v -> b_TenantID (w_Box v) = pp_TenantID pr /\ view w !! b_ID (w_Box v) = Some v /\
      (b_ID (w_Box v) = name \/ b_Name (w_Box v) = name)) ->
    wp (match r with
        | Ok v => if negb (bool_decide (b_Owner (w_Box v) = pp_ID pr)) && negb (privileged pr)
                  then throw (not_found name) else mret v
        | Err e => if errors_Is e store_ErrNotFound then throw (not_found name)
                   else throw (ErrStatus Internal ("resolve " +:+ quote name +:+ ": " +:+ Error e))
        end) (fun w' r => w' = w /\ forall v, r = Ok v -> answers pr w v /\ (b_ID (w_Box v) = name \/ b_Name (w_Box v) = name)) w')
    as Hend.
  { intros r w' -> Hr. destruct r as [v|e]; [|destruct (errors_Is _ _); by apply wp_throw].
    destruct (Hr v eq_refl) as (Ht & Hv & Hn). destruct (negb _ && negb _) eqn:Ho; [by apply wp_throw|].
    apply wp_ret. split; [done|]. intros v' [= <-]. split; [|done]. split; [by apply Hvis|done]. }
  unfold resolve. fold pr. apply wp_bind, wp_try, wp_store. eapply wp_mono; [by apply ws_Get_spec|].
  intros s r (-> & Hget & _). assert (mkApiWorld (aw_store w) (aw_hub w) (aw_now w) (aw_fresh w) = w) as -> by by destruct w.
  apply wp_bind. destruct r as [v|e].
  - apply wp_ret. apply (Hend (Ok v)); [done|]. intros v' [= <-]. destruct (Hget v eq_refl) as [Hv Ht].
    pose proof (proj1 (ws_view_id _ _ _ Hi Hv)) as Hid. rewrite Hid. auto.
  - destruct (errors_Is e store_ErrNotFound).
    + apply wp_try, wp_store. eapply wp_mono; [by apply ws_GetByName_spec|]. intros s r (-> & Hname & _).
      apply (Hend r); [by destruct w|]. intros v ->. destruct (Hname v eq_refl) as (Hv & Ht & Hn). auto.
    + apply wp_ret. apply (Hend (Err e)); [done|]. intros v Hv. discriminate Hv.
Qed.

Lemma wp_open_agent ctx name what open w w' st :
  ws_inv (aw_store w) -> open_agent srv ctx name what open w = (w', Ok st) ->
  exists v h, answers (principal srv ctx) w v /\ (open (b_ID (w_Box v)) h).2 = Ok st /\
    (hub_Connected (b_ID (w_Box v)) (aw_hub w)).2 = Ok true /\ aw_store w' = aw_store w.
Proof.
  intros Hi Ho. unfold open_agent in Ho. apply bind_ok in Ho as (w1 & v & Hr & Ho).
  destruct (wp_all _ _ _ _ _ Hr (resolve_spec ctx name w Hi)) as [-> Hv]. destruct (Hv v eq_refl) as [Ha _].
  apply bind_ok in Ho as (w2 & c & Hc & Ho). destruct c; [|done]. cbn [negb] in Ho.
  unfold on_hub, zoom in Hc. destruct (hub_Connected (b_ID (w_Box v)) (aw_hub w)) as [h1 c] eqn:Hcon. injection Hc as <- ->.
  apply bind_ok in Ho as (w3 & r & Ht & Ho). destruct r as [st'|e]; [|done]. injection Ho as <- ->.
  unfold try, on_hub, zoom in Ht. cbn [aw_hub aw_store] in Ht. destruct (open (b_ID (w_Box v)) h1) as [h2 r] eqn:Hop.
  injection Ht as <- ->. exists v, h1. rewrite Hop, Hcon. by split_and!.
Qed.

Definition request_ok (rq : CreateWorkspaceRequest) : Prop :=
  Forall (fun ip => utf8 ip.1 = true /\ in_int32 ip.2) (cq_Ingress rq).
Definition destroying (now : time) (v : Workspace) : Workspace :=
  v <| w_Box := (w_Box v) <| b_Phase := PhaseDestroying |> <| b_UpdatedAt := now |> |>.

Lemma DeleteWorkspace_spec ctx name (w : W) :
  ws_inv (aw_store w) -> in_range (aw_now w) ->
  wp (DeleteWorkspace srv ctx name) (fun w' _ => ws_inv (aw_store w') /\
    (view w' = view w \/ exists v, answers (principal srv ctx) w v /\
      view w' = <[b_ID (w_Box v) := kept (destroying (aw_now w) v)]> (view w))) w.
Proof.
  intros Hi Hnow. unfold DeleteWorkspace. apply wp_bind. eapply wp_mono; [by apply resolve_spec|].
  intros w1 r (-> & Hr). destruct r as [v|e]; [|by auto]. destruct (Hr v eq_refl) as [Ha _]. clear Hr.
  destruct Ha as [Hvis Hv]. destruct (ws_view_id _ _ _ Hi Hv) as (_ & Hst & _).
  apply wp_bind, wp_gets, wp_bind, wp_try, wp_store. eapply wp_mono.
  { apply ws_Update_spec; [done| |done|].
    - destruct Hst as (Hs & Hp & He). split; [|by split]. destruct Hs as (_ & Hs). split; [done|exact Hs].
    - intros old Hold. change (view w !! b_ID (w_Box v) = Some old) in Hold. rewrite Hv in Hold. simplify_eq. by split_and!. }
  intros s u (Hi' & _ & Hu). destruct u as [v2|e].
  - apply wp_ret. split; [done|]. right. destruct Hu as (_ & _ & Hu). exists v. split; [by split|exact Hu].
  - destruct Hu as [Hu _]. destruct (errors_Is _ _); apply wp_throw; (split; [done|by left]).
Qed.

Lemma CreateWorkspace_spec ctx rq (w : W) :
  ws_inv (aw_store w) -> in_range (aw_now w) -> request_ok rq -> utf8 (newID (aw_fresh w)) = true ->
  let pr := principal srv ctx in
  wp (CreateWorkspace newID srv ctx rq) (fun (w' : W) r => ws_inv (aw_store w') /\
    match r with
    | Err _ => view w' = view w
    | Ok m => exists v, m = toProto v /\ b_ID (w_Box v) = newID (aw_fresh w) /\ b_Owner (w_Box v) = pp_ID pr /\
                b_TenantID (w_Box v) = pp_TenantID pr /\ b_Name (w_Box v) = cq_Name rq /\
                view w !! b_ID (w_Box v) = None /\ view w' = <[b_ID (w_Box v) := v]> (view w)
    end) w.
Proof.
  intros Hi Hnow Hrq Hid pr. unfold CreateWorkspace. destruct (_ || _); [by apply wp_throw|]. fold pr.
  apply wp_bind. unfold wp at 1, draw_id. apply wp_bind, wp_gets. destruct (existsb _ _); [by apply wp_throw|].
  apply wp_bind, wp_try, wp_store. eapply wp_mono.
  { apply ws_Create_spec; [done|]. split.
    - assert (in_range zero_time) as Hz by (apply in_rangeb_ok; vm_compute; reflexivity).
      split_and!; try done; vm_compute; congruence.
    - split; [|constructor]. apply Forall_map. exact Hrq. }
  intros s c (Hi' & _ & Hc). destruct c as [u|e]; [|by apply wp_throw]. apply wp_ret. split; [done|].
  destruct Hc as [Hn Hc]. eexists. by split_and!.
Qed.

Lemma ListWorkspaces_spec ctx (w : W) :
  ws_inv (aw_store w) ->
  wp (ListWorkspaces srv ctx) (fun w' r => w' = w /\
    forall l, r = Ok l -> forall m, m ∈ l <-> exists v, answers (principal srv ctx) w v /\ m = toProto v) w.
Proof.
  intros Hi. unfold ListWorkspaces. set (pr := principal srv ctx). apply wp_bind, wp_try, wp_store.
  eapply wp_mono; [by apply ws_List_spec|]. intros s r (-> & Hl & _).
  assert (mkApiWorld (aw_store w) (aw_hub w) (aw_now w) (aw_fresh w) = w) as -> by by destruct w.
  destruct r as [l|e]; [|by apply wp_throw]. apply wp_ret. split; [done|]. intros l' [= <-] m.
  destruct (Hl l eq_refl) as [_ Hin]. rewrite list_elem_of_In, in_map_iff. split.
  - intros (v & <- & [Hf Hv]%list_elem_of_In%elem_of_filter_bool). apply Hin in Hv as [Hv Ht]. exists v. split; [|done]. split; [|done].
    split; [done|]. apply orb_true_iff in Hf as [Hf|Hf]; [left; by apply bool_decide_eq_true_1 in Hf|by right].
  - intros (v & [[Ht Ho] Hv] & ->). exists v. split; [done|]. apply list_elem_of_In, elem_of_filter_bool. split; [|by apply Hin].
    apply orb_true_iff. destruct Ho as [Ho|Ho]; [left; by apply bool_decide_eq_true_2|by right].
Qed.

(** C16. A caller only ever meets its own workspaces.  Over any store that keeps
    its contract: a get, by id or name, answers with a workspace of the caller's
    tenant that it owns (or that its role lets it see); a list is exactly those;
    an agent stream is only opened on such a workspace, while its agent is
    connected; a delete marks one of them or changes nothing; and a create adds
    one workspace, owned by the caller, under a fresh id. *)
Theorem api_confined ctx (w w' : W) :
  ws_inv (aw_store w) -> in_range (aw_now w) ->
  let pr := principal srv ctx in
  (forall name m, GetWorkspace srv ctx name w = (w', Ok m) -> w' = w /\ exists v, answers pr w v /\ m = toProto v) /\
  (forall l, ListWorkspaces srv ctx w = (w', Ok l) ->
     w' = w /\ forall m, m ∈ l <-> exists v, answers pr w v /\ m = toProto v) /\
  (forall name what open st, open_agent srv ctx name what open w = (w', Ok st) ->
     exists v h, answers pr w v /\ (open (b_ID (w_Box v)) h).2 = Ok st /\
       (hub_Connected (b_ID (w_Box v)) (aw_hub w)).2 = Ok true /\ aw_store w' = aw_store w) /\
  (forall name r, DeleteWorkspace srv ctx name w = (w', r) ->
     view w' = view w \/
     exists v, answers pr w v /\ view w' = <[b_ID (w_Box v) := kept (destroying (aw_now w) v)]> (view w)) /\
  (forall rq m, request_ok rq -> utf8 (newID (aw_fresh w)) = true -> CreateWorkspace newID srv ctx rq w = (w', Ok m) ->
     exists v, m = toProto v /\ b_Owner (w_Box v) = pp_ID pr /\ b_TenantID (w_Box v) = pp_TenantID pr /\
       view w !! b_ID (w_Box v) = None /\ view w' = <[b_ID (w_Box v) := v]> (view w)).
Proof.
  intros Hi Hnow pr. split_and!.
  - intros name m Hg. apply bind_ok in Hg as (w1 & v & Hr & [= <- <-]).
    destruct (wp_all _ _ _ _ _ Hr (resolve_spec ctx name w Hi)) as [-> Hv]. split; [done|]. exists v.
    split; [by apply Hv|done].
  - intros l Hl. destruct (wp_all _ _ _ _ _ Hl (ListWorkspaces_spec ctx w Hi)) as [-> Hm]. split; [done|]. by apply Hm.
  - intros name what open st Ho. by apply (wp_open_agent ctx name what open).
  - intros name r Hd. by apply (wp_all _ _ _ _ _ Hd (DeleteWorkspace_spec ctx name w Hi Hnow)).
  - intros rq m Hrq Hid Hc. destruct (wp_all _ _ _ _ _ Hc (CreateWorkspace_spec ctx rq w Hi Hnow Hrq Hid)) as [_ (v & Hv)].
    exists v. tauto.
Qed.
End isolation.
