(* ===== verification/Boxstore.v ===== *)
(** The dev-environment layer over the box core
    ([internal/core/boxstore/boxstore.go], [internal/core/boxstore/hooks.go],
    [cmd/hopboxd/statesink.go] and the metadata seam of [cmd/hopboxd/main.go]):
    the adapter that shows the workspace store to the box core as a box store,
    proved to meet that store's contract against the workspace store's own; and
    the reconcile hooks, proved to keep to the frame the reconciler assumes of
    them. *)
From stdpp Require Import base option list strings gmap fin_maps.
From Stdlib Require Import ZArith Lia.
From S2P Require Import Prelude GoStrings GoTime GoPath Json Sql Box Ports Store World Engine Reconcile Workspace Boxd.
Import Workspace.Workspace.

Definition mapErr (e : error) : error := if errors_Is e store_ErrNotFound then ErrNotFound else e.
(** [if err != nil { return ..., mapErr(err) }] *)
Definition mapping {W A} (m : M W A) : M W A := fun w => let '(w', r) := m w in (w', map_err mapErr r).

(** * The adapter *)
Section adapter.
Context {S : Type} `{WorkspaceStore S}.

Definition Adapter_Get (tenant id : string) : M S Box :=
  w ← mapping (ws_GetWorkspace tenant id); mret (w_Box w).
Definition Adapter_GetByName (tenant name : string) : M S Box :=
  w ← mapping (ws_GetByName tenant name); mret (w_Box w).
Definition Adapter_List (tenant : string) : M S (list Box) :=
  ws ← (if bool_decide (tenant = ""%string) then ws_ListAll else ws_ListWorkspaces tenant);
  mret (w_Box <$> ws).
Definition Adapter_Create (b : Box) : M S unit := ws_CreateWorkspace (mkWorkspace b [] "" []).
(** Read, replace the box, write: the box the caller holds is not touched. *)
Definition Adapter_Update (now : time) (b : Box) : M S Box :=
  w ← mapping (ws_GetWorkspace (b_TenantID b) (b_ID b));
  ws_UpdateWorkspace now (w <| w_Box := b |>) ;;
  mret b.
Definition Adapter_Delete (tenant id : string) : M S unit := ws_DeleteWorkspace tenant id.

#[export] Instance boxstore_store : BoxStore S := {|
  st_Get := Adapter_Get; st_GetByName := Adapter_GetByName; st_List := Adapter_List;
  st_Create := Adapter_Create; st_Update := Adapter_Update; st_Delete := Adapter_Delete
|}.
End adapter.

(** * Hooks *)
Record HooksConfig : Type := mkHooksConfig { hc_TrustedUserCA : string; hc_AuthorizedKeys : string }.

Section hooks.
Context {S G I : Type} `{WorkspaceStore S} `{Storage G}.
Variable ingress : option (Ingress I).  (* nil disables endpoint reconciliation *)
Variable cfg : HooksConfig.
(** The store, and the storage and ingress providers' states. *)
Notation HM := (M (S * (G * I))).

Definition at_store {A} (m : M S A) : HM A := zoom fst (fun s '(_, h) => (s, h)) m.
Definition at_storage {A} (m : M G A) : HM A := zoom (fun '(_, (g, _)) => g) (fun g '(s, (_, i)) => (s, (g, i))) m.
Definition at_ingress {A} (m : M I A) : HM A := zoom (fun '(_, (_, i)) => i) (fun i '(s, (g, _)) => (s, (g, i))) m.

Definition home_env (mount : Mount) : gmap string string :=
  let env := {["HOPBOX_SSH_HOST_KEY"%string := Join [mt_Target mount; ".hopbox"; "ssh_host_ed25519_key"]%string]} in
  let env := if negb (bool_decide (hc_TrustedUserCA cfg = ""%string))
             then <["HOPBOX_TRUSTED_USER_CA"%string := hc_TrustedUserCA cfg]> env else env in
  if negb (bool_decide (hc_AuthorizedKeys cfg = ""%string))
  then <["HOPBOX_AUTHORIZED_KEYS"%string := hc_AuthorizedKeys cfg]> env else env.

Definition PreProvision (b : Box) (now : time) : HM (list Mount * gmap string string) :=
  mount ← wrapping "storage" (at_storage (sg_EnsureHome (mkHomeRequest (b_ID b) (b_TenantID b) (b_Owner b))));
  w ← at_store (ws_GetWorkspace (b_TenantID b) (b_ID b));
  at_store (ws_UpdateWorkspace now (w <| w_HomeMount := mt_Source mount |>)) ;;
  mret ([mount], home_env mount).

(** [have]: the endpoint names present before the loop. *)
Definition has_endpoint (w : Workspace) (name : string) : bool :=
  existsb (fun e => bool_decide (ep_Name e = name)) (w_Endpoints w).

(** The loop over the desired ports; [have] is not extended as it goes. *)
Fixpoint expose_missing (ig : Ingress I) (have : string -> bool) (l : list IngressPort) (w : Workspace) (changed : bool)
    : HM (Workspace * bool) :=
  match l with
  | [] => mret (w, changed)
  | p :: l' =>
      if have (ip_Name p) then expose_missing ig have l' w changed
      else
        ep ← wrapping ("ingress expose " +:+ quote (ip_Name p))
               (at_ingress (ig_Expose (mkExposeRequest (b_ID (w_Box w)) (ip_Name p) (ip_Port p) "subdomain" (b_TenantID (w_Box w)))));
        expose_missing ig have l'
          (w <| w_Endpoints := w_Endpoints w ++ [mkEndpoint (pe_Name ep) (pe_URL ep) (pe_Port ep) (pe_Ref ep)] |>) true
  end.

Definition PostRunning (b : Box) (now : time) : HM unit :=
  match ingress with
  | None => mret tt
  | Some ig =>
      w ← at_store (ws_GetWorkspace (b_TenantID b) (b_ID b));
      match w_Ingress w with
      | [] => mret tt
      | ports =>
          '(w', changed) ← expose_missing ig (has_endpoint w) ports w false;
          if (changed : bool) then at_store (ws_UpdateWorkspace now w') ;; mret tt else mret tt
      end
  end.

Fixpoint unexpose_all (ig : Ingress I) (l : list Endpoint) : HM unit :=
  match l with
  | [] => mret tt
  | e :: l' => ignore (at_ingress (ig_Unexpose (ep_Ref e))) ;; unexpose_all ig l'
  end.

Definition PreDestroy (b : Box) (now : time) : HM unit :=
  match ingress with
  | None => mret tt
  | Some ig =>
      r ← try (at_store (ws_GetWorkspace (b_TenantID b) (b_ID b)));
      match r with
      | Err _ => mret tt
      | Ok w => unexpose_all ig (w_Endpoints w)
      end
  end.

Definition NewHooks : Hooks S (G * I) :=
  {| hk_PreProvision := PreProvision; hk_PostRunning := PostRunning; hk_PreDestroy := PreDestroy |}.
End hooks.

(** * hopboxd's state sink and metadata seam *)
Section hopboxd.
Context {S C H : Type} `{WorkspaceStore S}.
Notation W := (World S C H).

Definition update_workspace (w : Workspace) : M W Workspace :=
  now ← clock; on_store (ws_UpdateWorkspace now w).

(** [storeSink.SetAgentConnected]; [trigger] is nil when the sink only relies
    on the reconciler's tick. *)
Definition sink_SetAgentConnected (tenant : string) (trigger : option (string -> string -> M W unit))
    (workspaceID : string) (connected : bool) : M W unit :=
  r ← try (on_store (ws_GetWorkspace tenant workspaceID));
  match r with
  | Err _ => mret tt
  | Ok w =>
      u ← try (update_workspace (w <| w_Box := (w_Box w) <| b_AgentConnected := connected |> |>));
      match u, trigger with
      | Err _, _ | Ok _, None => mret tt
      | Ok _, Some t => t workspaceID tenant
      end
  end.

(** [resolve] and [mutate] in [run]: the box behind a source address, and a
    change written straight back to its row. *)
Definition meta_resolve (ip : string) : M W Box := w ← on_store (ws_GetByIP ip); mret (w_Box w).
Definition meta_mutate (ip : string) (fn : Box -> Box) : M W unit :=
  w ← on_store (ws_GetByIP ip);
  update_workspace (w <| w_Box := fn (w_Box w) |>) ;;
  mret tt.
End hopboxd.

(** * The adapter meets the box store's contract *)
Section adapter_spec.
Context {S : Type} `{WorkspaceStoreSpec S}.

Definition box_view (s : S) : gmap string Box := w_Box <$> ws_view s.

Lemma box_view_lookup s id b : box_view s !! id = Some b <-> exists w, ws_view s !! id = Some w /\ w_Box w = b.
Proof. unfold box_view. rewrite lookup_fmap, fmap_Some. naive_solver. Qed.

Lemma wp_mapping {A} (m : M S A) (Q : S -> result A -> Prop) s :
  wp m (fun s' r => Q s' (map_err mapErr r)) s -> wp (mapping m) Q s.
Proof. unfold wp, mapping. by destruct (m s). Qed.

Lemma Adapter_Get_law tenant id s :
  ws_inv s ->
  wp (Adapter_Get tenant id) (fun s' r => s' = s /\
    (forall b, r = Ok b -> box_view s !! id = Some b) /\
    (ws_healthy s -> forall b, box_view s !! id = Some b -> b_TenantID b = tenant -> r = Ok b) /\
    (ws_healthy s -> box_view s !! id = None -> r = Err ErrNotFound)) s.
Proof.
  intros Hi. unfold Adapter_Get. wp_step. apply wp_mapping. eapply wp_mono; [by apply ws_Get_spec|].
  intros s' r (-> & Hok & Hsome & Hnone). destruct r as [w|e]; simpl.
  - destruct (Hok w eq_refl) as [Hv Ht]. apply wp_ret. split_and!; [done|..].
    + intros b [= <-]. apply box_view_lookup. eauto.
    + intros Hh b (w' & Hv' & <-)%box_view_lookup _. congruence.
    + intros _ Hn. unfold box_view in Hn. rewrite lookup_fmap, Hv in Hn. done.
  - split_and!; [done|done| |].
    + intros Hh b (w & Hv & <-)%box_view_lookup Ht. by specialize (Hsome Hh w Hv Ht).
    + intros Hh Hn. assert (Err e = Err store_ErrNotFound :> result Workspace) as [= ->]; [|done].
      apply Hnone; [done|]. intros w Hv. unfold box_view in Hn. by rewrite lookup_fmap, Hv in Hn.
Qed.

Lemma Adapter_List_law tenant s :
  ws_inv s ->
  wp (Adapter_List tenant) (fun s' r => s' = s /\
    (forall l, r = Ok l -> NoDup (b_ID <$> l) /\
       forall b, b ∈ l <-> box_view s !! b_ID b = Some b /\ (tenant = ""%string \/ b_TenantID b = tenant)) /\
    (ws_healthy s -> is_ok r = true)) s.
Proof.
  intros Hi. unfold Adapter_List. wp_step.
  assert (Hlist : wp (if bool_decide (tenant = ""%string) then ws_ListAll else ws_ListWorkspaces tenant)
    (fun s' r => s' = s /\ (forall l, r = Ok l -> NoDup (b_ID ∘ w_Box <$> l) /\
       forall w, w ∈ l <-> ws_view s !! b_ID (w_Box w) = Some w /\ (tenant = ""%string \/ b_TenantID (w_Box w) = tenant)) /\
       (ws_healthy s -> is_ok r = true)) s).
  { case_bool_decide as Ht.
    - eapply wp_mono; [by apply ws_ListAll_spec|]. intros s' r (-> & Hl & Hh). split_and!; [done| |done].
      intros l Hr. destruct (Hl l Hr) as [Hnd Hin]. split; [done|]. intros w. rewrite Hin. naive_solver.
    - eapply wp_mono; [by apply ws_List_spec|]. intros s' r (-> & Hl & Hh). split_and!; [done| |done].
      intros l Hr. destruct (Hl l Hr) as [Hnd Hin]. split; [done|]. intros w. rewrite Hin. naive_solver. }
  eapply wp_mono; [exact Hlist|]. intros s' r (-> & Hl & Hh). destruct r as [l|e]; [|split_and!; done].
  destruct (Hl l eq_refl) as [Hnd Hin]. apply wp_ret. split_and!; [done| |done]. intros l' [= <-]. split.
  - by rewrite <- list_fmap_compose.
  - intros b. rewrite list_elem_of_fmap, box_view_lookup. split.
    + intros (w & -> & [Hv Ht]%Hin). eauto.
    + intros [(w & Hv & <-) Ht]. exists w. split; [done|]. by apply Hin.
Qed.

Lemma new_storable b : storable b -> w_storable (mkWorkspace b [] "" []).
Proof. intros Hs. split_and!; [done|constructor..]. Qed.

Lemma Adapter_Create_law b s :
  ws_inv s -> storable b ->
  wp (Adapter_Create b) (fun s' r => ws_inv s' /\ (ws_healthy s -> ws_healthy s') /\
    match r with
    | Ok _ => box_view s !! b_ID b = None /\ exists b', b' ≡ b /\ box_view s' = <[b_ID b := b']> (box_view s)
    | Err _ => box_view s' = box_view s
    end) s.
Proof.
  intros Hi Hs. eapply wp_mono; [by apply ws_Create_spec, new_storable|].
  intros s' r (Hi' & Hh & Hr). split_and!; [done..|]. destruct r as [[]|e].
  - destruct Hr as [Hn Hv]. simpl in *. unfold box_view. rewrite lookup_fmap, Hn, Hv, fmap_insert. split; [done|].
    exists (kept_box b). split; [apply kept_box_equiv|done].
  - unfold box_view. by rewrite Hr.
Qed.

(** What [Adapter_Update] does to the workspace behind the box. *)
Lemma Adapter_Update_workspace now b s :
  ws_inv s -> storable b -> in_range now ->
  (forall old, box_view s !! b_ID b = Some old -> same_key old b) ->
  wp (Adapter_Update now b) (fun s' r => ws_inv s' /\ (ws_healthy s -> ws_healthy s') /\
    match r with
    | Ok b2 => b2 = b /\ exists w, ws_view s !! b_ID b = Some w /\
                ws_view s' = <[b_ID b := kept (w <| w_Box := b <| b_UpdatedAt := now |> |>)]> (ws_view s)
    | Err _ => ws_view s' = ws_view s /\ ~ (ws_healthy s /\ is_Some (ws_view s !! b_ID b))
    end) s.
Proof.
  intros Hi Hs Hnow Hkey. unfold Adapter_Update. wp_step. apply wp_mapping.
  eapply wp_mono; [by apply ws_Get_spec|]. intros s' r (-> & Hok & Hsome & Hnone). destruct r as [w|e]; simpl.
  2:{ split_and!; [done..|]. intros [Hh [w Hw]]. destruct (decide (b_TenantID (w_Box w) = b_TenantID b)) as [Ht|Ht].
      - by specialize (Hsome Hh w Hw Ht).
      - destruct Ht. apply (Hkey (w_Box w)). apply box_view_lookup. eauto. }
  destruct (Hok w eq_refl) as [Hv _]. destruct (ws_view_id _ _ _ Hi Hv) as (Hid & (_ & Hpi & Hpe) & _).
  wp_step. eapply wp_mono; [apply ws_Update_spec; simpl; [done|split_and!; done|done|]|].
  { intros old Hold. assert (old = w) as -> by congruence. apply Hkey. apply box_view_lookup. eauto. }
  intros s' [w2|e] (Hi' & Hh & Hr); simpl in Hr.
  - apply wp_ret. destruct Hr as (_ & _ & Hv'). split_and!; [done..|]. by exists w.
  - done.
Qed.

Lemma Adapter_Update_law now b s :
  ws_inv s -> storable b -> in_range now ->
  (forall old, box_view s !! b_ID b = Some old -> same_key old b) ->
  wp (Adapter_Update now b) (fun s' r => ws_inv s' /\ (ws_healthy s -> ws_healthy s') /\
    match r with
    | Ok b2 => b2 ≡ b /\ storable b2 /\
               exists b', b' ≡ b /\ box_view s' = alter (fun _ => b') (b_ID b) (box_view s)
    | Err _ => box_view s' = box_view s /\ ~ (ws_healthy s /\ is_Some (box_view s !! b_ID b))
    end) s.
Proof.
  intros Hi Hs Hnow Hkey. eapply wp_mono; [by apply Adapter_Update_workspace|].
  intros s' r (Hi' & Hh & Hr). split_and!; [done..|]. unfold box_view. destruct r as [b2|e].
  - destruct Hr as (-> & w & Hw & Hv). split_and!; [done|done|]. exists (kept_box (b <| b_UpdatedAt := now |>)).
    split; [by constructor|]. rewrite Hv, fmap_insert. apply map_eq. intros j.
    rewrite lookup_insert, lookup_alter. case_decide; [subst j|done]. by rewrite lookup_fmap, Hw.
  - destruct Hr as [-> Hr]. split; [done|]. by rewrite lookup_fmap, fmap_is_Some.
Qed.

Lemma Adapter_Delete_law tenant id s :
  ws_inv s ->
  wp (Adapter_Delete tenant id) (fun s' r => ws_inv s' /\ (ws_healthy s -> ws_healthy s') /\
    match r with
    | Ok _ => box_view s' = delete id (box_view s) \/
              (box_view s' = box_view s /\ exists b, box_view s !! id = Some b /\ b_TenantID b <> tenant)
    | Err _ => box_view s' = box_view s /\ ~ ws_healthy s
    end) s.
Proof.
  intros Hi. eapply wp_mono; [by apply ws_Delete_spec|]. intros s' r (Hi' & Hh & Hr). split_and!; [done..|].
  unfold box_view. destruct r as [[]|e].
  - destruct Hr as [->|(-> & w & Hw & Ht)]; [left; by rewrite fmap_delete|right]. split; [done|].
    exists (w_Box w). by rewrite lookup_fmap, Hw.
  - by destruct Hr as [-> ?].
Qed.

#[export] Instance boxstore_spec : BoxStoreSpec S.
Proof.
  refine {| st_view := box_view; st_inv := ws_inv; st_healthy := ws_healthy |}.
  - intros s id b Hi (w & Hv & <-)%box_view_lookup. by destruct (ws_view_id _ _ _ Hi Hv) as (? & (? & _) & _).
  - intros s i j b c Hi (w & Hv & <-)%box_view_lookup (v & Hv' & <-)%box_view_lookup Ht _ Hn.
    by eapply ws_view_name.
  - intros. by apply Adapter_Get_law.
  - intros. by apply Adapter_List_law.
  - intros. by apply Adapter_Create_law.
  - intros. by apply Adapter_Update_law.
  - intros. by apply Adapter_Delete_law.
Defined.

Lemma adapter_view_lookup s id b : st_view s !! id = Some b <-> exists w, ws_view s !! id = Some w /\ w_Box w = b.
Proof. apply box_view_lookup. Qed.

(** Writing a box through the adapter preserves the dev-environment's
    decorations: after a successful [Update] the workspace has the new box and
    keeps its ingress ports, home and endpoints; no other workspace changes;
    and with the database up an [Update] of a stored box cannot fail. *)
Theorem Adapter_Update_decorations now b s s' r :
  ws_inv s -> storable b -> in_range now ->
  (forall old, st_view s !! b_ID b = Some old -> same_key old b) ->
  Adapter_Update now b s = (s', r) ->
  ws_inv s' /\ (forall id, id <> b_ID b -> ws_view s' !! id = ws_view s !! id) /\
  match r with
  | Ok _ => exists w w', ws_view s !! b_ID b = Some w /\ ws_view s' !! b_ID b = Some w' /\ w_Box w' ≡ b /\
              w_Ingress w' = w_Ingress w /\ w_HomeMount w' = w_HomeMount w /\ w_Endpoints w' = w_Endpoints w
  | Err _ => ws_view s' = ws_view s /\ ~ (ws_healthy s /\ is_Some (ws_view s !! b_ID b))
  end.
Proof.
  intros Hi Hs Hnow Hkey Hu.
  destruct (wp_all _ _ _ _ _ Hu (Adapter_Update_workspace now b s Hi Hs Hnow Hkey)) as (Hi' & _ & Hr).
  split; [done|]. destruct r as [b2|e].
  - destruct Hr as (_ & w & Hw & Hv). rewrite Hv. split; [intros; by rewrite lookup_insert_ne|].
    exists w, (kept (w <| w_Box := b <| b_UpdatedAt := now |> |>)). rewrite lookup_insert_eq.
    by split_and!; try done; constructor.
  - split; [|done]. by destruct Hr as [-> _].
Qed.
End adapter_spec.

(** * The hooks *)
Section hooks_spec.
Context {S G I : Type} `{WorkspaceStoreSpec S} `{Storage G}.
Variable ingress : option (Ingress I).
Variable cfg : HooksConfig.
Notation HM := (M (S * (G * I))).

(** What the hooks rely on of an ingress provider: asked with valid text, it
    answers under the name it was asked for, with valid text and a port that
    fits. *)
Definition exposes_ok (ig : Ingress I) : Prop := forall req i,
  utf8 (er_WorkspaceID req) = true -> utf8 (er_Name req) = true -> in_int32 (er_Port req) ->
  wp (ig_Expose req) (fun _ r => forall ep, r = Ok ep ->
    pe_Name ep = er_Name req /\ endpoint_ok (mkEndpoint (pe_Name ep) (pe_URL ep) (pe_Port ep) (pe_Ref ep))) i.
Hypothesis ingress_ok : forall ig, ingress = Some ig -> exposes_ok ig.

Lemma untouched_refl (s : S) : ws_inv s -> untouched s s.
Proof. intros Hi. by split_and!. Qed.

Lemma wp_at_store {A} (m : M S A) (Q : S * (G * I) -> result A -> Prop) s h :
  wp m (fun s' r => Q (s', h) r) s -> wp (at_store m) Q (s, h).
Proof. intros Hm. unfold at_store. by apply wp_zoom. Qed.

Lemma wp_at_storage {A} (m : M G A) (Q : S * (G * I) -> result A -> Prop) s h :
  (forall h' r, Q (s, h') r) -> wp (at_storage m) Q (s, h).
Proof. intros HQ. destruct h as [g i]. unfold at_storage. apply wp_zoom, wp_intro. intros. apply HQ. Qed.

Lemma wp_at_ingress {A} (m : M I A) (Q : S * (G * I) -> result A -> Prop) s g i :
  wp m (fun i' r => Q (s, (g, i')) r) i -> wp (at_ingress m) Q (s, (g, i)).
Proof. intros Hm. unfold at_ingress. by apply wp_zoom. Qed.

(** Writing back a workspace read from the store with only its decorations
    changed. *)
Lemma wp_decorate now w v s (Q : S -> result Workspace -> Prop) :
  ws_inv s -> in_range now -> ws_view s !! b_ID (w_Box w) = Some w -> w_Box v = w_Box w -> w_storable v ->
  (forall s' r, untouched s s' ->
    match r with
    | Ok _ => exists v', ws_view s' = <[b_ID (w_Box w) := v']> (ws_view s) /\ w_Ingress v' = w_Ingress v /\
                w_HomeMount v' = w_HomeMount v /\ w_Endpoints v' = w_Endpoints v /\ w_Box v' ≡ w_Box w
    | Err _ => ws_view s' = ws_view s /\ ~ ws_healthy s
    end -> Q s' r) ->
  wp (ws_UpdateWorkspace now v) Q s.
Proof.
  intros Hi Hnow Hv Hbox Hst HQ. eapply wp_mono; [apply ws_Update_spec; [done|done|done|]|].
  { rewrite Hbox. intros old Hold. assert (old = w) as -> by congruence. unfold w_same_key. by rewrite Hbox. }
  intros s' r (Hi' & Hh & Hr). rewrite Hbox in Hr. apply HQ.
  - split; [done|]. split; [|done]. simpl. unfold box_view. destruct r as [v2|e]; [|by destruct Hr as [-> _]].
    destruct Hr as (_ & _ & ->). rewrite fmap_insert. intros j. rewrite lookup_insert. case_decide; [subst j|done].
    rewrite lookup_fmap, Hv. simpl. constructor. by constructor.
  - destruct r as [v2|e].
    + destruct Hr as (_ & _ & ->). eexists. split; [done|]. split_and!; [done..|]. simpl. by constructor.
    + destruct Hr as [-> Hn]. split; [done|]. intros Hh'. apply Hn. split; [done|]. eauto.
Qed.

Lemma PreProvision_frame b now s h :
  ws_inv s -> in_range now -> wp (PreProvision (I := I) cfg b now) (fun '(s', _) _ => untouched s s') (s, h).
Proof.
  intros Hi Hnow. unfold PreProvision. wp_step. wp_step. apply wp_at_storage. intros h' [mount|e]; simpl; [|by apply untouched_refl].
  wp_step. apply wp_at_store. eapply wp_mono; [by apply ws_Get_spec|]. intros s' r (-> & Hok & _).
  destruct r as [w|e]; [|by apply untouched_refl]. destruct (Hok w eq_refl) as [Hv _].
  destruct (ws_view_id _ _ _ Hi Hv) as (Hid & (Hst & Hp & He) & _). rewrite <- Hid in Hv.
  wp_step. apply wp_at_store. eapply (wp_decorate now w); [done|done|done|done|done|].
  intros s' [w'|e] Hu _; [by apply wp_ret|done].
Qed.

(** The loop only adds endpoints for ports that had none. *)
Lemma wp_expose_missing ig have l w changed s g i :
  exposes_ok ig -> utf8 (b_ID (w_Box w)) = true -> Forall port_ok l -> Forall endpoint_ok (w_Endpoints w) ->
  wp (expose_missing (S := S) (G := G) ig have l w changed) (fun '(s', (g', _)) r => s' = s /\ g' = g /\ forall w' c', r = Ok (w', c') ->
    exists new, w' = w <| w_Endpoints := w_Endpoints w ++ new |> /\ Forall endpoint_ok new /\
      ep_Name <$> new = List.filter (fun n => negb (have n)) (ip_Name <$> l) /\
      c' = changed || negb (bool_decide (new = []))) (s, (g, i)).
Proof.
  intros Hig. revert w changed i. induction l as [|p l IH]; intros w changed i Hid Hl He.
  - apply wp_ret. split_and!; [done|done|]. intros w' c' [= <- <-]. exists []. rewrite app_nil_r, orb_false_r. by destruct w.
  - inversion_clear Hl as [|? ? [Hp1 Hp2] Hl']. simpl. destruct (have (ip_Name p)) eqn:Hhave; [by apply IH|]. simpl.
    wp_step. wp_step. apply wp_at_ingress. eapply wp_mono; [by apply Hig|]. intros i' [ep|e] Hep; simpl; [|done].
    destruct (Hep ep eq_refl) as [Hname Hepok]. eapply wp_mono; [apply IH; [done|done|]|].
    { simpl. apply Forall_app. split; [done|]. constructor; [done|constructor]. }
    intros [s' [g' i'']] r (-> & -> & Hr). split_and!; [done|done|]. intros w' c' ->. destruct (Hr w' c' eq_refl) as (new & -> & Hn & Hnames & ->).
    exists (mkEndpoint (pe_Name ep) (pe_URL ep) (pe_Port ep) (pe_Ref ep) :: new). split_and!.
    + destruct w. simpl. by rewrite <- app_assoc.
    + by constructor.
    + rewrite fmap_cons, Hnames. simpl. by rewrite Hname.
    + by rewrite !orb_true_r.
Qed.

(** What [PostRunning] does to the store. *)
Lemma PostRunning_effect ig b now s h :
  ingress = Some ig -> ws_inv s -> in_range now ->
  wp (PostRunning (G := G) ingress b now) (fun '(s', _) r => untouched s s' /\
    (r = Ok tt -> exists w, ws_view s !! b_ID b = Some w /\ b_TenantID (w_Box w) = b_TenantID b /\
      exists w', ws_view s' !! b_ID b = Some w' /\ w_Box w' ≡ w_Box w /\ w_Ingress w' = w_Ingress w /\
        w_HomeMount w' = w_HomeMount w /\
        exists new, w_Endpoints w' = w_Endpoints w ++ new /\
          ep_Name <$> new = List.filter (fun n => negb (has_endpoint w n)) (ip_Name <$> w_Ingress w))) (s, h).
Proof.
  intros Hig Hi Hnow. unfold PostRunning. rewrite Hig. wp_step. apply wp_at_store.
  eapply wp_mono; [by apply ws_Get_spec|]. intros s' r (-> & Hok & _).
  destruct r as [w|e]; [|split; [by apply untouched_refl|done]]. destruct (Hok w eq_refl) as [Hv Ht].
  pose proof (ws_view_id _ _ _ Hi Hv) as (Hid & (Hst & Hp & He) & _).
  destruct (w_Ingress w) as [|p ps] eqn:Hin.
  { apply wp_ret. split; [by apply untouched_refl|]. intros _. exists w. split_and!; [done|done|]. exists w.
    split_and!; [done|done|done|done|]. exists []. by rewrite app_nil_r, Hin. }
  rewrite <- Hin in Hp |- *. clear p ps Hin. destruct h as [g i]. wp_step.
  eapply wp_mono; [apply wp_expose_missing; [by apply ingress_ok|by apply Hst|done|done]|].
  intros [s' [g' i']] r (-> & -> & Hr). destruct r as [[w' c']|e]; [|split; [by apply untouched_refl|done]].
  destruct (Hr w' c' eq_refl) as (new & -> & Hnew & Hnames & ->). simpl. clear Hr.
  destruct new as [|e new]; simpl.
  { apply wp_ret. split; [by apply untouched_refl|]. intros _. exists w. split_and!; [done|done|]. exists w.
    split_and!; [done..|]. exists []. by rewrite app_nil_r. }
  rewrite <- Hid in Hv. wp_step. apply wp_at_store. eapply (wp_decorate now w); [done|done|done|done| |].
  { split_and!; simpl; [done|done|by apply Forall_app]. }
  intros s' [w2|e2] Hu Hr2; [|by split].
  destruct Hr2 as (v' & Hv' & V1 & V2 & V3 & V4). apply wp_ret. split; [done|]. intros _.
  rewrite Hid in Hv. exists w. split_and!; [done|done|]. exists v'. rewrite Hv', Hid, lookup_insert_eq.
  split_and!; [done..|]. by exists (e :: new).
Qed.

Lemma PostRunning_frame b now s h :
  ws_inv s -> in_range now -> wp (PostRunning (G := G) ingress b now) (fun '(s', _) _ => untouched s s') (s, h).
Proof.
  intros Hi Hnow. assert (ingress = None \/ exists ig, ingress = Some ig) as [Hn|[ig Hig]] by (clear; destruct ingress; eauto).
  - unfold PostRunning. rewrite Hn. by apply wp_ret, untouched_refl.
  - eapply wp_mono; [by apply (PostRunning_effect ig)|]. by intros [s' h'] r [? _].
Qed.

Lemma PreDestroy_frame b now s h :
  ws_inv s -> wp (PreDestroy (G := G) ingress b now) (fun '(s', _) _ => untouched s s') (s, h).
Proof.
  intros Hi. unfold PreDestroy. destruct ingress as [ig|]; [|by apply wp_ret, untouched_refl].
  wp_step. wp_step. apply wp_at_store. eapply wp_mono; [by apply ws_Get_spec|]. intros s' r (-> & _).
  destruct r as [w|e]; [|by apply wp_ret, untouched_refl].
  generalize (w_Endpoints w) as l. intros l. revert h. induction l as [|e l IH]; intros [g i]; [by apply wp_ret, untouched_refl|].
  cbn [unexpose_all]. wp_step. wp_step. apply wp_at_ingress, wp_intro. intros i' r _. apply IH.
Qed.

Lemma hooks_ok : hooks_frame (NewHooks (G := G) ingress cfg).
Proof.
  intros b now s h Hi Hnow. split_and!; [by apply PreProvision_frame|by apply PostRunning_frame|by apply PreDestroy_frame].
Qed.

(** The dev-environment's hooks keep to the frame the reconciler relies
    on: whether they succeed or fail, and at whatever point, provisioning a
    home, exposing endpoints and unexposing them leave every box of the store
    as it was (up to its update stamp) and the store's invariant intact, so
    everything proved of the reconciler holds for hopboxd. *)
Theorem NewHooks_frame : hooks_frame (NewHooks (G := G) ingress cfg).
Proof. apply hooks_ok. Qed.

Lemma has_endpoint_names w n : has_endpoint w n = bool_decide (n ∈ ep_Name <$> w_Endpoints w).
Proof.
  unfold has_endpoint. induction (w_Endpoints w) as [|e l IH]; [done|]. simpl. rewrite IH.
  apply eq_bool_prop_intro. rewrite orb_True, !bool_decide_spec, elem_of_cons. naive_solver.
Qed.

(** With every desired port served, there is nothing to do. *)
Lemma PostRunning_settled ig b now s h w :
  ingress = Some ig -> ws_inv s -> ws_healthy s -> ws_view s !! b_ID b = Some w -> b_TenantID (w_Box w) = b_TenantID b ->
  (forall p, p ∈ w_Ingress w -> has_endpoint w (ip_Name p) = true) ->
  PostRunning (G := G) ingress b now (s, h) = ((s, h), Ok tt).
Proof.
  intros Hig Hi Hh Hv Ht Hall.
  assert (Hget : ws_GetWorkspace (b_TenantID b) (b_ID b) s = (s, Ok w)).
  { destruct (ws_GetWorkspace (b_TenantID b) (b_ID b) s) as [s2 r2] eqn:E.
    destruct (wp_all _ _ _ _ _ E (ws_Get_spec (b_TenantID b) (b_ID b) s Hi)) as (-> & _ & Hsome & _).
    f_equal. by apply Hsome. }
  assert (Hloop : forall l, (forall p, p ∈ l -> has_endpoint w (ip_Name p) = true) ->
    expose_missing (S := S) (G := G) ig (has_endpoint w) l w false (s, h) = ((s, h), Ok (w, false))).
  { induction l as [|q l IH]; intros Hl; [done|]. simpl. rewrite (Hl q) by left. apply IH. intros. apply Hl. by right. }
  pose proof (Hloop _ Hall) as Hdone. unfold PostRunning. rewrite Hig.
  rewrite (bind_eq_ok _ _ _ (s, h) w) by (unfold at_store, zoom; simpl; by rewrite Hget). cbv beta.
  destruct (w_Ingress w) as [|p ps]; [done|]. by rewrite (bind_eq_ok _ _ _ _ _ Hdone).
Qed.

(** C13. Endpoint reconciliation reaches what is desired and then rests: a
    [PostRunning] that succeeds leaves an endpoint for every desired ingress
    port, keeps the endpoints there were and changes nothing else of the
    workspace; and with the database up another one succeeds without writing
    or asking the ingress provider again. *)
Theorem PostRunning_converges ig b now s h s' h' :
  ingress = Some ig -> ws_inv s -> in_range now ->
  PostRunning (G := G) ingress b now (s, h) = ((s', h'), Ok tt) ->
  exists w w', ws_view s !! b_ID b = Some w /\ ws_view s' !! b_ID b = Some w' /\
    w_Box w' ≡ w_Box w /\ w_Ingress w' = w_Ingress w /\ w_HomeMount w' = w_HomeMount w /\
    (exists new, w_Endpoints w' = w_Endpoints w ++ new) /\
    (forall p, p ∈ w_Ingress w -> has_endpoint w' (ip_Name p) = true) /\
    (ws_healthy s -> forall now', PostRunning ingress b now' (s', h') = ((s', h'), Ok tt)).
Proof.
  intros Hig Hi Hnow Hp. destruct (wp_all _ _ _ _ _ Hp (PostRunning_effect ig b now s h Hig Hi Hnow)) as [Hu Heff].
  destruct (Heff eq_refl) as (w & Hw & Ht & w' & Hw' & Hb & Hin & Hh & new & He & Hnames).
  assert (Hall : forall p, p ∈ w_Ingress w -> has_endpoint w' (ip_Name p) = true).
  { intros p Hpin. rewrite has_endpoint_names, He, fmap_app, Hnames. apply bool_decide_eq_true_2.
    destruct (has_endpoint w (ip_Name p)) eqn:E.
    - rewrite has_endpoint_names in E. apply elem_of_app. left. by go_bool.
    - apply elem_of_app. right. apply elem_of_filter_bool. split; [by rewrite E|by apply list_elem_of_fmap_2]. }
  exists w, w'. split_and!; [done..|by exists new|done|]. intros Hhealthy now'. destruct Hu as (Hi' & _ & Hh').
  apply (PostRunning_settled ig b now' s' h' w'); try done; [by apply Hh'|by rewrite Hb|by rewrite Hin].
Qed.
End hooks_spec.
