(* ===== verification/Providers.v ===== *)
(** The in-tree providers that keep their state themselves
    ([providers/ingress/subdomain], [providers/identity/static],
    [providers/identity/oidc], [providers/metering/staticquota],
    [providers/build/prebuilt], [providers/storage/localfs]), each as an
    instance of its contract of [Ports].  The token check of go-oidc is
    the class [GoOidc]; the operating system's file operations are arguments. *)
From stdpp Require Import base option list strings gmap fin_maps.
From Stdlib Require Import Ascii ZArith Lia.
From S2P Require Import Prelude GoStrings GoPath Json Ports.
Local Open Scope Z_scope.

(** * Subdomain ingress: the gateway's route table *)
Module Subdomain.
Record Route : Type := mkRoute {
  rt_Host : string;
  rt_WorkspaceID : string;
  rt_Port : Z;
  rt_Name : string
}.
(** [Provider]: the routes by gateway host. *)
Notation Provider := (gmap string Route).

Section subdomain.
Variable zone : string.  (* as [New] keeps it *)
Definition New (z : string) : string * Provider := (trim_prefix "." z, ∅).

Definition host (workspaceID name : string) : string := name +:+ "-" +:+ workspaceID +:+ "." +:+ zone.

Definition Expose (r : ExposeRequest) : M Provider PortEndpoint :=
  if bool_decide (er_WorkspaceID r = ""%string) || bool_decide (er_Name r = ""%string)
  then throw (Errorf "subdomain: workspace_id and name are required")
  else if er_Port r <=? 0
  then throw (Errorf ("subdomain: port must be > 0, got " +:+ itoa (er_Port r)))
  else
    let h := host (er_WorkspaceID r) (er_Name r) in
    modify (fun p => <[h := mkRoute h (er_WorkspaceID r) (er_Port r) (er_Name r)]> p) ;;
    mret (mkPortEndpoint h ("https://" +:+ h) (er_Name r) (er_Port r)).

Definition Unexpose (ref : string) : M Provider unit := modify (delete ref).

Definition Lookup (h : string) (p : Provider) : option Route := p !! h.

#[export] Instance subdomain_ingress : Ingress Provider := {| ig_Expose := Expose; ig_Unexpose := Unexpose |}.

(** ** Routes stay with their workspace *)
Inductive op : Type := OExpose (r : ExposeRequest) | OUnexpose (ref : string).
Definition run_op (p : Provider) (o : op) : Provider :=
  match o with OExpose r => fst (Expose r p) | OUnexpose ref => fst (Unexpose ref p) end.

Definition routes_ok (p : Provider) : Prop :=
  forall h rt, p !! h = Some rt ->
    rt_Host rt = h /\ h = host (rt_WorkspaceID rt) (rt_Name rt) /\ 0 < rt_Port rt /\
    rt_WorkspaceID rt <> ""%string /\ rt_Name rt <> ""%string /\ contains_byte "-" (rt_WorkspaceID rt) = false.

Definition op_ok (o : op) : Prop :=
  match o with OExpose r => contains_byte "-" (er_WorkspaceID r) = false | OUnexpose _ => True end.

Lemma run_op_ok p o : op_ok o -> routes_ok p -> routes_ok (run_op p o).
Proof.
  intros Ho Hp. destruct o as [r|ref]; simpl.
  - unfold Expose. destruct (_ || _) eqn:E; [done|]. destruct (er_Port r <=? 0) eqn:E2; [done|]. go_bool.
    intros h rt. simpl. rewrite lookup_insert. case_decide as Hh; [|by apply Hp].
    intros [= <-]. subst h. by split_and!.
  - intros h rt. rewrite lookup_delete_Some. intros [_ ?]. by apply Hp.
Qed.

(** The last dash of a host is the one before the id. *)
Lemma host_inj id n id' n' :
  contains_byte "-" id = false -> contains_byte "-" id' = false -> host id n = host id' n' -> id = id' /\ n = n'.
Proof.
  unfold host. intros Hid Hid' He.
  assert (He' : (n +:+ String "-" id) = (n' +:+ String "-" id')).
  { apply (string_app_inv_r _ _ ("." +:+ zone)). rewrite <- !string_app_assoc, !string_app_cons.
    exact He. }
  pose proof (cut_last_found "-" n id Hid) as H1. pose proof (cut_last_found "-" n' id' Hid') as H2.
  rewrite He' in H1. rewrite H1 in H2. by simplify_eq.
Qed.

(** The gateway never crosses workspaces: whatever ports were exposed and
    unexposed (for workspaces whose ids have no dash, as generated ids do not),
    looking up the host of an endpoint finds that endpoint of that workspace or
    nothing, and every route leads to a positive port. *)
Theorem Lookup_isolated ops id name rt :
  Forall op_ok ops -> contains_byte "-" id = false ->
  Lookup (host id name) (foldl run_op ∅ ops) = Some rt ->
  rt_WorkspaceID rt = id /\ rt_Name rt = name /\ 0 < rt_Port rt.
Proof.
  intros Hops Hid Hl. assert (Hok : routes_ok (foldl run_op ∅ ops)).
  { assert (Hstart : routes_ok ∅) by (by intros h r; rewrite lookup_empty).
    revert Hstart. generalize (∅ : Provider). clear Hl. induction Hops as [|o ops Ho _ IH]; simpl; [done|].
    intros p Hp. by apply IH, run_op_ok. }
  destruct (Hok _ _ Hl) as (_ & Hh & Hport & _ & _ & Hd). apply host_inj in Hh as [-> ->]; done.
Qed.
End subdomain.

Lemma Lookup_isolated_witness :
  let ops := [OExpose (mkExposeRequest "0a1b" "app" 8080 "subdomain" "t"); OExpose (mkExposeRequest "ff00" "app" 3000 "subdomain" "t");
              OUnexpose "app-ff00.gw.example.com"]%string in
  let rt := mkRoute "app-0a1b.gw.example.com" "0a1b" 8080 "app" in
  rt_WorkspaceID rt = "0a1b"%string /\ rt_Name rt = "app"%string /\ 0 < rt_Port rt.
Proof.
  intros ops rt. apply (Lookup_isolated "gw.example.com" ops "0a1b" "app" rt).
  - repeat constructor.
  - reflexivity.
  - vm_compute. reflexivity.
Defined.
End Subdomain.

(** * Static identity: API keys *)
Module Static.
(** [Provider]: principals by API key. *)
Notation Provider := (gmap string Principal).

Definition privileged (role : string) : bool :=
  bool_decide (role = "system"%string) || bool_decide (role = "tenant-admin"%string) || bool_decide (role = "owner"%string).

Definition Authenticate (c : Credential) : M Provider Principal :=
  if negb (bool_decide (cr_Scheme c = ""%string)) && negb (bool_decide (cr_Scheme c = "api-key"%string))
  then throw (Errorf ("static: unsupported credential scheme " +:+ quote (cr_Scheme c) +:+ " (want api-key)"))
  else if bool_decide (cr_Value c = ""%string) then throw (Errorf "static: empty credential")
  else p ← gets (fun keys => keys !! cr_Value c);
       match p with None => throw (Errorf "static: unknown api key") | Some pr => mret pr end.

Definition Authorize (r : AccessRequest) : M Provider AccessDecision :=
  if existsb privileged (pp_Roles (ar_Principal r)) then mret (mkDecision true "")
  else mret (mkDecision false "principal lacks a privileged role (owner|tenant-admin|system)").

#[export] Instance static_identity : Identity Provider := {| id_Authenticate := Authenticate; id_Authorize := Authorize |}.
End Static.

(** * OIDC identity: verified claims become a principal *)
Module Oidc.
Record Claims : Type := mkClaims { cl_Subject : string; cl_Email : string; cl_Groups : list string }.
Record Config : Type := mkConfig { oc_TenantID : string; oc_PrincipalClaim : string; oc_AdminGroups : list string }.

Definition groupsIntersect (have want : list string) : bool := existsb (fun w => bool_decide (w ∈ have)) want.

Section oidc.
Context {W : Type}.
(** The verifier of raw tokens ([Verifier]): signature, issuer, audience,
    expiry. *)
Variable Verify : string -> M W Claims.
Variable cfg : Config.

(** [New] defaults the principal claim. *)
Definition principal_claim : string :=
  if bool_decide (oc_PrincipalClaim cfg = ""%string) then "sub"%string else oc_PrincipalClaim cfg.

Definition Authenticate (c : Credential) : M W Principal :=
  if negb (bool_decide (cr_Scheme c = ""%string)) && negb (bool_decide (cr_Scheme c = "oidc-token"%string))
     && negb (bool_decide (cr_Scheme c = "api-key"%string))
  then throw (Errorf ("oidc: unsupported credential scheme " +:+ quote (cr_Scheme c)))
  else if bool_decide (cr_Value c = ""%string) then throw (Errorf "oidc: empty token")
  else
    claims ← wrapping "oidc" (Verify (cr_Value c));
    let id := if bool_decide (principal_claim = "email"%string) then cl_Email claims else cl_Subject claims in
    if bool_decide (id = ""%string) then throw (Errorf ("oidc: token missing " +:+ quote principal_claim +:+ " claim"))
    else mret (mkPrincipal id (oc_TenantID cfg) (cl_Email claims)
                (["owner"%string] ++ if groupsIntersect (cl_Groups claims) (oc_AdminGroups cfg) then ["tenant-admin"%string] else [])).

Definition Authorize (r : AccessRequest) : M W AccessDecision :=
  if existsb Static.privileged (pp_Roles (ar_Principal r)) then mret (mkDecision true "")
  else mret (mkDecision false "principal lacks a privileged role").

Definition oidc_identity : Identity W := {| id_Authenticate := Authenticate; id_Authorize := Authorize |}.
End oidc.

(** [NewVerifier] and the verifier it makes over go-oidc: discovery of the
    issuer, and the check of a raw token against a configuration, which yields
    the document of its claims. *)
Record VerifierConfig : Type := mkVerifierConfig { vc_ClientID : string; vc_SkipClientIDCheck : bool }.
Definition verifier_config (audience : string) : VerifierConfig :=
  mkVerifierConfig audience (bool_decide (audience = ""%string)).
Class GoOidc (D : Type) : Type := {
  go_NewProvider : string -> M D unit;
  go_Verify : VerifierConfig -> string -> M D json
}.
Definition claims_fields : Fields Claims :=
  [("sub", str_field (fun s c => mkClaims s (cl_Email c) (cl_Groups c)));
   ("email", str_field (fun s c => mkClaims (cl_Subject c) s (cl_Groups c)));
   ("groups", strs_field (fun l c => mkClaims (cl_Subject c) (cl_Email c) l))]%string.
Definition NewVerifier {D} `{GoOidc D} (issuer audience : string) : M D VerifierConfig :=
  wrapping ("oidc: discover " +:+ issuer) (go_NewProvider issuer) ;;
  mret (verifier_config audience).
Definition live_Verify {D} `{GoOidc D} (v : VerifierConfig) (raw : string) : M D Claims :=
  tok ← go_Verify v raw;
  of_result (decode_struct claims_fields tok (mkClaims "" "" [])).

(** Without an audience, a token made for any other client of the issuer is as
    good as one made for this control plane: here [app:user] stands for a token
    the issuer signed for [app]. *)
#[local] Instance demo_issuer : GoOidc unit := {|
  go_NewProvider _ := mret tt;
  go_Verify v raw :=
    let '(aud, sub, _) := cut ":" raw in
    if vc_SkipClientIDCheck v || bool_decide (aud = vc_ClientID v)
    then mret (JObj [("sub"%string, JStr sub)]) else throw (Errorf "oidc: expected audience")
|}.
Example any_audience :
  (Authenticate (live_Verify (verifier_config "")) (mkConfig "t" "" []) (mkCredential "oidc-token" "other:eve") tt).2
    = Ok (mkPrincipal "eve" "t" "" ["owner"%string]) /\
  is_ok (Authenticate (live_Verify (verifier_config "hopbox")) (mkConfig "t" "" []) (mkCredential "oidc-token" "other:eve") tt).2 = false.
Proof. vm_compute. by split. Qed.
End Oidc.

(** * Static quota metering *)
Module StaticQuota.
(** [Provider]: active workspaces per principal. *)
Notation Provider := (gmap string Z).

Definition kindStart : string := "workspace.start".
Definition kindStop : string := "workspace.stop".
Definition kindDestroy : string := "workspace.destroy".

Definition active (p : Provider) (id : string) : Z := default 0 (p !! id).

Section staticquota.
Variable limit : Z.

Definition Emit (e : UsageEvent) : M Provider unit :=
  modify (fun p =>
    let n := active p (ue_PrincipalID e) in
    if bool_decide (ue_Kind e = kindStart) then <[ue_PrincipalID e := wrap64 (n + 1)]> p
    else if bool_decide (ue_Kind e = kindStop) || bool_decide (ue_Kind e = kindDestroy) then
      (if 0 <? n then <[ue_PrincipalID e := n - 1]> p else p)
    else p).

Definition Quota (r : PrincipalRef) : M Provider QuotaState :=
  used ← gets (fun p => active p (pf_PrincipalID r));
  if limit <=? 0 then mret (mkQuotaState true used 0 "")
  else if used <? limit then mret (mkQuotaState true used limit "")
  else mret (mkQuotaState false used limit "workspace limit reached").

#[export] Instance staticquota_metering : Metering Provider := {| mr_Emit := Emit; mr_Quota := Quota |}.

Definition allowed (p : Provider) (id : string) : bool :=
  match snd (Quota (mkPrincipalRef id "") p) with Ok q => qs_Allowed q | Err _ => false end.

(** A run in which a start is emitted only for a principal the gate admits. *)
Fixpoint gated (p : Provider) (es : list UsageEvent) : Prop :=
  match es with
  | [] => True
  | e :: es' => (ue_Kind e = kindStart -> allowed p (ue_PrincipalID e) = true) /\ gated (fst (Emit e p)) es'
  end.
Definition emit_all (p : Provider) (es : list UsageEvent) : Provider := foldl (fun p e => fst (Emit e p)) p es.

Lemma allowed_spec p id : allowed p id = (limit <=? 0) || (active p id <? limit).
Proof.
  unfold allowed, Quota, gets, mbind, M_bind. simpl. destruct (limit <=? 0); [done|]. by destruct (_ <? limit).
Qed.

Lemma active_insert p id n j : active (<[id := n]> p) j = if decide (id = j) then n else active p j.
Proof. unfold active. rewrite lookup_insert. by case_decide. Qed.

Lemma Emit_bounds p e :
  0 < limit < 2 ^ 63 -> (forall id, 0 <= active p id <= limit) ->
  (ue_Kind e = kindStart -> allowed p (ue_PrincipalID e) = true) ->
  forall id, 0 <= active (fst (Emit e p)) id <= limit.
Proof.
  intros Hlim Hp Hgate id. unfold Emit, modify. simpl. set (n := active p (ue_PrincipalID e)).
  assert (0 <= n <= limit) as Hn by apply Hp.
  case_bool_decide as Hk.
  - rewrite active_insert. specialize (Hgate Hk). rewrite allowed_spec in Hgate. fold n in Hgate.
    rewrite (proj2 (Z.leb_gt limit 0)) in Hgate by lia. simpl in Hgate. go_bool.
    rewrite wrap64_id by (unfold in_int64, int64_min, int64_max; lia). case_decide; [lia|apply Hp].
  - destruct (_ || _); [|apply Hp]. destruct (0 <? n) eqn:E; go_bool; [|apply Hp].
    rewrite active_insert. case_decide; [lia|apply Hp].
Qed.

(** The quota gate holds: as long as a workspace is started only when
    [Quota] allows it, a principal's active count stays between zero and the
    limit, whatever stops and destroys are reported (duplicates included), and
    at the limit the gate refuses. *)
Theorem quota_enforced es id :
  0 < limit < 2 ^ 63 -> gated ∅ es ->
  0 <= active (emit_all ∅ es) id <= limit /\
  (active (emit_all ∅ es) id = limit <-> allowed (emit_all ∅ es) id = false).
Proof.
  intros Hlim Hg.
  assert (H : forall p, (forall id, 0 <= active p id <= limit) -> gated p es ->
            forall id, 0 <= active (emit_all p es) id <= limit).
  { clear Hg. induction es as [|e es IH]; intros p Hp Hg j; simpl; [apply Hp|].
    destruct Hg as [Hg1 Hg2]. apply IH; [|done]. by apply Emit_bounds. }
  assert (Hb : 0 <= active (emit_all ∅ es) id <= limit).
  { apply H; [|done]. intros j. unfold active. rewrite lookup_empty. simpl. lia. }
  split; [done|]. rewrite allowed_spec, (proj2 (Z.leb_gt limit 0)) by lia. simpl. rewrite Z.ltb_ge. lia.
Qed.
End staticquota.

Lemma quota_enforced_witness :
  let start := mkUsageEvent "t" "alice" "w1" kindStart 0 0 in
  let stop := mkUsageEvent "t" "alice" "w1" kindStop 0 0 in
  let es := [start; stop; stop; start; start] in
  0 <= active (emit_all ∅ es) "alice" <= 2 /\
  (active (emit_all ∅ es) "alice" = 2 <-> allowed 2 (emit_all ∅ es) "alice" = false).
Proof.
  intros start stop es. apply (quota_enforced 2 es "alice"); [lia|].
  repeat split; intros; vm_compute in *; congruence.
Defined.
End StaticQuota.

(** * Prebuilt images *)
Module Prebuilt.
Definition Resolve {W} (r : BuildRequest) : M W ImageRef :=
  if bool_decide (br_SourceRef r = ""%string) then throw (Errorf "prebuilt: source_ref is required (it is the image ref)")
  else mret (mkImageRef (br_SourceRef r) "").
Definition Status {W} (buildRef : string) : M W BuildStatus := mret (mkBuildStatus "ready" buildRef "").
Definition prebuilt_build {W} : Build W := {| bd_Resolve := Resolve; bd_Status := Status |}.
End Prebuilt.

(** * Local homes *)
Module LocalFS.
(** The file operations and the formatter, on a state of the host. *)
Class Host (F : Type) : Type := {
  os_MkdirAll : string -> M F unit;
  os_Exists : string -> M F bool;       (* os.Stat succeeds *)
  os_Create : string -> M F unit;
  os_Truncate : string -> Z -> M F unit;
  os_Remove : string -> M F unit;
  os_RemoveAll : string -> M F unit;
  exec_mkfs : string -> M F unit
}.

Definition homeTarget : string := "/home/dev".
Record Provider : Type := mkProvider { lf_root : string; lf_block : bool; lf_sizeMB : Z }.
Definition New (root : string) : Provider := mkProvider root false 0.
Definition NewBlock (root : string) (sizeMB : Z) : Provider := mkProvider root true sizeMB.

Definition bad_id (id : string) : bool :=
  contains_byte "/" id || contains_byte "\" id || bool_decide (id = "."%string) || bool_decide (id = ".."%string).

Section localfs.
Context {F : Type} `{Host F}.
Variable p : Provider.

Definition ensureBlock (wsID : string) : M F Mount :=
  wrapping ("localfs: mkdir " +:+ lf_root p) (os_MkdirAll (lf_root p)) ;;
  let img := Join [lf_root p; wsID +:+ ".ext4"] in
  have ← os_Exists img;
  (if (have : bool) then mret tt
   else
     wrapping ("localfs: create " +:+ img) (os_Create img) ;;
     r ← try (os_Truncate img (wrap64 (Z.shiftl (lf_sizeMB p) 20)));
     match r with
     | Err e => ignore (os_Remove img) ;; throw (ErrWrap ("localfs: size " +:+ img) e)
     | Ok _ =>
         r ← try (exec_mkfs img);
         match r with
         | Err e => ignore (os_Remove img) ;; throw (Errorf ("localfs: mkfs.ext4 " +:+ img +:+ ": " +:+ Error e))
         | Ok _ => mret tt
         end
     end) ;;
  mret (mkMount img homeTarget false true).

Definition EnsureHome (r : HomeRequest) : M F Mount :=
  let id := hr_WorkspaceID r in
  if bool_decide (id = ""%string) then throw (Errorf "localfs: empty workspace id")
  else if bad_id id then throw (Errorf ("localfs: invalid workspace id " +:+ quote id))
  else if lf_block p then ensureBlock id
  else
    let dir := Join [lf_root p; id] in
    wrapping ("localfs: mkdir " +:+ dir) (os_MkdirAll dir) ;;
    mret (mkMount dir homeTarget false false).

(** Nothing outside the root is removed. *)
Definition inside (homeRef : string) : bool := has_prefix (Clean (lf_root p) +:+ "/") (Clean homeRef).
Definition Delete (homeRef : string) : M F unit :=
  if negb (inside homeRef)
  then throw (Errorf ("localfs: refusing to delete " +:+ quote homeRef +:+ " outside root " +:+ quote (lf_root p)))
  else os_RemoveAll homeRef.

#[export] Instance localfs_storage : Storage F := {| sg_EnsureHome := EnsureHome; sg_Delete := Delete |}.

(** The child of the root a workspace's home lives in. *)
Definition home_name (id : string) : string := if lf_block p then id +:+ ".ext4" else id.

Lemma bad_id_element id : id <> ""%string -> bad_id id = false -> element id.
Proof. unfold bad_id. intros Hid Hb. go_bool. by split_and!. Qed.

Lemma ext4_element id : element id -> element (id +:+ ".ext4").
Proof.
  intros (H1 & _ & _ & H4). assert (Hl : (5 < slen (id +:+ ".ext4"))%nat).
  { rewrite slen_app. destruct id; [done|]. simpl. lia. }
  split_and!.
  - intros He. rewrite He in Hl. simpl in Hl. lia.
  - intros He. rewrite He in Hl. simpl in Hl. lia.
  - intros He. rewrite He in Hl. simpl in Hl. lia.
  - rewrite contains_byte_app, H4. done.
Qed.

Lemma EnsureHome_mount r f f' m : EnsureHome r f = (f', Ok m) ->
  element (hr_WorkspaceID r) /\ m = mkMount (Join [lf_root p; home_name (hr_WorkspaceID r)]) homeTarget false (lf_block p).
Proof.
  unfold EnsureHome, home_name. case_bool_decide as Hid; [done|].
  destruct (bad_id _) eqn:Hb; [done|]. pose proof (bad_id_element _ Hid Hb) as He.
  destruct (lf_block p).
  - unfold ensureBlock. intros (f1 & ? & _ & H1)%bind_ok. apply bind_ok in H1 as (f2 & have & _ & H2).
    apply bind_ok in H2 as (f3 & ? & _ & H3). injection H3 as _ <-. done.
  - intros (f1 & ? & _ & H1)%bind_ok. injection H1 as _ <-. done.
Qed.

(** A root that is a proper directory, and the homes below it. *)
Definition proper_root : Prop := lf_root p <> ""%string /\ Clean (lf_root p) <> "/"%string /\ Clean (lf_root p) <> "."%string.
Lemma home_name_element id : element id -> element (home_name id).
Proof. unfold home_name. destruct (lf_block p); [apply ext4_element|done]. Qed.
Lemma home_path id : proper_root -> element id -> Join [lf_root p; home_name id] = Clean (lf_root p) +:+ "/" +:+ home_name id.
Proof. intros (H1 & H2 & H3) Hid. apply Join_child; auto using home_name_element. Qed.
Lemma Delete_home id g : proper_root -> element id ->
  Delete (Join [lf_root p; home_name id]) g = os_RemoveAll (Join [lf_root p; home_name id]) g.
Proof.
  intros Hr Hid. unfold Delete, inside.
  assert (Hc : Clean (Join [lf_root p; home_name id]) = Join [lf_root p; home_name id]).
  { unfold Join. simpl. rewrite (bool_decide_eq_false_2 (lf_root p = _)), (bool_decide_eq_false_2 (home_name _ = _)) by
      (apply Hr || by apply home_name_element). apply Clean_idem. }
  rewrite Hc. assert (Hin : has_prefix (Clean (lf_root p) +:+ "/") (Join [lf_root p; home_name id]) = true).
  { rewrite home_path by done. unfold has_prefix. by rewrite string_app_assoc, cut_prefix_app. }
  by rewrite Hin.
Qed.

End localfs.

(** A host whose operations all succeed and whose files are remembered. *)
#[local] Instance null_host : Host (gset string) := {|
  os_MkdirAll := fun d => modify (fun f => {[d]} ∪ f);
  os_Exists := fun d => gets (fun f => bool_decide (d ∈ f));
  os_Create := fun d => modify (fun f => {[d]} ∪ f);
  os_Truncate := fun _ _ => mret tt;
  os_Remove := fun d => modify (fun f => f ∖ {[d]});
  os_RemoveAll := fun d => modify (fun f => f ∖ {[d]});
  exec_mkfs := fun _ => mret tt
|}.

End LocalFS.
