(* ===== verification/Plugin.v ===== *)
(** The provider plane over gRPC ([internal/plugin]): the conversions between
    the neutral types and the wire messages ([convert.go]), the server that
    hosts a provider ([server/server.go]), the client that implements the
    provider contracts over a connection ([remote.go]) and the choice between
    the two ([loader.go]).

    A wire message is the generated record; a pointer to one is an option where
    the code tests it for nil.  gRPC itself is the class [Link]: whether a call
    reaches the server and whether its answer comes back. *)
From stdpp Require Import base option list strings gmap.
From Stdlib Require Import ZArith Lia.
From S2P Require Import Prelude GoStrings Json Ports.
Local Open Scope Z_scope.

(** * Wire messages ([gen/hopbox/provider/v1]) *)
Inductive PbPhase : Type :=
| PHASE_UNSPECIFIED | RUNNING | STOPPED | GONE | FAILED
| PhaseNumber (n : Z).
Record PbMount : Type := mkPbMount {
  pbm_Source : string;
  pbm_Target : string;
  pbm_ReadOnly : bool
}.
Record PbAgentImage : Type := mkPbAgentImage {
  pba_ImageRef : string;
  pba_BinaryPath : string;
  pba_TargetPath : string;
  pba_HostBinaryPath : string
}.
Record PbProvisionRequest : Type := mkPbProvisionRequest {
  pbp_WorkspaceId : string;
  pbp_ImageRef : string;
  pbp_MemMb : Z;
  pbp_Mounts : list (option PbMount);
  pbp_Env : gmap string string;
  pbp_Agent : option PbAgentImage
}.
Record PbInstance : Type := mkPbInstance {
  pbi_Ref : string;
  pbi_Phase : PbPhase
}.
Record PbHomeRequest : Type := mkPbHomeRequest {
  pbh_WorkspaceId : string;
  pbh_TenantId : string;
  pbh_Owner : string
}.
Record PbExposeRequest : Type := mkPbExposeRequest {
  pbx_WorkspaceId : string;
  pbx_Name : string;
  pbx_Port : Z;
  pbx_Scheme : string;
  pbx_TenantId : string
}.
Record PbEndpoint : Type := mkPbEndpoint {
  pbe_Ref : string;
  pbe_Url : string;
  pbe_Name : string;
  pbe_Port : Z
}.
Record PbCredential : Type := mkPbCredential {
  pbc_Scheme : string;
  pbc_Value : string
}.
Record PbPrincipal : Type := mkPbPrincipal {
  pbr_Id : string;
  pbr_TenantId : string;
  pbr_DisplayName : string;
  pbr_Roles : list string
}.
Record PbAccessRequest : Type := mkPbAccessRequest {
  pbq_Principal : option PbPrincipal;
  pbq_Action : string;
  pbq_Resource : string
}.
Record PbDecision : Type := mkPbDecision {
  pbd_Allow : bool;
  pbd_Reason : string
}.
Record PbUsageEvent : Type := mkPbUsageEvent {
  pbu_TenantId : string;
  pbu_PrincipalId : string;
  pbu_WorkspaceId : string;
  pbu_Kind : string;
  pbu_Value : Z;
  pbu_UnixMillis : Z
}.
Record PbPrincipalRef : Type := mkPbPrincipalRef {
  pbf_PrincipalId : string;
  pbf_TenantId : string
}.
Record PbQuotaState : Type := mkPbQuotaState {
  pbs_Allowed : bool;
  pbs_WorkspacesUsed : Z;
  pbs_WorkspacesLimit : Z;
  pbs_Reason : string
}.
Record PbBuildRequest : Type := mkPbBuildRequest {
  pbb_WorkspaceId : string;
  pbb_SourceRef : string;
  pbb_Provider : string;
  pbb_Options : gmap string string;
  pbb_TenantId : string
}.
Record PbImageRef : Type := mkPbImageRef {
  pbg_Ref : string;
  pbg_BuildRef : string
}.
Record PbBuildStatus : Type := mkPbBuildStatus {
  pbt_Phase : string;
  pbt_ImageRef : string;
  pbt_Message : string
}.

(** * Conversions ([convert.go]) *)
Definition ToProtoPhase (p : InstancePhase) : PbPhase :=
  match p with
  | InstanceRunning => RUNNING
  | InstanceStopped => STOPPED
  | InstanceGone => GONE
  | InstanceFailed => FAILED
  | InstanceOther _ => PHASE_UNSPECIFIED
  end.
Definition FromProtoPhase (p : PbPhase) : InstancePhase :=
  match p with
  | RUNNING => InstanceRunning
  | STOPPED => InstanceStopped
  | GONE => InstanceGone
  | FAILED => InstanceFailed
  | _ => InstanceFailed
  end.

Definition ToProtoMount (m : Mount) : PbMount := mkPbMount (mt_Source m) (mt_Target m) (mt_ReadOnly m).
Definition FromProtoMount (m : option PbMount) : Mount :=
  match m with
  | None => mkMount "" "" false false
  | Some m => mkMount (pbm_Source m) (pbm_Target m) (pbm_ReadOnly m) false
  end.

Definition ToProtoAgent (a : AgentImage) : PbAgentImage :=
  mkPbAgentImage (ai_ImageRef a) (ai_BinaryPath a) (ai_TargetPath a) (ai_HostBinaryPath a).
Definition FromProtoAgent (a : option PbAgentImage) : AgentImage :=
  match a with
  | None => mkAgentImage "" "" "" ""
  | Some a => mkAgentImage (pba_ImageRef a) (pba_BinaryPath a) (pba_TargetPath a) (pba_HostBinaryPath a)
  end.

Definition ToProtoProvisionRequest (r : ProvisionRequest) : PbProvisionRequest :=
  mkPbProvisionRequest (pr_WorkspaceID r) (pr_ImageRef r) (pr_MemMB r)
    (map (fun m => Some (ToProtoMount m)) (pr_Mounts r)) (pr_Env r) (Some (ToProtoAgent (pr_Agent r))).
Definition no_agent : AgentImage := mkAgentImage "" "" "" "".
Definition FromProtoProvisionRequest (r : option PbProvisionRequest) : ProvisionRequest :=
  match r with
  | None => mkProvisionRequest "" "" 0 0 "" [] ∅ no_agent
  | Some r => mkProvisionRequest (pbp_WorkspaceId r) (pbp_ImageRef r) (pbp_MemMb r) 0 ""
                (map FromProtoMount (pbp_Mounts r)) (pbp_Env r) (FromProtoAgent (pbp_Agent r))
  end.

Definition ToProtoInstance (i : BoxInstance) : PbInstance := mkPbInstance (in_Ref i) (ToProtoPhase (in_Phase i)).
Definition FromProtoInstance (i : option PbInstance) : BoxInstance :=
  match i with
  | None => mkInstance "" (InstanceOther "") ""
  | Some i => mkInstance (pbi_Ref i) (FromProtoPhase (pbi_Phase i)) ""
  end.

Definition ToProtoHomeRequest (h : HomeRequest) : PbHomeRequest := mkPbHomeRequest (hr_WorkspaceID h) (hr_TenantID h) (hr_Owner h).
Definition FromProtoHomeRequest (h : option PbHomeRequest) : HomeRequest :=
  match h with None => mkHomeRequest "" "" "" | Some h => mkHomeRequest (pbh_WorkspaceId h) (pbh_TenantId h) (pbh_Owner h) end.

Definition ToProtoExposeRequest (r : ExposeRequest) : PbExposeRequest :=
  mkPbExposeRequest (er_WorkspaceID r) (er_Name r) (er_Port r) (er_Scheme r) (er_TenantID r).
Definition FromProtoExposeRequest (r : option PbExposeRequest) : ExposeRequest :=
  match r with
  | None => mkExposeRequest "" "" 0 "" ""
  | Some r => mkExposeRequest (pbx_WorkspaceId r) (pbx_Name r) (pbx_Port r) (pbx_Scheme r) (pbx_TenantId r)
  end.

Definition ToProtoEndpoint (e : PortEndpoint) : PbEndpoint := mkPbEndpoint (pe_Ref e) (pe_URL e) (pe_Name e) (pe_Port e).
Definition FromProtoEndpoint (e : option PbEndpoint) : PortEndpoint :=
  match e with None => mkPortEndpoint "" "" "" 0 | Some e => mkPortEndpoint (pbe_Ref e) (pbe_Url e) (pbe_Name e) (pbe_Port e) end.

Definition ToProtoCredential (c : Credential) : PbCredential := mkPbCredential (cr_Scheme c) (cr_Value c).
Definition FromProtoCredential (c : option PbCredential) : Credential :=
  match c with None => mkCredential "" "" | Some c => mkCredential (pbc_Scheme c) (pbc_Value c) end.

Definition ToProtoPrincipal (p : Principal) : PbPrincipal := mkPbPrincipal (pp_ID p) (pp_TenantID p) (pp_DisplayName p) (pp_Roles p).
Definition FromProtoPrincipal (p : option PbPrincipal) : Principal :=
  match p with
  | None => mkPrincipal "" "" "" []
  | Some p => mkPrincipal (pbr_Id p) (pbr_TenantId p) (pbr_DisplayName p) (pbr_Roles p)
  end.

Definition ToProtoAccessRequest (r : AccessRequest) : PbAccessRequest :=
  mkPbAccessRequest (Some (ToProtoPrincipal (ar_Principal r))) (ar_Action r) (ar_Resource r).
Definition FromProtoAccessRequest (r : option PbAccessRequest) : AccessRequest :=
  match r with
  | None => mkAccessRequest (mkPrincipal "" "" "" []) "" ""
  | Some r => mkAccessRequest (FromProtoPrincipal (pbq_Principal r)) (pbq_Action r) (pbq_Resource r)
  end.

Definition ToProtoDecision (d : AccessDecision) : PbDecision := mkPbDecision (de_Allow d) (de_Reason d).
Definition FromProtoDecision (d : option PbDecision) : AccessDecision :=
  match d with None => mkDecision false "" | Some d => mkDecision (pbd_Allow d) (pbd_Reason d) end.

Definition ToProtoUsageEvent (e : UsageEvent) : PbUsageEvent :=
  mkPbUsageEvent (ue_TenantID e) (ue_PrincipalID e) (ue_WorkspaceID e) (ue_Kind e) (ue_Value e) (ue_UnixMillis e).
Definition FromProtoUsageEvent (e : option PbUsageEvent) : UsageEvent :=
  match e with
  | None => mkUsageEvent "" "" "" "" 0 0
  | Some e => mkUsageEvent (pbu_TenantId e) (pbu_PrincipalId e) (pbu_WorkspaceId e) (pbu_Kind e) (pbu_Value e) (pbu_UnixMillis e)
  end.

Definition ToProtoPrincipalRef (r : PrincipalRef) : PbPrincipalRef := mkPbPrincipalRef (pf_PrincipalID r) (pf_TenantID r).
Definition FromProtoPrincipalRef (r : option PbPrincipalRef) : PrincipalRef :=
  match r with None => mkPrincipalRef "" "" | Some r => mkPrincipalRef (pbf_PrincipalId r) (pbf_TenantId r) end.

Definition ToProtoQuotaState (q : QuotaState) : PbQuotaState :=
  mkPbQuotaState (qs_Allowed q) (qs_WorkspacesUsed q) (qs_WorkspacesLimit q) (qs_Reason q).
Definition FromProtoQuotaState (q : option PbQuotaState) : QuotaState :=
  match q with
  | None => mkQuotaState false 0 0 ""
  | Some q => mkQuotaState (pbs_Allowed q) (pbs_WorkspacesUsed q) (pbs_WorkspacesLimit q) (pbs_Reason q)
  end.

Definition ToProtoBuildRequest (r : BuildRequest) : PbBuildRequest :=
  mkPbBuildRequest (br_WorkspaceID r) (br_SourceRef r) (br_Provider r) (br_Options r) (br_TenantID r).
Definition FromProtoBuildRequest (r : option PbBuildRequest) : BuildRequest :=
  match r with
  | None => mkBuildRequest "" "" "" ∅ ""
  | Some r => mkBuildRequest (pbb_WorkspaceId r) (pbb_SourceRef r) (pbb_Provider r) (pbb_Options r) (pbb_TenantId r)
  end.

Definition ToProtoImageRef (i : ImageRef) : PbImageRef := mkPbImageRef (ir_Ref i) (ir_BuildRef i).
Definition FromProtoImageRef (i : option PbImageRef) : ImageRef :=
  match i with None => mkImageRef "" "" | Some i => mkImageRef (pbg_Ref i) (pbg_BuildRef i) end.

Definition ToProtoBuildStatus (b : BuildStatus) : PbBuildStatus := mkPbBuildStatus (bs_Phase b) (bs_ImageRef b) (bs_Message b).
Definition FromProtoBuildStatus (b : option PbBuildStatus) : BuildStatus :=
  match b with None => mkBuildStatus "" "" "" | Some b => mkBuildStatus (pbt_Phase b) (pbt_ImageRef b) (pbt_Message b) end.

(** * Calls *)
(** The generated client stubs. *)
Record ComputeClient (C : Type) : Type := mkComputeClient {
  cc_Provision : PbProvisionRequest -> M C PbInstance;
  cc_Status : string -> M C PbInstance;
  cc_Stop : string -> M C unit;
  cc_Destroy : string -> M C unit
}.
Record StorageClient (C : Type) : Type := mkStorageClient {
  sc_EnsureHome : PbHomeRequest -> M C PbMount;
  sc_Delete : string -> M C unit
}.
Record IngressClient (C : Type) : Type := mkIngressClient {
  ic_Expose : PbExposeRequest -> M C PbEndpoint;
  ic_Unexpose : string -> M C unit
}.
Record IdentityClient (C : Type) : Type := mkIdentityClient {
  dc_Authenticate : PbCredential -> M C PbPrincipal;
  dc_Authorize : PbAccessRequest -> M C PbDecision
}.
Record MeteringClient (C : Type) : Type := mkMeteringClient {
  mc_Emit : list PbUsageEvent -> M C unit;      (* the events sent before CloseAndRecv *)
  mc_Quota : PbPrincipalRef -> M C PbQuotaState
}.
Record BuildClient (C : Type) : Type := mkBuildClient {
  bc_Resolve : PbBuildRequest -> M C PbImageRef;
  bc_Status : string -> M C PbBuildStatus
}.
Arguments mkComputeClient {C}.
Arguments cc_Provision {C}.
Arguments cc_Status {C}.
Arguments cc_Stop {C}.
Arguments cc_Destroy {C}.
Arguments mkStorageClient {C}.
Arguments sc_EnsureHome {C}.
Arguments sc_Delete {C}.
Arguments mkIngressClient {C}.
Arguments ic_Expose {C}.
Arguments ic_Unexpose {C}.
Arguments mkIdentityClient {C}.
Arguments dc_Authenticate {C}.
Arguments dc_Authorize {C}.
Arguments mkMeteringClient {C}.
Arguments mc_Emit {C}.
Arguments mc_Quota {C}.
Arguments mkBuildClient {C}.
Arguments bc_Resolve {C}.
Arguments bc_Status {C}.

(** The client's half: each contract over its stub ([remote.go]). *)
Section remote.
Context {C : Type}.

Definition NewRemoteCompute (cli : ComputeClient C) : Compute C := {|
  cp_Provision req := inst ← cc_Provision cli (ToProtoProvisionRequest req); mret (FromProtoInstance (Some inst));
  cp_Status ref := inst ← cc_Status cli ref; mret (FromProtoInstance (Some inst));
  cp_Stop ref := cc_Stop cli ref;
  cp_Destroy ref := cc_Destroy cli ref;
  cp_suspender := None
|}.
Definition NewRemoteStorage (cli : StorageClient C) : Storage C := {|
  sg_EnsureHome req := m ← sc_EnsureHome cli (ToProtoHomeRequest req); mret (FromProtoMount (Some m));
  sg_Delete ref := sc_Delete cli ref
|}.
Definition NewRemoteIngress (cli : IngressClient C) : Ingress C := {|
  ig_Expose req := ep ← ic_Expose cli (ToProtoExposeRequest req); mret (FromProtoEndpoint (Some ep));
  ig_Unexpose ref := ic_Unexpose cli ref
|}.
Definition NewRemoteIdentity (cli : IdentityClient C) : Identity C := {|
  id_Authenticate c := p ← dc_Authenticate cli (ToProtoCredential c); mret (FromProtoPrincipal (Some p));
  id_Authorize req := d ← dc_Authorize cli (ToProtoAccessRequest req); mret (FromProtoDecision (Some d))
|}.
Definition NewRemoteMetering (cli : MeteringClient C) : Metering C := {|
  mr_Emit e := mc_Emit cli [ToProtoUsageEvent e];
  mr_Quota ref := q ← mc_Quota cli (ToProtoPrincipalRef ref); mret (FromProtoQuotaState (Some q))
|}.
Definition NewRemoteBuild (cli : BuildClient C) : Build C := {|
  bd_Resolve req := img ← bc_Resolve cli (ToProtoBuildRequest req); mret (FromProtoImageRef (Some img));
  bd_Status buildRef := st ← bc_Status cli buildRef; mret (FromProtoBuildStatus (Some st))
|}.

(** The server's half: the handlers over a provider ([server.go]). *)
Definition server_Provision `{Compute C} (r : PbProvisionRequest) : M C PbInstance :=
  inst ← cp_Provision (FromProtoProvisionRequest (Some r)); mret (ToProtoInstance inst).
Definition server_Status `{Compute C} (ref : string) : M C PbInstance := inst ← cp_Status ref; mret (ToProtoInstance inst).
Definition server_Stop `{Compute C} (ref : string) : M C unit := cp_Stop ref.
Definition server_Destroy `{Compute C} (ref : string) : M C unit := cp_Destroy ref.
Definition server_EnsureHome `{Storage C} (r : PbHomeRequest) : M C PbMount :=
  m ← sg_EnsureHome (FromProtoHomeRequest (Some r)); mret (ToProtoMount m).
Definition server_Delete `{Storage C} (source : string) : M C unit := sg_Delete source.
Definition server_Expose `{Ingress C} (r : PbExposeRequest) : M C PbEndpoint :=
  ep ← ig_Expose (FromProtoExposeRequest (Some r)); mret (ToProtoEndpoint ep).
Definition server_Unexpose `{Ingress C} (ref : string) : M C unit := ig_Unexpose ref.
Definition server_Authenticate `{Identity C} (r : PbCredential) : M C PbPrincipal :=
  p ← id_Authenticate (FromProtoCredential (Some r)); mret (ToProtoPrincipal p).
Definition server_Authorize `{Identity C} (r : PbAccessRequest) : M C PbDecision :=
  d ← id_Authorize (FromProtoAccessRequest (Some r)); mret (ToProtoDecision d).
Definition server_Emit `{Metering C} (stream : list PbUsageEvent) : M C unit :=
  mfor stream (fun ev => mr_Emit (FromProtoUsageEvent (Some ev))).
Definition server_Quota `{Metering C} (r : PbPrincipalRef) : M C PbQuotaState :=
  q ← mr_Quota (FromProtoPrincipalRef (Some r)); mret (ToProtoQuotaState q).
Definition server_Resolve `{Build C} (r : PbBuildRequest) : M C PbImageRef :=
  img ← bd_Resolve (FromProtoBuildRequest (Some r)); mret (ToProtoImageRef img).
Definition server_BuildStatus `{Build C} (buildRef : string) : M C PbBuildStatus :=
  st ← bd_Status buildRef; mret (ToProtoBuildStatus st).
End remote.

(** * gRPC *)
(** Whether a call made in a state is lost on the way there or back. *)
Class Link (C : Type) : Type := {
  lk_send : C -> option error;
  lk_recv : C -> option error
}.

(** [status.FromError]: what a handler's error is on the wire. *)
Fixpoint status_code (e : error) : option code :=
  match e with
  | ErrStatus c _ => Some c
  | ErrWrap _ c => status_code c
  | _ => None
  end.
Definition status_of (e : error) : error :=
  match e with
  | ErrStatus _ _ => e
  | _ => ErrStatus (default Unknown (status_code e)) (Error e)
  end.

Section grpc.
Context {C : Type} `{Link C}.

Definition call {Req Resp} (handler : Req -> M C Resp) (req : Req) : M C Resp := fun c =>
  match lk_send c with
  | Some e => (c, Err e)
  | None =>
      let '(c', r) := handler req c in
      match lk_recv c' with
      | Some e => (c', Err e)
      | None => (c', map_err status_of r)
      end
  end.

Definition compute_client `{Compute C} : ComputeClient C :=
  mkComputeClient (call server_Provision) (call server_Status) (call server_Stop) (call server_Destroy).
Definition storage_client `{Storage C} : StorageClient C := mkStorageClient (call server_EnsureHome) (call server_Delete).
Definition ingress_client `{Ingress C} : IngressClient C := mkIngressClient (call server_Expose) (call server_Unexpose).
Definition identity_client `{Identity C} : IdentityClient C := mkIdentityClient (call server_Authenticate) (call server_Authorize).
Definition metering_client `{Metering C} : MeteringClient C := mkMeteringClient (call server_Emit) (call server_Quota).
Definition build_client `{Build C} : BuildClient C := mkBuildClient (call server_Resolve) (call server_BuildStatus).
End grpc.

(** * The loader ([loader.go]) *)
Record ProviderConfig : Type := mkProviderConfig {
  pc_Kind : string;
  pc_Transport : string;
  pc_RemoteAddr : string
}.

Section loader.
Variable Conn : Type.
Variable dial : string -> result Conn.

(** The body the six loaders share. *)
Definition load {P : Type} (what nil_text : string) (remote : Conn -> P) (cfg : ProviderConfig) (inproc : option P) : result P :=
  if bool_decide (pc_Transport cfg = ""%string) || bool_decide (pc_Transport cfg = "inproc"%string) then
    match inproc with
    | None => Err (Errorf ("plugin: inproc " +:+ what +:+ " provider is nil" +:+ nil_text))
    | Some p => Ok p
    end
  else if bool_decide (pc_Transport cfg = "remote"%string) then
    if bool_decide (pc_RemoteAddr cfg = ""%string)
    then Err (Errorf ("plugin: remote " +:+ what +:+ " transport requires RemoteAddr"))
    else
      match dial (pc_RemoteAddr cfg) with
      | Err e => Err (ErrWrap ("plugin: dial " +:+ what +:+ " " +:+ quote (pc_RemoteAddr cfg)) e)
      | Ok conn => Ok (remote conn)
      end
  else Err (Errorf ("plugin: unknown " +:+ what +:+ " transport " +:+ quote (pc_Transport cfg))).

Definition LoadCompute {C} (stub : Conn -> ComputeClient C) : ProviderConfig -> option (Compute C) -> result (Compute C) :=
  load "compute" " (build with the provider's tag, e.g. -tags docker)" (fun c => NewRemoteCompute (stub c)).
Definition LoadStorage {C} (stub : Conn -> StorageClient C) : ProviderConfig -> option (Storage C) -> result (Storage C) :=
  load "storage" "" (fun c => NewRemoteStorage (stub c)).
Definition LoadIngress {C} (stub : Conn -> IngressClient C) : ProviderConfig -> option (Ingress C) -> result (Ingress C) :=
  load "ingress" "" (fun c => NewRemoteIngress (stub c)).
Definition LoadIdentity {C} (stub : Conn -> IdentityClient C) : ProviderConfig -> option (Identity C) -> result (Identity C) :=
  load "identity" "" (fun c => NewRemoteIdentity (stub c)).
Definition LoadMetering {C} (stub : Conn -> MeteringClient C) : ProviderConfig -> option (Metering C) -> result (Metering C) :=
  load "metering" "" (fun c => NewRemoteMetering (stub c)).
Definition LoadBuild {C} (stub : Conn -> BuildClient C) : ProviderConfig -> option (Build C) -> result (Build C) :=
  load "build" "" (fun c => NewRemoteBuild (stub c)).
End loader.

(** * Lemmas *)
(** What the wire keeps of a mount, a request and an instance. *)
Definition wire_mount (m : Mount) : Mount := mkMount (mt_Source m) (mt_Target m) (mt_ReadOnly m) false.
Definition wire_phase (p : InstancePhase) : InstancePhase := match p with InstanceOther _ => InstanceFailed | p => p end.
Definition wire_instance (i : BoxInstance) : BoxInstance := mkInstance (in_Ref i) (wire_phase (in_Phase i)) "".
Definition wire_request (r : ProvisionRequest) : ProvisionRequest :=
  mkProvisionRequest (pr_WorkspaceID r) (pr_ImageRef r) (pr_MemMB r) 0 "" (map wire_mount (pr_Mounts r)) (pr_Env r) (pr_Agent r).

Lemma mount_wire m : FromProtoMount (Some (ToProtoMount m)) = wire_mount m.
Proof. done. Qed.
Lemma instance_wire i : FromProtoInstance (Some (ToProtoInstance i)) = wire_instance i.
Proof. destruct i as [ref [] addr]; done. Qed.
Lemma request_wire r : FromProtoProvisionRequest (Some (ToProtoProvisionRequest r)) = wire_request r.
Proof.
  destruct r as [id image mem cpu guest mounts env [a b c d]]. unfold wire_request. cbn. f_equal. rewrite map_map. by apply map_ext.
Qed.
Lemma expose_wire r : FromProtoExposeRequest (Some (ToProtoExposeRequest r)) = r.
Proof. by destruct r. Qed.
Lemma endpoint_wire e : FromProtoEndpoint (Some (ToProtoEndpoint e)) = e.
Proof. by destruct e. Qed.
Lemma home_wire h : FromProtoHomeRequest (Some (ToProtoHomeRequest h)) = h.
Proof. by destruct h. Qed.
Lemma credential_wire c : FromProtoCredential (Some (ToProtoCredential c)) = c.
Proof. by destruct c. Qed.
Lemma principal_wire p : FromProtoPrincipal (Some (ToProtoPrincipal p)) = p.
Proof. by destruct p. Qed.
Lemma access_wire r : FromProtoAccessRequest (Some (ToProtoAccessRequest r)) = r.
Proof. by destruct r as [[] ? ?]. Qed.
Lemma decision_wire d : FromProtoDecision (Some (ToProtoDecision d)) = d.
Proof. by destruct d. Qed.
Lemma event_wire e : FromProtoUsageEvent (Some (ToProtoUsageEvent e)) = e.
Proof. by destruct e. Qed.
Lemma ref_wire r : FromProtoPrincipalRef (Some (ToProtoPrincipalRef r)) = r.
Proof. by destruct r. Qed.
Lemma quota_wire q : FromProtoQuotaState (Some (ToProtoQuotaState q)) = q.
Proof. by destruct q. Qed.
Lemma build_wire r : FromProtoBuildRequest (Some (ToProtoBuildRequest r)) = r.
Proof. by destruct r. Qed.
Lemma image_wire i : FromProtoImageRef (Some (ToProtoImageRef i)) = i.
Proof. by destruct i. Qed.
Lemma build_status_wire b : FromProtoBuildStatus (Some (ToProtoBuildStatus b)) = b.
Proof. by destruct b. Qed.
#[local] Hint Rewrite mount_wire instance_wire request_wire expose_wire endpoint_wire home_wire credential_wire principal_wire
  access_wire decision_wire event_wire ref_wire quota_wire build_wire image_wire build_status_wire : wire.

Section proofs.
Context {C : Type} `{Link C}.

(** An operation whose errors crossed the wire. *)
Definition statuses {A} (m : M C A) : M C A := fun c => let '(c', r) := m c in (c', map_err status_of r).

(** The link carries every call made from here on. *)
Definition link_up : Prop := forall c : C, lk_send c = None /\ lk_recv c = None.

Lemma call_up {Req Resp} (handler : Req -> M C Resp) req c : link_up -> call handler req c = statuses (handler req) c.
Proof. intros Hup. unfold call, statuses. rewrite (proj1 (Hup c)). destruct (handler req c) as [c' r]. by rewrite (proj2 (Hup c')). Qed.

(** A call and the conversion of its answer, over the handler that converts it
    the other way. *)
Lemma call_converted {Req A B R} (handler : Req -> M C A) (impl : M C B) (enc : B -> A) (dec : A -> R) req c :
  link_up -> handler req = (b ← impl; mret (enc b)) ->
  (a ← call handler req; mret (dec a)) c = statuses (b ← impl; mret (dec (enc b))) c.
Proof.
  intros Hup Hh. unfold mbind at 1, M_bind. rewrite call_up, Hh by done. unfold statuses, mbind, M_bind.
  by destruct (impl c) as [c' [b|e]].
Qed.

Lemma mret_id {A} (m : M C A) c : (a ← m; mret a) c = m c.
Proof. unfold mbind, M_bind. by destruct (m c) as [c' [a|e]]. Qed.
Lemma statuses_bind_ret {A} (m : M C A) c : statuses (a ← m; mret a) c = statuses m c.
Proof. unfold statuses. by rewrite mret_id. Qed.

Lemma statuses_ext {A B} (f g : A -> B) (m : M C A) c :
  (forall a, f a = g a) -> statuses (a ← m; mret (f a)) c = statuses (a ← m; mret (g a)) c.
Proof. intros Hfg. unfold statuses, mbind, M_bind. destruct (m c) as [c' [a|e]]; [by rewrite Hfg|done]. Qed.

(** A call whose answer the wire keeps. *)
Lemma call_faithful {Req A B} (handler : Req -> M C A) (impl : M C B) (enc : B -> A) (dec : A -> B) req c :
  link_up -> handler req = (b ← impl; mret (enc b)) -> (forall b, dec (enc b) = b) ->
  (a ← call handler req; mret (dec a)) c = statuses impl c.
Proof.
  intros Hup Hh Hde. rewrite (call_converted handler impl enc dec) by done.
  rewrite (statuses_ext _ id) by done. apply statuses_bind_ret.
Qed.

(** What each remote provider does, contract by contract. *)
Lemma remote_storage_ops `{Storage C} c : link_up ->
  (forall r, @sg_EnsureHome _ (NewRemoteStorage storage_client) r c = statuses (m ← sg_EnsureHome r; mret (wire_mount m)) c) /\
  (forall s, @sg_Delete _ (NewRemoteStorage storage_client) s c = statuses (sg_Delete s) c).
Proof.
  intros Hup. split; intros x; cbn; [|by apply call_up].
  rewrite (call_converted server_EnsureHome (sg_EnsureHome x) ToProtoMount) by
    (done || (unfold server_EnsureHome; by rewrite home_wire)). done.
Qed.
Lemma remote_ingress_ops `{Ingress C} c : link_up ->
  (forall r, @ig_Expose _ (NewRemoteIngress ingress_client) r c = statuses (ig_Expose r) c) /\
  (forall s, @ig_Unexpose _ (NewRemoteIngress ingress_client) s c = statuses (ig_Unexpose s) c).
Proof.
  intros Hup. split; intros x; cbn; [|by apply call_up].
  apply (call_faithful _ _ ToProtoEndpoint); [done| |apply endpoint_wire]. unfold server_Expose. by rewrite expose_wire.
Qed.
Lemma remote_identity_ops `{Identity C} c : link_up ->
  (forall r, @id_Authenticate _ (NewRemoteIdentity identity_client) r c = statuses (id_Authenticate r) c) /\
  (forall r, @id_Authorize _ (NewRemoteIdentity identity_client) r c = statuses (id_Authorize r) c).
Proof.
  intros Hup. split; intros x; cbn.
  - apply (call_faithful _ _ ToProtoPrincipal); [done| |apply principal_wire]. unfold server_Authenticate. by rewrite credential_wire.
  - apply (call_faithful _ _ ToProtoDecision); [done| |apply decision_wire]. unfold server_Authorize. by rewrite access_wire.
Qed.
Lemma remote_metering_ops `{Metering C} c : link_up ->
  (forall e, @mr_Emit _ (NewRemoteMetering metering_client) e c = statuses (mr_Emit e) c) /\
  (forall r, @mr_Quota _ (NewRemoteMetering metering_client) r c = statuses (mr_Quota r) c).
Proof.
  intros Hup. split; intros x; cbn.
  - rewrite call_up by done. unfold server_Emit, statuses. cbn [mfor]. rewrite event_wire.
    unfold mbind, M_bind. by destruct (mr_Emit x c) as [c' [[]|e]].
  - apply (call_faithful _ _ ToProtoQuotaState); [done| |apply quota_wire]. unfold server_Quota. by rewrite ref_wire.
Qed.
Lemma remote_build_ops `{Build C} c : link_up ->
  (forall r, @bd_Resolve _ (NewRemoteBuild build_client) r c = statuses (bd_Resolve r) c) /\
  (forall s, @bd_Status _ (NewRemoteBuild build_client) s c = statuses (bd_Status s) c).
Proof.
  intros Hup. split; intros x; cbn.
  - apply (call_faithful _ _ ToProtoImageRef); [done| |apply image_wire]. unfold server_Resolve. by rewrite build_wire.
  - apply (call_faithful _ _ ToProtoBuildStatus); [done..|apply build_status_wire].
Qed.


(** A compute provider behind gRPC is not the provider itself.  The wire
    message has no room for a CPU cap, the box-guest binary or a block-device
    home, and the answer none for the box's address: the remote provider is
    asked without them, so requests that differ only there do the same, the
    address is always empty and a box can never be suspended. *)
Theorem remote_compute_lossy `{Compute C} r c :
  link_up ->
  @cp_Provision _ (NewRemoteCompute compute_client) r c =
    statuses (inst ← cp_Provision (wire_request r); mret (wire_instance inst)) c /\
  (forall ref, @cp_Status _ (NewRemoteCompute compute_client) ref c =
    statuses (inst ← cp_Status ref; mret (wire_instance inst)) c) /\
  (forall ref, @cp_Stop _ (NewRemoteCompute compute_client) ref c = statuses (cp_Stop ref) c) /\
  (forall ref, @cp_Destroy _ (NewRemoteCompute compute_client) ref c = statuses (cp_Destroy ref) c) /\
  (forall cpu guest mounts, map wire_mount mounts = map wire_mount (pr_Mounts r) ->
     @cp_Provision _ (NewRemoteCompute compute_client)
       (mkProvisionRequest (pr_WorkspaceID r) (pr_ImageRef r) (pr_MemMB r) cpu guest mounts (pr_Env r) (pr_Agent r)) c =
     @cp_Provision _ (NewRemoteCompute compute_client) r c) /\
  (forall c' inst, @cp_Provision _ (NewRemoteCompute compute_client) r c = (c', Ok inst) -> in_IP inst = ""%string) /\
  @cp_suspender _ (NewRemoteCompute compute_client) = None.
Proof.
  intros Hup. assert (forall r, @cp_Provision _ (NewRemoteCompute compute_client) r c =
    statuses (inst ← cp_Provision (wire_request r); mret (wire_instance inst)) c) as Hp.
  { intros x. cbn. rewrite (call_converted server_Provision (cp_Provision (wire_request x)) ToProtoInstance) by
      (done || (unfold server_Provision; by rewrite request_wire)).
    unfold statuses, mbind, M_bind. destruct (cp_Provision (wire_request x) c) as [c' [i|e]]; [by rewrite <- (instance_wire i)|done]. }
  split; [apply Hp|]. split_and!.
  - intros ref. cbn. rewrite (call_converted server_Status (cp_Status ref) ToProtoInstance) by done.
    unfold statuses, mbind, M_bind. destruct (cp_Status ref c) as [c' [i|e]]; [by rewrite <- (instance_wire i)|done].
  - intros ref. by apply call_up.
  - intros ref. by apply call_up.
  - intros cpu guest mounts Hm. rewrite !Hp. unfold wire_request. cbn. by rewrite Hm.
  - intros c' inst. rewrite Hp. unfold statuses, mbind, M_bind.
    destruct (cp_Provision (wire_request r) c) as [c1 [i|e]]; cbn; [by intros [= _ <-]|done].
  - done.
Qed.

(** An error a caller recognises by identity is not recognised after the wire. *)
Lemma status_hides_sentinel e pkg text : errors_Is (status_of e) (Sentinel pkg text) = false.
Proof. by destruct e. Qed.
End proofs.

Module DemoLink.
#[export] Instance link : Link nat := {| lk_send _ := None; lk_recv _ := None |}.
#[export] Instance compute : Compute nat := {|
  cp_Provision r := fun n => (S n, Ok (mkInstance (pr_WorkspaceID r) InstanceRunning "10.0.0.9"));
  cp_Status ref := mret (mkInstance ref InstanceRunning "10.0.0.9"); cp_Stop _ := mret tt; cp_Destroy _ := mret tt;
  cp_suspender := Some {| cp_Suspend _ := mret tt; cp_Resume _ := mret tt |}
|}.
#[export] Instance storage : Storage nat := {|
  sg_EnsureHome r := mret (mkMount (hr_Owner r) "/home/dev" false true); sg_Delete _ := throw (Errorf "busy")
|}.
#[export] Instance ingress : Ingress nat := {|
  ig_Expose r := mret (mkPortEndpoint "r" "https://app" (er_Name r) (er_Port r)); ig_Unexpose _ := mret tt
|}.
#[export] Instance identity : Identity nat := {|
  id_Authenticate c := mret (mkPrincipal (cr_Value c) "t" "" []); id_Authorize _ := mret (mkDecision true "")
|}.
#[export] Instance metering : Metering nat := {| mr_Emit _ := fun n => (S n, Ok tt); mr_Quota _ := mret (mkQuotaState true 1 2 "") |}.
#[export] Instance builder : Build nat := {| bd_Resolve r := mret (mkImageRef (br_SourceRef r) ""); bd_Status _ := throw (Errorf "none") |}.
Lemma up : @link_up nat link.
Proof. done. Qed.
Definition request : ProvisionRequest := mkProvisionRequest "w" "ubuntu" 512 2000 "/bin/box-guest" [mkMount "/a" "/b" false true] ∅ no_agent.
End DemoLink.


Lemma remote_compute_lossy_witness :
  @cp_Provision _ (NewRemoteCompute (@compute_client nat DemoLink.link DemoLink.compute)) DemoLink.request 0%nat =
    (1%nat, Ok (mkInstance "w" InstanceRunning "")).
Proof. exact (proj1 (@remote_compute_lossy nat DemoLink.link DemoLink.compute DemoLink.request 0%nat DemoLink.up)). Defined.
