(* ===== verification/Microvm.v ===== *)
(** The Firecracker compute provider ([providers/compute/microvm]): the machine
    configuration ([config.go]), the fleet's network names and addresses
    ([net_config.go]), the bridge, taps and fence ([network.go], [firewall.go])
    and the provider itself ([microvm.go]), with the agent's side of the packed
    environment ([cmd/hopbox-agent/env.go]).

    The host is the class [Host]: the files, the commands and firewall the
    provider runs, the copy-on-write root filesystems ([rootfs.go]) and the
    Firecracker processes and their API ([fcapi.go]).  A JSON file is the
    document written to it.  A nil dereference is the error [nil_panic], which
    nothing in the provider handles. *)
From stdpp Require Import base option list strings gmap sorting.
From Stdlib Require Import Ascii ZArith Lia.
From S2P Require Import Prelude GoStrings Json GoPath GoEncoding Ports.
Local Open Scope Z_scope.

(** * The machine configuration *)
Definition defaultMemMB : Z := 256.
Definition DefaultBootArgs : string := "console=ttyS0 reboot=k panic=-1 pci=off".
Definition vmInit : string := "/sbin/hopbox-init".

Record VMSpec : Type := mkVMSpec {
  vs_KernelPath : string;
  vs_RootfsPath : string;
  vs_VcpuCount : Z;
  vs_MemMB : Z;
  vs_BootArgs : string;
  vs_TapDev : string;
  vs_GuestMAC : string;
  vs_Init : string;
  vs_Env : gmap string string;
  vs_HomeDrive : string
}.
Record fcBootSource : Type := mkBootSource {
  bs_KernelImagePath : string;
  bs_BootArgs : string
}.
Record fcDrive : Type := mkDrive {
  dr_DriveID : string;
  dr_PathOnHost : string;
  dr_IsRootDevice : bool;
  dr_IsReadOnly : bool
}.
Record fcMachineConfig : Type := mkMachineConfig {
  mc_VcpuCount : Z;
  mc_MemSizeMib : Z
}.
Record fcNetIface : Type := mkNetIface {
  ni_IfaceID : string;
  ni_HostDevName : string;
  ni_GuestMAC : string
}.
Record fcConfig : Type := mkFcConfig {
  fc_BootSource : fcBootSource;
  fc_Drives : list fcDrive;
  fc_MachineConfig : fcMachineConfig;
  fc_NetworkIfaces : list fcNetIface
}.

(** Values a kernel command line token can carry. *)
Definition inline_ok (v : string) : bool :=
  negb (contains_byte " " v || contains_byte (byte_of 9) v || contains_byte (byte_of 10) v).
Definition env_token (env : gmap string string) (k : string) : string :=
  let v := default EmptyString (env !! k) in if inline_ok v then " " +:+ k +:+ "=" +:+ v else "".
Definition packed_env (env : gmap string string) : string := b64_encode (print (map_json env)).

Definition buildConfig (s : VMSpec) : fcConfig :=
  let args := if bool_decide (vs_BootArgs s = ""%string) then DefaultBootArgs else vs_BootArgs s in
  let args := if bool_decide (vs_Init s = ""%string) then args else args +:+ " init=" +:+ vs_Init s in
  let args := args +:+ join "" (map (env_token (vs_Env s)) (sorted_keys (vs_Env s))) in
  let args := if bool_decide (vs_Env s = ∅) then args else args +:+ " HOPBOX_ENV64=" +:+ packed_env (vs_Env s) in
  let mem := if vs_MemMB s <=? 0 then defaultMemMB else vs_MemMB s in
  let vcpu := if vs_VcpuCount s <? 1 then 1 else vs_VcpuCount s in
  let drives := [mkDrive "rootfs" (vs_RootfsPath s) true false] in
  let drives := if bool_decide (vs_HomeDrive s = ""%string) then drives
                else drives ++ [mkDrive "home" (vs_HomeDrive s) false false] in
  mkFcConfig (mkBootSource (vs_KernelPath s) args) drives (mkMachineConfig vcpu mem)
    (if bool_decide (vs_TapDev s = ""%string) then [] else [mkNetIface "eth0" (vs_TapDev s) (vs_GuestMAC s)]).

(** [int((milli + 999) / 1000)], whose division truncates. *)
Definition vcpusFromMillis (milli : Z) : Z :=
  if milli <=? 0 then 1
  else let n := Z.quot (wrap64 (milli + 999)) 1000 in if n <? 1 then 1 else n.

(** [applyPackedEnv]: the variables it sets, when the packed environment
    decodes. *)
Definition applyPackedEnv (b64 : string) : option (gmap string string) :=
  if bool_decide (b64 = ""%string) then None
  else
    raw ← b64_decode b64;
    match unmarshal_map raw with Ok env => Some env | Err _ => None end.

(** * The fleet's network *)
Record NetConfig : Type := mkNetConfig {
  nc_Bridge : string;
  nc_Subnet24 : string;
  nc_TapPrefix : string;
  nc_FenceChain : string
}.
Definition DefaultNet : NetConfig := mkNetConfig "hopbox-vmnet" "10.0.0" "fctap" "HOPBOX-VM".

Definition tapTag (bridge : string) : string := "vt" +:+ hex4_text (Z.land (fnv_sum32 bridge) 65535).
Definition chain_byte (c : ascii) : ascii :=
  let v := byte_val c in
  if (97 <=? v) && (v <=? 122) then byte_of (v - 32)
  else if ((65 <=? v) && (v <=? 90)) || is_digit c then c else "-"%char.
(** [strings.Map] over ASCII text. *)
Fixpoint chainTag (bridge : string) : string :=
  match bridge with EmptyString => EmptyString | String c s => String (chain_byte c) (chainTag s) end.

Definition withDefaults (c : NetConfig) : NetConfig :=
  let d := DefaultNet in
  let bridge := if bool_decide (nc_Bridge c = ""%string) then nc_Bridge d else nc_Bridge c in
  let subnet := if bool_decide (nc_Subnet24 c = ""%string) then nc_Subnet24 d else nc_Subnet24 c in
  let prefix := if bool_decide (nc_TapPrefix c = ""%string)
                then (if bool_decide (bridge = nc_Bridge d) then nc_TapPrefix d else tapTag bridge) else nc_TapPrefix c in
  let chain := if bool_decide (nc_FenceChain c = ""%string)
               then (if bool_decide (bridge = nc_Bridge d) then nc_FenceChain d else chainTag bridge) else nc_FenceChain c in
  mkNetConfig bridge subnet prefix chain.

Definition ipFirstOctet : Z := 2.
Definition ipLastOctet : Z := 254.
Definition gateway (c : NetConfig) : string := nc_Subnet24 c +:+ ".1".
Definition netmask (c : NetConfig) : string := "255.255.255.0".
Definition subnet (c : NetConfig) : string := nc_Subnet24 c +:+ ".0/24".
Definition bridgeCIDR (c : NetConfig) : string := nc_Subnet24 c +:+ ".1/24".
Definition ip (c : NetConfig) (octet : Z) : string := nc_Subnet24 c +:+ "." +:+ itoa octet.
Definition fenceIn (c : NetConfig) : string := nc_FenceChain c +:+ "-IN".
Definition fenceFwd (c : NetConfig) : string := nc_FenceChain c +:+ "-FWD".

Definition lastOctet (addr : string) : Z := match ParseIP4 addr with Some (_, _, _, d) => d | None => -1 end.
Definition tapName (c : NetConfig) (addr : string) : string := nc_TapPrefix c +:+ itoa (lastOctet addr).
Definition macFromIP (addr : string) : string :=
  match ParseIP4 addr with
  | Some (a, b, c, d) => "06:00:" +:+ hex_byte a +:+ ":" +:+ hex_byte b +:+ ":" +:+ hex_byte c +:+ ":" +:+ hex_byte d
  | None => ""
  end.
Definition ipBootArg (addr gw mask : string) : string := "ip=" +:+ addr +:+ "::" +:+ gw +:+ ":" +:+ mask +:+ "::eth0:off".

Definition tapOctets (prefix ipLinkOutput : string) : list Z :=
  omap (fun line =>
    match string_Fields line with
    | [] => None
    | f :: _ =>
        let name := (cut "@" f).1.1 in
        if has_prefix prefix name then Atoi (trim_prefix prefix name) else None
    end) (split (byte_of 10) ipLinkOutput).

(** [vmFenceRules]: the rules of the two chains. *)
Definition established : list string := ["-m"; "conntrack"; "--ctstate"; "ESTABLISHED,RELATED"; "-j"; "RETURN"]%string.
Definition vmFenceRules (allowHostPorts : list string) : list (list string) * list (list string) :=
  ([established] ++ map (fun p => ["-p"; "tcp"; "--dport"; p; "-j"; "RETURN"]%string) allowHostPorts ++ [["-j"; "DROP"]%string],
   [established; ["-d"; "169.254.0.0/16"; "-j"; "DROP"]; ["-d"; "10.0.0.0/8"; "-j"; "DROP"];
    ["-d"; "172.16.0.0/12"; "-j"; "DROP"]; ["-d"; "192.168.0.0/16"; "-j"; "DROP"];
    ["-d"; "100.64.0.0/10"; "-j"; "DROP"]; ["-j"; "ACCEPT"]]%string).

(** * The host *)
Class Host (O : Type) : Type := {
  os_Stat : string -> O -> result unit;
  os_MkdirAll : string -> M O unit;
  os_ReadDir : string -> M O (list (string * bool));    (* names and whether directories *)
  os_RemoveAll : string -> M O unit;
  os_Remove : string -> M O unit;
  os_OpenLog : string -> M O unit;
  os_WriteJSON : string -> json -> M O unit;
  os_ReadJSON : string -> M O json;
  os_WriteFile : string -> string -> M O unit;
  os_Run : list string -> M O unit;                     (* the error renders with the output *)
  os_Output : list string -> M O string;
  ipt_New : M O unit;
  ipt_AppendUnique : string -> string -> list string -> M O unit;
  ipt_ClearChain : string -> string -> M O unit;
  ipt_Append : string -> string -> list string -> M O unit;
  ipt_InsertUnique : string -> string -> Z -> list string -> M O unit;
  pool_clone : string -> string -> string -> M O string;
  pool_teardown : string -> M O unit;
  pool_close : M O unit;
  fc_Start : string -> string -> M O nat;
  fc_waitForSocket : string -> M O unit;
  fc_boot : string -> fcConfig -> M O unit;
  fc_pause : string -> M O unit;
  fc_snapshot : string -> string -> string -> M O unit;
  fc_loadSnapshot : string -> string -> string -> bool -> M O unit;
  os_Kill : nat -> M O unit
}.

Record vm : Type := mkVM {
  v_cmd : option nat;        (* the Firecracker process; nil on a reattached box *)
  v_dir : string;
  v_image : string;
  v_ip : string;
  v_tap : string;
  v_sock : string;
  v_suspended : bool;
  v_done : bool
}.
Record vmMeta : Type := mkMeta {
  vm_Image : string;
  vm_IP : string;
  vm_Tap : string;
  vm_Suspended : bool
}.
Definition meta_json (m : vmMeta) : json :=
  JObj [("image", JStr (vm_Image m)); ("ip", JStr (vm_IP m)); ("tap", JStr (vm_Tap m)); ("suspended", JBool (vm_Suspended m))]%string.
Definition meta_fields : Fields vmMeta :=
  [("image", str_field (fun s m => mkMeta s (vm_IP m) (vm_Tap m) (vm_Suspended m)));
   ("ip", str_field (fun s m => mkMeta (vm_Image m) s (vm_Tap m) (vm_Suspended m)));
   ("tap", str_field (fun s m => mkMeta (vm_Image m) (vm_IP m) s (vm_Suspended m)));
   ("suspended", bool_field (fun b m => mkMeta (vm_Image m) (vm_IP m) (vm_Tap m) b))]%string.

Record Fleet : Type := mkFleet {
  fl_fcBin : string;
  fl_kernel : string;
  fl_imagesDir : string;
  fl_runDir : string;
  fl_net : NetConfig
}.
Record Provider (O : Type) : Type := mkProvider {
  pv_vms : gmap string vm;
  pv_used : gset Z;
  pv_host : O
}.
Arguments mkProvider {O}.
Arguments pv_vms {O}.
Arguments pv_used {O}.
Arguments pv_host {O}.

Definition nil_panic : error := Sentinel "runtime" "invalid memory address or nil pointer dereference".

(** * Operations *)
Section provider.
Context {O : Type} `{Host O}.
Notation P := (Provider O).
Variable fl : Fleet.
Notation cfg := (fl_net fl).

#[export] Instance set_pv_vms : Setter (@pv_vms O) := fun f p => mkProvider (f (pv_vms p)) (pv_used p) (pv_host p).
#[export] Instance set_pv_used : Setter (@pv_used O) := fun f p => mkProvider (pv_vms p) (f (pv_used p)) (pv_host p).
#[export] Instance set_pv_host : Setter (@pv_host O) := fun f p => mkProvider (pv_vms p) (pv_used p) (f (pv_host p)).

Definition on_host {A} (m : M O A) : M P A := zoom pv_host (fun o p => p <| pv_host := o |>) m.
Definition exists_file (path : string) : M P bool := gets (fun p => is_ok (os_Stat path (pv_host p))).

(** ** network.go *)
Definition octets : list Z := seqZ ipFirstOctet (ipLastOctet - ipFirstOctet + 1).

Definition allocIP : M P string :=
  used ← gets pv_used;
  match find (fun o => negb (bool_decide (o ∈ used))) octets with
  | Some o => modify (fun p => p <| pv_used := {[o]} ∪ pv_used p |>) ;; mret (ip cfg o)
  | None => throw (Errorf ("microvm: no free IP in " +:+ subnet cfg))
  end.

Definition reserveIP (addr : string) : M P unit :=
  let o := lastOctet addr in
  if 0 <=? o then modify (fun p => p <| pv_used := {[o]} ∪ pv_used p |>) else mret tt.

Definition freeIP (addr : string) : M P unit :=
  let o := lastOctet addr in
  if 0 <=? o then modify (fun p => p <| pv_used := pv_used p ∖ {[o]} |>) else mret tt.

Definition failing (prefix : string) (m : M O unit) : M P unit :=
  r ← try (on_host m);
  match r with Err e => throw (Errorf (prefix +:+ ": " +:+ Error e)) | Ok _ => mret tt end.

Definition createTap (tap : string) : M P unit :=
  ignore (on_host (os_Run ["ip"; "link"; "del"; tap]%string)) ;;
  failing ("microvm: tap add " +:+ tap) (os_Run ["ip"; "tuntap"; "add"; "dev"; tap; "mode"; "tap"]%string) ;;
  failing "microvm: tap master" (os_Run ["ip"; "link"; "set"; tap; "master"; nc_Bridge cfg]%string) ;;
  failing "microvm: tap up" (os_Run ["ip"; "link"; "set"; tap; "up"]%string).

Definition deleteTap (tap : string) : M P unit := ignore (on_host (os_Run ["ip"; "link"; "del"; tap]%string)).

Definition nat_rules : list (string * string * list string) :=
  [("nat", "POSTROUTING", ["-s"; subnet cfg; "!"; "-o"; nc_Bridge cfg; "-j"; "MASQUERADE"]);
   ("filter", "FORWARD", ["-o"; nc_Bridge cfg; "-m"; "conntrack"; "--ctstate"; "RELATED,ESTABLISHED"; "-j"; "ACCEPT"])]%string.
Definition rule_text (r : string * string * list string) : string := sprint_list (r.1.1 :: r.1.2 :: r.2).

Definition ensureBridge : M P unit :=
  s ← try (on_host (os_Run ["ip"; "link"; "show"; nc_Bridge cfg]%string));
  match s with
  | Err _ => failing ("microvm: create bridge " +:+ nc_Bridge cfg) (os_Run ["ip"; "link"; "add"; nc_Bridge cfg; "type"; "bridge"]%string)
  | Ok _ => mret tt
  end ;;
  ignore (on_host (os_Run ["ip"; "addr"; "add"; bridgeCIDR cfg; "dev"; nc_Bridge cfg]%string)) ;;
  failing "microvm: bridge up" (os_Run ["ip"; "link"; "set"; nc_Bridge cfg; "up"]%string) ;;
  ignore (on_host (os_WriteFile "/proc/sys/net/ipv4/ip_forward" ("1" +:+ String (byte_of 10) EmptyString))) ;;
  wrapping "microvm: iptables" (on_host ipt_New) ;;
  mfor nat_rules (fun r =>
    wrapping ("microvm: nat rule " +:+ rule_text r) (on_host (ipt_AppendUnique r.1.1 r.1.2 r.2))).

Definition applyFence (parent chain : string) (rules : list (list string)) : M P unit :=
  wrapping ("clear " +:+ chain) (on_host (ipt_ClearChain "filter" chain)) ;;
  mfor rules (fun r => wrapping ("append " +:+ chain +:+ " " +:+ sprint_list r) (on_host (ipt_Append "filter" chain r))) ;;
  wrapping ("hook " +:+ parent +:+ "->" +:+ chain)
    (on_host (ipt_InsertUnique "filter" parent 1 ["-i"; nc_Bridge cfg; "-j"; chain]%string)).

Definition ensureFence (allowHostPorts : list string) : M P unit :=
  i ← try (on_host ipt_New);
  match i with
  | Err _ => mret tt
  | Ok _ =>
      let '(inp, fwd) := vmFenceRules allowHostPorts in
      ignore (applyFence "INPUT" (fenceIn cfg) inp) ;;
      ignore (applyFence "FORWARD" (fenceFwd cfg) fwd)
  end.

Definition reserveExistingTaps : M P unit :=
  r ← try (on_host (os_Output ["ip"; "-br"; "link"; "show"]%string));
  match r with
  | Err _ => mret tt
  | Ok out => modify (fun p => p <| pv_used := list_to_set (tapOctets (nc_TapPrefix cfg) out) ∪ pv_used p |>)
  end.

(** [newVMNet], on the configuration [withDefaults] completed. *)
Definition newVMNet (allowHostPorts : list string) : M P unit :=
  ensureBridge ;;
  ensureFence allowHostPorts ;;
  reserveExistingTaps.

(** ** microvm.go *)
Definition persist (v : vm) : M P unit :=
  ignore (on_host (os_WriteJSON (Join [v_dir v; "vm.json"%string])
    (meta_json (mkMeta (v_image v) (v_ip v) (v_tap v) (v_suspended v))))).

Definition snapPaths (dir : string) : string * string := (Join [dir; "snapshot"%string], Join [dir; "mem"%string]).

Definition imagePath (image : string) : M P string :=
  let base := Join [fl_imagesDir fl; image +:+ ".ext4"] in
  ok ← exists_file base;
  if ok : bool then mret base
  else throw (Errorf ("microvm: unknown image " +:+ quote image +:+ " (no " +:+ base +:+ ")")).

Definition reattachOne (entry : string * bool) : M P unit :=
  let '(name, is_dir) := entry in
  if negb is_dir || negb (has_prefix "vm-" name) then mret tt
  else
    let ref := trim_prefix "vm-" name in
    let dir := Join [fl_runDir fl; name] in
    j ← try (on_host (os_ReadJSON (Join [dir; "vm.json"%string])));
    match (j ≫= (fun j => decode_struct meta_fields j (mkMeta "" "" "" false))) with
    | Err _ => mret tt
    | Ok m =>
        snap ← exists_file (snapPaths dir).1;
        if negb snap then mret tt
        else
          base ← try (imagePath (vm_Image m));
          match base with
          | Err _ => mret tt
          | Ok base =>
              c ← try (on_host (pool_clone ref dir base));
              match c with
              | Err _ => mret tt
              | Ok _ =>
                  reserveIP (vm_IP m) ;;
                  modify (fun p => p <| pv_vms := <[ref := mkVM None dir (vm_Image m) (vm_IP m) (vm_Tap m)
                    (Join [dir; "fc.sock"%string]) true false]> (pv_vms p) |>)
              end
          end
    end.

Definition reattach : M P unit :=
  r ← try (on_host (os_ReadDir (fl_runDir fl)));
  match r with
  | Err _ => mret tt
  | Ok entries => mfor entries reattachOne
  end.

(** [New], on the state of a fresh provider. *)
Definition New (allowHostPorts : list string) : M P unit :=
  kvm ← gets (fun p => os_Stat "/dev/kvm" (pv_host p));
  wrapping "microvm: /dev/kvm unavailable (need KVM / nested virt)" (of_result kvm) ;;
  on_host (os_MkdirAll (fl_runDir fl)) ;;
  newVMNet allowHostPorts ;;
  reattach.

Definition defaultDNS : string := "1.1.1.1 8.8.8.8".

(** The environment and the home drive of a request. *)
Definition box_env (r : ProvisionRequest) : gmap string string * string :=
  let env := pr_Env r in
  let env := match env !! "HOPBOX_DNS"%string with None => <["HOPBOX_DNS"%string := defaultDNS]> env | Some _ => env end in
  match find mt_Device (pr_Mounts r) with
  | Some m => (<["HOPBOX_HOME_MOUNT"%string := mt_Target m]> (<["HOPBOX_HOME_DEV"%string := "/dev/vdb"%string]> env), mt_Source m)
  | None => (env, ""%string)
  end.
Definition drive_json (d : fcDrive) : json :=
  JObj [("drive_id", JStr (dr_DriveID d)); ("path_on_host", JStr (dr_PathOnHost d));
        ("is_root_device", JBool (dr_IsRootDevice d)); ("is_read_only", JBool (dr_IsReadOnly d))]%string.
Definition iface_json (n : fcNetIface) : json :=
  JObj ([("iface_id", JStr (ni_IfaceID n)); ("host_dev_name", JStr (ni_HostDevName n))]%string ++
        omit_empty (bool_decide (ni_GuestMAC n = ""%string)) "guest_mac" (JStr (ni_GuestMAC n))).
Definition config_json (c : fcConfig) : json :=
  JObj ([("boot-source", JObj [("kernel_image_path", JStr (bs_KernelImagePath (fc_BootSource c)));
                               ("boot_args", JStr (bs_BootArgs (fc_BootSource c)))]);
         ("drives", JArr (map drive_json (fc_Drives c)));
         ("machine-config", JObj [("vcpu_count", JNum (itoa (mc_VcpuCount (fc_MachineConfig c))));
                                  ("mem_size_mib", JNum (itoa (mc_MemSizeMib (fc_MachineConfig c))))])]%string ++
        omit_empty (match fc_NetworkIfaces c with [] => true | _ => false end) "network-interfaces" (JArr (map iface_json (fc_NetworkIfaces c)))).

(** [defer]: run the clean-up when the rest fails. *)
Definition on_error {A} (cleanup : M P unit) (m : M P A) : M P A := fun p =>
  match m p with
  | (p', Err e) => ((cleanup p').1, Err e)
  | r => r
  end.

(** The part of [Provision] under [fail]: boot the machine on its tap. *)
Definition start_vm (r : ProvisionRequest) (dir rootfs addr : string) : M P BoxInstance :=
  let release := ignore (on_host (pool_teardown (pr_WorkspaceID r))) in
  let tap := tapName cfg addr in
  on_error (deleteTap tap ;; freeIP addr ;; release) (
    let '(env, homeDrive) := box_env r in
    let c := buildConfig (mkVMSpec (fl_kernel fl) rootfs (vcpusFromMillis (pr_CPUMillis r)) (pr_MemMB r)
      (DefaultBootArgs +:+ " " +:+ ipBootArg addr (gateway cfg) (netmask cfg)) tap (macFromIP addr) vmInit env homeDrive) in
    ignore (on_host (os_WriteJSON (Join [dir; "config.json"%string]) (config_json c))) ;;
    on_host (os_OpenLog (Join [dir; "serial.log"%string])) ;;
    let sock := Join [dir; "fc.sock"%string] in
    ignore (on_host (os_Remove sock)) ;;
    cmd ← wrapping "microvm: start firecracker" (on_host (fc_Start (fl_fcBin fl) sock));
    on_error (ignore (on_host (os_Kill cmd))) (
      on_host (fc_waitForSocket sock) ;;
      wrapping "microvm: boot" (on_host (fc_boot sock c))) ;;
    let v := mkVM (Some cmd) dir (pr_ImageRef r) addr tap sock false false in
    persist v ;;
    modify (fun p => p <| pv_vms := <[pr_WorkspaceID r := v]> (pv_vms p) |>) ;;
    mret (mkInstance (pr_WorkspaceID r) InstanceRunning addr)).

Definition Provision (r : ProvisionRequest) : M P BoxInstance :=
  let dir := Join [fl_runDir fl; "vm-" +:+ pr_WorkspaceID r] in
  let release := ignore (on_host (pool_teardown (pr_WorkspaceID r))) in
  on_host (os_MkdirAll dir) ;;
  on_error (ignore (on_host (os_RemoveAll dir))) (
    base ← imagePath (pr_ImageRef r);
    rootfs ← wrapping "microvm: stage rootfs" (on_host (pool_clone (pr_WorkspaceID r) dir base));
    addr ← on_error release allocIP;
    let tap := tapName cfg addr in
    on_error (release ;; freeIP addr) (createTap tap) ;;
    start_vm r dir rootfs addr).

Definition Status (ref : string) : M P BoxInstance :=
  p ← gets id;
  mret (match pv_vms p !! ref with
        | None => mkInstance ref InstanceGone ""
        | Some v =>
            if v_suspended v then mkInstance ref InstanceStopped (v_ip v)
            else if v_done v then mkInstance ref InstanceGone ""
            else mkInstance ref InstanceRunning (v_ip v)
        end).

(** Update the box of [ref], which is there. *)
Definition set_vm (ref : string) (v : vm) : M P unit := modify (fun p => p <| pv_vms := <[ref := v]> (pv_vms p) |>).

(** [v.cmd.Process.Kill()]; every process of the table was started. *)
Definition kill_process (v : vm) : M P unit :=
  match v_cmd v with
  | None => throw nil_panic
  | Some proc => ignore (on_host (os_Kill proc))
  end.

Definition Suspend (ref : string) : M P unit :=
  vms ← gets pv_vms;
  match vms !! ref with
  | None => throw (Errorf ("microvm: suspend: unknown box " +:+ ref))
  | Some v =>
      if v_suspended v then mret tt
      else
        wrapping "microvm: pause" (on_host (fc_pause (v_sock v))) ;;
        let '(state, mem) := snapPaths (v_dir v) in
        wrapping "microvm: snapshot" (on_host (fc_snapshot (v_sock v) state mem)) ;;
        kill_process v ;;
        let v := mkVM (v_cmd v) (v_dir v) (v_image v) (v_ip v) (v_tap v) (v_sock v) true (v_done v) in
        set_vm ref v ;;
        persist v
  end.

Definition Resume (ref : string) : M P unit :=
  vms ← gets pv_vms;
  match vms !! ref with
  | None => throw (Errorf ("microvm: resume: unknown box " +:+ ref))
  | Some v =>
      if negb (v_suspended v) then mret tt
      else
        wrapping "microvm: resume tap" (createTap (v_tap v)) ;;
        let '(state, mem) := snapPaths (v_dir v) in
        ignore (on_host (os_Remove (v_sock v))) ;;
        on_host (os_OpenLog (Join [v_dir v; "serial.log"%string])) ;;
        cmd ← wrapping "microvm: resume start" (on_host (fc_Start (fl_fcBin fl) (v_sock v)));
        on_error (ignore (on_host (os_Kill cmd))) (
          on_host (fc_waitForSocket (v_sock v)) ;;
          wrapping "microvm: load snapshot" (on_host (fc_loadSnapshot (v_sock v) state mem true))) ;;
        let v := mkVM (Some cmd) (v_dir v) (v_image v) (v_ip v) (v_tap v) (v_sock v) false false in
        set_vm ref v ;;
        persist v
  end.

Definition kill (ref : string) : M P unit :=
  vms ← gets pv_vms;
  match vms !! ref with
  | None => mret tt
  | Some v => kill_process v
  end.

Definition Stop (ref : string) : M P unit := kill ref.

Definition Destroy (ref : string) : M P unit :=
  kill ref ;;
  vms ← gets pv_vms;
  modify (fun p => p <| pv_vms := delete ref (pv_vms p) |>) ;;
  match vms !! ref with
  | None => mret tt
  | Some v =>
      deleteTap (v_tap v) ;;
      freeIP (v_ip v) ;;
      ignore (on_host (pool_teardown ref)) ;;
      on_host (os_RemoveAll (v_dir v))
  end.

Definition Close : M P unit := on_host pool_close.

(** [cmd.Wait()] returned in the goroutine of a box's process. *)
Definition process_exited (ref : string) : M P unit :=
  vms ← gets pv_vms;
  match vms !! ref with
  | None => mret tt
  | Some v => set_vm ref (mkVM (v_cmd v) (v_dir v) (v_image v) (v_ip v) (v_tap v) (v_sock v) (v_suspended v) true)
  end.

(** [Images] *)
Definition Images : M P (list string) :=
  r ← try (on_host (os_ReadDir (fl_imagesDir fl)));
  match r with
  | Err _ => mret []
  | Ok entries =>
      mret (merge_sort key_le (omap (fun '(name, is_dir) =>
        match cut_suffix ".ext4" name with Some n => if negb is_dir then Some n else None | None => None end) entries))
  end.

#[export] Instance microvm_suspender : Suspender P := {| cp_Suspend := Suspend; cp_Resume := Resume |}.
#[export] Instance microvm_compute : Compute P := {|
  cp_Provision := Provision; cp_Status := Status; cp_Stop := Stop; cp_Destroy := Destroy;
  cp_suspender := Some microvm_suspender
|}.
End provider.

(** * Lemmas: the packed environment *)
Lemma split_app_sep c x y : split c (x +:+ String c y) = split c x ++ split c y.
Proof.
  induction x as [|a x IH].
  - change (EmptyString +:+ String c y) with (String c y). cbn [split]. by rewrite ascii_eqb_refl.
  - rewrite string_app_cons. cbn [split]. destruct (ascii_eqb a c) eqn:Ha; [by rewrite IH|].
    rewrite IH. pose proof (split_nonempty c x) as Hn. by destruct (split c x).
Qed.

Lemma packed_token env : contains_byte " " ("HOPBOX_ENV64=" +:+ packed_env env) = false.
Proof. rewrite contains_byte_app. unfold packed_env. by rewrite (proj2 (b64_encode_plain _)). Qed.

Lemma packed_env_decodes env : text_map env -> env <> ∅ -> applyPackedEnv (packed_env env) = Some env.
Proof.
  intros Ht Hne. unfold applyPackedEnv. rewrite bool_decide_eq_false_2.
  - unfold packed_env. rewrite b64_roundtrip. cbn [mbind option_bind]. by rewrite map_json_roundtrip.
  - unfold packed_env. assert (exists c s, print (map_json env) = String c s) as (c & s & ->) by (do 2 eexists; reflexivity).
    by destruct s as [|b [|d s]].
Qed.

Lemma buildConfig_env s :
  vs_Env s <> ∅ -> exists pre, bs_BootArgs (fc_BootSource (buildConfig s)) = pre +:+ String " " ("HOPBOX_ENV64=" +:+ packed_env (vs_Env s)).
Proof.
  intros Hne. unfold buildConfig. cbn [fc_BootSource bs_BootArgs]. rewrite bool_decide_eq_false_2 by done.
  eexists. change (" HOPBOX_ENV64=" +:+ packed_env (vs_Env s)) with (String " " ("HOPBOX_ENV64=" +:+ packed_env (vs_Env s))).
  reflexivity.
Qed.

Lemma box_env_spec r :
  let env := (box_env r).1 in
  env <> ∅ /\ is_Some (env !! "HOPBOX_DNS"%string) /\
  forall k v, pr_Env r !! k = Some v -> k <> "HOPBOX_HOME_DEV"%string -> k <> "HOPBOX_HOME_MOUNT"%string -> env !! k = Some v.
Proof.
  unfold box_env. set (e0 := match pr_Env r !! "HOPBOX_DNS"%string with None => _ | Some _ => _ end).
  assert (is_Some (e0 !! "HOPBOX_DNS"%string)) as Hdns.
  { unfold e0. destruct (pr_Env r !! "HOPBOX_DNS"%string) eqn:Hd; [by eexists|]. rewrite lookup_insert_eq. by eexists. }
  assert (forall k v, pr_Env r !! k = Some v -> e0 !! k = Some v) as He0.
  { intros k v Hk. unfold e0. destruct (pr_Env r !! "HOPBOX_DNS"%string) eqn:Hd; [done|].
    rewrite lookup_insert_ne; [done|]. intros <-. congruence. }
  destruct (find mt_Device (pr_Mounts r)) as [m|]; cbn [fst].
  - assert (forall k, k <> "HOPBOX_HOME_DEV"%string -> k <> "HOPBOX_HOME_MOUNT"%string ->
      <["HOPBOX_HOME_MOUNT"%string := mt_Target m]> (<["HOPBOX_HOME_DEV"%string := "/dev/vdb"%string]> e0) !! k = e0 !! k) as Hk.
    { intros k H1 H2. by rewrite !lookup_insert_ne by done. }
    split_and!; [|by rewrite Hk by done|intros k v Hv H1 H2; rewrite Hk by done; auto].
    intros He. apply (f_equal (lookup "HOPBOX_HOME_MOUNT"%string)) in He. by rewrite lookup_insert_eq, lookup_empty in He.
  - split_and!; [|done|by auto]. intros He. rewrite He, lookup_empty in Hdns. by destruct Hdns.
Qed.

(** The workspace's environment reaches the agent inside the microVM intact,
    spaces and newlines included: the last token of the kernel command line is
    [HOPBOX_ENV64] with a value free of spaces, and decoding it as the agent does
    gives exactly the environment the provider built, which has every variable
    of the request (the home variables apart, which the provider owns) and a
    resolver. *)
Theorem packed_env_roundtrip r kernel rootfs vcpus mem args tap mac home :
  let env := (box_env r).1 in
  text_map env ->
  let c := buildConfig (mkVMSpec kernel rootfs vcpus mem args tap mac vmInit env home) in
  last (split " " (bs_BootArgs (fc_BootSource c))) = Some ("HOPBOX_ENV64=" +:+ packed_env env) /\
  applyPackedEnv (packed_env env) = Some env /\
  is_Some (env !! "HOPBOX_DNS"%string) /\
  forall k v, pr_Env r !! k = Some v -> k <> "HOPBOX_HOME_DEV"%string -> k <> "HOPBOX_HOME_MOUNT"%string -> env !! k = Some v.
Proof.
  intros env Ht c. destruct (box_env_spec r) as (Hne & Hdns & Hall). split_and!; [|by apply packed_env_decodes|done|done].
  destruct (buildConfig_env (mkVMSpec kernel rootfs vcpus mem args tap mac vmInit env home) Hne) as (pre & Hb).
  unfold c. rewrite Hb, split_app_sep. cbn [vs_Env].
  rewrite (split_absent " " ("HOPBOX_ENV64=" +:+ packed_env env) (packed_token env)). by rewrite last_snoc.
Qed.

(** * Lemmas: addresses *)
(** The first three octets, as text. *)
Definition subnet_ok (c : NetConfig) : Prop :=
  exists a b d x y z, split "." (nc_Subnet24 c) = [a; b; d] /\ octet a = Some x /\ octet b = Some y /\ octet d = Some z.

Lemma octet_itoa o :
  ipFirstOctet <= o <= ipLastOctet -> split "." (itoa o) = [itoa o] /\ octet (itoa o) = Some o.
Proof.
  intros Ho. unfold ipFirstOctet, ipLastOctet in Ho.
  assert (forallb (fun k => bool_decide (split "." (itoa (Z.of_nat k)) = [itoa (Z.of_nat k)]) &&
    bool_decide (octet (itoa (Z.of_nat k)) = Some (Z.of_nat k))) (seq 0 256) = true) as Hall by (vm_compute; reflexivity).
  rewrite forallb_forall in Hall. specialize (Hall (Z.to_nat o)). rewrite Z2Nat.id in Hall by lia.
  assert (In (Z.to_nat o) (seq 0 256)) as Hin by (apply in_seq; lia). apply Hall, andb_true_iff in Hin as [H1 H2].
  apply bool_decide_eq_true_1 in H1, H2. by split.
Qed.

Lemma lastOctet_ip c o : subnet_ok c -> ipFirstOctet <= o <= ipLastOctet -> lastOctet (ip c o) = o.
Proof.
  intros (a & b & d & x & y & z & Hs & Ha & Hb & Hd) Ho. destruct (octet_itoa o Ho) as [Hsp Hoc].
  unfold lastOctet, ParseIP4, ip. change ("." +:+ itoa o) with (String "." (itoa o)).
  rewrite split_app_sep, Hs, Hsp. cbn [app]. rewrite Ha, Hb, Hd, Hoc. done.
Qed.

Lemma itoa_inj x y : itoa x = itoa y -> x = y.
Proof. intros He. pose proof (int_literal_itoa x) as Hx. rewrite He, int_literal_itoa in Hx. congruence. Qed.

Lemma elem_of_octets o : o ∈ octets <-> ipFirstOctet <= o <= ipLastOctet.
Proof. unfold octets. rewrite elem_of_seqZ. unfold ipFirstOctet, ipLastOctet. lia. Qed.

(** * The table's invariant *)
Section invariant.
Context {O : Type} `{Host O}.
Notation P := (Provider O).
Variable fl : Fleet.
Notation cfg := (fl_net fl).
Hypothesis net_ok : subnet_ok cfg.

(** Every box has an address of the fleet, reserved, and its own. *)
Definition addressed (used : gset Z) (v : vm) : Prop :=
  exists o, ipFirstOctet <= o <= ipLastOctet /\ o ∈ used /\ v_ip v = ip cfg o /\ v_tap v = tapName cfg (v_ip v).
Definition pv_ok (p : P) : Prop :=
  (forall ref v, pv_vms p !! ref = Some v -> addressed (pv_used p) v) /\
  (forall ref ref' v v', pv_vms p !! ref = Some v -> pv_vms p !! ref' = Some v' -> v_ip v = v_ip v' -> ref = ref').

Definition same_net (p p' : P) : Prop := pv_vms p' = pv_vms p /\ pv_used p' = pv_used p.

Lemma same_net_ok p p' : same_net p p' -> pv_ok p -> pv_ok p'.
Proof. intros [Hv Hu]. unfold pv_ok. by rewrite Hv, Hu. Qed.

Lemma same_net_trans p q s : same_net p q -> same_net q s -> same_net p s.
Proof. intros [? ?] [? ?]. split; congruence. Qed.

Lemma wp_on_host {A} (m : M O A) (Q : P -> result A -> Prop) p :
  (forall p' r, same_net p p' -> Q p' r) -> wp (on_host m) Q p.
Proof. intros HQ. unfold wp, on_host, zoom. destruct (m (pv_host p)). by apply HQ. Qed.

(** A step that only touches the host. *)
Definition host_only {A} (m : M P A) : Prop := forall p, wp m (fun p' _ => same_net p p') p.

Lemma host_only_bind {A B} (m : M P A) (f : A -> M P B) :
  host_only m -> (forall a, host_only (f a)) -> host_only (m ≫= f).
Proof.
  intros Hm Hf p. apply wp_bind. eapply wp_mono; [apply Hm|]. intros p1 [a|e] H1; [|done].
  eapply wp_mono; [apply Hf|]. intros p2 r H2. by eapply same_net_trans.
Qed.
Lemma host_only_ret {A} (a : A) : host_only (mret a).
Proof. by intros p. Qed.
Lemma host_only_throw {A} e : host_only (throw e : M P A).
Proof. by intros p. Qed.
Lemma host_only_host {A} (m : M O A) : host_only (on_host m).
Proof. intros p. by apply wp_on_host. Qed.
Lemma host_only_ignore {A} (m : M P A) : host_only m -> host_only (ignore m).
Proof. intros Hm p. apply wp_ignore, Hm. Qed.
Lemma host_only_try {A} (m : M P A) : host_only m -> host_only (try m).
Proof. intros Hm p. apply wp_try, Hm. Qed.
Lemma host_only_wrapping {A} s (m : M P A) : host_only m -> host_only (wrapping s m).
Proof. intros Hm p. apply wp_wrapping, Hm. Qed.
Lemma host_only_gets {A} (f : P -> A) : host_only (gets f).
Proof. by intros p. Qed.
Lemma host_only_on_error {A} (c : M P unit) (m : M P A) : host_only c -> host_only m -> host_only (on_error c m).
Proof.
  intros Hc Hm p. unfold wp, on_error. specialize (Hm p). unfold wp in Hm. destruct (m p) as [p1 [a|e]]; [done|].
  specialize (Hc p1). unfold wp in Hc. destruct (c p1) as [p2 r]. cbn [fst]. by eapply same_net_trans.
Qed.
#[local] Hint Resolve host_only_bind host_only_ret host_only_throw host_only_host host_only_ignore host_only_try
  host_only_wrapping host_only_gets host_only_on_error : host.

Lemma failing_host s (m : M O unit) : host_only (failing s m).
Proof. unfold failing. apply host_only_bind; [auto with host|]. intros [u|e]; auto with host. Qed.
#[local] Hint Resolve failing_host : host.

Lemma createTap_host tap : host_only (createTap fl tap).
Proof. unfold createTap. auto 10 with host. Qed.
Lemma deleteTap_host tap : host_only (deleteTap tap).
Proof. unfold deleteTap. auto with host. Qed.
Lemma persist_host v : host_only (persist v).
Proof. unfold persist. auto with host. Qed.
Lemma imagePath_host image : host_only (imagePath fl image).
Proof. unfold imagePath. apply host_only_bind; [unfold exists_file; auto with host|]. intros []; auto with host. Qed.
Lemma kill_process_host v : host_only (kill_process v).
Proof. unfold kill_process. destruct (v_cmd v); auto with host. Qed.
#[local] Hint Resolve createTap_host deleteTap_host persist_host imagePath_host kill_process_host : host.

Lemma allocIP_spec (p : P) :
  wp (allocIP fl) (fun p' r => pv_vms p' = pv_vms p /\
    match r with
    | Ok a => exists o, ipFirstOctet <= o <= ipLastOctet /\ o ∉ pv_used p /\ a = ip cfg o /\ pv_used p' = {[o]} ∪ pv_used p
    | Err _ => pv_used p' = pv_used p
    end) p.
Proof.
  unfold allocIP. apply wp_bind, wp_gets. destruct (find _ octets) as [o|] eqn:Hf; [|by apply wp_throw].
  apply wp_bind, wp_modify, wp_ret. split; [done|]. apply find_some in Hf as [Hin Hn].
  apply list_elem_of_In, elem_of_octets in Hin. apply negb_true_iff, bool_decide_eq_false_1 in Hn. by exists o.
Qed.

Lemma freeIP_spec o (p : P) :
  ipFirstOctet <= o <= ipLastOctet ->
  wp (freeIP (ip cfg o)) (fun p' r => pv_vms p' = pv_vms p /\ pv_used p' = pv_used p ∖ {[o]} /\ r = Ok tt) p.
Proof.
  intros Ho. unfold freeIP. rewrite lastOctet_ip by done.
  assert (0 <=? o = true) as -> by (unfold ipFirstOctet in Ho; apply Z.leb_le; lia). by apply wp_modify.
Qed.

Lemma ip_inj o o' :
  ipFirstOctet <= o <= ipLastOctet -> ipFirstOctet <= o' <= ipLastOctet -> ip cfg o = ip cfg o' -> o = o'.
Proof. intros Ho Ho' He. by rewrite <- (lastOctet_ip cfg o), He, lastOctet_ip. Qed.

Lemma same_net_refl (p : P) : same_net p p.
Proof. done. Qed.

(** The boxes keep their addresses when the reservations only shrink by a free
    one. *)
Lemma pv_ok_free p q o :
  pv_ok p -> o ∉ pv_used p -> pv_vms q = pv_vms p -> pv_used q = ({[o]} ∪ pv_used p) ∖ {[o]} -> pv_ok q.
Proof.
  intros [Ha Hd] Ho Hv Hu. apply (same_net_ok p); [|by split]. split; [done|]. rewrite Hu. set_solver.
Qed.

Lemma wp_on_error {A} (c : M P unit) (m : M P A) (Q : P -> result A -> Prop) p :
  wp m (fun p' r => match r with Ok a => Q p' (Ok a) | Err e => wp c (fun p'' _ => Q p'' (Err e)) p' end) p ->
  wp (on_error c m) Q p.
Proof.
  unfold wp, on_error. destruct (m p) as [p1 [a|e]]; [done|]. by destruct (c p1).
Qed.

(** Undoing what a failed provision took. *)
Definition holding (o : Z) (p q : P) : Prop := pv_vms q = pv_vms p /\ pv_used q = {[o]} ∪ pv_used p.

Lemma holding_same o (p q q' : P) : holding o p q -> same_net q q' -> holding o p q'.
Proof. intros [? ?] [? ?]. split; congruence. Qed.

Lemma freeIP_undo o (p q : P) :
  ipFirstOctet <= o <= ipLastOctet -> o ∉ pv_used p -> holding o p q ->
  wp (freeIP (ip cfg o)) (fun q' r => same_net p q' /\ r = Ok tt) q.
Proof.
  intros Ho Hfr [Hv Hu]. eapply wp_mono; [by apply freeIP_spec|]. intros q' r (Hv' & Hu' & ->). split; [|done].
  split; [congruence|]. rewrite Hu', Hu. set_solver.
Qed.

Lemma wp_host_ok {A} (m : M O A) (Q : P -> result unit -> Prop) p :
  (forall p', same_net p p' -> Q p' (Ok tt)) -> wp (ignore (on_host m)) Q p.
Proof. intros HQ. apply wp_ignore, wp_on_host. intros p' _. apply HQ. Qed.

(** The machine's start: on failure nothing is held. *)
Definition started (r : ProvisionRequest) (o : Z) (p p' : P) (res : result BoxInstance) : Prop :=
  match res with
  | Ok inst => exists v, pv_vms p' = <[pr_WorkspaceID r := v]> (pv_vms p) /\ pv_used p' = {[o]} ∪ pv_used p /\
      v_ip v = ip cfg o /\ v_tap v = tapName cfg (v_ip v) /\ v_suspended v = false /\ v_done v = false /\
      v_cmd v <> None /\ inst = mkInstance (pr_WorkspaceID r) InstanceRunning (v_ip v)
  | Err _ => same_net p p'
  end.

Lemma start_spec r o dir rootfs (p q : P) :
  ipFirstOctet <= o <= ipLastOctet -> o ∉ pv_used p -> holding o p q ->
  wp (start_vm fl r dir rootfs (ip cfg o)) (started r o p) q.
Proof.
  intros Ho Hfr Hq. unfold start_vm. apply wp_on_error.
  assert (forall q' e, holding o p q' -> wp (deleteTap (tapName cfg (ip cfg o)) ;; freeIP (ip cfg o) ;;
    ignore (on_host (pool_teardown (pr_WorkspaceID r)))) (fun p'' _ => started r o p p'' (Err e)) q') as Hundo.
  { intros q' e Hh. apply wp_bind, wp_host_ok. intros q1 H1. apply wp_bind.
    eapply wp_mono; [by apply freeIP_undo, (holding_same o p q')|]. intros q2 ? [H2 ->]. apply wp_host_ok. intros q3 H3.
    by eapply same_net_trans. }
  destruct (box_env r) as [env home]. apply wp_bind, wp_host_ok. intros q1 H1.
  apply wp_bind, wp_on_host. intros q2 [u|e] H2; [|apply Hundo; by eauto using holding_same].
  apply wp_bind, wp_host_ok. intros q3 H3.
  apply wp_bind, wp_wrapping, wp_on_host. intros q4 [cmd|e] H4; cbn [map_err]; [|apply Hundo; by eauto using holding_same].
  assert (holding o p q4) as Hh by eauto using holding_same. clear H1 H2 H3 H4.
  apply wp_bind. eapply wp_mono; [apply (host_only_on_error (ignore (on_host (os_Kill cmd)))); auto 6 with host|].
  intros q5 [u5|e] H5; [|apply Hundo; by eauto using holding_same].
  apply wp_bind. eapply wp_mono; [apply persist_host|]. intros q6 [u6|e] H6; [|apply Hundo; by eauto using holding_same].
  assert (holding o p q6) as [Hv Hu] by eauto using holding_same.
  apply wp_bind, wp_modify, wp_ret. cbn [started]. eexists. split; [cbn; by rewrite Hv|]. by split_and!.
Qed.

Lemma Provision_spec r (p : P) :
  wp (Provision fl r) (fun p' res => match res with
    | Ok _ => exists o, ipFirstOctet <= o <= ipLastOctet /\ o ∉ pv_used p /\ started r o p p' res
    | Err _ => same_net p p'
    end) p.
Proof.
  unfold Provision. apply wp_bind, wp_on_host. intros p1 [u|e] H1; [|done]. apply wp_on_error.
  apply wp_bind. eapply wp_mono; [apply imagePath_host|]. intros p2 [base|e] H2.
  2:{ apply wp_host_ok. eauto using same_net_trans. }
  apply wp_bind, wp_wrapping, wp_on_host. intros p3 [rootfs|e] H3; cbn [map_err].
  2:{ apply wp_host_ok. eauto using same_net_trans. }
  assert (same_net p p3) as [Hv3 Hu3] by eauto using same_net_trans. clear H1 H2 H3.
  apply wp_bind, wp_on_error. eapply wp_mono; [apply allocIP_spec|]. intros p4 [a|e] [Hv4 Hu4].
  2:{ apply wp_host_ok. intros p5 H5. apply wp_host_ok. intros p6 H6.
      apply (same_net_trans p p4); [split; congruence|]. by apply (same_net_trans p4 p5). }
  destruct Hu4 as (o & Ho & Hfresh & -> & Hu4). rewrite Hu3 in Hfresh.
  assert (holding o p p4) as Hh by (split; congruence).
  apply wp_bind, wp_on_error. eapply wp_mono; [apply createTap_host|]. intros p5 [u5|e] H5.
  2:{ apply wp_bind, wp_host_ok. intros p6 H6.
      eapply wp_mono; [apply (freeIP_undo o p); [done|done|by eauto using holding_same]|].
      intros p7 ? [H7 ->]. apply wp_host_ok. by eauto using same_net_trans. }
  eapply wp_mono; [apply (start_spec r o _ rootfs p); [done|done|by eapply holding_same]|].
  intros p6 [inst|e] Hst; [by exists o|]. apply wp_host_ok. intros p7 H7. cbn [started] in Hst. by eapply same_net_trans.
Qed.

Lemma addressed_mono used used' v : used ⊆ used' -> addressed used v -> addressed used' v.
Proof. intros Hs (o & Ho & Hin & Hv). exists o. split_and!; try tauto. set_solver. Qed.

Lemma Provision_ok r (p : P) : pv_ok p -> wp (Provision fl r) (fun p' _ => pv_ok p') p.
Proof.
  intros Hok. eapply wp_mono; [apply Provision_spec|]. intros p' [inst|e] Hr; [|by eapply same_net_ok].
  destruct Hr as (o & Ho & Hfr & v & Hv & Hu & Hip & Htap & _). destruct Hok as [Ha Hd].
  assert (forall ref w, pv_vms p !! ref = Some w -> v_ip w <> ip cfg o) as Hne.
  { intros ref w Hw He. destruct (Ha ref w Hw) as (o' & Ho' & Hin & Hip' & _). rewrite Hip' in He.
    apply ip_inj in He; [|done|done]. subst o'. done. }
  split; rewrite Hv.
  - intros ref w [[_ <-]|[_ Hw]]%lookup_insert_Some.
    + exists o. rewrite Hu. split_and!; try done; try lia. set_solver.
    + apply (addressed_mono (pv_used p)); [rewrite Hu; set_solver|by eapply Ha].
  - intros ref ref' w w' [[<- <-]|[Hn Hw]]%lookup_insert_Some [[<- <-]|[Hn' Hw']]%lookup_insert_Some He; [done| | |by eapply Hd].
    + exfalso. apply (Hne ref' w' Hw'). congruence.
    + exfalso. apply (Hne ref w Hw). congruence.
Qed.

(** Replacing a box by one at the same address. *)
Lemma set_vm_ok ref v v' (p : P) :
  pv_ok p -> pv_vms p !! ref = Some v -> v_ip v' = v_ip v -> v_tap v' = v_tap v -> wp (set_vm ref v') (fun p' _ => pv_ok p') p.
Proof.
  intros [Ha Hd] Hv Hip Htap. unfold set_vm. apply wp_modify. split; cbn.
  - intros r w [[_ <-]|[_ Hw]]%lookup_insert_Some; [|by eapply Ha].
    destruct (Ha ref v Hv) as (o & Ho & Hin & Hi & Ht). exists o. split_and!; try done; try lia; congruence.
  - intros r r' w w' [[<- <-]|[Hn Hw]]%lookup_insert_Some [[<- <-]|[Hn' Hw']]%lookup_insert_Some He; [done| | |by eapply Hd].
    + apply (Hd ref r' v w'); [done|done|congruence].
    + symmetry. apply (Hd ref r v w); [done|done|congruence].
Qed.

Lemma pv_ok_host {A} (m : M P A) (p : P) : host_only m -> pv_ok p -> wp m (fun p' _ => pv_ok p' /\ same_net p p') p.
Proof. intros Hm Hok. eapply wp_mono; [apply Hm|]. intros p' r Hs. split; [exact (same_net_ok _ _ Hs Hok)|done]. Qed.

Lemma persist_ok v (p : P) : pv_ok p -> wp (persist v) (fun p' _ => pv_ok p') p.
Proof. intros Hok. eapply wp_mono; [by apply pv_ok_host; [apply persist_host|]|]. by intros p' r [? _]. Qed.

Lemma Suspend_ok ref (p : P) : pv_ok p -> wp (Suspend ref) (fun p' _ => pv_ok p') p.
Proof.
  intros Hok. unfold Suspend. apply wp_bind, wp_gets. destruct (pv_vms p !! ref) as [v|] eqn:Hv; [|by apply wp_throw].
  destruct (v_suspended v); [by apply wp_ret|]. destruct (snapPaths (v_dir v)) as [state mem].
  apply wp_bind, wp_wrapping, wp_on_host. intros p1 [u|e] H1; cbn [map_err]; [|by eapply same_net_ok].
  apply wp_bind, wp_wrapping, wp_on_host. intros p2 [u2|e] H2; cbn [map_err]; [|by eauto using same_net_ok].
  apply wp_bind. eapply wp_mono; [apply kill_process_host|]. intros p3 [u3|e] H3; [|by eauto using same_net_ok].
  assert (same_net p p3) as H03 by eauto using same_net_trans. apply wp_bind.
  eapply wp_mono; [apply (set_vm_ok ref v); [by eapply same_net_ok|by rewrite (proj1 H03)|done|done]|].
  intros p4 [u4|e] H4; [by apply persist_ok|done].
Qed.

Lemma Resume_ok ref (p : P) : pv_ok p -> wp (Resume fl ref) (fun p' _ => pv_ok p') p.
Proof.
  intros Hok. unfold Resume. apply wp_bind, wp_gets. destruct (pv_vms p !! ref) as [v|] eqn:Hv; [|by apply wp_throw].
  destruct (v_suspended v); cbn [negb]; [|by apply wp_ret]. destruct (snapPaths (v_dir v)) as [state mem].
  apply wp_bind. eapply wp_mono; [apply (host_only_wrapping "microvm: resume tap"), createTap_host|].
  intros p1 [u|e] H1; [|exact (same_net_ok _ _ H1 Hok)].
  apply wp_bind, wp_host_ok. intros p2 H2. apply wp_bind, wp_on_host. intros p3 [u3|e] H3; [|by eauto using same_net_ok].
  apply wp_bind, wp_wrapping, wp_on_host. intros p4 [cmd|e] H4; cbn [map_err]; [|by eauto using same_net_ok].
  apply wp_bind. eapply wp_mono; [apply (host_only_on_error (ignore (on_host (os_Kill cmd)))); auto 6 with host|].
  intros p5 [u5|e] H5; [|by eauto 10 using same_net_ok].
  assert (same_net p p5) as H05 by eauto 10 using same_net_trans. apply wp_bind.
  eapply wp_mono; [apply (set_vm_ok ref v); [by eapply same_net_ok|by rewrite (proj1 H05)|done|done]|].
  intros p6 [u6|e] H6; [by apply persist_ok|done].
Qed.

Lemma kill_host ref : host_only (kill ref).
Proof. unfold kill. apply host_only_bind; [auto with host|]. intros vms. destruct (vms !! ref); auto with host. Qed.

Lemma Destroy_ok ref (p : P) : pv_ok p -> wp (Destroy ref) (fun p' _ => pv_ok p') p.
Proof.
  intros Hok. unfold Destroy. apply wp_bind. eapply wp_mono; [apply kill_host|]. intros p1 [u|e] H1; [|by eapply same_net_ok].
  pose proof (same_net_ok _ _ H1 Hok) as [Ha Hd]. clear H1 Hok p. rename p1 into p. apply wp_bind, wp_gets.
  apply wp_bind, wp_modify. cbn. assert (forall q : P, pv_vms q = delete ref (pv_vms p) ->
    (forall r w, delete ref (pv_vms p) !! r = Some w -> addressed (pv_used q) w) -> pv_ok q) as Hq.
  { intros q Hq Hadd. split; rewrite Hq; [done|]. intros r r' w w' [_ Hw]%lookup_delete_Some [_ Hw']%lookup_delete_Some. by apply Hd. }
  destruct (pv_vms p !! ref) as [v|] eqn:Hv.
  2:{ apply wp_ret, Hq; [done|]. intros r w [_ Hw]%lookup_delete_Some. by eapply Ha. }
  apply wp_bind, wp_host_ok. intros p1 [Hv1 Hu1]. cbn in Hv1, Hu1.
  destruct (Ha ref v Hv) as (o & Ho & Hin & Hip & Htap). apply wp_bind. rewrite Hip.
  eapply wp_mono; [by apply freeIP_spec|]. intros p2 ? (Hv2 & Hu2 & ->).
  assert (pv_ok p2) as Hok2.
  { apply Hq; [congruence|]. intros r w [Hne Hw]%lookup_delete_Some.
    destruct (Ha r w Hw) as (o' & Ho' & Hin' & Hip' & Htap'). exists o'. split_and!; try done; try lia.
    rewrite Hu2, Hu1. apply elem_of_difference. split; [done|]. intros ->%elem_of_singleton. apply Hne.
    apply (Hd ref r v w); [done|done|congruence]. }
  apply wp_bind, wp_host_ok. intros p3 H3. apply wp_on_host. intros p4 r H4.
  by apply (same_net_ok p3), (same_net_ok p2).
Qed.

Lemma exited_ok ref (p : P) : pv_ok p -> wp (process_exited ref) (fun p' _ => pv_ok p') p.
Proof.
  intros Hok. unfold process_exited. apply wp_bind, wp_gets. destruct (pv_vms p !! ref) as [v|] eqn:Hv; [|by apply wp_ret].
  by apply (set_vm_ok ref v).
Qed.

(** * Executions *)
Inductive op : Type :=
| OpProvision (r : ProvisionRequest)
| OpSuspend (ref : string)
| OpResume (ref : string)
| OpStop (ref : string)
| OpDestroy (ref : string)
| OpExited (ref : string).
Definition run_op (o : op) : M P unit :=
  match o with
  | OpProvision r => ignore (Provision fl r)
  | OpSuspend ref => ignore (Suspend ref)
  | OpResume ref => ignore (Resume fl ref)
  | OpStop ref => ignore (Stop ref)
  | OpDestroy ref => ignore (Destroy ref)
  | OpExited ref => process_exited ref
  end.

Lemma fleet_op_ok o (p : P) : pv_ok p -> wp (run_op o) (fun p' _ => pv_ok p') p.
Proof.
  intros Hok. destruct o as [r|ref|ref|ref|ref|ref]; [apply wp_ignore..|];
    [by apply Provision_ok|by apply Suspend_ok|by apply Resume_ok| |by apply Destroy_ok|by apply exited_ok].
  eapply wp_mono; [apply kill_host|]. intros p' r Hs. exact (same_net_ok _ _ Hs Hok).
Qed.

(** C20. Boxes never share an address or a tap.  Whatever sequence of provisions,
    suspends, resumes, stops, destroys and crashes a fleet goes through, whatever
    of them fails half way, two boxes of the table have different addresses and
    different tap devices, and every address in use is reserved. *)
Theorem addresses_exclusive ops (p p' : P) r :
  pv_ok p -> mfor ops run_op p = (p', r) ->
  (forall a b v w, pv_vms p' !! a = Some v -> pv_vms p' !! b = Some w -> v_ip v = v_ip w \/ v_tap v = v_tap w -> a = b) /\
  (forall a v, pv_vms p' !! a = Some v -> exists o, o ∈ pv_used p' /\ v_ip v = ip cfg o).
Proof.
  intros Hok Hr. assert (pv_ok p') as [Ha Hd].
  { apply (wp_all _ (fun p' _ => pv_ok p') _ _ _ Hr). apply (wp_mfor pv_ok); [done|]. intros o q _ Hq. by apply fleet_op_ok. }
  split.
  - intros a b v w Hv Hw [He|He]; [by apply (Hd a b v w)|]. apply (Hd a b v w); [done|done|].
    destruct (Ha a v Hv) as (o & Ho & _ & Hip & Ht). destruct (Ha b w Hw) as (o' & Ho' & _ & Hip' & Ht').
    rewrite Ht, Ht', Hip, Hip' in He. unfold tapName in He. rewrite !lastOctet_ip in He by done.
    assert (itoa o = itoa o') as Hi.
    { revert He. clear. induction (nc_TapPrefix cfg) as [|c s IH]; [done|]. rewrite !string_app_cons. intros [= He]. auto. }
    apply itoa_inj in Hi. congruence.
  - intros a v Hv. destruct (Ha a v Hv) as (o & _ & Hin & Hip & _). by exists o.
Qed.
End invariant.

(** * Suspend, resume, and what a restart brings back *)
Section lifecycle.
Context {O : Type} `{Host O}.
Notation P := (Provider O).
Variable fl : Fleet.

Lemma Status_eq ref (p : P) :
  Status ref p = (p, Ok (match pv_vms p !! ref with
    | None => mkInstance ref InstanceGone ""
    | Some v => if v_suspended v then mkInstance ref InstanceStopped (v_ip v)
                else if v_done v then mkInstance ref InstanceGone "" else mkInstance ref InstanceRunning (v_ip v)
    end)).
Proof. done. Qed.

Lemma persist_vms v (p p' : P) r : persist v p = (p', r) -> pv_vms p' = pv_vms p.
Proof. intros Hp. exact (proj1 (wp_all _ _ _ _ _ Hp (persist_host v p))). Qed.

Lemma Suspend_status ref (p p' : P) v :
  pv_vms p !! ref = Some v -> v_suspended v = false -> Suspend ref p = (p', Ok tt) ->
  exists v', pv_vms p' = <[ref := v']> (pv_vms p) /\ v_suspended v' = true /\ v_ip v' = v_ip v /\ v_tap v' = v_tap v /\
             v_dir v' = v_dir v.
Proof.
  intros Hv Hs Hsus. unfold Suspend in Hsus. apply bind_ok in Hsus as (p0 & vms & [= <- <-] & Hsus). rewrite Hv, Hs in Hsus.
  apply bind_ok in Hsus as (p1 & u & H1 & Hsus). destruct (snapPaths (v_dir v)) as [state mem].
  apply bind_ok in Hsus as (p2 & u2 & H2 & Hsus). apply bind_ok in Hsus as (p3 & u3 & H3 & Hsus).
  apply bind_ok in Hsus as (p4 & u4 & H4 & H5). unfold set_vm, modify in H4. injection H4 as <- _.
  pose proof (proj1 (wp_all _ _ _ _ _ H1 (host_only_wrapping _ _ (host_only_host _) p))) as E1.
  pose proof (proj1 (wp_all _ _ _ _ _ H2 (host_only_wrapping _ _ (host_only_host _) p1))) as E2.
  pose proof (proj1 (wp_all _ _ _ _ _ H3 (kill_process_host v p2))) as E3.
  apply persist_vms in H5. eexists. split; [rewrite H5; cbn; by rewrite E3, E2, E1|]. by split_and!.
Qed.

Lemma Resume_status ref (p p' : P) v :
  pv_vms p !! ref = Some v -> v_suspended v = true -> Resume fl ref p = (p', Ok tt) ->
  exists v', pv_vms p' = <[ref := v']> (pv_vms p) /\ v_suspended v' = false /\ v_done v' = false /\ v_ip v' = v_ip v /\
             v_tap v' = v_tap v /\ v_dir v' = v_dir v.
Proof.
  intros Hv Hs Hres. unfold Resume in Hres. apply bind_ok in Hres as (p0 & vms & [= <- <-] & Hres). rewrite Hv, Hs in Hres.
  cbn [negb] in Hres. apply bind_ok in Hres as (p1 & u & H1 & Hres). destruct (snapPaths (v_dir v)) as [state mem].
  apply bind_ok in Hres as (p2 & u2 & H2 & Hres). apply bind_ok in Hres as (p3 & u3 & H3 & Hres).
  apply bind_ok in Hres as (p4 & cmd & H4 & Hres). apply bind_ok in Hres as (p5 & u5 & H5 & Hres).
  apply bind_ok in Hres as (p6 & u6 & H6 & H7). unfold set_vm, modify in H6. injection H6 as <- _.
  pose proof (proj1 (wp_all _ _ _ _ _ H1 (host_only_wrapping _ _ (createTap_host fl (v_tap v)) p))) as E1.
  pose proof (proj1 (wp_all _ _ _ _ _ H2 (host_only_ignore _ (host_only_host _) p1))) as E2.
  pose proof (proj1 (wp_all _ _ _ _ _ H3 (host_only_host _ p2))) as E3.
  pose proof (proj1 (wp_all _ _ _ _ _ H4 (host_only_wrapping _ _ (host_only_host _) p3))) as E4.
  assert (host_only (on_error (ignore (on_host (os_Kill cmd))) (on_host (fc_waitForSocket (v_sock v)) ;;
    wrapping "microvm: load snapshot" (on_host (fc_loadSnapshot (v_sock v) state mem true))) : M P unit)) as Hboot.
  { apply host_only_on_error; [apply host_only_ignore, host_only_host|].
    apply host_only_bind; [apply host_only_host|]. intros _. apply host_only_wrapping, host_only_host. }
  pose proof (proj1 (wp_all _ _ _ _ _ H5 (Hboot p4))) as E5.
  apply persist_vms in H7. eexists. split; [rewrite H7; cbn; by rewrite E5, E4, E3, E2, E1|]. by split_and!.
Qed.

(** Suspending and resuming is invisible to the workspace's identity: after a
    successful suspend the provider reports the box stopped, after a successful
    resume it reports it running, under the address, tap and directory it had
    before, and no other box is touched. *)
Theorem suspend_resume_cycle ref (p p1 p2 : P) v :
  pv_vms p !! ref = Some v -> v_suspended v = false -> Suspend ref p = (p1, Ok tt) -> Resume fl ref p1 = (p2, Ok tt) ->
  (Status ref p1).2 = Ok (mkInstance ref InstanceStopped (v_ip v)) /\
  (Status ref p2).2 = Ok (mkInstance ref InstanceRunning (v_ip v)) /\
  (exists v2, pv_vms p2 !! ref = Some v2 /\ v_tap v2 = v_tap v /\ v_dir v2 = v_dir v) /\
  forall ref', ref' <> ref -> pv_vms p2 !! ref' = pv_vms p !! ref'.
Proof.
  intros Hv Hs Hsus Hres. destruct (Suspend_status _ _ _ _ Hv Hs Hsus) as (v1 & Hv1 & Hs1 & Hi1 & Ht1 & Hd1).
  assert (pv_vms p1 !! ref = Some v1) as Hl1 by by rewrite Hv1, lookup_insert_eq.
  destruct (Resume_status _ _ _ _ Hl1 Hs1 Hres) as (v2 & Hv2 & Hs2 & Hdn2 & Hi2 & Ht2 & Hd2).
  assert (pv_vms p2 !! ref = Some v2) as Hl2 by by rewrite Hv2, lookup_insert_eq.
  rewrite !Status_eq. cbn [snd]. rewrite Hl1, Hl2, Hs1, Hs2, Hdn2. split_and!; [congruence|congruence| |].
  - exists v2. split_and!; [done|congruence|congruence].
  - intros ref' Hne. by rewrite Hv2, lookup_insert_ne, Hv1, lookup_insert_ne by done.
Qed.

(** A box that a restart reattached has no process of its own. *)
Definition unstarted (p : P) : Prop := forall ref v, pv_vms p !! ref = Some v -> v_cmd v = None /\ v_suspended v = true.

Lemma reattachOne_unstarted entry (p : P) : unstarted p -> wp (reattachOne fl entry) (fun p' _ => unstarted p') p.
Proof.
  intros Hu. destruct entry as [name is_dir]. unfold reattachOne. destruct (_ || _); [by apply wp_ret|].
  assert (forall q q' : P, same_net q q' -> unstarted q -> unstarted q') as Hsame.
  { intros q q' [Hv _] Hq ref v. rewrite Hv. apply Hq. }
  apply wp_bind, wp_try, wp_on_host. intros p1 j H1. destruct (j ≫= _) as [m|e]; [|by apply wp_ret, (Hsame p)].
  apply wp_bind, wp_gets. destruct (negb _); [by apply wp_ret, (Hsame p)|].
  apply wp_bind, wp_try. eapply wp_mono; [apply imagePath_host|]. intros p2 base H2.
  destruct base as [base|e]; [|by apply wp_ret, (Hsame p1), (Hsame p)].
  apply wp_bind, wp_try, wp_on_host. intros p3 c H3. assert (unstarted p3) as Hu3 by eauto.
  destruct c as [c|e]; [|by apply wp_ret]. apply wp_bind. unfold reserveIP.
  assert (forall q : P, pv_vms q = pv_vms p3 -> wp (modify (fun p : P => p <| pv_vms :=
    <[trim_prefix "vm-" name := mkVM None (Join [fl_runDir fl; name]) (vm_Image m) (vm_IP m) (vm_Tap m)
      (Join [Join [fl_runDir fl; name]; "fc.sock"%string]) true false]> (pv_vms p) |>)) (fun p' _ => unstarted p') q) as Hend.
  { intros q Hq. apply wp_modify. intros ref v. cbn. rewrite Hq. intros [[_ <-]|[_ Hv]]%lookup_insert_Some; [done|by eapply Hu3]. }
  destruct (0 <=? _); [apply wp_modify|apply wp_ret]; by apply Hend.
Qed.

Lemma host_only_mfor {A} (l : list A) (m : A -> M P unit) : (forall a, host_only (m a)) -> host_only (mfor l m).
Proof.
  intros Hm p. apply (wp_mfor (same_net p)); [done|]. intros a q _ Hq. eapply wp_mono; [apply Hm|].
  intros q' r Hq'. by eapply same_net_trans.
Qed.

Lemma ensureBridge_host : host_only (ensureBridge fl : M P unit).
Proof.
  unfold ensureBridge.
  repeat first [apply host_only_bind; [|intros []] | apply host_only_try | apply host_only_ignore | apply host_only_wrapping
               | apply failing_host | apply host_only_throw | apply host_only_host | apply host_only_ret | apply host_only_mfor; intros].
Qed.

Lemma applyFence_host parent chain rules : host_only (applyFence fl parent chain rules : M P unit).
Proof.
  unfold applyFence.
  repeat first [apply host_only_bind; [|intros []] | apply host_only_wrapping | apply host_only_host | apply host_only_mfor; intros].
Qed.

Lemma newVMNet_vms ports (p : P) : wp (newVMNet fl ports) (fun p' _ => pv_vms p' = pv_vms p) p.
Proof.
  unfold newVMNet. apply wp_bind. eapply wp_mono; [apply ensureBridge_host|]. intros p1 [u|e] [H1 _]; [|done].
  apply wp_bind. assert (host_only (ensureFence fl ports : M P unit)) as Hf.
  { unfold ensureFence. apply host_only_bind; [apply host_only_try, host_only_host|]. intros [u'|e]; [|apply host_only_ret].
    destruct (vmFenceRules ports) as [inp fwd].
    apply host_only_bind; [|intros _]; apply host_only_ignore, applyFence_host. }
  eapply wp_mono; [apply Hf|]. intros p2 [u2|e] [H2 _]; [|congruence].
  unfold reserveExistingTaps. apply wp_bind, wp_try, wp_on_host. intros p3 r [H3 _].
  destruct r as [out|e]; [apply wp_modify; cbn; congruence|apply wp_ret; congruence].
Qed.

Lemma New_unstarted ports (p p' : P) :
  pv_vms p = ∅ -> New fl ports p = (p', Ok tt) -> unstarted p'.
Proof.
  intros Hp Hn. unfold New in Hn. apply bind_ok in Hn as (p0 & k & [= <- <-] & Hn).
  apply bind_ok in Hn as (p1 & u1 & H1 & Hn). apply bind_ok in Hn as (p2 & u2 & H2 & Hn).
  apply bind_ok in Hn as (p3 & u3 & H3 & Hn).
  assert (pv_vms p1 = pv_vms p) as E1 by (unfold wrapping, of_result in H1; by injection H1 as <- _).
  pose proof (proj1 (wp_all _ _ _ _ _ H2 (host_only_host _ p1))) as E2.
  pose proof (wp_all _ _ _ _ _ H3 (newVMNet_vms ports p2)) as E3. cbn in E3.
  assert (unstarted p3) as Hu by (intros ref v; by rewrite E3, E2, E1, Hp, lookup_empty).
  apply (wp_all _ (fun p' _ => unstarted p') _ _ _ Hn). unfold reattach. apply wp_bind, wp_try, wp_on_host. intros p4 r [H4 _].
  assert (unstarted p4) as Hu4 by (intros ref v; rewrite H4; apply Hu).
  destruct r as [entries|e]; [|by apply wp_ret]. apply (wp_mfor unstarted); [done|]. intros e q _ Hq. by apply reattachOne_unstarted.
Qed.

(** The wait of a process that [Suspend] killed may return only after [Resume]
    cleared the flag: the running box then reads as gone, and the reconciler
    provisions over it. *)
Lemma late_exit_hides ref (p : P) v :
  pv_vms p !! ref = Some v -> v_suspended v = false ->
  (Status ref (process_exited ref p).1).2 = Ok (mkInstance ref InstanceGone "").
Proof.
  intros Hv Hs. unfold process_exited, gets, mbind, M_bind. rewrite Hv, Status_eq. cbn [fst snd set_vm modify].
  cbn [pv_vms]. cbn -[insert lookup]. rewrite lookup_insert_eq. cbn. by rewrite Hs.
Qed.

(** A box a restart brought back cannot be stopped or destroyed until it has
    been resumed: the provider dereferences the process it does not have, which
    takes the daemon down, for every box in the table right after start-up. *)
Theorem reattached_box_panics ports ref (p p' : P) :
  pv_vms p = ∅ -> New fl ports p = (p', Ok tt) -> is_Some (pv_vms p' !! ref) ->
  Destroy ref p' = (p', Err nil_panic) /\ Stop ref p' = (p', Err nil_panic) /\
  exists v, pv_vms p' !! ref = Some v /\ (Status ref p').2 = Ok (mkInstance ref InstanceStopped (v_ip v)).
Proof.
  intros Hp Hn [v Hv]. destruct (New_unstarted ports p p' Hp Hn ref v Hv) as [Hc Hs].
  assert (kill ref p' = (p', Err nil_panic)) as Hk.
  { unfold kill. unfold mbind, M_bind, gets. rewrite Hv. unfold kill_process. by rewrite Hc. }
  split; [unfold Destroy; by rewrite (bind_eq_err _ _ _ _ _ Hk)|]. split; [done|]. exists v. split; [done|].
  rewrite Status_eq. cbn [snd]. by rewrite Hv, Hs.
Qed.
End lifecycle.

(** A provision of a box that is already in the table, as the reconciler makes
    when a box's machine died, abandons the old address: no box holds it, and it
    stays reserved even when the box is destroyed. *)
Lemma reprovision_leaks {O} `{Host O} fl (net_ok : subnet_ok (fl_net fl)) r (p p1 : Provider O) inst v o :
  pv_ok fl p -> pv_vms p !! pr_WorkspaceID r = Some v -> v_ip v = ip (fl_net fl) o -> ipFirstOctet <= o <= ipLastOctet ->
  Provision fl r p = (p1, Ok inst) ->
  o ∈ pv_used p1 /\ forall ref w, pv_vms p1 !! ref = Some w -> v_ip w <> ip (fl_net fl) o.
Proof.
  intros Hok Hv Hip Ho Hp. pose proof (wp_all _ _ _ _ _ Hp (Provision_spec fl net_ok r p)) as Hr. cbn in Hr.
  destruct Hr as (o1 & Ho1 & Hfr & v1 & Hvms & Hu & Hi1 & _). destruct Hok as [Ha Hd].
  destruct (Ha _ _ Hv) as (o' & Ho' & Hin & Hip' & _).
  assert (o' = o) as -> by (apply (ip_inj fl net_ok); [done|done|congruence]).
  split; [rewrite Hu; set_solver|]. intros ref w. rewrite Hvms. intros [[_ <-]|[Hne Hw]]%lookup_insert_Some He.
  - rewrite Hi1 in He. apply (ip_inj fl net_ok) in He; [|done|done]. subst o1. done.
  - apply Hne. apply (Hd _ ref v w); [done|done|congruence].
Qed.

(** The tap prefix of a fleet is derived from 16 bits of a hash of its bridge, so
    two bridges can share it. *)
Lemma tap_prefixes_collide : tapTag "hopbox-455" = tapTag "hopbox-1500".
Proof. vm_compute. reflexivity. Qed.

(** * A concrete host *)
Module DemoHost.
(** One box was left suspended by a previous run; every command succeeds, and
    processes are numbered. *)
#[export] Instance host : Host nat := {|
  os_Stat _ _ := Ok tt; os_MkdirAll _ := mret tt; os_ReadDir _ := mret [("vm-b1", true); ("serial.log", false)]%string;
  os_RemoveAll _ := mret tt; os_Remove _ := mret tt; os_OpenLog _ := mret tt; os_WriteJSON _ _ := mret tt;
  os_ReadJSON _ := mret (meta_json (mkMeta "ubuntu" "10.0.0.7" "fctap7" true));
  os_WriteFile _ _ := mret tt; os_Run _ := mret tt; os_Output _ := mret ""%string; ipt_New := mret tt;
  ipt_AppendUnique _ _ _ := mret tt; ipt_ClearChain _ _ := mret tt; ipt_Append _ _ _ := mret tt;
  ipt_InsertUnique _ _ _ _ := mret tt; pool_clone ref dir base := mret (Join [dir; "rootfs"%string]);
  pool_teardown _ := mret tt; pool_close := mret tt; fc_Start _ _ := fun n => (S n, Ok n);
  fc_waitForSocket _ := mret tt; fc_boot _ _ := mret tt; fc_pause _ := mret tt; fc_snapshot _ _ _ := mret tt;
  fc_loadSnapshot _ _ _ _ := mret tt; os_Kill _ := mret tt
|}.
Definition fleet : Fleet := mkFleet "firecracker" "vmlinux" "/images" "/run/hopbox" (withDefaults (mkNetConfig "" "" "" "")).
Definition empty : Provider nat := mkProvider ∅ ∅ 0%nat.
Definition request (id : string) : ProvisionRequest :=
  mkProvisionRequest id "ubuntu" 0 1500 "" [mkMount "/homes/a.img" "/home/dev" false true]
    {["HOPBOX_TRUSTED_USER_CA"%string := "ssh-ed25519 AAAA ca"%string; "HOPBOX_PRINCIPAL"%string := "alice"%string]}
    (mkAgentImage "" "" "" "").
Lemma fleet_ok : subnet_ok (fl_net fleet).
Proof. exists "10"%string, "0"%string, "0"%string, 10, 0, 0. split_and!; vm_compute; reflexivity. Qed.
Lemma empty_ok : pv_ok fleet empty.
Proof. split; intros ref *; cbn; by rewrite lookup_empty. Qed.
Definition after (m : M (Provider nat) unit) (p : Provider nat) : Provider nat := (m p).1.
Definition two_boxes : Provider nat :=
  after (mfor [OpProvision (request "a"); OpProvision (request "b"); OpSuspend "a"; OpDestroy "b"; OpProvision (request "c")]
    (run_op fleet)) empty.
End DemoHost.
#[local] Existing Instance DemoHost.host.

Lemma packed_env_roundtrip_witness :
  applyPackedEnv (packed_env (box_env (DemoHost.request "a")).1) = Some (box_env (DemoHost.request "a")).1.
Proof.
  refine (proj1 (proj2 (packed_env_roundtrip (DemoHost.request "a") "k" "r" 1 256 "" "t" "m" "" _))).
  apply text_map_check. vm_compute. reflexivity.
Defined.

Lemma addresses_exclusive_witness :
  exists v w, pv_vms DemoHost.two_boxes !! "a"%string = Some v /\ pv_vms DemoHost.two_boxes !! "c"%string = Some w /\
    v_ip v = "10.0.0.2"%string /\ v_ip w = "10.0.0.3"%string /\ ~ (v_ip v = v_ip w \/ v_tap v = v_tap w).
Proof.
  set (ops := [OpProvision (DemoHost.request "a"); OpProvision (DemoHost.request "b"); OpSuspend "a"; OpDestroy "b";
               OpProvision (DemoHost.request "c")]).
  destruct (addresses_exclusive DemoHost.fleet DemoHost.fleet_ok ops DemoHost.empty DemoHost.two_boxes
    (mfor ops (run_op DemoHost.fleet) DemoHost.empty).2 DemoHost.empty_ok (surjective_pairing _)) as [Hx _].
  destruct (pv_vms DemoHost.two_boxes !! "a"%string) as [v|] eqn:Hv; [|exfalso; vm_compute in Hv; discriminate Hv].
  destruct (pv_vms DemoHost.two_boxes !! "c"%string) as [w|] eqn:Hw; [|exfalso; vm_compute in Hw; discriminate Hw].
  exists v, w. split; [reflexivity|]. split; [reflexivity|].
  split; [vm_compute in Hv; injection Hv as <-; reflexivity|]. split; [vm_compute in Hw; injection Hw as <-; reflexivity|].
  intros He. discriminate (Hx "a"%string "c"%string v w Hv Hw He).
Defined.

Lemma suspend_resume_cycle_witness :
  exists p v p1 p2, pv_vms p !! "a"%string = Some v /\ Suspend "a" p = (p1, Ok tt) /\ Resume DemoHost.fleet "a" p1 = (p2, Ok tt) /\
    (Status "a" p2).2 = Ok (mkInstance "a" InstanceRunning (v_ip v)).
Proof.
  set (p := (Provision DemoHost.fleet (DemoHost.request "a") DemoHost.empty).1).
  destruct (pv_vms p !! "a"%string) as [v|] eqn:Hv; [|exfalso; vm_compute in Hv; discriminate Hv].
  destruct (Suspend "a" p) as [p1 r1] eqn:H1.
  assert (r1 = Ok tt) as -> by (change r1 with ((p1, r1).2); rewrite <- H1; vm_compute; reflexivity).
  destruct (Resume DemoHost.fleet "a" p1) as [p2 r2] eqn:H2.
  assert (r2 = Ok tt) as ->.
  { change r2 with ((p2, r2).2). rewrite <- H2. change p1 with ((p1, Ok tt : result unit).1). rewrite <- H1. vm_compute. reflexivity. }
  exists p, v, p1, p2. split; [exact Hv|]. split; [exact H1|]. split; [exact H2|].
  assert (v_suspended v = false) as Hs by (vm_compute in Hv; injection Hv as <-; reflexivity).
  exact (proj1 (proj2 (suspend_resume_cycle DemoHost.fleet "a" p p1 p2 v Hv Hs H1 H2))).
Defined.

Lemma reattached_box_panics_witness :
  exists p', New DemoHost.fleet ["7777"%string] DemoHost.empty = (p', Ok tt) /\ Destroy "b1" p' = (p', Err nil_panic).
Proof.
  destruct (New DemoHost.fleet ["7777"%string] DemoHost.empty) as [p' r] eqn:Hn.
  assert (r = Ok tt) as -> by (change r with ((p', r).2); rewrite <- Hn; vm_compute; reflexivity).
  exists p'. split; [reflexivity|].
  refine (proj1 (reattached_box_panics DemoHost.fleet ["7777"%string] "b1" DemoHost.empty p' eq_refl Hn _)).
  change p' with ((p', Ok tt : result unit).1). rewrite <- Hn. vm_compute. eexists. reflexivity.
Defined.
