(* ===== verification/Firecracker.v ===== *)
(** Under the microVM provider: the Firecracker API client ([fcapi.go]) and the
    pool of copy-on-write root filesystems ([rootfs.go]).

    They are what [Microvm.Host] abstracts as [fc_boot] ... [pool_close]: here
    the requests go to an API ([FcAPI]), and the pool runs commands and touches
    files of the host under it ([Base]).  [log.Printf] is not modelled, and the
    pool's lock, under which [originFor] runs whole, makes each step atomic.

    The theorems: a machine starts only when all of its configuration was
    accepted, in order; no disk of any box is written by cloning or tearing
    down but the one a fresh box is given; and cloning again finds the same
    device.  The examples show where "durable" stops: when the copy-on-write
    store becomes available, or unavailable, between two clones. *)
From stdpp Require Import base option list strings gmap.
From Stdlib Require Import Ascii ZArith Lia.
From S2P Require Import Prelude GoStrings GoPath GoEncoding Json Ports Agentproto Microvm.
Local Open Scope Z_scope.

(** * The API client *)
Record Response : Type := mkResponse {
  rs_StatusCode : Z;
  rs_Status : string;
  rs_Body : string
}.
(** A request to the instance behind a socket: socket, method, path, body. *)
Class FcAPI (D : Type) : Type := { fa_Do : string -> string -> string -> json -> M D Response }.

Section fcapi.
Context {D : Type} `{FcAPI D}.
Variable sock : string.

Definition MethodPut : string := "PUT".
Definition MethodPatch : string := "PATCH".
Definition fc_do (method path : string) (body : json) : M D unit :=
  resp ← fa_Do sock method path body;
  if 300 <=? rs_StatusCode resp
  then throw (Errorf ("fc " +:+ method +:+ " " +:+ path +:+ ": " +:+ rs_Status resp +:+ ": " +:+ trim_space (rs_Body resp)))
  else mret tt.
Definition put : string -> json -> M D unit := fc_do MethodPut.
Definition patch : string -> json -> M D unit := fc_do MethodPatch.

Definition boot_source_json (b : fcBootSource) : json :=
  JObj [("kernel_image_path", JStr (bs_KernelImagePath b)); ("boot_args", JStr (bs_BootArgs b))]%string.
Definition machine_json (m : fcMachineConfig) : json :=
  JObj [("vcpu_count", JNum (itoa (mc_VcpuCount m))); ("mem_size_mib", JNum (itoa (mc_MemSizeMib m)))]%string.
Definition start_action : json := JObj [("action_type", JStr "InstanceStart")]%string.

Definition boot (cfg : fcConfig) : M D unit :=
  put "/boot-source" (boot_source_json (fc_BootSource cfg)) ;;
  mfor (fc_Drives cfg) (fun d => put ("/drives/" +:+ dr_DriveID d) (drive_json d)) ;;
  put "/machine-config" (machine_json (fc_MachineConfig cfg)) ;;
  mfor (fc_NetworkIfaces cfg) (fun n => put ("/network-interfaces/" +:+ ni_IfaceID n) (iface_json n)) ;;
  put "/actions" start_action.
Definition pause : M D unit := patch "/vm" (JObj [("state", JStr "Paused")])%string.
Definition snapshot (statePath memPath : string) : M D unit :=
  put "/snapshot/create" (JObj [("mem_file_path", JStr memPath); ("snapshot_path", JStr statePath); ("snapshot_type", JStr "Full")])%string.
Definition loadSnapshot (statePath memPath : string) (resume : bool) : M D unit :=
  put "/snapshot/load" (JObj [("mem_file_path", JStr memPath); ("resume_vm", JBool resume); ("snapshot_path", JStr statePath)])%string.
End fcapi.

(** [waitForSocket], whose polls find what [seen] says until the deadline. *)
Fixpoint wait_socket (path : string) (seen : list bool) : result unit :=
  match seen with
  | [] => Err (Errorf ("microvm: firecracker api socket " +:+ path +:+ " did not appear"))
  | true :: _ => Ok tt
  | false :: seen' => wait_socket path seen'
  end.

(** * The pool *)
Definition cowHeadroom : Z := Z.shiftl 8 30.
Record origin : Type := mkOrigin {
  og_loop : string;
  og_sectors : Z
}.
Class Base (D : Type) : Type := {
  ba_Stat : string -> D -> bool;
  ba_copyFile : string -> string -> M D unit;
  ba_Create : string -> M D unit;                    (* os.Create: an empty file *)
  ba_Truncate : string -> Z -> M D unit;
  ba_Output : list string -> M D string;             (* exec.Command(...).Output() *)
  ba_CombinedOutput : list string -> M D (string * option error)   (* the output, and how the command ended *)
}.
Record Pool (D : Type) : Type := mkPool {
  po_origins : gmap string origin;
  po_base : D
}.
Arguments mkPool {D}.
Arguments po_origins {D}.
Arguments po_base {D}.

(** [dmSafe], rune by rune. *)
Definition dm_byte (c : ascii) : bool :=
  let v := byte_val c in
  (97 <=? v) && (v <=? 122) || (65 <=? v) && (v <=? 90) || (48 <=? v) && (v <=? 57) || (v =? 45) || (v =? 95).
Fixpoint dm_runes (skip : nat) (s : string) : string :=
  match s with
  | EmptyString => EmptyString
  | String c s' =>
      match skip with
      | S k => dm_runes k s'
      | O => if dm_byte c then String c (dm_runes 0 s')
             else String "-" (dm_runes (Nat.pred (default 1%nat (rune_len s))) s')
      end
  end.
Definition dmSafe (id : string) : string := stake 64 (dm_runes 0 id).
Definition dm_name (id : string) : string := "hopbox-" +:+ dmSafe id.
Definition dm_dev (id : string) : string := "/dev/mapper/" +:+ dm_name id.

Section pool.
Context {D : Type} `{Base D}.
Notation PD := (Pool D).
Definition on_base {A} (m : M D A) : M PD A := zoom po_base (fun b p => mkPool (po_origins p) b) m.

Definition before (c : ascii) (s : string) : string := (cut c s).1.1.
Definition run (cmd : list string) : M PD unit :=
  oe ← on_base (ba_CombinedOutput cmd);
  match oe.2 with
  | Some e => throw (Errorf (hd ""%string cmd +:+ ": " +:+ Error e +:+ ": " +:+ trim_space oe.1))
  | None => mret tt
  end.
(** An existing loop device over a file; the first line's name. *)
Definition findLoop (file : string) : M PD string :=
  out ← try (on_base (ba_Output ["losetup"; "-j"; file]%string));
  mret (match out with
        | Ok out =>
            let loop := before ":" (before (byte_of 10) (trim_space out)) in
            if has_prefix "/dev/loop" loop then loop else ""%string
        | Err _ => ""%string
        end).
Definition losetup (file : string) (readonly : bool) : M PD string :=
  out ← wrapping ("losetup " +:+ file)
    (on_base (ba_Output (["losetup"; "--find"; "--show"]%string ++ (if readonly then ["--read-only"%string] else []) ++ [file])));
  mret (trim_space out).
Definition loopFor (file : string) (readonly : bool) : M PD string :=
  l ← findLoop file;
  if negb (bool_decide (l = ""%string)) then mret l else losetup file readonly.
Definition originLoop (base : string) : M PD string := loopFor base true.
Definition losetupDetach (loop : string) : M PD unit := run ["losetup"; "-d"; loop]%string.
(** [strconv.ParseInt(out, 10, 64)], which is [Atoi] on a 64-bit host; the
    text of its error, which only the log shows, is one for both reasons. *)
Definition ParseInt64 (s : string) : result Z :=
  match Atoi s with
  | Some z => Ok z
  | None => Err (Errorf ("strconv.ParseInt: parsing " +:+ quote s))
  end.
Definition blockSectors (dev : string) : M PD Z :=
  out ← wrapping ("blockdev --getsz " +:+ dev) (on_base (ba_Output ["blockdev"; "--getsz"; dev]%string));
  of_result (ParseInt64 (trim_space out)).
Definition truncateFile (path : string) (size : Z) : M PD unit := on_base (ba_Create path) ;; on_base (ba_Truncate path size).

Definition originFor (base : string) : M PD origin :=
  o ← gets (fun p => po_origins p !! base);
  match o with
  | Some o => mret o
  | None =>
      loop ← originLoop base;
      sz ← try (blockSectors loop);
      match sz with
      | Err e => ignore (losetupDetach loop) ;; throw e
      | Ok sz =>
          modify (fun p => mkPool (<[base := mkOrigin loop sz]> (po_origins p)) (po_base p)) ;;
          mret (mkOrigin loop sz)
      end
  end.

(** The device of a box, over its store. *)
Definition map_device (id cow : string) (o : origin) : M PD (string * option string) :=
  let dev := dm_dev id in
  live ← gets (fun p => ba_Stat dev (po_base p));
  if (live : bool) then mret (dev, Some cow)
  else
    cowLoop ← loopFor cow false;
    let table := "0 " +:+ itoa (og_sectors o) +:+ " snapshot " +:+ og_loop o +:+ " " +:+ cowLoop +:+ " P 8" in
    r ← try (run ["dmsetup"; "create"; dm_name id; "--table"; table]%string);
    match r with
    | Err e => ignore (losetupDetach cowLoop) ;; throw (ErrWrap "microvm: dm snapshot" e)
    | Ok _ => mret (dev, Some cow)
    end.

(** What [clone] returns: the path, and what its teardown releases. *)
Definition clone (id dir base : string) : M PD (string * option string) :=
  o ← try (originFor base);
  match o with
  | Err _ =>
      let f := Join [dir; "rootfs.ext4"%string] in
      have ← gets (fun p => ba_Stat f (po_base p));
      (if have : bool then mret tt else on_base (ba_copyFile base f)) ;;
      mret (f, None)
  | Ok o =>
      let cow := Join [dir; "cow.img"%string] in
      have ← gets (fun p => ba_Stat cow (po_base p));
      (if have : bool then mret tt else truncateFile cow cowHeadroom) ;;
      map_device id cow o
  end.
Definition teardownFor (name cow : string) : M PD unit :=
  ignore (run ["dmsetup"; "remove"; "--retry"; name]%string) ;;
  loop ← findLoop cow;
  if bool_decide (loop = ""%string) then mret tt else ignore (losetupDetach loop).
(** The teardown of a clone of [id]. *)
Definition teardown (id : string) (cow : option string) : M PD unit :=
  match cow with Some cow => teardownFor (dm_name id) cow | None => mret tt end.
(** [close] ranges over a map; the order is the state's. *)
Definition close : M PD unit :=
  p ← gets (fun p => p);
  mfor (map snd (map_to_list (po_origins p))) (fun o => ignore (losetupDetach (og_loop o))).
End pool.

(** * Booting *)
(** The requests that configure a machine, and the one that starts it. *)
Definition boot_requests (cfg : fcConfig) : list (string * json) :=
  [("/boot-source"%string, boot_source_json (fc_BootSource cfg))]
  ++ map (fun d => ("/drives/" +:+ dr_DriveID d, drive_json d)) (fc_Drives cfg)
  ++ [("/machine-config"%string, machine_json (fc_MachineConfig cfg))]
  ++ map (fun n => ("/network-interfaces/" +:+ ni_IfaceID n, iface_json n)) (fc_NetworkIfaces cfg).
Definition start_request : string * json := ("/actions"%string, start_action).

(** An API that remembers what it was asked. *)
Definition Request : Type := string * string * string * json.
#[export] Instance logged_api {D} `{FcAPI D} : FcAPI (D * list Request) := {|
  fa_Do sock m p b := fun '(d, l) => let '(d', r) := fa_Do sock m p b d in ((d', l ++ [(sock, m, p, b)]), r)
|}.

Section puts.
Context {D : Type} `{FcAPI D}.
Variable sock : string.
Notation putting := (fun r : string * json => put sock r.1 r.2).

(** Booting is putting the requests one by one. *)
Lemma boot_puts cfg (d : D) : boot sock cfg d = mfor (boot_requests cfg ++ [start_request]) putting d.
Proof.
  unfold boot_requests, boot. rewrite <- !app_assoc. cbn [app mfor fst snd]. unfold mbind, M_bind.
  destruct (put sock _ _ d) as [d1 [[]|e]]; [|done].
  rewrite mfor_app. unfold mbind, M_bind. rewrite mfor_map. cbn [app mfor fst snd].
  destruct (mfor (fc_Drives cfg) _ d1) as [d2 [[]|e]]; [|done]. unfold mbind, M_bind.
  destruct (put sock _ (machine_json _) d2) as [d3 [[]|e]]; [|done].
  rewrite mfor_app. unfold mbind, M_bind. rewrite mfor_map. cbn [app mfor fst snd].
  destruct (mfor (fc_NetworkIfaces cfg) _ d3) as [d4 [[]|e]]; [|done]. unfold mbind, M_bind.
  unfold start_request. cbn [fst snd]. by destruct (put sock _ start_action d4) as [d5 [[]|e]].
Qed.

End puts.

Section boot.
Context {D : Type} `{FcAPI D}.
Variable sock : string.
Notation putting := (fun r : string * json => put sock r.1 r.2).
Definition put_request (r : string * json) : Request := (sock, MethodPut, r.1, r.2).

(** Each put is one request; it succeeds when the answer is below 300. *)
Definition accepted (r : result Response) : bool :=
  match r with Ok resp => rs_StatusCode resp <? 300 | Err _ => false end.

Lemma put_logged r d l :
  let '((d', l'), res) := put (D := D * list Request) sock r.1 r.2 (d, l) in
  l' = l ++ [put_request r] /\ d' = (fa_Do sock MethodPut r.1 r.2 d).1 /\
  is_ok res = accepted (fa_Do sock MethodPut r.1 r.2 d).2.
Proof.
  unfold put, fc_do, mbind, M_bind, fa_Do at 1; simpl.
  destruct (fa_Do sock MethodPut r.1 r.2 d) as [d' [resp|e]]; simpl; [|done].
  rewrite Z.ltb_antisym. by destruct (300 <=? rs_StatusCode resp).
Qed.

(** The state the API is in after some requests. *)
Definition after (d : D) (l : list (string * json)) : D :=
  foldl (fun d r => (fa_Do sock MethodPut r.1 r.2 d).1) d l.

Lemma puts_logged reqs d l :
  let '((d', l'), res) := mfor (W := D * list Request) reqs putting (d, l) in
  match res with
  | Ok _ => l' = l ++ map put_request reqs /\ d' = after d reqs
  | Err _ => exists pre r post, reqs = pre ++ r :: post /\ l' = l ++ map put_request (pre ++ [r]) /\
               accepted (fa_Do sock MethodPut r.1 r.2 (after d pre)).2 = false
  end.
Proof.
  revert d l. induction reqs as [|r reqs IH]; intros d l; simpl; [by rewrite app_nil_r|].
  unfold mbind, M_bind. pose proof (put_logged r d l) as Hp.
  destruct (put sock r.1 r.2 (d, l)) as [[d1 l1] [[]|e]]; destruct Hp as (-> & -> & Hres); simpl in Hres.
  - specialize (IH (fa_Do sock MethodPut r.1 r.2 d).1 (l ++ [put_request r])).
    destruct (mfor reqs _ _) as [[d2 l2] [[]|e]].
    + destruct IH as [-> ->]. by rewrite <- app_assoc.
    + destruct IH as (pre & r' & post & -> & -> & Hacc). exists (r :: pre), r', post.
      split_and!; [done|by rewrite <- app_assoc|done].
  - exists [], r, reqs. split_and!; [done|done|]. symmetry. exact Hres.
Qed.

(** [boot] puts the boot source, each drive, the machine configuration and
    each network interface, in that order, and last the action that starts the
    machine: on success all of them went out, on failure those up to the first
    the instance did not accept, so the machine is started only when all of its
    configuration was accepted. *)
Theorem boot_in_order (cfg : fcConfig) (d : D) (log : list Request) :
  let '((_, log'), r) := boot (D := D * list Request) sock cfg (d, log) in
  match r with
  | Ok _ => log' = log ++ map put_request (boot_requests cfg ++ [start_request])
  | Err _ => exists pre req post, boot_requests cfg ++ [start_request] = pre ++ req :: post /\
               log' = log ++ map put_request (pre ++ [req]) /\
               accepted (fa_Do sock MethodPut req.1 req.2 (after d pre)).2 = false
  end.
Proof.
  rewrite boot_puts. pose proof (puts_logged (boot_requests cfg ++ [start_request]) d log) as Hp.
  destruct (mfor _ _ _) as [[d' l'] [[]|e]]; [by destruct Hp|done].
Qed.
End boot.

(** * The host's promises *)
Definition is_dev (f : string) : bool := has_prefix "/dev/" f.
(** [content d f] is what a file holds.  A file operation reaches the file it
    names, a command only devices; a mapped device is there once it was
    created. *)
Class BaseLaws (D : Type) `{Base D} (content : D -> string -> option string) : Prop := {
  bl_stat f d : ba_Stat f d = bool_decide (is_Some (content d f));
  bl_create f d : wp (ba_Create f) (fun d' r =>
    (forall g, g <> f -> content d' g = content d g) /\ (is_ok r = true -> is_Some (content d' f))) d;
  bl_truncate f n d : wp (ba_Truncate f n) (fun d' r =>
    (forall g, g <> f -> content d' g = content d g) /\ (is_Some (content d f) -> is_Some (content d' f))) d;
  bl_copy src dst d : wp (ba_copyFile src dst) (fun d' r => forall g, g <> dst -> content d' g = content d g) d;
  bl_output cmd d : wp (ba_Output cmd) (fun d' r => forall g, is_dev g = false -> content d' g = content d g) d;
  bl_run cmd d : wp (ba_CombinedOutput cmd) (fun d' r => forall g, is_dev g = false -> content d' g = content d g) d;
  bl_mapped name rest d : wp (ba_CombinedOutput ("dmsetup" :: "create" :: name :: rest)%string) (fun d' r =>
    match r with Ok (_, None) => is_Some (content d' ("/dev/mapper/" +:+ name)) | _ => True end) d
}.

Section clone.
Context {D : Type} `{BaseLaws D content}.
Notation PD := (Pool D).
Implicit Types s : PD.
Notation file s f := (content (po_base s) f).

(** Nothing outside [/dev] changed. *)
Definition same_files (s s' : PD) : Prop := forall g, is_dev g = false -> file s' g = file s g.
(** ... and the pool forgot no origin. *)
Definition settled (s s' : PD) : Prop := same_files s s' /\ po_origins s ⊆ po_origins s'.
(** Nothing outside [/dev] changed but perhaps [f], when there was none. *)
Definition only_new (f : string) (s s' : PD) : Prop :=
  forall g, is_dev g = false -> file s' g = file s g \/ g = f /\ file s f = None.

Lemma settled_refl s : settled s s.
Proof. by split; [intros g|]. Qed.
Lemma settled_trans s1 s2 s3 : settled s1 s2 -> settled s2 s3 -> settled s1 s3.
Proof. intros [H1 O1] [H2 O2]. split; [intros g Hg; by rewrite H2, H1|by etrans]. Qed.
#[local] Hint Resolve settled_refl : core.
#[local] Instance settled_preorder : PreOrder settled.
Proof. split; [exact settled_refl|exact settled_trans]. Qed.

(** Operations that only run commands. *)
Notation settles := (moves settled).

Lemma settles_output cmd : settles (on_base (ba_Output cmd)).
Proof. intros s. apply wp_zoom. eapply wp_mono; [apply bl_output|]. intros d r Hd. split; [|done]. intros g Hg. by apply Hd. Qed.
Lemma settles_exec cmd : settles (on_base (ba_CombinedOutput cmd)).
Proof. intros s. apply wp_zoom. eapply wp_mono; [apply bl_run|]. intros d r Hd. split; [|done]. intros g Hg. by apply Hd. Qed.
#[local] Hint Resolve settles_output settles_exec : moves.

Lemma settles_run cmd : settles (run cmd).
Proof. unfold run. moves_go. Qed.
Lemma settles_findLoop f : settles (findLoop f).
Proof. unfold findLoop. moves_go. Qed.
Lemma settles_loopFor f ro : settles (loopFor f ro).
Proof. unfold loopFor, losetup. moves_go; apply settles_findLoop. Qed.
Lemma settles_detach l : settles (losetupDetach l).
Proof. apply settles_run. Qed.
Lemma settles_sectors l : settles (blockSectors l).
Proof. unfold blockSectors. moves_go. Qed.
Lemma originFor_settled base s :
  wp (originFor base) (fun s' r => settled s s' /\ (forall o, r = Ok o -> po_origins s' !! base = Some o)) s.
Proof.
  unfold originFor. wp_step. apply wp_gets. destruct (po_origins s !! base) as [o|] eqn:Ho.
  { wp_step. split; [done|]. by intros ? [= ->]. }
  wp_step. eapply wp_mono; [apply settles_loopFor|]. intros s1 [loop|e] H1; [|by split].
  do 2 wp_step. eapply wp_mono; [apply settles_sectors|]. intros s2 [sz|e] H2; simpl.
  - do 3 wp_step. pose proof (settled_trans _ _ _ H1 H2) as [Hf Ho2]. split; simpl.
    + split; [exact Hf|]. simpl.
      destruct (decide (po_origins s2 !! base = None)) as [Hn|Hs].
      * etrans; [exact Ho2|]. by apply insert_subseteq.
      * apply map_subseteq_spec. intros k o Hk. rewrite lookup_insert_ne; [by eapply lookup_weaken|]. by intros ->; congruence.
    + intros o [= <-]. by rewrite lookup_insert_eq.
  - do 2 wp_step. eapply wp_mono; [apply settles_detach|]. intros s3 r3 H3. wp_step. split; [|done].
    eapply settled_trans, H3. by eapply settled_trans.
Qed.
Lemma settles_teardown id cow : settles (teardown id cow).
Proof.
  unfold teardown, teardownFor, losetupDetach. moves_go; first [apply settles_run|apply moves_ignore, settles_run|apply settles_findLoop].
Qed.

(** The disk a box is given. *)
Definition disk (dir : string) (cow : bool) : string := Join [dir; if cow then "cow.img" else "rootfs.ext4"]%string.

Lemma only_new_quiet f s1 s2 s3 : settled s1 s2 -> only_new f s2 s3 -> only_new f s1 s3.
Proof.
  intros [H12 _] H23 g Hg. destruct (H23 g Hg) as [Heq|[-> Hn]].
  - left. by rewrite Heq, H12.
  - right. split; [done|]. by rewrite <- H12.
Qed.
Lemma only_new_then_quiet f s1 s2 s3 : only_new f s1 s2 -> settled s2 s3 -> only_new f s1 s3.
Proof.
  intros H12 [H23 _] g Hg. destruct (H12 g Hg) as [Heq|[-> Hn]]; [left|by right].
  by rewrite H23, Heq.
Qed.
Lemma settled_only f s1 s2 : settled s1 s2 -> only_new f s1 s2.
Proof. intros [Hs _] g Hg. left. by apply Hs. Qed.

(** What the pool keeps is not on the host: it stays over file operations. *)
Lemma fresh_truncated f s (Q : PD -> result unit -> Prop) :
  ba_Stat f (po_base s) = false ->
  (forall s' r, po_origins s' = po_origins s -> only_new f s s' -> (is_ok r = true -> is_Some (file s' f)) -> Q s' r) ->
  wp (truncateFile f cowHeadroom) Q s.
Proof.
  rewrite bl_stat. intros Hno%bool_decide_eq_false HQ.
  assert (Hnone : file s f = None) by (destruct (file s f); [by destruct Hno|done]).
  unfold truncateFile. wp_step. unfold on_base. wp_step. eapply wp_mono; [apply bl_create|].
  intros d1 [[]|e] [Hd1 Hf1]; simpl.
  - wp_step. eapply wp_mono; [apply bl_truncate|]. simpl. intros d2 r [Hd2 Hf2]. apply HQ; [done| |].
    + intros g Hg. destruct (decide (g = f)) as [->|Hne]; [by right|left]. simpl. by rewrite Hd2, Hd1.
    + intros _. apply Hf2, Hf1. done.
  - apply HQ; [done| |done].
    intros g Hg. destruct (decide (g = f)) as [->|Hne]; [by right|left]. simpl. by rewrite Hd1.
Qed.
Lemma fresh_copied base f s (Q : PD -> result unit -> Prop) :
  ba_Stat f (po_base s) = false ->
  (forall s' r, only_new f s s' -> Q s' r) ->
  wp (on_base (ba_copyFile base f)) Q s.
Proof.
  rewrite bl_stat. intros Hno%bool_decide_eq_false HQ.
  assert (Hnone : file s f = None) by (destruct (file s f); [by destruct Hno|done]).
  unfold on_base. wp_step. eapply wp_mono; [apply bl_copy|]. simpl. intros d1 r Hd1. apply HQ.
  intros g Hg. destruct (decide (g = f)) as [->|Hne]; [by right|left]. simpl. by rewrite Hd1.
Qed.


(** What a clone leaves when it succeeded on a store. *)
Definition cloned (id base cow : string) (s : PD) : Prop :=
  is_Some (po_origins s !! base) /\ is_Some (file s cow) /\ is_Some (file s (dm_dev id)).

Lemma settles_file f s s' : is_dev f = false -> settled s s' -> is_Some (file s f) -> is_Some (file s' f).
Proof. intros Hf [Hs _]. by rewrite Hs. Qed.

Lemma map_device_settled id base cow o s :
  is_dev cow = false -> po_origins s !! base = Some o -> is_Some (file s cow) ->
  wp (map_device id cow o) (fun s' r =>
    settled s s' /\ forall p c, r = Ok (p, c) -> p = dm_dev id /\ c = Some cow /\ cloned id base cow s') s.
Proof.
  intros Hcow Ho Hf. unfold map_device. wp_step. apply wp_gets. destruct (ba_Stat (dm_dev id) (po_base s)) eqn:Hdev.
  { rewrite bl_stat in Hdev. apply bool_decide_eq_true in Hdev. wp_step. split; [done|].
    intros p c [= <- <-]. by repeat split. }
  wp_step. eapply wp_mono; [apply settles_loopFor|]. intros s1 [loop|e] H1; [|by split].
  wp_step. apply wp_try. unfold run. wp_step. apply wp_zoom. eapply wp_mono.
  { apply wp_conj; [apply bl_run|apply bl_mapped]. }
  intros d r [Hrun Hmap].
  assert (H2 : settled s1 (mkPool (po_origins s1) d)) by by split.
  destruct r as [[out [e|]]|e]; simpl.
  - wp_step. wp_step. wp_step. eapply wp_mono; [apply settles_detach|]. intros s3 r3 H3. wp_step. split; [|done].
    eauto using settled_trans.
  - wp_step. wp_step. split; [eauto using settled_trans|]. intros p c [= <- <-]. split_and!; [done|done|].
    split_and!; simpl; [|by rewrite Hrun, (proj1 H1)|done].
    exists o. by eapply lookup_weaken; [|apply (proj2 H1)].
  - wp_step. wp_step. eapply wp_mono; [apply settles_detach|]. intros s3 r3 H3. wp_step. split; [|done].
    eauto using settled_trans.
Qed.

(** Every outcome of a clone: a disk that was there is not written. *)
Lemma clone_spec id dir base s :
  is_dev (disk dir true) = false ->
  wp (clone id dir base) (fun s' r =>
    (exists cow, only_new (disk dir cow) s s') /\
    forall p c, r = Ok (p, c) ->
      c = None /\ p = disk dir false \/
      c = Some (disk dir true) /\ p = dm_dev id /\ cloned id base (disk dir true) s') s.
Proof.
  intros Hcow. unfold clone. do 2 wp_step. eapply wp_mono; [apply originFor_settled|].
  intros s1 [o|e] [H1 Ho]; simpl.
  - wp_step. apply wp_gets. change (Join [dir; "cow.img"%string]) with (disk dir true). wp_step.
    assert (Hmap : forall s2, po_origins s2 !! base = Some o -> is_Some (file s2 (disk dir true)) ->
      only_new (disk dir true) s s2 ->
      wp (map_device id (disk dir true) o) (fun s' r =>
        (exists cow, only_new (disk dir cow) s s') /\
        forall p c, r = Ok (p, c) ->
          c = None /\ p = disk dir false \/
          c = Some (disk dir true) /\ p = dm_dev id /\ cloned id base (disk dir true) s') s2).
    { intros s2 Ho2 Hf2 Hn2. eapply wp_mono; [by apply map_device_settled|]. intros s3 r [H3 Hr]. split.
      - exists true. by eapply only_new_then_quiet.
      - intros p c Hpc. right. by destruct (Hr p c Hpc) as (-> & -> & ?). }
    specialize (Ho o eq_refl). destruct (ba_Stat (disk dir true) (po_base s1)) eqn:Hst.
    + wp_step. apply Hmap; [done| |by apply settled_only]. rewrite bl_stat in Hst. by apply bool_decide_eq_true in Hst.
    + apply fresh_truncated; [done|]. intros s2 [[]|e] Ho2 Hn2 Hf2.
      * apply Hmap; [by rewrite Ho2|by apply Hf2|by eapply only_new_quiet].
      * split; [|done]. exists true. by eapply only_new_quiet.
  - wp_step. apply wp_gets. change (Join [dir; "rootfs.ext4"%string]) with (disk dir false). wp_step.
    destruct (ba_Stat (disk dir false) (po_base s1)) eqn:Hst.
    + do 2 wp_step. split; [exists false; by apply settled_only|]. intros p c [= <- <-]. by left.
    + apply fresh_copied; [done|]. intros s2 [[]|e2] Hn2.
      * wp_step. split; [exists false; by eapply only_new_quiet|]. intros p c [= <- <-]. by left.
      * split; [|done]. exists false. by eapply only_new_quiet.
Qed.


(** A box that was given a store keeps its device: cloning it again under
    the same pool gives the same device and changes nothing. *)
Theorem clone_again (id dir base p c : string) (s s' : PD) :
  is_dev (disk dir true) = false -> clone id dir base s = (s', Ok (p, Some c)) ->
  clone id dir base s' = (s', Ok (p, Some c)) /\ p = dm_dev id /\ c = disk dir true.
Proof.
  intros Hcow Hc. destruct (wp_all _ _ _ _ _ Hc (clone_spec id dir base s Hcow)) as [_ Hr].
  destruct (Hr p (Some c) eq_refl) as [[? _]|([= ->] & -> & [o Ho] & Hf & Hd)]; [done|].
  split; [|done]. unfold clone, originFor, map_device, try, gets, mbind, M_bind. rewrite Ho. simpl.
  change (Join [dir; "cow.img"%string]) with (disk dir true).
  rewrite !bl_stat, !bool_decide_eq_true_2 by done. simpl. by rewrite bl_stat, bool_decide_eq_true_2 by done.
Qed.
End clone.

(** * Device names *)
Definition dm_ok (s : string) : Prop := forall c, c ∈ String.list_ascii_of_string s -> dm_byte c = true.

Lemma dm_runes_ok skip s : dm_ok (dm_runes skip s).
Proof.
  unfold dm_ok. revert skip. induction s as [|c s IH]; intros [|k] x; simpl; try (intros Hx; by inversion Hx); [|apply IH].
  destruct (dm_byte c) eqn:Hc; simpl; intros [->|Hx]%elem_of_cons; [done|by eapply IH|done|by eapply IH].
Qed.
Lemma stake_ok n s : dm_ok s -> dm_ok (stake n s) /\ (slen (stake n s) <= n)%nat.
Proof.
  unfold dm_ok. revert s. induction n as [|n IH]; intros [|c s] Hs; simpl; try (split; [intros x Hx; by inversion Hx|lia]).
  destruct (IH s) as [H1 H2]; [intros x Hx; apply Hs; by right|].
  split; [|lia]. intros x [->|Hx]%elem_of_cons; [apply Hs; by left|by apply H1].
Qed.
Lemma dm_runes_id s : dm_ok s -> dm_runes 0 s = s.
Proof.
  unfold dm_ok. induction s as [|c s IH]; intros Hs; simpl; [done|].
  rewrite (Hs c) by (simpl; by left). f_equal. apply IH. intros x Hx. apply Hs. simpl. by right.
Qed.

(** The name of a box's device is made of letters, digits, hyphens and
    underscores and is at most 64 bytes of them; an id that already is keeps
    its name, so two such boxes never share a device. *)
Theorem dmSafe_safe (id : string) :
  dm_ok (dmSafe id) /\ (slen (dmSafe id) <= 64)%nat /\
  (dm_ok id -> (slen id <= 64)%nat -> dmSafe id = id).
Proof.
  destruct (stake_ok 64 (dm_runes 0 id)) as [H1 H2]; [apply dm_runes_ok|]. split_and!; [done|done|].
  intros Hok Hlen. unfold dmSafe. by rewrite dm_runes_id, stake_all.
Qed.
Lemma dmSafe_safe_witness : dmSafe "box-7f3a_2" = "box-7f3a_2"%string.
Proof.
  destruct (dmSafe_safe "box-7f3a_2") as (_ & _ & H). apply H; [|vm_compute; lia].
  intros c Hc. vm_compute in Hc. repeat (apply elem_of_cons in Hc as [->|Hc]; [done|]). by inversion Hc.
Defined.
Example dmSafe_collides : dmSafe "a.b" = dmSafe "a-b".
Proof. reflexivity. Qed.
Example dmSafe_rune : dmSafe (String (byte_of 195) (String (byte_of 169) "A")) = "-A"%string.
Proof. reflexivity. Qed.

(** * A concrete host *)
Module Sim.
Record host : Type := mkHost {
  files : gmap string string;
  loops : list (string * string);      (* device, backing file *)
  next : nat;
  dm : bool                            (* the kernel has loop devices *)
}.
Definition dev_of (n : nat) : string := "/dev/loop" +:+ itoa (Z.of_nat n).
Definition nl : string := String (byte_of 10) EmptyString.
Definition failed : error := Errorf "exit status 1".
Definition is_cmd (p : list string) (cmd : list string) : bool := bool_decide (take (length p) cmd = p).
Definition command (cmd : list string) (h : host) : host * result string :=
  let arg := default EmptyString (last cmd) in
  if is_cmd ["losetup"; "-j"]%string cmd then
    (h, Ok (join "" (map (fun l => l.1 +:+ ": []: (" +:+ l.2 +:+ ")" +:+ nl) (filter (fun l => l.2 = arg) (loops h)))))
  else if is_cmd ["losetup"; "--find"; "--show"]%string cmd then
    if dm h && bool_decide (is_Some (files h !! arg))
    then let d := dev_of (next h) in
         (mkHost (files h) (loops h ++ [(d, arg)]) (S (next h)) (dm h), Ok (d +:+ nl))
    else (h, Err failed)
  else if is_cmd ["losetup"; "-d"]%string cmd then
    (mkHost (files h) (filter (fun x => x.1 <> arg) (loops h)) (next h) (dm h), Ok EmptyString)
  else if is_cmd ["blockdev"; "--getsz"]%string cmd then (h, Ok ("2048" +:+ nl))
  else if is_cmd ["dmsetup"; "create"]%string cmd then
    (mkHost (<["/dev/mapper/" +:+ nth 2 cmd EmptyString := "mapped"%string]> (files h)) (loops h) (next h) (dm h), Ok EmptyString)
  else if is_cmd ["dmsetup"; "remove"]%string cmd then
    (mkHost (delete ("/dev/mapper/" +:+ arg) (files h)) (loops h) (next h) (dm h), Ok EmptyString)
  else (h, Err failed).
Definition set_file (f : string) (c : string) (h : host) : host := mkHost (<[f := c]> (files h)) (loops h) (next h) (dm h).
#[global] Instance base : Base host := {|
  ba_Stat f h := bool_decide (is_Some (files h !! f));
  ba_copyFile src dst h :=
    match files h !! src with Some c => (set_file dst c h, Ok tt) | None => (h, Err failed) end;
  ba_Create f h := (set_file f EmptyString h, Ok tt);
  ba_Truncate f n h := (h, Ok tt);
  ba_Output := command;
  ba_CombinedOutput cmd h :=
    let '(h', r) := command cmd h in
    (h', Ok (match r with Ok out => (out, None) | Err e => (EmptyString, Some e) end))
|}.
Definition content (h : host) (f : string) : option string := files h !! f.

Lemma mapper_is_dev name : is_dev ("/dev/mapper/" +:+ name) = true.
Proof. reflexivity. Qed.
Lemma command_files cmd h : wp (command cmd) (fun h' _ => forall g, is_dev g = false -> content h' g = content h g) h.
Proof.
  unfold wp, command. repeat case_match; simplify_eq; intros g Hg; unfold content; simpl; try done.
  all: first [rewrite lookup_insert_ne|rewrite lookup_delete_ne]; [done|].
  all: intros <-; by rewrite mapper_is_dev in Hg.
Qed.

#[global] Instance laws : BaseLaws host content.
Proof.
  split.
  - done.
  - intros f h. unfold wp. simpl. split; [|unfold content; simpl; by rewrite lookup_insert_eq].
    intros g Hg. unfold content. simpl. by rewrite lookup_insert_ne.
  - intros f n h. unfold wp. simpl. by split.
  - intros src dst h. unfold wp. simpl. destruct (files h !! src); intros g Hg; [|done].
    unfold content. simpl. by rewrite lookup_insert_ne.
  - apply command_files.
  - intros cmd h. pose proof (command_files cmd h) as Hc. unfold wp in *. simpl.
    destruct (command cmd h) as [h' [out|e]]; exact Hc.
  - intros name rest h. unfold wp. simpl. unfold content. simpl. by rewrite lookup_insert_eq.
Qed.

Definition image : string := "/images/dev.ext4".
Definition start (dm : bool) : Pool host := mkPool ∅ (mkHost {[image := "golden"%string]} [] 0 dm).
Definition box : Pool host -> Pool host * result (string * option string) := clone "b1" "/run/vm-b1" image.
Definition cow : string := "/run/vm-b1/cow.img".
(** The guest writes; the daemon or the host restarts. *)
Definition guest_writes (f : string) (p : Pool host) : Pool host := mkPool (po_origins p) (set_file f "work" (po_base p)).
Definition restart (p : Pool host) : Pool host := mkPool ∅ (po_base p).
Definition reboot (dm : bool) (p : Pool host) : Pool host :=
  let h := po_base p in mkPool ∅ (mkHost (filter (fun kv => is_dev kv.1 = false) (files h)) [] 0 dm).
End Sim.

Lemma clone_again_witness : let s1 := (Sim.box (Sim.start true)).1 in Sim.box s1 = (s1, Ok ("/dev/mapper/hopbox-b1", Some Sim.cow)).
Proof. apply (clone_again (content := Sim.content) "b1" "/run/vm-b1" Sim.image "/dev/mapper/hopbox-b1" Sim.cow (Sim.start true) _ eq_refl). vm_compute. reflexivity. Defined.

(** The disk survives the daemon and, its loops and device lost, the host. *)
Example reattached :
  let s1 := Sim.guest_writes Sim.cow (Sim.box (Sim.start true)).1 in
  let s2 := Sim.box (Sim.restart s1) in let s3 := Sim.box (Sim.reboot true s2.1) in
  s2.2 = Ok ("/dev/mapper/hopbox-b1", Some Sim.cow)%string /\ s3.2 = s2.2 /\
  Sim.content (po_base s3.1) Sim.cow = Some "work"%string.
Proof. vm_compute. repeat split. Qed.

(** ... but where the box is depends on the host of the moment: a box made
    without loop devices, whose work is in its copy, is given an empty store
    once they are there, and a box with a store a new copy when they are not. *)
Example switches_to_store :
  let s1 := Sim.box (Sim.start false) in
  let s2 := Sim.box (Sim.reboot true (Sim.guest_writes "/run/vm-b1/rootfs.ext4" s1.1)) in
  s1.2 = Ok ("/run/vm-b1/rootfs.ext4", None)%string /\ s2.2 = Ok ("/dev/mapper/hopbox-b1", Some Sim.cow)%string /\
  Sim.content (po_base s2.1) Sim.cow = Some EmptyString.
Proof. vm_compute. repeat split. Qed.
Example switches_to_copy :
  let s1 := Sim.box (Sim.start true) in
  let s2 := Sim.box (Sim.reboot false (Sim.guest_writes Sim.cow s1.1)) in
  s2.2 = Ok ("/run/vm-b1/rootfs.ext4", None)%string /\ Sim.content (po_base s2.1) "/run/vm-b1/rootfs.ext4" = Some "golden"%string.
Proof. vm_compute. repeat split. Qed.
