(* ===== verification/Docker.v ===== *)
(** The Docker compute provider ([providers/compute/docker]): a box as a
    container of a stable name ([docker.go]) and the egress fence of the
    workspace network ([firewall.go]), with what such a fence lets through.

    The Docker daemon and the host's iptables are the class [Docker]; what the
    daemon documents of its containers is the class [DockerSpec], over a map
    from container ids to containers. *)
From stdpp Require Import base option list strings gmap fin_maps.
From Stdlib Require Import Ascii ZArith Lia.
From S2P Require Import Prelude GoStrings GoNet GoEncoding Ports Microvm.
Local Open Scope Z_scope.

(** * Containers *)
Inductive MountType : Type :=
| TypeBind
| TypeVolume.
Record DMount : Type := mkDMount {
  dm_Type : MountType;
  dm_Source : string;
  dm_Target : string;
  dm_ReadOnly : bool
}.
Record Config : Type := mkConfig {
  cf_Image : string;
  cf_Env : list string;
  cf_Entrypoint : list string;
  cf_Labels : list (string * string)
}.
Record HostConfig : Type := mkHostConfig {
  hc_Mounts : list DMount;
  hc_ExtraHosts : list string;
  hc_Memory : Z;
  hc_NanoCPUs : Z;
  hc_NetworkMode : string
}.
Record NetworkOptions : Type := mkNetworkOptions {
  no_Driver : string;
  no_Subnet : string;
  no_Options : list (string * string);
  no_Labels : list (string * string)
}.
Record Settings : Type := mkSettings {
  ns_IPAddress : string;
  ns_Networks : list (string * string)       (* network to address *)
}.
Record Inspected : Type := mkInspected {
  is_Running : bool;
  is_Status : string;
  is_ExitCode : Z;
  is_Settings : option Settings
}.

Class Docker (D : Type) : Type := {
  dk_IsErrNotFound : error -> bool;
  dk_NetworkInspect : string -> M D unit;
  dk_NetworkCreate : string -> NetworkOptions -> M D unit;
  dk_ImageInspect : string -> M D unit;
  dk_ImagePull : string -> M D unit;          (* drained *)
  dk_VolumeCreate : M D string;
  dk_ContainerCreate : Config -> HostConfig -> string -> M D string;
  dk_ContainerStart : string -> M D unit;
  dk_ContainerWait : string -> M D unit;
  dk_ContainerInspect : string -> M D Inspected;
  dk_ContainerStop : string -> M D unit;
  dk_ContainerRemove : string -> M D unit;    (* forced *)
  dk_ipt_New : M D unit;
  dk_ipt_ClearChain : string -> string -> M D unit;
  dk_ipt_Append : string -> string -> list string -> M D unit;
  dk_ipt_InsertUnique : string -> string -> Z -> list string -> M D unit
}.

Definition labelWorkspace : string := "hopbox.workspace_id".
Definition agentTarget : string := "/hopbox/hopbox-agent".
Definition workspaceSubnet : string := "172.31.0.0/24".
Definition fenceInChain : string := "HOPBOX-WS-IN".
Definition fenceFwdChain : string := "HOPBOX-WS-FWD".

Record DProvider : Type := mkDProvider {
  dp_network : string;
  dp_agentPort : string;
  dp_metaPort : string
}.
Definition WithNetwork (name : string) (p : DProvider) : DProvider := mkDProvider name (dp_agentPort p) (dp_metaPort p).
Definition WithMetaPort (port : string) (p : DProvider) : DProvider := mkDProvider (dp_network p) (dp_agentPort p) port.
Definition DockerNew (advertise : string) (opts : list (DProvider -> DProvider)) : DProvider :=
  let p := mkDProvider "" "7777" "" in
  let p := match SplitHostPort advertise with
           | Ok (_, port) => if bool_decide (port = ""%string) then p else mkDProvider "" port ""
           | Err _ => p
           end in
  foldl (fun p o => o p) p opts.

(** [fenceRules]: what box traffic to the host (INPUT) and beyond it
    (DOCKER-USER) may do. *)
Definition fenceRules (allowHostPorts : list string) : list (list string) * list (list string) :=
  ([established] ++ map (fun p => ["-p"; "tcp"; "--dport"; p; "-j"; "RETURN"]%string) allowHostPorts ++ [["-j"; "DROP"]%string],
   [established; ["-d"; "169.254.0.0/16"; "-j"; "DROP"]; ["-d"; "10.0.0.0/8"; "-j"; "DROP"];
    ["-d"; "172.16.0.0/12"; "-j"; "DROP"]; ["-d"; "192.168.0.0/16"; "-j"; "DROP"];
    ["-d"; "100.64.0.0/10"; "-j"; "DROP"]; ["-j"; "RETURN"]]%string).

(** The host ports the fence leaves open. *)
Definition docker_ports (p : DProvider) : list string :=
  dp_agentPort p :: (if bool_decide (dp_metaPort p = ""%string) then [] else [dp_metaPort p]).

Definition errdefsConflict (err : error) : bool := contains_sub "already exists" (Error err).

Section provider.
Context {D : Type} `{Docker D}.
Variable p : DProvider.
(** The order in which [range] visits a map. *)
Variable range : gmap string string -> list (string * string).

Definition docker_applyFence (parent chain subnet : string) (rules : list (list string)) : M D unit :=
  wrapping ("clear " +:+ chain) (dk_ipt_ClearChain "filter" chain) ;;
  mfor rules (fun r => wrapping ("append " +:+ chain +:+ " " +:+ sprint_list r) (dk_ipt_Append "filter" chain r)) ;;
  wrapping ("hook " +:+ parent +:+ "->" +:+ chain)
    (dk_ipt_InsertUnique "filter" parent 1 ["-s"; subnet; "-j"; chain]%string).

Definition docker_ensureFence (subnet : string) (allowHostPorts : list string) : M D unit :=
  i ← try dk_ipt_New;
  match i with
  | Err _ => mret tt
  | Ok _ =>
      let '(inp, fwd) := fenceRules allowHostPorts in
      ignore (docker_applyFence "INPUT" fenceInChain subnet inp) ;;
      ignore (docker_applyFence "DOCKER-USER" fenceFwdChain subnet fwd)
  end.

Definition network_options : NetworkOptions :=
  mkNetworkOptions "bridge" workspaceSubnet [("com.docker.network.bridge.enable_icc", "false")]%string
    [(labelWorkspace, "network")]%string.

Definition ensureNetwork : M D unit :=
  i ← try (dk_NetworkInspect (dp_network p));
  match i with
  | Ok _ => mret tt
  | Err e =>
      if dk_IsErrNotFound e then
        c ← try (dk_NetworkCreate (dp_network p) network_options);
        match c with
        | Err ce =>
            if errdefsConflict ce then mret tt
            else throw (ErrWrap ("docker: create network " +:+ quote (dp_network p)) ce)
        | Ok _ => mret tt
        end
      else throw (ErrWrap ("docker: inspect network " +:+ quote (dp_network p)) e)
  end ;;
  docker_ensureFence workspaceSubnet (docker_ports p).

(** The directory of [target], with its slash. *)
Definition dir_of (target : string) : string :=
  match cut_last "/" target with Some (d, _) => d +:+ "/" | None => "" end.

Definition stageAgent (a : AgentImage) (target : string) : M D DMount :=
  if negb (bool_decide (ai_HostBinaryPath a = ""%string)) then mret (mkDMount TypeBind (ai_HostBinaryPath a) target true)
  else if bool_decide (ai_ImageRef a = ""%string) || bool_decide (ai_BinaryPath a = ""%string)
  then throw (Errorf "docker: Agent needs HostBinaryPath or (ImageRef+BinaryPath)")
  else
    wrapping ("docker: pull agent image " +:+ quote (ai_ImageRef a)) (dk_ImagePull (ai_ImageRef a)) ;;
    volName ← wrapping "docker: create agent volume" dk_VolumeCreate;
    let dir := dir_of target in
    seed ← wrapping "docker: create agent seeder" (dk_ContainerCreate
      (mkConfig (ai_ImageRef a) [] ["cp"%string; ai_BinaryPath a; target] [])
      (mkHostConfig [mkDMount TypeVolume volName dir false] [] 0 0 "") "");
    wrapping "docker: start agent seeder" (dk_ContainerStart seed) ;;
    wrapping "docker: wait agent seeder" (dk_ContainerWait seed) ;;
    ignore (dk_ContainerRemove seed) ;;
    mret (mkDMount TypeVolume volName dir true).

Definition ensureImage (ref : string) : M D unit :=
  i ← try (dk_ImageInspect ref);
  match i with
  | Ok _ => mret tt
  | Err e =>
      if negb (dk_IsErrNotFound e) then throw (ErrWrap ("docker: inspect image " +:+ quote ref) e)
      else wrapping ("docker: pull image " +:+ quote ref) (dk_ImagePull ref)
  end.

Definition containerIP (info : Inspected) (network : string) : string :=
  match is_Settings info with
  | None => ""
  | Some ns =>
      if bool_decide (network = ""%string) then ns_IPAddress ns
      else match find (fun n => bool_decide (n.1 = network)) (ns_Networks ns) with
           | Some n => n.2
           | None => ns_IPAddress ns
           end
  end.

(** The container [Provision] asks for. *)
Definition agent_target (r : ProvisionRequest) : string :=
  if bool_decide (ai_TargetPath (pr_Agent r) = ""%string) then agentTarget else ai_TargetPath (pr_Agent r).
Definition container_name (id : string) : string := "hopbox-" +:+ id.
Definition box_mounts (agentMount : DMount) (r : ProvisionRequest) : list DMount :=
  [agentMount] ++
  (if bool_decide (pr_GuestBin r = ""%string) then [] else [mkDMount TypeBind (pr_GuestBin r) "/usr/local/bin/box-guest" true]) ++
  map (fun m => mkDMount TypeBind (mt_Source m) (mt_Target m) (mt_ReadOnly m)) (pr_Mounts r).
Definition box_config (r : ProvisionRequest) : Config :=
  mkConfig (pr_ImageRef r) (map (fun kv => kv.1 +:+ "=" +:+ kv.2) (range (pr_Env r))) [agent_target r]
    [(labelWorkspace, pr_WorkspaceID r)].
Definition box_host (agentMount : DMount) (r : ProvisionRequest) : HostConfig :=
  mkHostConfig (box_mounts agentMount r) ["host.docker.internal:host-gateway"%string]
    (if 0 <? pr_MemMB r then wrap64 (pr_MemMB r * 1024 * 1024) else 0)
    (if 0 <? pr_CPUMillis r then wrap64 (pr_CPUMillis r * 1000000) else 0) (dp_network p).

Definition docker_Provision (r : ProvisionRequest) : M D BoxInstance :=
  agentMount ← stageAgent (pr_Agent r) (agent_target r);
  (if bool_decide (dp_network p = ""%string) then mret tt else ensureNetwork) ;;
  let name := container_name (pr_WorkspaceID r) in
  rm ← try (dk_ContainerRemove name);
  match rm with
  | Err e =>
      if dk_IsErrNotFound e then mret tt else throw (ErrWrap ("docker: remove stale container " +:+ quote name) e)
  | Ok _ => mret tt
  end ;;
  ensureImage (pr_ImageRef r) ;;
  created ← wrapping "docker: create" (dk_ContainerCreate (box_config r) (box_host agentMount r) name);
  wrapping "docker: start" (dk_ContainerStart created) ;;
  info ← try (dk_ContainerInspect created);
  mret (mkInstance created InstanceRunning (match info with Ok i => containerIP i (dp_network p) | Err _ => "" end)).

Definition docker_Status (ref : string) : M D BoxInstance :=
  r ← try (dk_ContainerInspect ref);
  match r with
  | Err e => if dk_IsErrNotFound e then mret (mkInstance ref InstanceGone "") else throw (ErrWrap "docker: inspect" e)
  | Ok info =>
      mret (mkInstance ref
        (if is_Running info then InstanceRunning
         else if EqualFold (is_Status info) "exited" && negb (is_ExitCode info =? 0) then InstanceFailed
         else InstanceStopped) "")
  end.

Definition docker_Stop (ref : string) : M D unit := wrapping "docker: stop" (dk_ContainerStop ref).

Definition docker_Destroy (ref : string) : M D unit :=
  r ← try (dk_ContainerRemove ref);
  match r with
  | Err e => if dk_IsErrNotFound e then mret tt else throw (ErrWrap "docker: remove" e)
  | Ok _ => mret tt
  end.

Definition docker_compute : Compute D := {|
  cp_Provision := docker_Provision; cp_Status := docker_Status; cp_Stop := docker_Stop; cp_Destroy := docker_Destroy;
  cp_suspender := None
|}.
End provider.

(** * What a fence lets through *)
Module Fence.
(** A packet from a box, as far as the rules can tell: the state of its
    connection, its protocol, the port and the address it goes to. *)
Record Packet : Type := mkPacket {
  pk_established : bool;                     (* ESTABLISHED or RELATED *)
  pk_proto : string;
  pk_dport : string;
  pk_dst : Z
}.
Inductive verdict : Type :=
| ACCEPT
| DROP
| RETURN.

Definition ip_value (q : Z * Z * Z * Z) : Z := let '(a, b, c, d) := q in ((a * 256 + b) * 256 + c) * 256 + d.
(** Whether an address is in a block such as [10.0.0.0/8]. *)
Definition in_cidr (block : string) (dst : Z) : bool :=
  let '(base, len, _) := cut "/" block in
  match ParseIP4 base, Atoi len with
  | Some q, Some n => dst / 2 ^ (32 - n) =? ip_value q / 2 ^ (32 - n)
  | _, _ => false
  end.
Definition target_of (j : string) : option verdict :=
  if bool_decide (j = "ACCEPT"%string) then Some ACCEPT
  else if bool_decide (j = "DROP"%string) then Some DROP
  else if bool_decide (j = "RETURN"%string) then Some RETURN else None.

(** iptables on one rule of the shapes the fences use: every match must hold for
    the target to apply. *)
Fixpoint rule_verdict (args : list string) (k : Packet) : option verdict :=
  match args with
  | "-m" :: "conntrack" :: "--ctstate" :: _ :: args' => if pk_established k then rule_verdict args' k else None
  | "-p" :: proto :: args' => if bool_decide (pk_proto k = proto) then rule_verdict args' k else None
  | "--dport" :: port :: args' => if bool_decide (pk_dport k = port) then rule_verdict args' k else None
  | "-d" :: block :: args' => if in_cidr block (pk_dst k) then rule_verdict args' k else None
  | ["-j"; j] => target_of j
  | _ => None
  end%string.
(** A chain: the first rule that applies decides; at its end it returns. *)
Definition chain_verdict (rules : list (list string)) (k : Packet) : verdict :=
  default RETURN (head (omap (fun r => rule_verdict r k) rules)).

(** The blocks a box must not reach. *)
Definition fenced (dst : Z) : bool :=
  let within a len := (ip_value a <=? dst) && (dst <? ip_value a + 2 ^ (32 - len)) in
  within (169, 254, 0, 0) 16 || within (10, 0, 0, 0) 8 || within (172, 16, 0, 0) 12 ||
  within (192, 168, 0, 0) 16 || within (100, 64, 0, 0) 10.
End Fence.

Section fence_proofs.
Import Fence.
Lemma in_block block base n q dst :
  cut "/" block = (base, n, true) -> ParseIP4 base = Some q -> forall len, Atoi n = Some len -> 0 <= len <= 32 ->
  ip_value q mod 2 ^ (32 - len) = 0 ->
  in_cidr block dst = (ip_value q <=? dst) && (dst <? ip_value q + 2 ^ (32 - len)).
Proof.
  intros Hc Hp len Hl Hle Hm. unfold in_cidr. rewrite Hc, Hp, Hl. set (w := 2 ^ (32 - len)) in *.
  assert (0 < w) as Hw by (apply Z.pow_pos_nonneg; lia).
  pose proof (Z.div_mod (ip_value q) w ltac:(lia)). pose proof (Z.div_mod dst w ltac:(lia)). pose proof (Z.mod_pos_bound dst w Hw).
  destruct (Z.eqb_spec (dst / w) (ip_value q / w)); symmetry; [apply andb_true_iff|apply andb_false_iff];
    rewrite ?Z.leb_le, ?Z.ltb_lt, ?Z.leb_gt, ?Z.ltb_ge; [nia|].
  destruct (Z.lt_ge_cases dst (ip_value q)); [by left|right; nia].
Qed.

Lemma dst_rules (j : string) last_rule k : target_of j = Some last_rule -> pk_established k = false ->
  chain_verdict [established; ["-d"; "169.254.0.0/16"; "-j"; "DROP"]; ["-d"; "10.0.0.0/8"; "-j"; "DROP"];
    ["-d"; "172.16.0.0/12"; "-j"; "DROP"]; ["-d"; "192.168.0.0/16"; "-j"; "DROP"];
    ["-d"; "100.64.0.0/10"; "-j"; "DROP"]; ["-j"; j]]%string k = if fenced (pk_dst k) then DROP else last_rule.
Proof.
  intros Hj He. unfold chain_verdict, established, fenced. cbn [omap list_omap rule_verdict]. rewrite He, Hj.
  rewrite (in_block "169.254.0.0/16" "169.254.0.0" "16" (169, 254, 0, 0) (pk_dst k) eq_refl eq_refl 16) by (vm_compute; done).
  rewrite (in_block "10.0.0.0/8" "10.0.0.0" "8" (10, 0, 0, 0) (pk_dst k) eq_refl eq_refl 8) by (vm_compute; done).
  rewrite (in_block "172.16.0.0/12" "172.16.0.0" "12" (172, 16, 0, 0) (pk_dst k) eq_refl eq_refl 12) by (vm_compute; done).
  rewrite (in_block "192.168.0.0/16" "192.168.0.0" "16" (192, 168, 0, 0) (pk_dst k) eq_refl eq_refl 16) by (vm_compute; done).
  rewrite (in_block "100.64.0.0/10" "100.64.0.0" "10" (100, 64, 0, 0) (pk_dst k) eq_refl eq_refl 10) by (vm_compute; done).
  repeat destruct (_ && _); done.
Qed.

Lemma chain_skip r rules k : rule_verdict r k = None -> chain_verdict (r :: rules) k = chain_verdict rules k.
Proof. intros Hr. unfold chain_verdict. cbn [omap list_omap]. by rewrite Hr. Qed.
Lemma chain_hit r rules k v : rule_verdict r k = Some v -> chain_verdict (r :: rules) k = v.
Proof. intros Hr. unfold chain_verdict. cbn [omap list_omap]. by rewrite Hr. Qed.

Lemma port_rules allow k : pk_established k = false ->
  chain_verdict ([established] ++ map (fun p => ["-p"; "tcp"; "--dport"; p; "-j"; "RETURN"]%string) allow ++ [["-j"; "DROP"]%string]) k =
    if bool_decide (pk_proto k = "tcp"%string) && bool_decide (pk_dport k ∈ allow) then RETURN else DROP.
Proof.
  intros He. cbn [app]. rewrite chain_skip by (unfold established; cbn; by rewrite He).
  induction allow as [|a allow IH]; cbn [map app].
  - rewrite (bool_decide_eq_false_2 (_ ∈ [])) by apply not_elem_of_nil. by rewrite andb_false_r.
  - destruct (bool_decide (pk_proto k = "tcp"%string)) eqn:Hp.
    + destruct (bool_decide (pk_dport k = a)) eqn:Ha.
      * rewrite (chain_hit _ _ _ RETURN) by (cbn; by rewrite Hp, Ha). go_bool.
        rewrite (bool_decide_eq_true_2 (_ ∈ a :: allow)); [done|rewrite Ha; by left].
      * rewrite chain_skip by (cbn; by rewrite Hp, Ha). rewrite IH. go_bool. cbn [andb].
        rewrite (bool_decide_ext (pk_dport k ∈ allow) (pk_dport k ∈ a :: allow)); [done|set_solver].
    + rewrite chain_skip by (cbn; by rewrite Hp). by rewrite IH.
Qed.
End fence_proofs.

(** The egress fence of both backends is the policy it is described as: a
    box opens connections to the host only on TCP to the control-plane ports,
    and beyond the host to any address except the link-local, private and
    carrier-grade blocks; replies on existing connections pass. *)
Theorem fence_policy allow k :
  let docker := fenceRules allow in
  let microvm := vmFenceRules allow in
  if Fence.pk_established k then
    Fence.chain_verdict docker.1 k = Fence.RETURN /\ Fence.chain_verdict docker.2 k = Fence.RETURN /\
    Fence.chain_verdict microvm.1 k = Fence.RETURN /\ Fence.chain_verdict microvm.2 k = Fence.RETURN
  else
    Fence.chain_verdict docker.1 k =
      (if bool_decide (Fence.pk_proto k = "tcp"%string) && bool_decide (Fence.pk_dport k ∈ allow) then Fence.RETURN else Fence.DROP) /\
    Fence.chain_verdict docker.2 k = (if Fence.fenced (Fence.pk_dst k) then Fence.DROP else Fence.RETURN) /\
    Fence.chain_verdict microvm.1 k = Fence.chain_verdict docker.1 k /\
    Fence.chain_verdict microvm.2 k = (if Fence.fenced (Fence.pk_dst k) then Fence.DROP else Fence.ACCEPT).
Proof.
  intros docker microvm. destruct (Fence.pk_established k) eqn:He.
  - split_and!; apply chain_hit; unfold established; cbn; by rewrite He.
  - split_and!; [by apply port_rules|by apply dst_rules|done|by apply dst_rules].
Qed.

(** * The daemon's containers *)
Record Container : Type := mkContainer {
  ct_name : string;
  ct_config : Config;
  ct_host : HostConfig;
  ct_running : bool
}.
Definition set_running (b : bool) (c : Container) : Container := mkContainer (ct_name c) (ct_config c) (ct_host c) b.

(** What Docker documents: names are unique, a reference is a container's id, or
    else its name, a forced remove removes exactly the container it names, a create
    fails when the name is taken, and nothing else touches containers. *)
Class DockerSpec (D : Type) `{Docker D} : Type := {
  dk_view : D -> gmap string Container;
  dk_ok : D -> Prop;
  dk_names d i j c c' : dk_ok d -> dk_view d !! i = Some c -> dk_view d !! j = Some c' -> ct_name c = ct_name c' -> i = j;
  dk_ids d id c : dk_ok d -> dk_view d !! id = Some c -> has_prefix "hopbox-" id = false;      (* 64 hex digits *)
  dk_frame_net n d : dk_ok d -> wp (dk_NetworkInspect n) (fun d' _ => dk_ok d' /\ dk_view d' = dk_view d) d;
  dk_frame_create_net n o d : dk_ok d -> wp (dk_NetworkCreate n o) (fun d' _ => dk_ok d' /\ dk_view d' = dk_view d) d;
  dk_frame_image i d : dk_ok d -> wp (dk_ImageInspect i) (fun d' _ => dk_ok d' /\ dk_view d' = dk_view d) d;
  dk_frame_pull i d : dk_ok d -> wp (dk_ImagePull i) (fun d' _ => dk_ok d' /\ dk_view d' = dk_view d) d;
  dk_frame_volume d : dk_ok d -> wp dk_VolumeCreate (fun d' _ => dk_ok d' /\ dk_view d' = dk_view d) d;
  dk_frame_ipt d : dk_ok d -> wp dk_ipt_New (fun d' _ => dk_ok d' /\ dk_view d' = dk_view d) d;
  dk_frame_clear t c d : dk_ok d -> wp (dk_ipt_ClearChain t c) (fun d' _ => dk_ok d' /\ dk_view d' = dk_view d) d;
  dk_frame_append t c r d : dk_ok d -> wp (dk_ipt_Append t c r) (fun d' _ => dk_ok d' /\ dk_view d' = dk_view d) d;
  dk_frame_insert t c n r d : dk_ok d -> wp (dk_ipt_InsertUnique t c n r) (fun d' _ => dk_ok d' /\ dk_view d' = dk_view d) d;
  dk_frame_wait id d : dk_ok d ->
    wp (dk_ContainerWait id) (fun d' _ => dk_ok d' /\ exists b, dk_view d' = alter (set_running b) id (dk_view d)) d;
  dk_create_law cfg host name d : dk_ok d ->
    wp (dk_ContainerCreate cfg host name) (fun d' r => dk_ok d' /\
      match r with
      | Ok id => dk_view d !! id = None /\ exists n, (name = ""%string \/ n = name) /\
                 dk_view d' = <[id := mkContainer n cfg host false]> (dk_view d)
      | Err _ => dk_view d' = dk_view d
      end) d;
  dk_start_law id d : dk_ok d ->
    wp (dk_ContainerStart id) (fun d' r => dk_ok d' /\
      dk_view d' = match r with Ok _ => alter (set_running true) id (dk_view d) | Err _ => dk_view d end) d;
  dk_inspect_law ref d : dk_ok d ->
    wp (dk_ContainerInspect ref) (fun d' r => dk_ok d' /\ dk_view d' = dk_view d /\
      match r with
      | Ok info => exists id c, dk_view d !! id = Some c /\ (id = ref \/ (dk_view d !! ref = None /\ ct_name c = ref)) /\
                   is_Running info = ct_running c
      | Err e => dk_IsErrNotFound e = true -> dk_view d !! ref = None
      end) d;
  dk_remove_law ref d : dk_ok d ->
    wp (dk_ContainerRemove ref) (fun d' r => dk_ok d' /\
      match r with
      | Ok _ => exists id c, dk_view d !! id = Some c /\ (id = ref \/ (dk_view d !! ref = None /\ ct_name c = ref)) /\
                dk_view d' = delete id (dk_view d)
      | Err e => dk_view d' = dk_view d /\
                 (dk_IsErrNotFound e = true -> forall id c, dk_view d !! id = Some c -> id <> ref /\ ct_name c <> ref)
      end) d
}.

Section spec.
Context {D : Type} `{DockerSpec D}.
Variable p : DProvider.
Variable range : gmap string string -> list (string * string).

(** The containers are as they were. *)
Definition dk_still (d d' : D) : Prop := dk_ok d -> dk_ok d' /\ dk_view d' = dk_view d.
#[local] Instance dk_still_preorder : PreOrder dk_still.
Proof. split; [by intros d|]. intros d1 d2 d3 H12 H23 H1'. destruct (H12 H1') as [H2' V]. destruct (H23 H2') as [? ?]. split; [done|congruence]. Qed.
Notation quiet := (moves dk_still).
Lemma quiet_at {A} (m : M D A) d : quiet m -> dk_ok d -> wp m (fun d' _ => dk_ok d' /\ dk_view d' = dk_view d) d.
Proof. intros Hm Hd. eapply wp_mono; [apply Hm|]. intros d' r Hs. by apply Hs. Qed.
Lemma quiet_intro {A} (m : M D A) : (forall d, dk_ok d -> wp m (fun d' _ => dk_ok d' /\ dk_view d' = dk_view d) d) -> quiet m.
Proof. intros Hm d. apply wp_intro. intros d' r Hr Hd. exact (wp_elim _ _ _ _ _ (Hm d Hd) Hr). Qed.
Lemma quiet_prims : (forall n, quiet (dk_NetworkInspect n)) /\ (forall n o, quiet (dk_NetworkCreate n o)) /\
  (forall i, quiet (dk_ImageInspect i)) /\ (forall i, quiet (dk_ImagePull i)) /\ quiet dk_VolumeCreate /\ quiet dk_ipt_New /\
  (forall t c, quiet (dk_ipt_ClearChain t c)) /\ (forall t c r, quiet (dk_ipt_Append t c r)) /\
  (forall t c n r, quiet (dk_ipt_InsertUnique t c n r)).
Proof.
  split_and!; intros; apply quiet_intro; intros d Hd;
    [by apply dk_frame_net|by apply dk_frame_create_net|by apply dk_frame_image|by apply dk_frame_pull|by apply dk_frame_volume
    |by apply dk_frame_ipt|by apply dk_frame_clear|by apply dk_frame_append|by apply dk_frame_insert].
Qed.

Lemma docker_ensureFence_quiet subnet allow : quiet (docker_ensureFence subnet allow).
Proof.
  destruct quiet_prims as (_ & _ & _ & _ & _ & Hn & Hc & Ha & Hi). unfold docker_ensureFence, docker_applyFence. moves_go.
Qed.
Lemma ensureNetwork_quiet : quiet (ensureNetwork p).
Proof.
  destruct quiet_prims as (Hi & Hc & _). unfold ensureNetwork.
  moves_go; apply docker_ensureFence_quiet.
Qed.
Lemma ensureImage_quiet ref : quiet (ensureImage ref).
Proof.
  destruct quiet_prims as (_ & _ & Hi & Hp & _). unfold ensureImage. moves_go.
Qed.

(** Staging the agent only touches the container it makes for it. *)
Definition others_kept (d d' : D) : Prop := forall id c, dk_view d !! id = Some c -> dk_view d' !! id = Some c.
Lemma others_refl d d' : dk_view d' = dk_view d -> others_kept d d'.
Proof. intros Hv id c. by rewrite Hv. Qed.
Lemma others_trans d1 d2 d3 : others_kept d1 d2 -> others_kept d2 d3 -> others_kept d1 d3.
Proof. intros H1 H2 id c Hc. by apply H2, H1. Qed.
Lemma others_insert d d' id c : dk_view d !! id = None -> dk_view d' = <[id := c]> (dk_view d) -> others_kept d d'.
Proof. intros Hn Hv j c' Hj. rewrite Hv, lookup_insert_ne; [done|congruence]. Qed.

(** After the seeder [seed] was made over [d], anything done to it alone. *)
Definition only_seed (d : D) (seed : string) (d' : D) : Prop :=
  dk_ok d' /\ dk_view d !! seed = None /\ forall id, id <> seed -> dk_view d' !! id = dk_view d !! id.
Lemma only_seed_others d seed d' : only_seed d seed d' -> others_kept d d'.
Proof. intros (_ & Hn & Ho) id c Hc. rewrite Ho; [done|congruence]. Qed.
Lemma only_seed_alter d seed d1 d2 f : only_seed d seed d1 -> dk_ok d2 -> dk_view d2 = alter f seed (dk_view d1) -> only_seed d seed d2.
Proof. intros (_ & Hn & Ho) Hok Hv. split; [done|]. split; [done|]. intros id Hid. rewrite Hv, lookup_alter_ne by done. by apply Ho. Qed.

Lemma stageAgent_spec a target d :
  dk_ok d -> wp (stageAgent a target) (fun d' _ => dk_ok d' /\ others_kept d d') d.
Proof.
  intros Hd. destruct quiet_prims as (_ & _ & _ & Hp & Hvol & _). unfold stageAgent.
  destruct (negb _); [apply wp_ret; split; [done|by apply others_refl]|].
  destruct (_ || _); [apply wp_throw; split; [done|by apply others_refl]|].
  apply wp_bind. eapply wp_mono; [by apply quiet_at; [apply moves_wrapping, Hp|]|]. intros d1 [u|e] [Hd1 V1]; [|split; [done|by apply others_refl]].
  apply wp_bind. eapply wp_mono; [by apply quiet_at; [apply moves_wrapping, Hvol|]|]. intros d2 [vol|e] [Hd2 V2]; [|split; [done|apply others_refl; congruence]].
  apply wp_bind, wp_wrapping. eapply wp_mono; [by apply dk_create_law|]. intros d3 [seed|e] [Hd3 V3]; cbn [map_err].
  2:{ split; [done|apply others_refl; congruence]. }
  destruct V3 as (Hnew & n & _ & V3).
  assert (only_seed d seed d3) as S3.
  { split; [done|]. rewrite V2, V1 in Hnew. split; [done|]. intros id Hid. rewrite V3, lookup_insert_ne by done. congruence. }
  apply wp_bind, wp_wrapping. eapply wp_mono; [by apply dk_start_law|]. intros d4 [[]|e] [Hd4 V4]; cbn [map_err].
  2:{ split; [done|]. eapply others_trans; [by apply (only_seed_others _ seed)|by apply others_refl]. }
  pose proof (only_seed_alter _ _ _ _ _ S3 Hd4 V4) as S4.
  apply wp_bind, wp_wrapping. eapply wp_mono; [by apply dk_frame_wait|]. intros d5 rw (Hd5 & b & V5).
  pose proof (only_seed_alter _ _ _ _ _ S4 Hd5 V5) as S5.
  destruct rw as [[]|e]; cbn [map_err]; [|split; [done|by apply (only_seed_others _ seed)]].
  apply wp_bind, wp_ignore. eapply wp_mono; [by apply dk_remove_law|]. intros d6 rr [Hd6 V6]. apply wp_ret. split; [done|].
  destruct rr as [[]|e]; [|destruct V6 as [V6 _]; eapply others_trans; [by apply (only_seed_others _ seed)|by apply others_refl]].
  destruct V6 as (id & c & Hc & Hid & V6). assert (id = seed) as ->.
  { destruct Hid as [?|[Hnone _]]; [done|]. rewrite V5, lookup_alter_eq, V4, lookup_alter_eq, V3, lookup_insert_eq in Hnone. done. }
  intros i ci Hi. pose proof (only_seed_others _ _ _ S5 i ci Hi) as H5. rewrite V6, lookup_delete_ne; [done|].
  intros <-. destruct S5 as (_ & Hn & _). congruence.
Qed.

(** A container that is not of the box's name. *)
Definition bystander (name : string) (d d' : D) : Prop :=
  forall id c, dk_view d !! id = Some c -> ct_name c <> name -> dk_view d' !! id = Some c.
Lemma bystander_others name d d' : others_kept d d' -> bystander name d d'.
Proof. intros Ho id c Hc _. by apply Ho. Qed.
Lemma bystander_trans name d1 d2 d3 : bystander name d1 d2 -> bystander name d2 d3 -> bystander name d1 d3.
Proof. intros H1 H2 id c Hc Hn. apply H2; [by apply H1|done]. Qed.
Lemma bystander_view name d d1 d2 : dk_view d2 = dk_view d1 -> bystander name d d1 -> bystander name d d2.
Proof. intros Hv Hb id c Hc Hn. rewrite Hv. by apply Hb. Qed.

Definition provisioned_container (r : ProvisionRequest) (d' : D) (id : string) : Prop :=
  exists c am, dk_view d' !! id = Some c /\ ct_name c = container_name (pr_WorkspaceID r) /\ ct_running c = true /\
    ct_config c = box_config range r /\ ct_host c = box_host p am r.

Lemma Provision_container r d :
  dk_ok d -> wp (docker_Provision p range r) (fun d' res => dk_ok d' /\ bystander (container_name (pr_WorkspaceID r)) d d' /\
    forall inst, res = Ok inst -> provisioned_container r d' (in_Ref inst) /\ in_Phase inst = InstanceRunning) d.
Proof.
  intros Hd. set (name := container_name (pr_WorkspaceID r)). unfold docker_Provision. apply wp_bind.
  eapply wp_mono; [by apply stageAgent_spec|]. intros d1 [am|e] [Hd1 O1]; [|split_and!; [done|by apply bystander_others|done]].
  apply (bystander_others name) in O1.
  apply wp_bind. assert (quiet (if bool_decide (dp_network p = ""%string) then mret tt else ensureNetwork p)) as Hnet.
  { destruct (bool_decide _); [apply (moves_ret _)|apply ensureNetwork_quiet]. }
  eapply wp_mono; [by apply (quiet_at _ _ Hnet)|]. intros d2 [u|e] [Hd2 V2].
  2:{ split_and!; [done| |done]. by eapply bystander_view. }
  pose proof (bystander_view _ _ _ _ V2 O1) as O2.
  apply wp_bind, wp_try. eapply wp_mono; [by apply dk_remove_law|]. intros d3 rm [Hd3 V3].
  assert (bystander name d d3) as O3.
  { destruct rm as [[]|e]; [|destruct V3 as [V3 _]; by eapply bystander_view].
    destruct V3 as (id & c & Hc & Hid & V3). intros i ci Hi Hn. rewrite V3, lookup_delete_ne; [by apply O2|]. intros <-.
    destruct Hid as [->|[_ Hnm]]; [by pose proof (dk_ids _ _ _ Hd2 Hc)|].
    pose proof (O2 _ _ Hi Hn) as Hi2. rewrite Hc in Hi2. injection Hi2 as ->. done. }
  apply wp_bind. eapply (wp_mono _ (fun d' _ => d' = d3)).
  { destruct rm as [[]|e]; [by apply wp_ret|]. destruct (dk_IsErrNotFound e); [by apply wp_ret|by apply wp_throw]. }
  intros d3' rr ->. destruct rr as [[]|e]; [|done].
  apply wp_bind. eapply wp_mono; [by apply (quiet_at _ _ (ensureImage_quiet _))|]. intros d4 [u4|e] [Hd4 V4].
  2:{ split_and!; [done| |done]. by eapply bystander_view. }
  apply wp_bind, wp_wrapping. eapply wp_mono; [by apply dk_create_law|]. intros d5 [id|e] [Hd5 V5]; cbn [map_err].
  2:{ split_and!; [done| |done]. eapply (bystander_view _ _ d4); [done|]. by eapply bystander_view. }
  destruct V5 as (Hnew & n & Hn & V5). assert (n = name) as -> by (destruct Hn; [discriminate|done]).
  assert (bystander name d d5) as O5.
  { eapply bystander_trans; [by eapply bystander_view|]. apply bystander_others. by eapply others_insert. }
  apply wp_bind, wp_wrapping. eapply wp_mono; [by apply dk_start_law|]. intros d6 [[]|e] [Hd6 V6]; cbn [map_err].
  2:{ split_and!; [done| |done]. by eapply bystander_view. }
  assert (bystander name d d6) as O6.
  { intros i ci Hi Hni. rewrite V6. destruct (decide (i = id)) as [->|Hne]; [|rewrite lookup_alter_ne by done; by apply O5].
    pose proof (O5 _ _ Hi Hni) as Hi5. rewrite V5, lookup_insert_eq in Hi5. injection Hi5 as <-. done. }
  apply wp_bind, wp_try. eapply wp_mono; [by apply dk_inspect_law|]. intros d7 info (Hd7 & V7 & _). apply wp_ret.
  split; [done|]. split; [by eapply bystander_view|]. intros inst [= <-]. split; [|done]. cbn [in_Ref].
  eexists _, am. rewrite V7, V6, lookup_alter_eq, V5, lookup_insert_eq. split; [done|]. done.
Qed.

End spec.

(** * A concrete daemon *)
Module DemoDocker.
Record Daemon : Type := mkDaemon {
  dd_containers : gmap string Container;
  dd_next : Z
}.
Definition no_such : error := Errorf "No such container".
Definition by_name (name : string) (d : Daemon) : option string :=
  fst <$> find (fun ic => bool_decide (ct_name ic.2 = name)) (map_to_list (dd_containers d)).
Definition resolve (ref : string) (d : Daemon) : option string :=
  match dd_containers d !! ref with Some _ => Some ref | None => by_name ref d end.
Definition with_containers (f : gmap string Container -> gmap string Container) (d : Daemon) : Daemon :=
  mkDaemon (f (dd_containers d)) (dd_next d).
Definition create (cfg : Config) (host : HostConfig) (name : string) : M Daemon string := fun d =>
  let id := itoa (dd_next d) in
  let name := if bool_decide (name = ""%string) then "seed" +:+ id else name in
  match dd_containers d !! id, by_name name d with
  | None, None =>
      if has_prefix "hopbox-" id then (d, Err no_such)
      else (mkDaemon (<[id := mkContainer name cfg host false]> (dd_containers d)) (dd_next d + 1), Ok id)
  | _, _ => (d, Err (Errorf "name already exists"))
  end.
#[export] Instance docker : Docker Daemon := {|
  dk_IsErrNotFound e := bool_decide (e = no_such); dk_NetworkInspect _ := throw no_such; dk_NetworkCreate _ _ := mret tt;
  dk_ImageInspect _ := throw no_such; dk_ImagePull _ := mret tt; dk_VolumeCreate := mret "vol"%string; dk_ContainerCreate := create;
  dk_ContainerStart id := modify (with_containers (alter (set_running true) id)); dk_ContainerWait _ := mret tt;
  dk_ContainerInspect ref := fun d =>
    (d, match resolve ref d ≫= (fun id => dd_containers d !! id) with
        | Some c => Ok (mkInspected (ct_running c) "running" 0 None)
        | None => Err no_such
        end);
  dk_ContainerStop _ := mret tt;
  dk_ContainerRemove ref := fun d =>
    match resolve ref d with Some id => (with_containers (delete id) d, Ok tt) | None => (d, Err no_such) end;
  dk_ipt_New := mret tt; dk_ipt_ClearChain _ _ := mret tt; dk_ipt_Append _ _ _ := mret tt; dk_ipt_InsertUnique _ _ _ _ := mret tt
|}.
Definition ok (d : Daemon) : Prop :=
  (forall i j c c', dd_containers d !! i = Some c -> dd_containers d !! j = Some c' -> ct_name c = ct_name c' -> i = j) /\
  map_Forall (fun id _ => has_prefix "hopbox-" id = false) (dd_containers d).

Lemma by_name_some name d id : by_name name d = Some id -> exists c, dd_containers d !! id = Some c /\ ct_name c = name.
Proof.
  unfold by_name. destruct (find _ _) as [[i c]|] eqn:Hf; [|done]. intros [= <-]. apply find_some in Hf as [Hin Hn].
  go_bool. exists c. split; [|done]. by apply elem_of_map_to_list, list_elem_of_In.
Qed.
Lemma by_name_none name d id c : by_name name d = None -> dd_containers d !! id = Some c -> ct_name c <> name.
Proof.
  unfold by_name. destruct (find _ _) as [[i c']|] eqn:Hf; [done|]. intros _ Hc Hn.
  pose proof (find_none _ _ Hf (id, c)) as Hx. cbn in Hx. rewrite bool_decide_eq_true_2 in Hx by done.
  discriminate Hx. apply list_elem_of_In. by apply elem_of_map_to_list.
Qed.
Lemma resolve_some ref d id :
  resolve ref d = Some id -> exists c, dd_containers d !! id = Some c /\ (id = ref \/ (dd_containers d !! ref = None /\ ct_name c = ref)).
Proof.
  unfold resolve. destruct (dd_containers d !! ref) as [c|] eqn:Hr; [intros [= <-]; exists c; by split; [|left]|].
  intros (c & Hc & Hn)%by_name_some. exists c. split; [done|by right].
Qed.
Lemma resolve_none ref d : resolve ref d = None -> forall id c, dd_containers d !! id = Some c -> id <> ref /\ ct_name c <> ref.
Proof.
  unfold resolve. destruct (dd_containers d !! ref) eqn:Hr; [done|]. intros Hn id c Hc. split; [congruence|by eapply by_name_none].
Qed.
Lemma ok_alter d id b : ok d -> ok (with_containers (alter (set_running b) id) d).
Proof.
  assert (forall i c, alter (set_running b) id (dd_containers d) !! i = Some c ->
    exists c0, dd_containers d !! i = Some c0 /\ ct_name c = ct_name c0) as Ha.
  { intros i c. destruct (decide (i = id)) as [->|Hne]; [|rewrite lookup_alter_ne by done; by exists c].
    rewrite lookup_alter_eq. destruct (dd_containers d !! id) as [c0|]; [|done]. intros [= <-]. by exists c0. }
  intros [Hn Hi]. split; cbn.
  - intros i j c c' (c0 & Hc0 & N0)%Ha (c1 & Hc1 & N1)%Ha He. apply (Hn i j c0 c1 Hc0 Hc1). congruence.
  - intros i c (c0 & Hc0 & _)%Ha. by apply (Hi i c0).
Qed.
Lemma ok_delete d id : ok d -> ok (with_containers (delete id) d).
Proof.
  intros [Hn Hi]. split; cbn; [|by apply map_Forall_delete]. intros i j c c' [_ Hc]%lookup_delete_Some [_ Hc']%lookup_delete_Some. by apply Hn.
Qed.

#[export] Instance spec : DockerSpec Daemon.
Proof.
  refine {| dk_view := dd_containers; dk_ok := ok |}; try (intros; unfold wp; cbn; done).
  - intros d i j c c' [Hn _]. apply Hn.
  - intros d id c [_ Hi] Hc. by apply (Hi id c).
  - intros id d Hd. unfold wp. cbn. split; [done|]. destruct (dd_containers d !! id) as [c|] eqn:Hc.
    + exists (ct_running c). symmetry. apply alter_id. intros x Hx. rewrite Hc in Hx. injection Hx as <-. by destruct c.
    + exists false. symmetry. apply alter_id. congruence.
  - intros cfg host name d Hd. unfold wp. cbn. unfold create. set (nm := if bool_decide _ then _ else _).
    destruct (dd_containers d !! itoa (dd_next d)) eqn:Hid; [done|]. destruct (by_name nm d) eqn:Hn; [done|].
    destruct (has_prefix "hopbox-" (itoa (dd_next d))) eqn:Hp; [done|]. cbn. destruct Hd as [Hu Hi]. split; [split; cbn|].
    + intros i j c c' [[<- <-]|[Hne Hc]]%lookup_insert_Some [[<- <-]|[Hne' Hc']]%lookup_insert_Some He; cbn in He.
      * done.
      * by destruct (by_name_none _ _ _ _ Hn Hc').
      * by destruct (by_name_none _ _ _ _ Hn Hc).
      * by apply (Hu i j c c').
    + by apply map_Forall_insert_2.
    + split; [done|]. exists nm. split; [|done]. unfold nm. case_bool_decide; [by left|by right].
  - intros id d Hd. unfold wp. cbn. split; [by apply ok_alter|done].
  - intros ref d Hd. unfold wp. cbn. split; [done|]. split; [done|].
    destruct (resolve ref d) as [id|] eqn:Hr; cbn.
    + apply resolve_some in Hr as (c & Hc & Hid). rewrite Hc. by exists id, c.
    + intros _. destruct (dd_containers d !! ref) as [c|] eqn:Hc; [|done]. by destruct (resolve_none _ _ Hr _ _ Hc).
  - intros ref d Hd. unfold wp. cbn. destruct (resolve ref d) as [id|] eqn:Hr; cbn.
    + split; [by apply ok_delete|]. apply resolve_some in Hr as (c & Hc & Hid). by exists id, c.
    + split; [done|]. split; [done|]. intros _. by apply resolve_none.
Defined.
Definition provider : DProvider := DockerNew "10.0.0.1:7777" [WithNetwork "hopbox-net"; WithMetaPort "8090"].
Definition request : ProvisionRequest :=
  mkProvisionRequest "w1" "ubuntu" 512 1500 "/bin/box-guest" [mkMount "/homes/a" "/home/dev" false false]
    {["HOPBOX_AGENT_TOKEN"%string := "tok"%string]} (mkAgentImage "agent:1" "/agent" "" "").
Definition once : Daemon * result BoxInstance := docker_Provision provider map_to_list request (mkDaemon ∅ 0).
Definition twice : Daemon * result BoxInstance := docker_Provision provider map_to_list request once.1.
Lemma empty_daemon_ok : ok (mkDaemon ∅ 0).
Proof. split; [|by apply map_Forall_empty]. intros i j c c'. cbn. by rewrite lookup_empty. Qed.
End DemoDocker.
#[local] Existing Instances DemoDocker.docker DemoDocker.spec.

