(* ===== verification/DevEnv.v ===== *)
(** hopboxd's control plane put together ([cmd/hopboxd/main.go], [run]): the
    workspace database, the box-store adapter, the hooks with the subdomain
    ingress and local homes, and the reconciler.  The assumptions the parts
    make of each other are discharged here, and the interactions no part shows
    by itself are stated: what one reconcile step does to a workspace, and what
    becomes of the gateway's routes when the daemon restarts. *)
From stdpp Require Import base option list strings gmap fin_maps.
From Stdlib Require Import Ascii ZArith Lia.
From S2P Require Import Prelude GoStrings GoTime Json Sql Box Ports Store World Engine Reconcile Workspace WorkspaceSqlite Boxd Lifecycle Boxstore Providers.
Import Workspace.Workspace.
Local Open Scope Z_scope.

(** * The subdomain provider keeps its side *)
Lemma utf8_app_ascii s t : utf8 s = true -> ascii_text t = true -> utf8 (s +:+ t) = true.
Proof.
  intros Hs Ht. revert s Hs. apply utf8_ind; [by apply ascii_text_utf8|].
  intros p s Hp _ IH. rewrite <- string_app_assoc. by apply utf8_app.
Qed.

Lemma utf8_concat s t : utf8 s = true -> utf8 t = true -> utf8 (s +:+ t) = true.
Proof.
  intros Hs Ht. revert s Hs. apply utf8_ind; [done|].
  intros p s Hp _ IH. rewrite <- string_app_assoc. by apply utf8_app.
Qed.

Lemma subdomain_exposes zone : utf8 zone = true -> exposes_ok (Subdomain.subdomain_ingress zone).
Proof.
  intros Hz req p Hid Hn Hport. simpl. unfold Subdomain.Expose. destruct (_ || _); [done|].
  destruct (er_Port req <=? 0); [done|]. wp_step. apply wp_modify. apply wp_ret. intros ep [= <-]. simpl.
  assert (Hh : utf8 (Subdomain.host zone (er_WorkspaceID req) (er_Name req)) = true).
  { unfold Subdomain.host. repeat (apply utf8_concat; [done|]). done. }
  split; [done|]. by split_and!.
Qed.

(** * The composition *)
Section hopboxd.
Context {C F : Type} `{Compute C} `{LocalFS.Host F}.
Variable plan : list WorkspaceSqlite.Row -> list WorkspaceSqlite.Row.
Hypothesis plan_perm : forall l, plan l ≡ₚ l.
Variable constraint_err : error.
Variable newToken : nat -> string.
Hypothesis newToken_nonempty : forall n, newToken n <> ""%string.
Variable homes : LocalFS.Provider.
Variable zone : string.
Hypothesis zone_utf8 : utf8 zone = true.
Variable hooks_cfg : HooksConfig.
Variable rc : ReconcileConfig WorkspaceSqlite.DB (F * gmap string Subdomain.Route).

#[local] Instance ws_store : WorkspaceStore WorkspaceSqlite.DB := WorkspaceSqlite.sqlite_store plan constraint_err.
#[local] Instance ws_spec : WorkspaceStoreSpec WorkspaceSqlite.DB := WorkspaceSqlite.sqlite_spec plan plan_perm constraint_err.
#[local] Instance home_storage : Storage F := LocalFS.localfs_storage homes.

Definition gateway_ingress : Ingress (gmap string Subdomain.Route) := Subdomain.subdomain_ingress zone.
Definition hooks : Hooks WorkspaceSqlite.DB (F * gmap string Subdomain.Route) := NewHooks (Some gateway_ingress) hooks_cfg.
Hypothesis rc_hooks : rc_Hooks rc = Some hooks.

Notation W := (World WorkspaceSqlite.DB C (F * gmap string Subdomain.Route)).

Lemma hopboxd_hooks hk : rc_Hooks rc = Some hk -> hooks_frame hk.
Proof.
  rewrite rc_hooks. intros [= <-]. apply hooks_ok. intros ig [= <-]. by apply subdomain_exposes.
Qed.

(** One step of hopboxd's reconciler. *)
Definition reconcile (tenant id : string) : M W unit := ReconcileOne newToken rc tenant id.

Definition workspaces (w : W) : gmap string Workspace := ws_view (wStore w).

(** C15. hopboxd's reconcile step, with its own store, adapter and hooks in
    place, refines the box lifecycle: from any well-formed database, whatever
    the compute provider and the file system answer, every workspace stays
    readable under its id, the stepped workspace's box moves as [lifecycle]
    allows, no other workspace's box changes, and no workspace appears. *)
Theorem hopboxd_ReconcileOne_refines tenant id (w w' : W) r :
  WorkspaceSqlite.db_inv (wStore w) -> clock_ok (wNow w) ->
  reconcile tenant id w = (w', r) ->
  WorkspaceSqlite.db_inv (wStore w') /\
  (forall j, j <> id -> w_Box <$> workspaces w' !! j ≡ w_Box <$> workspaces w !! j) /\
  (forall v, workspaces w !! id = Some v ->
     lifecycle (rc_Idle rc) (wNow w) (w_Box v) (w_Box <$> workspaces w' !! id)) /\
  (workspaces w !! id = None -> workspaces w' !! id = None).
Proof.
  intros Hi Hclk Hr.
  destruct (ReconcileOne_moved newToken newToken_nonempty rc hopboxd_hooks tenant id w w' r Hi Hclk Hr) as ((Hi' & Hn & Hm) & Hl & Hnone).
  assert (Hlook : forall (x : W) j, boxes x !! j = w_Box <$> workspaces x !! j).
  { intros x j. exact (lookup_fmap w_Box (workspaces x) j). }
  split_and!; [done|..].
  - intros j Hj. specialize (Hm j). rewrite decide_False in Hm by done.
    change (boxes w' !! j ≡ boxes w !! j) in Hm. by rewrite !Hlook in Hm.
  - intros v Hv. specialize (Hl (w_Box v)). rewrite !Hlook, Hv in Hl. by apply Hl.
  - intros Hv. rewrite !Hlook, Hv in Hnone. specialize (Hnone eq_refl).
    destruct (workspaces w' !! id); [done|]. done.
Qed.

(** Routes do not survive a restart: the gateway's route table is in
    memory and starts empty, the endpoints it served are in the database, and
    endpoint reconciliation exposes only ports that have no recorded endpoint.
    So for a running workspace whose ports all have endpoints, [PostRunning]
    after a restart succeeds, writes nothing and leaves the route table empty:
    the gateway answers "no route" for its hosts from then on. *)
Theorem routes_lost_on_restart b now s g v :
  WorkspaceSqlite.db_inv s -> WorkspaceSqlite.db_healthy s ->
  ws_view s !! b_ID b = Some v -> b_TenantID (w_Box v) = b_TenantID b ->
  (forall p, p ∈ w_Ingress v -> has_endpoint v (ip_Name p) = true) ->
  hk_PostRunning hooks b now (s, (g, ∅)) = ((s, (g, ∅)), Ok tt) /\
  (forall p, p ∈ w_Ingress v -> Subdomain.Lookup (Subdomain.host zone (b_ID b) (ip_Name p)) ∅ = None).
Proof.
  intros Hi Hh Hv Ht Hall. split; [|intros; apply lookup_empty].
  apply (PostRunning_settled _ gateway_ingress b now s (g, ∅) v); done.
Qed.
End hopboxd.

(** * A concrete daemon *)
Section witnesses.
#[local] Instance no_compute : Compute unit := {|
  cp_Provision := fun r => mret (mkInstance (pr_WorkspaceID r) InstanceRunning "10.0.0.9");
  cp_Status := fun ref => mret (mkInstance ref InstanceRunning "10.0.0.9");
  cp_Stop := fun _ => mret tt;
  cp_Destroy := fun _ => mret tt;
  cp_suspender := None
|}.
#[local] Instance no_host : LocalFS.Host unit := {|
  LocalFS.os_MkdirAll := fun _ => mret tt; LocalFS.os_Exists := fun _ => mret true;
  LocalFS.os_Create := fun _ => mret tt; LocalFS.os_Truncate := fun _ _ => mret tt;
  LocalFS.os_Remove := fun _ => mret tt; LocalFS.os_RemoveAll := fun _ => mret tt;
  LocalFS.exec_mkfs := fun _ => mret tt
|}.

Definition row_order : list WorkspaceSqlite.Row -> list WorkspaceSqlite.Row := fun l => l.
Lemma row_order_perm l : row_order l ≡ₚ l.
Proof. done. Qed.
Definition unique_violation : error := Errorf "UNIQUE constraint failed".
Definition token (n : nat) : string := "tok-" +:+ itoa (Z.of_nat n).
Lemma token_nonempty n : token n <> ""%string.
Proof. done. Qed.
Definition homes0 : LocalFS.Provider := LocalFS.New "/homes".
Definition zone0 : string := "gw.example.com".
Definition hooks0 := hooks row_order unique_violation homes0 zone0 (mkHooksConfig "" "").
Definition rc0 : ReconcileConfig WorkspaceSqlite.DB (unit * gmap string Subdomain.Route) :=
  mkReconcileConfig "10.9.0.1:7777" (mkAgentImage "agent" "/a" "/b" "/c") "" "" DefaultIdle Second (Some hooks0) true.

#[local] Instance store0 : WorkspaceStore WorkspaceSqlite.DB := WorkspaceSqlite.sqlite_store row_order unique_violation.
#[local] Instance spec0 : WorkspaceStoreSpec WorkspaceSqlite.DB := WorkspaceSqlite.sqlite_spec row_order row_order_perm unique_violation.
#[local] Instance homes0_storage : Storage unit := LocalFS.localfs_storage homes0.

(** A running workspace with one desired port and, once exposed, its endpoint. *)
Definition t0 : time := 63835596800 * Second.
Definition box0 : Box := (Box.New "0a1b" t0 "default" "alice" "proj" "ubuntu") <| b_Phase := PhaseRunning |>
  <| b_AgentConnected := true |> <| b_BootstrapToken := "tok"%string |> <| b_InstanceRef := "i-1"%string |>.
Definition bare : Workspace := mkWorkspace box0 [mkIngressPort "app" 8080] "/homes/0a1b" [].
Definition served : Workspace := bare <| w_Endpoints := [mkEndpoint "app" "https://app-0a1b.gw.example.com" 8080 "app-0a1b.gw.example.com"] |>.
Definition db_of (v : Workspace) : WorkspaceSqlite.DB := mkDB [WorkspaceSqlite.insert_row v] None.

Lemma box0_storable : storable box0.
Proof. apply storableb_ok. vm_compute. reflexivity. Qed.
Lemma bare_storable : w_storable bare.
Proof. split; [exact box0_storable|]. split; repeat constructor; vm_compute; congruence. Qed.
Lemma served_storable : w_storable served.
Proof. split; [exact box0_storable|]. split; repeat constructor; vm_compute; congruence. Qed.

Lemma one_workspace v : w_storable v -> WorkspaceSqlite.db_inv (db_of v) /\ ws_view (db_of v) = {[b_ID (w_Box v) := kept v]}.
Proof.
  intros Hs. pose proof (WorkspaceSqlite.ws_scan_insert v Hs) as Hsc. split.
  - split_and!; simpl.
    + repeat constructor. exists (kept v). split_and!; [done|by apply kept_storable|done].
    + apply NoDup_singleton.
    + by intros r r' ->%list_elem_of_singleton ->%list_elem_of_singleton.
  - change (WorkspaceSqlite.db_view (db_of v) = {[b_ID (w_Box v) := kept v]}).
    unfold WorkspaceSqlite.db_view, table_view, row_entry. simpl. by rewrite Hsc.
Qed.
Lemma bare_row : ws_view (db_of bare) !! "0a1b"%string = Some bare.
Proof. rewrite (proj2 (one_workspace bare bare_storable)). apply lookup_singleton_eq. Qed.
Lemma served_row : ws_view (db_of served) !! "0a1b"%string = Some served.
Proof. rewrite (proj2 (one_workspace served served_storable)). apply lookup_singleton_eq. Qed.
Lemma bare_view : forall old, st_view (db_of bare) !! "0a1b"%string = Some old -> old = box0.
Proof.
  intros old Hold. apply adapter_view_lookup in Hold as (v & Hv & Hb).
  rewrite bare_row in Hv. apply (inj Some) in Hv. rewrite <- Hv in Hb. exact (eq_sym Hb).
Qed.
Lemma t0_range : in_range (t0 + Hour).
Proof. apply in_rangeb_ok. vm_compute. reflexivity. Qed.
Lemma t0_clock : clock_ok (t0 + Hour).
Proof. unfold clock_ok. vm_compute. split; congruence. Qed.

Definition touched : Box := box0 <| b_Message := "hello"%string |>.
Lemma touched_key : same_key box0 touched.
Proof. vm_compute. repeat split. Qed.
Lemma touched_storable : storable touched.
Proof. apply storableb_ok. vm_compute. reflexivity. Qed.

Lemma Adapter_Update_decorations_witness :
  ws_inv (fst (Adapter_Update (t0 + Hour) touched (db_of bare))) /\
  exists w w', ws_view (db_of bare) !! "0a1b"%string = Some w /\
    ws_view (fst (Adapter_Update (t0 + Hour) touched (db_of bare))) !! "0a1b"%string = Some w' /\ w_Box w' ≡ touched /\
    w_Ingress w' = w_Ingress w /\ w_HomeMount w' = w_HomeMount w /\ w_Endpoints w' = w_Endpoints w.
Proof.
  destruct (Adapter_Update_decorations (t0 + Hour) touched (db_of bare) (fst (Adapter_Update (t0 + Hour) touched (db_of bare))) (Ok touched))
    as (Hi & _ & Hw); [apply one_workspace, bare_storable|exact touched_storable|exact t0_range| | |].
  - intros old Hold. rewrite (bare_view old Hold). exact touched_key.
  - vm_compute. reflexivity.
  - exact (conj Hi Hw).
Defined.

Lemma NewHooks_frame_witness : hooks_frame hooks0.
Proof.
  apply NewHooks_frame. intros ig [= <-]. apply subdomain_exposes. reflexivity.
Defined.

Definition exposed : (WorkspaceSqlite.DB * (unit * gmap string Subdomain.Route)) * result unit :=
  hk_PostRunning hooks0 box0 (t0 + Hour) (db_of bare, (tt, ∅)).

Lemma PostRunning_converges_witness :
  exists w', ws_view (fst (fst exposed)) !! "0a1b"%string = Some w' /\ has_endpoint w' "app" = true.
Proof.
  destruct (PostRunning_converges (G := unit) (Some (gateway_ingress zone0)) (fun ig => ltac:(intros [= <-]; by apply subdomain_exposes))
    (gateway_ingress zone0) box0 (t0 + Hour) (db_of bare) (tt, ∅) (fst (fst exposed)) (snd (fst exposed)) eq_refl)
    as (w & w' & Hw & Hw' & _ & _ & _ & _ & Hall & _).
  - apply one_workspace, bare_storable.
  - exact t0_range.
  - vm_compute. reflexivity.
  - exists w'. split; [exact Hw'|]. apply (Hall (mkIngressPort "app" 8080)).
    change (ws_view (db_of bare) !! "0a1b"%string = Some w) in Hw.
    rewrite bare_row in Hw. apply (inj Some) in Hw. rewrite <- Hw. left.
Defined.

Definition world0 : World WorkspaceSqlite.DB unit (unit * gmap string Subdomain.Route) :=
  mkWorld (db_of bare) tt (tt, ∅) [] (t0 + Hour) 0.
Lemma world0_row : workspaces (C := unit) (F := unit) row_order row_order_perm unique_violation world0 !! "0a1b"%string = Some bare.
Proof.
  unfold workspaces. change (wStore world0) with (db_of bare). change (WorkspaceSqlite.db_view (db_of bare) !! "0a1b"%string = Some bare).
  pose proof bare_row as Hb. change (WorkspaceSqlite.db_view (db_of bare) !! "0a1b"%string = Some bare) in Hb. exact Hb.
Qed.
Notation stepped := (reconcile row_order unique_violation token rc0 "default" "0a1b" world0).

Lemma hopboxd_ReconcileOne_refines_witness :
  WorkspaceSqlite.db_inv (wStore (fst stepped)) /\
  lifecycle DefaultIdle (t0 + Hour) box0
    (w_Box <$> workspaces row_order row_order_perm unique_violation (fst stepped) !! "0a1b"%string).
Proof.
  destruct (hopboxd_ReconcileOne_refines row_order row_order_perm unique_violation token token_nonempty homes0 zone0 eq_refl
    (mkHooksConfig "" "") rc0 eq_refl "default" "0a1b" world0 (fst stepped) (snd stepped)) as (Hi & _ & Hl & _).
  - apply one_workspace, bare_storable.
  - exact t0_clock.
  - exact (surjective_pairing stepped).
  - exact (conj Hi (Hl bare world0_row)).
Defined.

Lemma routes_lost_on_restart_witness :
  hk_PostRunning hooks0 box0 (t0 + Hour) (db_of served, (tt, ∅)) = ((db_of served, (tt, ∅)), Ok tt) /\
  Subdomain.Lookup "app-0a1b.gw.example.com" ∅ = None.
Proof.
  destruct (routes_lost_on_restart row_order row_order_perm unique_violation homes0 zone0 (mkHooksConfig "" "")
    box0 (t0 + Hour) (db_of served) tt served) as [Hp Hl].
  - apply one_workspace, served_storable.
  - reflexivity.
  - exact served_row.
  - reflexivity.
  - intros p ->%list_elem_of_singleton. reflexivity.
  - exact (conj Hp (Hl (mkIngressPort "app" 8080) ltac:(left))).
Defined.
End witnesses.
