(* ===== verification/ApiConcrete.v ===== *)
(** The API over concrete parts: the SQLite store with one running workspace,
    the hub with its agent connected, and an agent whose [cat] echoes its
    input.  These are the inputs at which the API's theorems are applied. *)
From stdpp Require Import base option list strings gmap.
From Stdlib Require Import Ascii ZArith Lia.
From S2P Require Import Prelude GoStrings GoTime Json Box Ports Store Sql Agentproto Agenthub Agentssh Agent Sshca Workspace WorkspaceSqlite Api DevEnv.
Import Workspace.
Local Open Scope Z_scope.

#[local] Existing Instance Net.net.
#[local] Existing Instance Demo.os.
#[local] Instance api_store : WorkspaceStore WorkspaceSqlite.DB := WorkspaceSqlite.sqlite_store row_order unique_violation.
#[local] Instance api_spec : WorkspaceStoreSpec WorkspaceSqlite.DB := WorkspaceSqlite.sqlite_spec row_order row_order_perm unique_violation.

Definition api_hub : Hub Net.Net (list (string * bool)) := Net.with_closed [] {["0a1b"%string := 1%nat]} [].
Definition api_world : ApiWorld WorkspaceSqlite.DB (Hub Net.Net (list (string * bool))) :=
  mkApiWorld (db_of served) api_hub (t0 + Hour) 0.
Definition open_server : Server unit := mkServer "default" "alice" None.
Definition as_user (id : string) : Context := mkContext None (Some (mkPrincipal id "default" "" ["owner"%string])).

Example stranger_sees_nothing :
  (GetWorkspace open_server (as_user "mallory") "proj" api_world).2 = Err (not_found "proj").
Proof. vm_compute. reflexivity. Qed.

Lemma api_confined_witness :
  exists m v, (GetWorkspace open_server (as_user "alice") "proj" api_world).2 = Ok m /\
    answers (principal open_server (as_user "alice")) api_world v /\ m = toProto v.
Proof.
  destruct (GetWorkspace open_server (as_user "alice") "proj" api_world) as [w' r] eqn:Hg.
  assert (is_ok r = true) as Hr by (change (is_ok (w', r).2 = true); rewrite <- Hg; vm_compute; reflexivity).
  destruct r as [m|e]; [|discriminate Hr]. exists m.
  assert (ws_inv (aw_store api_world)) as Hi by exact (proj1 (one_workspace served served_storable)).
  destruct (proj1 (api_confined (fun n => itoa (Z.of_nat n)) open_server (as_user "alice") api_world w' Hi t0_range) "proj"%string m Hg) as (_ & v & Ha & Hm).
  exists v. exact (conj eq_refl (conj Ha Hm)).
Defined.

Definition typed : list ExecClientMsg := [ExecStdinMsg "hello "; ExecClientOther; ExecStdinMsg "world"].

Example exec_cat :
  exists w', Exec open_server agent_side (as_user "alice") (ExecOpen "proj" ["cat"%string] :: typed) io_EOF api_world [] =
    Some (w', [ExecStdoutMsg "hello world"; ExecExitCode 0], Ok tt).
Proof.
  destruct (open_agent open_server (as_user "alice") "proj" "exec" (fun id => hub_OpenExec id ["cat"%string]) api_world)
    as [w' r] eqn:Ho.
  assert (is_ok r = true) as Hr by (change (is_ok (w', r).2 = true); rewrite <- Ho; vm_compute; reflexivity).
  destruct r as [st|e]; [|discriminate Hr]. exists w'.
  refine (proj1 (api_exec_served _ open_server (as_user "alice") "proj" ["cat"%string] typed io_EOF api_world w' st
    [(ExecStdout, "hello world"%string)] WaitNil [] _ _ _ Ho _ _ _)).
  - intros s y y' st' Hs. injection Hs as _ <-. reflexivity.
  - discriminate.
  - reflexivity.
  - reflexivity.
  - reflexivity.
  - constructor; [left; reflexivity|constructor].
  - unfold in_int32, wait_code. lia.
Qed.
