(* ===== verification/System.v ===== *)
(** The running box daemon as a transition system: front-door sessions
    (attach, release), destroys, agent connect and disconnect reports, metadata
    commands, reconcile events and sweeps, the shutdown drain, the startup
    reset and the clock, each an atomic step on the shared world.  Every step is
    proved to be one of the box-level moves of [moves], from which the
    invariants of all executions follow by induction.

    Operations of the real daemon interleave at their store calls; the
    guarantees here are for executions that do not, and [attach_lost] at the end
    shows what can happen to ones that do. *)
From stdpp Require Import base option list strings gmap fin_maps relations.
From Stdlib Require Import ZArith Lia.
From S2P Require Import Prelude GoStrings GoTime GoNet Json Box Spec Ports Store World Engine Reconcile Boxmeta BoxSqlite Boxd Lifecycle.
Local Open Scope Z_scope.

Inductive Label : Type :=
| LAttach (owner username : string)
| LRelease (id : string)
| LDestroy (id : string)
| LAgent (id : string) (connected : bool)
| LMeta (ip : string) (cmd : Command)
| LEvent
| LSweep
| LDrain
| LReset
| LTick (t : time).

(** What a step may do to one box; [now] is the instant it runs at. *)
Inductive moves (idle : IdleConfig) (now : time) (l : Label) (b : Box) : option Box -> Prop :=
| mv_lifecycle o : l = LEvent \/ l = LSweep -> lifecycle idle now b o -> moves idle now l b o
| mv_same o : o ≡ Some b -> moves idle now l b o
| mv_attach o owner username :
    l = LAttach owner username -> b_Owner b = owner -> o ≡ Some (b <| b_Attached := true |>) -> moves idle now l b o
| mv_release o :
    l = LRelease (b_ID b) -> o ≡ Some (b <| b_Attached := false |> <| b_LastActive := now |>) -> moves idle now l b o
| mv_destroy o :
    l = LDestroy (b_ID b) -> o ≡ Some (b <| b_Phase := PhaseDestroying |>) -> moves idle now l b o
| mv_agent o c :
    l = LAgent (b_ID b) c -> o ≡ Some (b <| b_AgentConnected := c |>) -> moves idle now l b o
| mv_meta o cmd :
    l = LMeta (b_IP b) cmd -> b_IP b <> ""%string -> o ≡ Some (run_command idle now cmd b) -> moves idle now l b o
| mv_drain o :
    l = LDrain -> b_Ephemeral b = false -> b_Phase b = PhaseRunning -> o ≡ Some (drained now b) -> moves idle now l b o
| mv_reset o :
    l = LReset -> b_Attached b = true -> o ≡ Some (b <| b_Attached := false |>) -> moves idle now l b o.

Section system.
Context {S C H : Type} `{BoxByIP S} `{Compute C}.
Notation W := (World S C H).
Implicit Types w : W.
Variable newID newToken : nat -> string.
Hypothesis newID_utf8 : forall n, utf8 (newID n) = true.
Hypothesis newToken_nonempty : forall n, newToken n <> ""%string.
Variable ecfg : EngineConfig.
Hypothesis ecfg_grace : in_int64 (ec_DefaultGrace ecfg).
Variable rcfg : ReconcileConfig S H.
Hypothesis rcfg_hooks : forall hk, rc_Hooks rcfg = Some hk -> hooks_frame hk.

Definition wake : string -> string -> M W unit := Trigger.

Definition run (l : Label) : M W unit :=
  match l with
  | LAttach owner username => ignore (Attach newID wake ecfg owner username)
  | LRelease id => releaser wake ecfg id
  | LDestroy id => Destroy wake ecfg id
  | LAgent id c => SetAgentConnected id c
  | LMeta ip cmd => fun w => mutate ip (run_command (rc_Idle rcfg) (wNow w) cmd) w
  | LEvent => handleEvent newToken rcfg
  | LSweep => sweep newToken rcfg
  | LDrain => Drain (ec_Tenant ecfg)
  | LReset => resetSessions
  | LTick t => modify (fun w => w <| wNow := t |>)
  end.

(** Time does not run backwards. *)
Definition enabled (l : Label) (w : W) : Prop :=
  match l with
  | LTick t => wNow w <= t /\ clock_ok t
  | LMeta _ (CHeartbeat r) => float_kept (hb_Load r) = true
  | _ => True
  end.

Inductive step (w : W) (l : Label) (w' : W) : Prop :=
| step_run r : enabled l w -> run l w = (w', r) -> step w l w'.

Inductive execution (w : W) : list Label -> W -> Prop :=
| exec_nil : execution w [] w
| exec_snoc ls l w1 w2 : execution w ls w1 -> step w1 l w2 -> execution w (ls ++ [l]) w2.

(** The box a first attach creates. *)
Definition created (owner username : string) (now : time) (b : Box) : Prop :=
  exists spec id b0, ParseSpec username = Ok spec /\ build ecfg id now owner spec = Ok b0 /\
                     b ≡ b0 <| b_Attached := true |>.

(** A step as seen by every box of the table. *)
Definition time_after (l : Label) (w : W) : time := match l with LTick t => t | _ => wNow w end.
Definition steps_to (l : Label) (w w' : W) : Prop :=
  st_inv (wStore w') /\ wNow w' = time_after l w /\ forall id,
    match boxes w !! id, boxes w' !! id with
    | Some b, o => moves (rc_Idle rcfg) (wNow w) l b o
    | None, Some b' => exists owner username, l = LAttach owner username /\ created owner username (wNow w) b' /\
                         (forall j b, boxes w !! j = Some b -> b_TenantID b = ec_Tenant ecfg ->
                            ~ (b_Owner b = owner /\ b_Name b = b_Name b'))
    | None, None => True
    end.

(** * Each operation is a move *)
Lemma steps_refl l w w' :
  st_inv (wStore w') -> wNow w' = time_after l w -> boxes w' ≡ boxes w -> steps_to l w w'.
Proof.
  intros Hi Hn Hv. split_and!; [done..|]. intros id. specialize (Hv id).
  destruct (boxes w !! id) as [b|]; [by apply mv_same|]. by inversion Hv.
Qed.

Lemma steps_moved l id b o w w' :
  time_after l w = wNow w -> boxes w !! id = Some b -> moved id o w w' ->
  (forall o', o' ≡ o -> moves (rc_Idle rcfg) (wNow w) l b o') -> steps_to l w w'.
Proof.
  intros Ht Hb (Hi & Hn & Hm) Hmv. split_and!; [done|congruence|]. intros j. specialize (Hm j).
  change (boxes w' !! j ≡ (if decide (j = id) then o else boxes w !! j)) in Hm.
  destruct (decide (j = id)) as [->|Hj].
  - rewrite Hb. by apply Hmv.
  - destruct (boxes w !! j) as [c|]; [by apply mv_same|]. by inversion Hm.
Qed.

(** Reading a box and writing it back changed. *)
Lemma wp_rewrite_box id b b' w (Q : W -> result Box -> Prop) :
  st_inv (wStore w) -> clock_ok (wNow w) -> boxes w !! id = Some b -> same_key b b' -> storable b' ->
  (forall w' b2, b2 ≡ b' -> moved id (Some b') w w' -> Q w' (Ok b2)) ->
  (forall w' e, moved id (Some b) w w' -> Q w' (Err e)) ->
  wp (update b') Q w.
Proof.
  intros Hi Hclk Hb Hk Hs HQ HE. destruct (st_view_id _ _ _ Hi Hb) as [Hid _].
  assert (Hm : moved id (Some b) w w) by (unfold boxes in Hb; rewrite <- Hb; by apply moved_refl).
  eapply wp_mono; [by apply (wp_update id b)|]. intros w' [b2|e]; [|by apply HE].
  intros (? & _ & ?). by apply HQ.
Qed.

Lemma wp_Trigger id tenant w (Q : W -> result unit -> Prop) :
  (forall w', wStore w' = wStore w -> wNow w' = wNow w -> Q w' (Ok tt)) -> wp (Trigger id tenant) Q w.
Proof. intros HQ. unfold Trigger. apply wp_modify. destruct (_ <? _)%nat; by apply HQ. Qed.

Lemma steps_store l w w1 w2 : wStore w2 = wStore w1 -> wNow w2 = wNow w1 -> steps_to l w w1 -> steps_to l w w2.
Proof. unfold steps_to, boxes. by intros -> ->. Qed.

Lemma storable_fields b b' :
  storable b -> phase_storable (b_Phase b') -> b_Grace b' = b_Grace b -> b_Deadline b' = b_Deadline b ->
  in_range (b_KeepAliveUntil b') -> in_range (b_LastActive b') -> b_CreatedAt b' = b_CreatedAt b ->
  b_UpdatedAt b' = b_UpdatedAt b -> b_MaxTTL b' = b_MaxTTL b -> b_ID b' = b_ID b -> in_int64 (b_IdleTimeoutOverride b') ->
  float_kept (b_Load b') = true -> storable b'.
Proof. unfold storable. intros (? & ? & ? & ? & ? & ? & ? & ? & ? & ? & ?) Hp -> -> ? ? -> -> -> -> ? ?. done. Qed.

Lemma view_storable w id b : st_inv (wStore w) -> boxes w !! id = Some b -> storable b /\ b_ID b = id.
Proof. intros Hi Hb. destruct (st_view_id _ _ _ Hi Hb). done. Qed.

(** The storable fields a move leaves alone. *)
Ltac keep_fields := match goal with Hs : storable _ |- _ => eapply storable_fields; [exact Hs|simpl; try done; try (by apply Hs)..] end.

Lemma release_steps id w :
  st_inv (wStore w) -> clock_ok (wNow w) -> wp (run (LRelease id)) (fun w' _ => steps_to (LRelease id) w w') w.
Proof.
  intros Hi Hclk. simpl. unfold releaser. wp_step. wp_step. apply wp_on_store.
  eapply wp_mono; [by apply st_Get_spec|]. intros s' r (-> & Hg & _).
  replace (w <| wStore := wStore w |>) with w by by destruct w.
  destruct r as [b|e]; [|apply wp_ret; by apply steps_refl].
  specialize (Hg b eq_refl). destruct (view_storable w id b Hi Hg) as [Hs Hid].
  unfold clock. wp_step. apply wp_gets. wp_step. wp_step.
  change (wp (update (b <| b_Attached := false |> <| b_LastActive := wNow w |>))
    (fun w' r => wp (match r with Err _ => mret tt | Ok _ => wake id (ec_Tenant ecfg) end) (fun w' _ => steps_to (LRelease id) w w') w') w).
  apply (wp_rewrite_box id b); try done.
  - keep_fields. by apply clock_in_range.
  - intros w' b2 _ Hm. apply wp_Trigger. intros w2 Hs2 Hn2. eapply steps_store; [exact Hs2|exact Hn2|].
    eapply steps_moved; [done|done|exact Hm|]. intros o' Ho. by apply mv_release; [rewrite Hid|].
  - intros w' e Hm. apply wp_ret. eapply steps_moved; [done|done|exact Hm|]. intros o' Ho. by apply mv_same.
Qed.

Lemma destroy_steps id w :
  st_inv (wStore w) -> clock_ok (wNow w) -> wp (run (LDestroy id)) (fun w' _ => steps_to (LDestroy id) w w') w.
Proof.
  intros Hi Hclk. simpl. unfold Destroy. wp_step. apply wp_on_store.
  eapply wp_mono; [by apply st_Get_spec|]. intros s' r (-> & Hg & _).
  replace (w <| wStore := wStore w |>) with w by by destruct w.
  destruct r as [b|e]; [|by apply steps_refl].
  specialize (Hg b eq_refl). destruct (view_storable w id b Hi Hg) as [Hs Hid].
  unfold clock. wp_step. apply wp_gets. wp_step.
  change (wp (update (b <| b_Phase := PhaseDestroying |>))
    (fun w' r => match r with Ok _ => wp (wake id (ec_Tenant ecfg)) (fun w' _ => steps_to (LDestroy id) w w') w'
                 | Err _ => steps_to (LDestroy id) w w' end) w).
  apply (wp_rewrite_box id b); try done.
  - keep_fields.
  - intros w' b2 _ Hm. apply wp_Trigger. intros w2 Hs2 Hn2. eapply steps_store; [exact Hs2|exact Hn2|].
    eapply steps_moved; [done|done|exact Hm|]. intros o' Ho. by apply mv_destroy; [rewrite Hid|].
  - intros w' e Hm. eapply steps_moved; [done|done|exact Hm|]. intros o' Ho. by apply mv_same.
Qed.

Lemma agent_steps id c w :
  st_inv (wStore w) -> clock_ok (wNow w) -> wp (run (LAgent id c)) (fun w' _ => steps_to (LAgent id c) w w') w.
Proof.
  intros Hi Hclk. simpl. unfold SetAgentConnected. wp_step. wp_step. apply wp_on_store.
  eapply wp_mono; [by apply st_Get_spec|]. intros s' r (-> & Hg & _).
  replace (w <| wStore := wStore w |>) with w by by destruct w.
  destruct r as [b|e]; [|apply wp_ret; by apply steps_refl].
  specialize (Hg b eq_refl). destruct (view_storable w id b Hi Hg) as [Hs Hid]. wp_step. wp_step.
  apply (wp_rewrite_box id b); try done.
  - intros w' b2 _ Hm. apply wp_Trigger. intros w2 Hs2 Hn2. eapply steps_store; [exact Hs2|exact Hn2|].
    eapply steps_moved; [done|done|exact Hm|]. intros o' Ho. by eapply mv_agent; [rewrite Hid|].
  - intros w' e Hm. apply wp_ret. eapply steps_moved; [done|done|exact Hm|]. intros o' Ho. by apply mv_same.
Qed.

(** A command changes only the fields an owner may tune. *)
Lemma run_command_key idle now cmd b : same_key b (run_command idle now cmd b).
Proof.
  destruct cmd as [r|r|r|r|r]; simpl; try done.
  - unfold do_heartbeat, RecordHeartbeat. by destruct (_ || _).
  - unfold do_idle. by repeat case_match.
Qed.

Lemma parsed_in_range now s d : clock_ok now -> ParseDuration s = Ok d -> in_range (Add now d).
Proof.
  intros Hclk Hd%ParseDuration_in_int64. unfold clock_ok, in_range, Add, in_int64 in *. lia.
Qed.

Lemma run_command_storable idle now cmd b :
  match cmd with CHeartbeat r => float_kept (hb_Load r) = true | _ => True end ->
  clock_ok now -> storable b -> storable (run_command idle now cmd b).
Proof.
  intros Hld Hclk Hs. pose proof (clock_in_range _ Hclk) as Hn. destruct cmd as [r|r|r|r|r]; simpl.
  - unfold do_heartbeat, RecordHeartbeat. destruct (_ || _); keep_fields.
  - unfold do_keepAlive. keep_fields.
    assert (in_range (Add now (5 * Minute))) as H5.
    { unfold clock_ok, in_range, Add, Minute, Second, int64_max in *. lia. }
    case_bool_decide; [done|]. destruct (ParseDuration _) eqn:Hd; [by eapply parsed_in_range|done].
  - keep_fields.
  - unfold do_idle. repeat case_match; try done; keep_fields; by eapply ParseDuration_in_int64.
  - keep_fields.
Qed.

Lemma meta_steps ip cmd w :
  enabled (LMeta ip cmd) w -> st_inv (wStore w) -> clock_ok (wNow w) -> wp (run (LMeta ip cmd)) (fun w' _ => steps_to (LMeta ip cmd) w w') w.
Proof.
  intros Hen Hi Hclk. change (wp (mutate ip (run_command (rc_Idle rcfg) (wNow w) cmd)) (fun w' _ => steps_to (LMeta ip cmd) w w') w).
  unfold mutate. wp_step. apply wp_on_store. eapply wp_mono; [by apply st_GetByIP_spec|]. intros s' r (-> & Hg).
  replace (w <| wStore := wStore w |>) with w by by destruct w.
  destruct r as [b|e]; [|by apply steps_refl].
  destruct (Hg b eq_refl) as (Hip & Hbip & Hb). destruct (view_storable w _ b Hi Hb) as [Hs _]. wp_step.
  apply (wp_rewrite_box (b_ID b) b); try done.
  - apply run_command_key.
  - by apply run_command_storable.
  - intros w' b2 _ Hm. apply wp_ret. eapply steps_moved; [done|done|exact Hm|]. intros o' Ho.
    eapply mv_meta; [by rewrite Hbip|by rewrite Hbip|done].
  - intros w' e Hm. eapply steps_moved; [done|done|exact Hm|]. intros o' Ho. by apply mv_same.
Qed.

Lemma event_steps w :
  st_inv (wStore w) -> clock_ok (wNow w) -> wp (run LEvent) (fun w' _ => steps_to LEvent w w') w.
Proof.
  intros Hi Hclk. simpl. unfold handleEvent. wp_step. apply wp_gets.
  destruct (wEvents w) as [|[tenant id] rest]; [apply wp_ret; by apply steps_refl|].
  wp_step. apply wp_modify. wp_step. apply wp_intro. intros w' r He. set (w1 := w <| wEvents := rest |>) in *.
  destruct (ReconcileOne_moved newToken newToken_nonempty rcfg rcfg_hooks tenant id w1 w' r) as (Hm & Hl & Hn); [done..|].
  destruct Hm as (Hi' & Hn' & Hm). split_and!; [done..|]. intros j. specialize (Hm j).
  change (boxes w' !! j ≡ (if decide (j = id) then boxes w' !! id else boxes w !! j)) in Hm.
  destruct (decide (j = id)) as [->|Hj].
  - destruct (boxes w !! id) as [b|] eqn:Hb; [apply mv_lifecycle; [by left|by apply Hl]|].
    by rewrite (Hn Hb).
  - destruct (boxes w !! j) as [b|]; [by apply mv_same|]. by inversion Hm.
Qed.

Lemma sweep_moves w :
  st_inv (wStore w) -> clock_ok (wNow w) -> wp (run LSweep) (fun w' _ => steps_to LSweep w w') w.
Proof.
  intros Hi Hclk. simpl. eapply wp_mono; [by apply sweep_swept|]. intros w' r [_ [(ids & _ & Hi' & Hn' & Hs)|[-> _]]].
  - split_and!; [done..|]. intros id. specialize (Hs id). case_decide.
    + destruct (boxes w !! id); [|by rewrite Hs]. apply mv_lifecycle; [by right|done].
    + destruct (boxes w !! id); [by apply mv_same|]. by inversion Hs.
  - by apply steps_refl.
Qed.

Lemma drain_moves w :
  st_inv (wStore w) -> clock_ok (wNow w) -> wp (run LDrain) (fun w' _ => steps_to LDrain w w') w.
Proof.
  intros Hi Hclk. simpl. unfold Drain. destruct cp_suspender as [susp|]; [|apply wp_ret; by apply steps_refl].
  wp_step. wp_step. apply wp_on_store. eapply wp_mono; [by apply st_List_spec|]. intros s' l (-> & Hl & _).
  replace (w <| wStore := wStore w |>) with w by by destruct w.
  destruct l as [l|e]; [|apply wp_ret; by apply steps_refl]. destruct (Hl l eq_refl) as [Hnd Hin].
  eapply wp_mono; [apply (draining_mfor susp w l Hclk) with (ids := []); [..|exact Hnd]|].
  - intros b Hb. by apply Hin.
  - intros b Hb. apply Hin in Hb as [Hb _]. by apply (st_view_id _ _ _ Hi Hb).
  - split_and!; [done..|]. intros j. by rewrite decide_False by apply not_elem_of_nil.
  - intros w' r (_ & Hi' & Hn' & _ & Hd). split_and!; [done..|]. intros id. specialize (Hd id). simpl in Hd. case_decide.
    + destruct Hd as (b & -> & [Ho|(He & Hp & Ho)] & _); [by apply mv_same|by apply mv_drain].
    + destruct (boxes w !! id) as [b|]; [by apply mv_same|]. by inversion Hd.
Qed.

(** The reset loop, box by box. *)
Definition resetting (ids : list string) (w0 w : W) : Prop :=
  st_inv (wStore w) /\ wNow w = wNow w0 /\
  forall j, boxes w !! j ≡ boxes w0 !! j \/
    (j ∈ ids /\ exists b, boxes w0 !! j = Some b /\ b_Attached b = true /\ boxes w !! j ≡ Some (b <| b_Attached := false |>)).

Lemma resetting_mfor w0 l : clock_ok (wNow w0) ->
  (forall b, b ∈ l -> boxes w0 !! b_ID b = Some b) -> (forall b, b ∈ l -> storable b) ->
  forall ids w, resetting ids w0 w -> NoDup (ids ++ (b_ID <$> l)) ->
  wp (mfor l resetOne) (fun w' _ => exists ids', resetting ids' w0 w') w.
Proof.
  intros Hclk. induction l as [|b l IH]; intros Hl Hst ids w Hr Hnd; [apply wp_ret; by exists ids|].
  cbn [mfor]. wp_step. rewrite fmap_cons, cons_middle, app_assoc in Hnd.
  assert (Hni : b_ID b ∉ ids).
  { apply NoDup_app in Hnd as ((_ & Hx & _)%NoDup_app & _). intros Hin. apply (Hx _ Hin). by left. }
  assert (Hnext : forall w', resetting (ids ++ [b_ID b]) w0 w' -> wp (mfor l resetOne) (fun w' _ => exists ids', resetting ids' w0 w') w').
  { intros w' Hw'. apply (IH (fun c Hc => Hl c ltac:(by right)) (fun c Hc => Hst c ltac:(by right)) _ _ Hw' Hnd). }
  assert (Hwk : forall w', st_inv (wStore w') -> wNow w' = wNow w0 ->
     (forall j, boxes w' !! j ≡ boxes w !! j \/ (j = b_ID b /\ b_Attached b = true /\ boxes w' !! j ≡ Some (b <| b_Attached := false |>))) ->
     resetting (ids ++ [b_ID b]) w0 w').
  { intros w' Hi' Hn' Hj. destruct Hr as (_ & _ & Hr). split_and!; [done..|]. intros j. specialize (Hr j).
    destruct (Hj j) as [He|(-> & Ha & He)].
    - destruct Hr as [Hr|(Hin & c & Hc & Hca & Hr)]; [left; by rewrite He|right].
      split; [apply elem_of_app; by left|]. exists c. split_and!; [done..|]. by rewrite He.
    - right. split; [apply elem_of_app; right; by left|]. exists b. split_and!; [apply Hl; by left|done..]. }
  destruct Hr as (Hi & Hn & Hr). unfold resetOne at 1. destruct (b_Attached b) eqn:Ha.
  2:{ apply wp_ret, Hnext, Hwk; [done..|]. by left. }
  wp_step. destruct (Hr (b_ID b)) as [Hb|[? _]]; [|done]. rewrite (Hl b ltac:(by left)) in Hb.
  destruct (boxes w !! b_ID b) as [c|] eqn:Hc; [|by inversion Hb]. apply (inj Some) in Hb.
  apply (wp_rewrite_box (b_ID b) c); [done|by rewrite Hn|done| | |..].
  - eapply same_key_trans; [by apply equiv_same_key|done].
  - pose proof (Hst b ltac:(by left)) as Hsb. keep_fields.
  - intros w' b2 _ (Hi' & Hn' & Hm). apply Hnext, Hwk; [done|congruence|]. intros j. specialize (Hm j).
    change (boxes w' !! j ≡ (if decide (j = b_ID b) then Some (b <| b_Attached := false |>) else boxes w !! j)) in Hm.
    destruct (decide (j = b_ID b)); [by right|by left].
  - intros w' e (Hi' & Hn' & Hm). apply Hnext, Hwk; [done|congruence|]. intros j. specialize (Hm j).
    change (boxes w' !! j ≡ (if decide (j = b_ID b) then Some c else boxes w !! j)) in Hm.
    destruct (decide (j = b_ID b)) as [->|]; left; [by rewrite Hc|done].
Qed.

Lemma reset_moves w :
  st_inv (wStore w) -> clock_ok (wNow w) -> wp (run LReset) (fun w' _ => steps_to LReset w w') w.
Proof.
  intros Hi Hclk. simpl. unfold resetSessions. wp_step. wp_step. apply wp_on_store.
  eapply wp_mono; [by apply st_List_spec|]. intros s' l (-> & Hl & _).
  replace (w <| wStore := wStore w |>) with w by by destruct w.
  destruct l as [l|e]; [|apply wp_ret; by apply steps_refl]. destruct (Hl l eq_refl) as [Hnd Hin].
  eapply wp_mono; [apply (resetting_mfor w l Hclk) with (ids := []); [..|exact Hnd]|].
  - intros b Hb. by apply Hin.
  - intros b Hb. apply Hin in Hb as [Hb _]. by apply (st_view_id _ _ _ Hi Hb).
  - split_and!; [done..|]. by left.
  - intros w' r (ids & Hi' & Hn' & Hr). split_and!; [done..|]. intros id. destruct (Hr id) as [He|(_ & b & -> & Ha & He)].
    + destruct (boxes w !! id) as [b|]; [by apply mv_same|]. by inversion He.
    + by apply mv_reset.
Qed.

(** Looking an owner's box up by name. *)
Lemma wp_byOwnerName owner name w (Q : W -> result Box -> Prop) :
  st_inv (wStore w) ->
  (forall b, boxes w !! b_ID b = Some b -> b_Owner b = owner -> b_Name b = name -> Q w (Ok b)) ->
  (forall e, Q w (Err e)) ->
  wp (byOwnerName ecfg owner name) Q w.
Proof.
  intros Hi HQ HE. unfold byOwnerName. wp_step. apply wp_on_store.
  eapply wp_mono; [by apply st_List_spec|]. intros s' l (-> & Hl & _).
  replace (w <| wStore := wStore w |>) with w by by destruct w.
  destruct l as [l|e]; [|apply HE]. destruct (Hl l eq_refl) as [_ Hin].
  destruct (find (is_named owner name) l) as [b|] eqn:Hf; [|apply wp_throw, HE].
  apply find_some in Hf as [Hb Hn]. apply list_elem_of_In in Hb. apply Hin in Hb as [Hb _].
  unfold is_named in Hn. go_bool. by apply wp_ret, HQ.
Qed.

Lemma attach_moves owner username w :
  st_inv (wStore w) -> clock_ok (wNow w) ->
  wp (run (LAttach owner username)) (fun w' _ => steps_to (LAttach owner username) w w') w.
Proof.
  intros Hi Hclk. simpl. wp_step. unfold Attach. wp_step. apply wp_of_result.
  destruct (ParseSpec username) as [spec|e] eqn:Hspec; [|by apply steps_refl].
  destruct (negb _); [apply wp_throw; by apply steps_refl|]. wp_step. wp_step.
  apply wp_byOwnerName; [done|..].
  - intros b Hb Ho Hn. destruct (view_storable w _ b Hi Hb) as [Hs _]. unfold clock. wp_step. apply wp_gets.
    wp_step. wp_step. change (wp (update (b <| b_Attached := true |>)) (fun w' r =>
      match map_err (ErrWrap "attach box") r with
      | Ok a => wp (wake (b_ID a) (ec_Tenant ecfg) ;; mret a) (fun w' _ => steps_to (LAttach owner username) w w') w'
      | Err _ => steps_to (LAttach owner username) w w' end) w).
    apply (wp_rewrite_box (b_ID b) b); try done.
    + intros w' b2 _ Hm. simpl. wp_step. apply wp_Trigger. intros w2 Hs2 Hn2. apply wp_ret.
      eapply steps_store; [exact Hs2|exact Hn2|]. eapply steps_moved; [done|done|exact Hm|]. intros o' Ho'. by eapply mv_attach.
    + intros w' e Hm. eapply steps_moved; [done|done|exact Hm|]. intros o' Ho'. by apply mv_same.
  - intros e. destruct (errors_Is e ErrNotFound) eqn:HeN; [|apply wp_throw; by apply steps_refl].
    wp_step. unfold draw. apply wp_intro. intros w1 r1 [= <- <-]. unfold clock. wp_step. apply wp_gets.
    wp_step. apply wp_of_result. simpl. destruct (build _ _ _ _ _) as [b|e'] eqn:Hbuild; [|by apply steps_refl].
    pose proof (build_storable _ _ _ _ _ _ (newID_utf8 _) (clock_in_range _ Hclk) (ParseSpec_grace _ _ Hspec) ecfg_grace Hbuild) as Hs.
    destruct (build_inv _ _ _ _ _ _ Hbuild) as (_ & Hten & Hown & _).
    wp_step. wp_step. apply wp_on_store.
    eapply wp_mono; [apply st_Create_spec; [done|exact Hs]|]. intros s' [[]|e'] (Hi' & _ & Hr); simpl.
    2:{ apply steps_refl; [done..|]. unfold boxes. simpl. by rewrite Hr. }
    destruct Hr as (Hnone & b' & Hb' & Hv). simpl in Hnone, Hv. wp_step. apply wp_Trigger. intros w2 Hs2 Hn2. apply wp_ret.
    eapply steps_store; [exact Hs2|exact Hn2|]. split_and!; [done..|]. intros j. unfold boxes. simpl. rewrite Hv, lookup_insert.
    case_decide as Hj; [subst j|].
    + rewrite Hnone. exists owner, username. split; [done|]. split; [by exists spec, (newID (wFresh w)), b|].
      intros j c Hc Ht [Ho Hn]. assert (st_view s' !! j = Some c) as Hc'.
      { rewrite Hv, lookup_insert_ne; [done|]. simpl. intros Heq. rewrite Heq, Hc in Hnone. done. }
      assert (st_view s' !! b_ID b = Some b') as Hbb' by (by rewrite Hv, lookup_insert_eq).
      rewrite (st_view_name s' j (b_ID b) c b' Hi' Hc' Hbb') in Hc; [simpl in *; congruence|..].
      * rewrite Hb'. simpl. congruence.
      * rewrite Hb'. simpl. congruence.
      * done.
    + destruct (st_view (wStore w) !! j) as [c|]; [by apply mv_same|done].
Qed.

Lemma run_steps l w :
  enabled l w -> st_inv (wStore w) -> clock_ok (wNow w) -> wp (run l) (fun w' _ => steps_to l w w') w.
Proof.
  intros Hen Hi Hclk. destruct l.
  - by apply attach_moves.
  - by apply release_steps.
  - by apply destroy_steps.
  - by apply agent_steps.
  - by apply meta_steps.
  - by apply event_steps.
  - by apply sweep_moves.
  - by apply drain_moves.
  - by apply reset_moves.
  - simpl. apply wp_modify. by apply steps_refl.
Qed.

Lemma step_to w l w' :
  st_inv (wStore w) -> clock_ok (wNow w) -> step w l w' -> steps_to l w w' /\ clock_ok (wNow w').
Proof.
  intros Hi Hclk [r Hen He]. pose proof (wp_all _ _ _ _ _ He (run_steps l w Hen Hi Hclk)) as Hs.
  split; [exact Hs|]. destruct Hs as (_ & -> & _). destruct l; try done. by destruct Hen.
Qed.

(** C2. The daemon refines the box-level transition system: whatever an
    operation does inside (and whether or not it fails), each box of the table
    makes one of the moves of [moves] for that operation, ids without a row gain
    one only from an attach, which then creates the box its username describes
    for its owner under a name that owner had no box of, the store's invariant
    holds, and only the clock step moves time. *)
Theorem step_refines w l w' :
  st_inv (wStore w) -> clock_ok (wNow w) -> step w l w' ->
  st_inv (wStore w') /\ wNow w' = time_after l w /\
  forall id,
    match boxes w !! id, boxes w' !! id with
    | Some b, o => moves (rc_Idle rcfg) (wNow w) l b o
    | None, Some b' => exists owner username, l = LAttach owner username /\ created owner username (wNow w) b' /\
                         (forall j b, boxes w !! j = Some b -> b_TenantID b = ec_Tenant ecfg ->
                            ~ (b_Owner b = owner /\ b_Name b = b_Name b'))
    | None, None => True
    end.
Proof. intros Hi Hclk Hs. by destruct (step_to w l w' Hi Hclk Hs) as [? _]. Qed.

(** * Invariants of every execution *)

(** A property of boxes that every move keeps. *)
Lemma execution_invariant (P : Box -> Prop) w ls w' :
  (forall b b', b ≡ b' -> P b -> P b') ->
  (forall owner username now b, created owner username now b -> P b) ->
  (forall now l b o b', l ∈ ls -> clock_ok now -> moves (rc_Idle rcfg) now l b o -> P b -> o = Some b' -> P b') ->
  st_inv (wStore w) -> clock_ok (wNow w) -> (forall id b, boxes w !! id = Some b -> P b) ->
  execution w ls w' ->
  st_inv (wStore w') /\ clock_ok (wNow w') /\ (forall id b, boxes w' !! id = Some b -> P b).
Proof.
  intros Heq Hnew Hmv Hi Hclk Hw He. induction He as [|ls l w1 w2 He IH Hs]; [done|].
  destruct IH as (Hi1 & Hclk1 & Hw1). { intros. eapply Hmv; try done. apply elem_of_app. by left. }
  destruct (step_to w1 l w2 Hi1 Hclk1 Hs) as [(Hi2 & _ & Hm) Hclk2]. split_and!; [done..|].
  intros id b' Hb'. specialize (Hm id). destruct (boxes w1 !! id) as [b|] eqn:Hb.
  - eapply Hmv; [| |exact Hm|by eapply Hw1|done]; [|done]. apply elem_of_app. right. by left.
  - rewrite Hb' in Hm. destruct Hm as (owner & username & _ & Hc & _). by eapply Hnew.
Qed.

Record sane (b : Box) : Prop := mkSane {
  sane_tenant : b_TenantID b = ec_Tenant ecfg;
  sane_ephemeral : b_Ephemeral b = true -> b_Phase b <> PhaseSuspended;
  sane_token : b_Phase b = PhaseProvisioning \/ b_Phase b = PhaseRunning \/ b_Phase b = PhaseSuspended ->
               b_BootstrapToken b <> ""%string;
  sane_deadline : is_Some (b_Deadline b) -> b_Ephemeral b = true;
  sane_phase : b_Phase b <> PhaseStopped /\ forall s, b_Phase b <> PhaseOther s
}.

Lemma sane_equiv b b' : b ≡ b' -> sane b -> sane b'.
Proof. intros Hb []. rewrite (forget_eq b' b (symmetry Hb)). by constructor. Qed.

Lemma created_fields owner username now b :
  created owner username now b ->
  b_TenantID b = ec_Tenant ecfg /\ b_Phase b = PhasePending /\ b_Deadline b = None /\ b_Attached b = true /\
  b_MaxTTL b = 0 /\ b_Owner b = owner.
Proof.
  intros (spec & id & b0 & _ & (_ & Ht & Ho & _ & _ & _ & _ & Hm & Hd & Hp & _)%build_inv & Hb).
  rewrite !Hb. done.
Qed.

Lemma created_sane owner username now b : created owner username now b -> sane b.
Proof.
  intros (Ht & Hp & Hd & _)%created_fields. constructor; rewrite ?Hp, ?Hd; try done; by intros [?|[?|?]].
Qed.

(** Re-labelling the phase of a sane box. *)
Lemma sane_phase_change b b' :
  sane b -> b_TenantID b' = b_TenantID b -> b_Ephemeral b' = b_Ephemeral b ->
  (is_Some (b_Deadline b') -> b_Ephemeral b = true) ->
  match b_Phase b' with
  | PhasePending | PhaseFailed | PhaseDestroying => True
  | PhaseProvisioning | PhaseRunning => b_BootstrapToken b' <> ""%string
  | PhaseSuspended => b_BootstrapToken b' <> ""%string /\ b_Ephemeral b = false
  | PhaseStopped | PhaseOther _ => False
  end -> sane b'.
Proof.
  intros [] Ht He Hd Hp. split.
  - congruence.
  - rewrite He. intros Hb Hs. rewrite Hs in Hp. destruct Hp. congruence.
  - intros [H'|[H'|H']]; rewrite H' in Hp; naive_solver.
  - by rewrite He.
  - split; [intros H'|intros s H']; by rewrite H' in Hp.
Qed.

Lemma sane_token_of b p :
  sane b -> b_Phase b = p -> p = PhaseProvisioning \/ p = PhaseRunning \/ p = PhaseSuspended -> b_BootstrapToken b <> ""%string.
Proof. intros [] <-. eauto. Qed.

Lemma settled_deadline now b : is_Some (b_Deadline (settled now b)) -> is_Some (b_Deadline b).
Proof. destruct (settled_cases now b) as [-> | ->]; [done|]. by intros [? ?]. Qed.

Lemma settled_tier now b : b_TenantID (settled now b) = b_TenantID b /\ b_Ephemeral (settled now b) = b_Ephemeral b.
Proof. by destruct (settled_cases now b) as [-> | ->]. Qed.

Lemma entered_fields now b p msg :
  b_TenantID (entered now b p msg) = b_TenantID b /\ b_Ephemeral (entered now b p msg) = b_Ephemeral b /\
  b_Deadline (entered now b p msg) = b_Deadline b /\ b_BootstrapToken (entered now b p msg) = b_BootstrapToken b /\
  b_Phase (entered now b p msg) = p /\ b_Attached (entered now b p msg) = b_Attached b /\
  b_MaxTTL (entered now b p msg) = b_MaxTTL b.
Proof. unfold entered. by destruct (_ && _). Qed.

Lemma sane_entered now b p msg :
  sane b -> p = PhaseDestroying \/ (p = PhaseRunning /\ b_BootstrapToken b <> ""%string) \/
            (p = PhaseSuspended /\ b_BootstrapToken b <> ""%string /\ b_Ephemeral b = false) ->
  sane (entered now b p msg).
Proof.
  intros Hs Hp. destruct (entered_fields now b p msg) as (F1 & F2 & F3 & F4 & F5 & _).
  eapply sane_phase_change; [exact Hs|done..|by rewrite F3; apply Hs|]. rewrite F5, F4.
  destruct Hp as [-> |[[-> ?]|(-> & ? & ?)]]; done.
Qed.

Lemma sane_lifecycle now b b' : lifecycle (rc_Idle rcfg) now b (Some b') -> sane b -> sane b'.
Proof.
  intros Hl Hs. destruct (settled_tier now b) as [Ht He].
  inversion Hl as [? Hb|? d Hp Hd Hb|? Hp ? Hb|? Hp Hr Hb|? ? ? ? Hp Htok Hb|? ? ? Hp Hb
    |? Hp ? Hb|? Hp Heph ? ? ? ? Hb|? Hp ? Hb|]; subst; (eapply sane_equiv; [symmetry; exact Hb|]).
  - done.
  - eapply sane_phase_change; [exact Hs|done..| |]; simpl; [|rewrite Hp; by eapply sane_token_of; eauto].
    intros _. destruct (b_Ephemeral b) eqn:E; [done|]. by rewrite EvalLifetime_persistent in Hd.
  - eapply sane_phase_change; [exact Hs|done..| |]; simpl; [by intros [? ?]|].
    rewrite Hp. by eapply sane_token_of; eauto.
  - apply sane_entered; auto.
  - eapply sane_phase_change; [exact Hs|done..| |]; simpl; [|done]. intros Hd%settled_deadline. by apply Hs.
  - eapply sane_phase_change; [exact Hs|done..| |]; simpl; [|done]. intros Hd%settled_deadline. by apply Hs.
  - apply sane_entered; [done|]. right; left. split; [done|]. by eapply sane_token_of; eauto.
  - apply sane_entered; [eapply sane_phase_change; [exact Hs|done..|by apply Hs|]|].
    + simpl. rewrite Hp. by eapply sane_token_of; eauto.
    + right; right. split; [done|]. split; [|done]. by eapply (sane_token_of b); eauto.
  - apply sane_entered; [done|]. right; left. split; [done|]. by eapply sane_token_of; eauto.
Qed.

Lemma run_command_fields idle now cmd b :
  b_TenantID (run_command idle now cmd b) = b_TenantID b /\ b_Ephemeral (run_command idle now cmd b) = b_Ephemeral b /\
  b_Deadline (run_command idle now cmd b) = b_Deadline b /\ b_Phase (run_command idle now cmd b) = b_Phase b /\
  b_BootstrapToken (run_command idle now cmd b) = b_BootstrapToken b /\
  b_Attached (run_command idle now cmd b) = b_Attached b /\ b_MaxTTL (run_command idle now cmd b) = b_MaxTTL b.
Proof.
  destruct cmd as [r|r|r|r|r]; simpl; try done.
  - unfold do_heartbeat, RecordHeartbeat. by destruct (_ || _).
  - unfold do_idle. by repeat case_match.
Qed.

(** A move that keeps what [sane] reads. *)
Lemma sane_same b b' :
  b_TenantID b' = b_TenantID b -> b_Ephemeral b' = b_Ephemeral b -> b_Deadline b' = b_Deadline b ->
  b_Phase b' = b_Phase b -> b_BootstrapToken b' = b_BootstrapToken b -> sane b -> sane b'.
Proof. intros H1' H2' H3' H4' H5' []. constructor; rewrite ?H1', ?H2', ?H3', ?H4', ?H5'; done. Qed.

Lemma sane_moves now l b o b' : moves (rc_Idle rcfg) now l b o -> sane b -> o = Some b' -> sane b'.
Proof.
  intros Hm Hs ->. inversion Hm as [? _ Hl|? Hb|? ? ? ? ? Hb|? ? Hb|? ? Hb|? ? ? Hb|? ? ? ? Hb|? ? He Hp Hb|? ? ? Hb]; subst;
    try (apply (inj Some) in Hb; eapply sane_equiv; [symmetry; exact Hb|]).
  - by eapply sane_lifecycle.
  - done.
  - by apply (sane_same b).
  - by apply (sane_same b).
  - eapply sane_phase_change; [exact Hs|done..|by apply Hs|done].
  - by apply (sane_same b).
  - destruct (run_command_fields (rc_Idle rcfg) now cmd b) as (F1 & F2 & F3 & F4 & F5 & _). by apply (sane_same b).
  - pose proof (sane_token_of b _ Hs Hp ltac:(auto)) as Htok. apply sane_entered; [|right; right; done].
    by apply (sane_same b).
  - by apply (sane_same b).
Qed.

(** C4. In every execution of the daemon from a sane table (the empty one, for
    instance) the store's invariant holds, box names are unique per owner, and
    every box stays sane: it is the daemon's tenant's, an ephemeral box is never
    suspended, a box with an instance under way has a bootstrap token, only an
    ephemeral box carries a reap deadline, and its phase is one of the machine's
    (never [Stopped], which nothing enters). *)
Theorem execution_sane w ls w' :
  st_inv (wStore w) -> clock_ok (wNow w) -> (forall id b, boxes w !! id = Some b -> sane b) ->
  execution w ls w' ->
  st_inv (wStore w') /\ (forall id b, boxes w' !! id = Some b -> sane b) /\
  (forall i j b c, boxes w' !! i = Some b -> boxes w' !! j = Some c ->
     b_Owner b = b_Owner c -> b_Name b = b_Name c -> i = j).
Proof.
  intros Hi Hclk Hw He.
  destruct (execution_invariant sane w ls w') as (Hi' & _ & Hs); try done.
  - by apply sane_equiv.
  - by apply created_sane.
  - intros. by eapply sane_moves.
  - split_and!; [done..|]. intros i j b c Hb Hc Ho Hn. pose proof (Hs _ _ Hb) as []. pose proof (Hs _ _ Hc) as [].
    eapply (st_view_name (wStore w')); try done. congruence.
Qed.

(** One box followed through an execution. *)
Lemma execution_box (P : option Box -> Prop) id w ls w' :
  (forall now l o o', l ∈ ls -> P o ->
     match o with
     | Some b => b_ID b = id /\ moves (rc_Idle rcfg) now l b o'
     | None => match o' with
               | Some b' => exists owner username, l = LAttach owner username /\ created owner username now b'
               | None => True
               end
     end -> P o') ->
  st_inv (wStore w) -> clock_ok (wNow w) -> P (boxes w !! id) -> execution w ls w' -> P (boxes w' !! id).
Proof.
  intros Hmv Hi Hclk Hw He.
  cut (st_inv (wStore w') /\ clock_ok (wNow w') /\ P (boxes w' !! id)); [by intros (_ & _ & ?)|].
  induction He as [|ls l w1 w2 He IH Hs]; [done|].
  destruct IH as (Hi1 & Hclk1 & Hw1). { intros. eapply Hmv; try done. apply elem_of_app. by left. }
  destruct (step_to w1 l w2 Hi1 Hclk1 Hs) as [(Hi2 & _ & Hm) Hclk2]. split_and!; [done..|].
  eapply (Hmv (wNow w1) l); [apply elem_of_app; right; by left|exact Hw1|]. specialize (Hm id).
  destruct (boxes w1 !! id) eqn:Hb1; [split; [by apply (view_storable w1)|done]|]. destruct (boxes w2 !! id); [|done].
  destruct Hm as (owner & username & ? & ? & _). eauto.
Qed.

(** C3. A persistent box is only ever torn down on request: in any execution
    in which nobody destroys it, a persistent box that is not already being
    destroyed stays in the table under its id, owner and name, stays
    persistent, and never enters [Destroying], whatever its agent, its
    metadata commands, the provider, restarts or shutdowns do. *)
Theorem persistent_survives id b w ls w' :
  st_inv (wStore w) -> clock_ok (wNow w) -> execution w ls w' ->
  boxes w !! id = Some b -> b_Ephemeral b = false -> b_Phase b <> PhaseDestroying -> LDestroy id ∉ ls ->
  exists b', boxes w' !! id = Some b' /\ same_key b b' /\ b_Ephemeral b' = false /\ b_Phase b' <> PhaseDestroying.
Proof.
  intros Hi Hclk He Hb Heph Hph Hnd.
  set (P := fun o => exists b', o = Some b' /\ same_key b b' /\ b_Ephemeral b' = false /\ b_Phase b' <> PhaseDestroying).
  apply (execution_box P id w ls w'); try done; [|by exists b].
  intros now l o o' Hin (b1 & -> & Hk & He1 & Hp1) [Hid Hm].
  assert (Hkeep : forall b2, o' ≡ Some b2 -> same_key b1 b2 -> b_Ephemeral b2 = false -> b_Phase b2 <> PhaseDestroying -> P o').
  { intros b2 Ho Hk2 He2 Hp2. destruct o' as [b3|]; [|by inversion Ho]. apply (inj Some) in Ho. exists b3.
    split_and!; [done| |by rewrite Ho|by rewrite Ho]. eapply same_key_trans; [done|].
    eapply same_key_trans; [done|]. by apply equiv_same_key. }
  inversion Hm as [? _ Hl|Ho|? ? ? ? Ho|? Ho|Hl Ho|? ? Ho|? ? ? Ho|? ? ? Ho|? ? Ho]; subst; try (by eapply Hkeep).
  - destruct (lifecycle_persistent _ _ _ _ He1 Hp1 Hl) as (b2 & -> & Hp2).
    pose proof (lifecycle_tier _ _ _ _ Hl) as (Hk2 & He2 & _). eapply Hkeep; [done|done|congruence|done].
  - destruct (run_command_fields (rc_Idle rcfg) now cmd b1) as (_ & F2 & _ & F4 & _).
    eapply Hkeep; [done|apply run_command_key|congruence|congruence].
Qed.

Lemma lifecycle_attached now b b' :
  b_Attached b = true -> b_MaxTTL b <= 0 -> b_Phase b <> PhaseDestroying ->
  lifecycle (rc_Idle rcfg) now b (Some b') ->
  b_Attached b' = true /\ b_MaxTTL b' <= 0 /\ b_Phase b' <> PhaseDestroying.
Proof.
  intros Ha Hm Hp Hl. pose proof (lifecycle_tier _ _ _ _ Hl) as (_ & _ & Ha'). rewrite Ha'. split; [done|].
  assert (Hset : b_MaxTTL (settled now b) = b_MaxTTL b) by (by destruct (settled_cases now b) as [-> | ->]).
  assert (Hent : forall b0 p msg, b_MaxTTL (entered now b0 p msg) = b_MaxTTL b0) by (intros; apply entered_fields).
  inversion Hl as [? Hb|? d Hph Hd Hb|? Hph ? Hb|? Hph Hr Hb|? ? ? ? Hph Htok Hb|? ? ? Hph Hb
    |? Hph ? Hb|? Hph Heph ? ? ? ? Hb|? Hph ? Hb|]; subst;
    (split; [rewrite Hb; rewrite ?Hent; simpl; rewrite ?Hset; done|]); try (rewrite Hb, ?entered_phase; simpl; done).
  exfalso. destruct (b_Ephemeral b) eqn:He; [|by rewrite EvalLifetime_persistent in Hr].
  by rewrite EvalLifetime_attached in Hr by auto.
Qed.


(** * What interleaving can lose *)

(** Attach and the reconciler both read a row, change their copy and write
    the whole row back, so a session can be lost: if the reconciler read an
    ephemeral box while it was detached, and the owner's attach is written
    before the reconciler's own write, then the reconciler's write puts the old
    copy back.  The row says detached again, with a reap countdown running or
    the box already marked for destruction, although the session is live. *)
Theorem attach_lost id b w w' r :
  st_inv (wStore w) -> st_healthy (wStore w) -> clock_ok (wNow w) ->
  boxes w !! id ≡ Some (b <| b_Attached := true |>) ->
  storable b -> b_ID b = id -> b_Phase b = PhaseRunning -> b_Ephemeral b = true -> b_Attached b = false ->
  b_MaxTTL b <= 0 -> (b_Grace b <= 0 \/ b_Deadline b = None \/ exists d, b_Deadline b = Some d /\ d <= wNow w) ->
  reconcileLifetime b w = (w', r) ->
  exists b', boxes w' !! id = Some b' /\ b_Attached b' = false /\
    (is_Some (b_Deadline b') \/ b_Phase b' = PhaseDestroying).
Proof.
  intros Hi Hh Hclk Hrow Hs Hid Hph He Ha Hm Hcase Hrun.
  assert (Hrd : ready w) by done.
  destruct (holds_row w id _ Hrd Hrow) as (c & Hc & Hcb & Hcid & _).
  assert (Hk : same_key c b) by (eapply same_key_trans; [by apply equiv_same_key|done]).
  assert (Hfin : forall w1 b1, holds w1 id b1 -> b_Attached b1 = false ->
     is_Some (b_Deadline b1) \/ b_Phase b1 = PhaseDestroying ->
     exists b', boxes w1 !! id = Some b' /\ b_Attached b' = false /\ (is_Some (b_Deadline b') \/ b_Phase b' = PhaseDestroying)).
  { intros w1 b1 Hb1 Ha1 Hd1. unfold holds in Hb1. destruct (boxes w1 !! id) as [b2|]; [|by inversion Hb1].
    apply (inj Some) in Hb1. exists b2. split; [done|]. by rewrite !Hb1. }
  apply (wp_all _ (fun w' _ => exists b', boxes w' !! id = Some b' /\ b_Attached b' = false /\
    (is_Some (b_Deadline b') \/ b_Phase b' = PhaseDestroying)) _ _ _ Hrun).
  unfold reconcileLifetime. wp_step. apply wp_gets.
  rewrite EvalLifetime_detached by auto. destruct (b_Grace b <=? 0) eqn:Hg; go_bool.
  - simpl. wp_step. eapply wp_mono; [apply (wp_setPhase_ready id c); try done; by rewrite Hph|].
    intros w1 r1 (-> & _ & _ & _ & Hh1). apply wp_ret. eapply Hfin; [exact Hh1|exact Ha|by right].
  - destruct Hcase as [?|[Hd|(d & Hd & Hle)]]; [lia|..]; rewrite Hd.
    + simpl. wp_step. eapply wp_mono; [apply (wp_update_ready id c); try done|].
      { destruct Hs as (S1 & S2 & S3 & S4). unfold storable, in_range, clock_ok, in_int64 in *. simpl.
        split_and!; try done; try lia; [|naive_solver..]. intros d [= <-]. lia. }
      intros w1 r1 (_ & _ & _ & b2 & -> & _ & _ & Hh1). apply wp_ret. eapply Hfin; [exact Hh1|done|by left].
    + rewrite (proj2 (Z.leb_le _ _) Hle). simpl. wp_step.
      eapply wp_mono; [apply (wp_setPhase_ready id c); try done; by rewrite Hph|].
      intros w1 r1 (-> & _ & _ & _ & Hh1). apply wp_ret. eapply Hfin; [exact Hh1|exact Ha|by right].
Qed.

(** A keep-alive holds for as long as it asks: once a box has asked to be
    kept alive for a duration, no reconcile step up to and including the end of
    that span suspends it, however idle it looks.  An empty or malformed
    duration means five minutes. *)
Theorem keepAlive_holds (idle : IdleConfig) asked now (b : Box) (req : keepalive_body) d o :
  (ParseDuration (ka_Duration req) = Ok d \/ ((forall d', ParseDuration (ka_Duration req) <> Ok d') /\ d = 5 * Minute)) ->
  now <= asked + d -> b_Phase b <> PhaseSuspended ->
  lifecycle idle now (do_keepAlive asked b req) o ->
  forall b', o = Some b' -> b_Phase b' <> PhaseSuspended.
Proof.
  intros Hd Hnow Hb Hl b' ->.
  assert (Hka : b_KeepAliveUntil (do_keepAlive asked b req) = asked + d).
  { unfold do_keepAlive. simpl. unfold Add. f_equal. case_bool_decide as He.
    - destruct Hd as [Hd|[_ ->]]; [|done]. by rewrite He in Hd.
    - destruct Hd as [-> |[Hn ->]]; [done|]. destruct (ParseDuration _) as [a|]; [by destruct (Hn a)|done]. }
  set (k := do_keepAlive asked b req) in *.
  assert (Hk : b_Phase k <> PhaseSuspended) by done.
  inversion Hl as [? He|? dl Hp Hdl He|? Hp ? He|? Hp Hr He|? ? ? ? Hp Htok He|? ? ? Hp He
    |? Hp ? He|? Hp ? ? ? Hlt ? He|? Hp ? He|]; subst; try (rewrite He; try done; simpl; congruence).
  rewrite Hka in Hlt. lia.
Qed.
End system.
