(* ===== verification/Sshfront.v ===== *)
(** The SSH front door ([internal/sshfront/server.go]) and the account directory
    that backs it ([internal/account/account.go]): key to principal, username to
    box, the wait for the box's agent, and the relay of a session into it.

    The state is the daemon's world, the hub and the network.  [waitReady]
    sleeps between polls; each wake-up says which case of its [select] fired and
    what the rest of the daemon did meanwhile.  A session channel is relayed by
    concurrent copies, modelled as a step relation on what each side has been
    sent. *)
From stdpp Require Import base option list strings gmap.
From Stdlib Require Import Ascii ZArith Lia.
From S2P Require Import Prelude GoStrings GoTime Json Box Spec Ports Store World Engine Reconcile Lifecycle Agentproto Agenthub Agentssh Boxd System.
Local Open Scope Z_scope.

(** * Who is calling *)
(** [ssh.FingerprintSHA256] and the parser of a registered-keys line. *)
Class SSHKeys (K : Type) : Type := {
  FingerprintSHA256 : K -> string;
  ParseAuthorizedLine : string -> result (K * string)      (* the key and its comment *)
}.

(** [Authority]: keys to principals. *)
Definition Authority (K : Type) : Type := K -> result string.
Definition AnyKey {K} `{SSHKeys K} : Authority K := fun key => Ok (FingerprintSHA256 key).

Module Account.
Record Directory : Type := mkDirectory {
  byFP : gmap string string;
  accounts : gset string
}.

(** [bufio.Scanner] over the lines of a file: a line of 64 KiB or more ends the
    scan with an error; [cause] is the read error that ended the file, if any. *)
Definition MaxScanTokenSize : Z := 64 * 1024.
Definition ErrTooLong : error := Sentinel "bufio" "bufio.Scanner: token too long".
Definition drop_cr (line : string) : string := default line (cut_suffix (String (byte_of 13) EmptyString) line).
Definition too_long (line : string) : bool := MaxScanTokenSize <=? Z.of_nat (slen line).
Definition final_empty (ls : list string) : list string :=
  match rev ls with EmptyString :: ls' => rev ls' | _ => ls end.
Fixpoint scan_tokens (ls : list string) (cause : option error) : list string * option error :=
  match ls with
  | [] => ([], cause)
  | line :: ls' =>
      if too_long line then ([], Some ErrTooLong)
      else let '(tokens, e) := scan_tokens ls' cause in (drop_cr line :: tokens, e)
  end.
Definition scan_lines (contents : string) (cause : option error) : list string * option error :=
  scan_tokens (final_empty (split (byte_of 10) contents)) cause.

Section directory.
Context {K : Type} `{SSHKeys K}.

Definition at_line (path : string) (ln : nat) : string := path +:+ ":" +:+ itoa (Z.of_nat ln).

(** The loop of [Load], from line [ln]. *)
Fixpoint load_lines (path : string) (ln : nat) (lines : list string) (d : Directory) : result Directory :=
  match lines with
  | [] => Ok d
  | text :: lines' =>
      let line := trim_space text in
      if bool_decide (line = ""%string) || has_prefix "#" line then load_lines path (S ln) lines' d
      else
        match ParseAuthorizedLine line with
        | Err e => Err (ErrWrap (at_line path ln) e)
        | Ok (key, comment) =>
            let account := trim_space comment in
            if bool_decide (account = ""%string)
            then Err (Errorf (at_line path ln +:+ ": key has no account (trailing comment)"))
            else load_lines path (S ln) lines'
                   (mkDirectory (<[FingerprintSHA256 key := account]> (byFP d)) ({[account]} ∪ accounts d))
        end
  end.

(** [Load] on the file's contents, once it is open. *)
Definition Load (path : string) (contents : string) (cause : option error) : result Directory :=
  let '(lines, e) := scan_lines contents cause in
  d ← load_lines path 1 lines (mkDirectory ∅ ∅);
  match e with Some e => Err e | None => Ok d end.

Definition Len (d : Directory) : Z := Z.of_nat (size (byFP d)).
Definition Authenticate (d : Directory) : Authority K := fun key =>
  match byFP d !! FingerprintSHA256 key with
  | Some a => Ok a
  | None => Ok (FingerprintSHA256 key)
  end.
Definition IsAccount (d : Directory) (principal : string) : bool := bool_decide (principal ∈ accounts d).
End directory.
End Account.
Import Account.

(** * The connection *)
(** What the SSH handshake did: the keys it ran the callback on, in order, and
    the key whose possession the client proved, if it was accepted. *)
Record Handshake (K : Type) : Type := mkHandshake {
  hs_offered : list K;
  hs_accepted : option K;
  hs_User : string
}.
Arguments mkHandshake {K}.
Arguments hs_offered {K}.
Arguments hs_accepted {K}.
Arguments hs_User {K}.

(** [PublicKeyCallback]: the principal is a variable of [handleConn], assigned
    by each call that accepts. *)
Definition callback {K} (auth : Authority K) (principal : string) (key : K) : string :=
  match auth key with Ok p => p | Err _ => principal end.
Definition principal_of {K} (auth : Authority K) (h : Handshake K) : string :=
  foldl (callback auth) ""%string (hs_offered h).

(** What the library guarantees since v0.31: the last key the callback ran on is
    the key that authenticated the connection, and the callback took it. *)
Definition authenticated {K} (auth : Authority K) (h : Handshake K) : Prop :=
  forall k, hs_accepted h = Some k -> last (hs_offered h) = Some k /\ is_ok (auth k) = true.

(** * Sessions answered without a box *)
Record Request : Type := mkRequest {
  rq_Type : string;
  rq_WantReply : bool;
  rq_Payload : string
}.
Inductive chan_action : Type :=
| AReject (reason : Z) (text : string)
| AReply (ok : bool)
| AWrite (data : string)
| ASendRequest (r : Request)
| AClose.

Definition UnknownChannelType : Z := 3.
Definition ConnectionFailed : Z := 2.
Definition only_sessions : chan_action := AReject UnknownChannelType "only session channels are supported".

(** [req.Reply], which sends nothing unless a reply is wanted. *)
Definition reply (r : Request) (ok : bool) : list chan_action := if rq_WantReply r then [AReply ok] else [].
Definition sendExitCode (code : Z) : list chan_action := [ASendRequest (mkRequest "exit-status" false (be32 code))].

Fixpoint reply_loop (text : string) (code : Z) (reqs : list Request) : list chan_action :=
  match reqs with
  | [] => [AClose]
  | req :: reqs' =>
      if bool_decide (rq_Type req ∈ ["shell"; "exec"; "subsystem"]%string)
      then reply req true ++ [AWrite text] ++ sendExitCode code ++ [AClose]
      else reply req (bool_decide (rq_Type req ∈ ["pty-req"; "env"; "window-change"]%string)) ++ reply_loop text code reqs'
  end.
Definition replySession (typ : string) (accepted : bool) (text : string) (code : Z) (reqs : list Request) : list chan_action :=
  if negb (bool_decide (typ = "session"%string)) then [only_sessions]
  else if negb accepted then []
  else reply_loop text code reqs.

Definition msg (text : string) : string := text +:+ crlf.

(** [writeImages]: what it prints, [None] when there is nothing to list. *)
Definition writeImages (images : option (list string)) : option string :=
  match images with
  | None | Some [] => None
  | Some imgs => Some ("available images (use  ssh <name>:<image>@host):" +:+ crlf +:+
                       join "" (map (fun img => "  " +:+ img +:+ crlf) imgs))
  end.

(** * The front door *)
(** [Hub]. *)
Class FrontHub (B : Type) : Type := {
  fh_Connected : string -> M B bool;
  fh_OpenSSH : string -> M B Stream
}.
#[export] Instance agenthub_front {Y S} `{Yamux Y} : FrontHub (Hub Y S) := {|
  fh_Connected := Agenthub.Connected; fh_OpenSSH := Agenthub.OpenSSH
|}.

(** [ssh.NewClientConn] over a stream, and closing the stream. *)
Class ClientConn (N : Type) : Type := {
  ssh_NewClientConn : Stream -> M N nat;
  ssh_CloseStream : Stream -> M N unit;
  ssh_CloseConn : nat -> M N unit
}.

Record Front (S C H B N : Type) : Type := mkFront {
  fr_world : World S C H;
  fr_hub : B;
  fr_net : N
}.
Arguments mkFront {S C H B N}.
Arguments fr_world {S C H B N}.
Arguments fr_hub {S C H B N}.
Arguments fr_net {S C H B N}.

Definition readyTimeout_text : string := "1m0s".      (* 60 * time.Second *)

Inductive wake_kind : Type :=
| WakeTick
| WakeDeadline
| WakeDone (e : error).                               (* ctx.Done, with ctx.Err *)

(** How a connection was served. *)
Inductive served : Type :=
| ImagesListed
| Replied (text : string) (code : Z)
| Proxied (conn : nat).

Section front.
Context {S C H B N : Type} `{BoxStore S} `{FrontHub B} `{ClientConn N}.
Notation F := (Front S C H B N).
Variable newID : nat -> string.
Variable wake : string -> string -> M (World S C H) unit.
Variable cfg : EngineConfig.
Variable images : option (M N (list string)).         (* s.images *)

Definition on_world {A} (m : M (World S C H) A) : M F A := zoom fr_world (fun w f => mkFront w (fr_hub f) (fr_net f)) m.
Definition on_hub {A} (m : M B A) : M F A := zoom fr_hub (fun b f => mkFront (fr_world f) b (fr_net f)) m.
Definition on_net {A} (m : M N A) : M F A := zoom fr_net (fun n f => mkFront (fr_world f) (fr_hub f) n) m.

(** A wake-up of [waitReady]: the case that fired, after what others did. *)
Record Wake : Type := mkWake {
  wk_others : F -> F;
  wk_kind : wake_kind
}.

(** [ready] *)
Definition ready (workspaceID : string) : M F bool :=
  ok ← on_hub (fh_Connected workspaceID);
  if ok : bool then mret true
  else
    st ← on_world (State cfg workspaceID);
    match st with
    | Some (PhaseFailed, m) => throw (Errorf ("box failed to start: " +:+ m))
    | _ => mret false
    end.

(** The loop of [waitReady]; [None] while it still waits. *)
Fixpoint wait_loop (workspaceID : string) (wakes : list Wake) : M F (option unit) :=
  match wakes with
  | [] => mret None
  | k :: wakes' =>
      modify (wk_others k) ;;
      match wk_kind k with
      | WakeDone e => throw e
      | WakeDeadline => throw (Errorf ("workspace " +:+ workspaceID +:+ " not ready within " +:+ readyTimeout_text))
      | WakeTick =>
          ok ← ready workspaceID;
          if ok : bool then mret (Some tt) else wait_loop workspaceID wakes'
      end
  end.
Definition waitReady (workspaceID : string) (wakes : list Wake) : M F (option unit) :=
  ok ← ready workspaceID;
  if ok : bool then mret (Some tt) else wait_loop workspaceID wakes.

Definition dialAgentSSH (workspaceID : string) : M F nat :=
  stream ← on_hub (fh_OpenSSH workspaceID);
  r ← try (on_net (ssh_NewClientConn stream));
  match r with
  | Ok cc => mret cc
  | Err e => ignore (on_net (ssh_CloseStream stream)) ;; throw e
  end.

(** [s.images()], when it is set. *)
Definition catalog : M F (option (list string)) :=
  match images with
  | None => mret None
  | Some list => l ← on_net list; mret (Some l)
  end.
(** The [images] meta-command, and a box of an image the catalog lacks. *)
Definition wants_images (spec : Spec) : bool :=
  bool_decide (sp_Name spec = "images"%string) || bool_decide (sp_Name spec = "image"%string).
Definition lists_images (perr : result Spec) : M F bool :=
  match perr with
  | Ok spec =>
      if wants_images spec then
        cat ← catalog; mret (match cat with Some (_ :: _) => true | _ => false end)
      else mret false
  | Err _ => mret false
  end.
Definition unknown_image (perr : result Spec) : M F (option string) :=
  match perr with
  | Ok spec =>
      if bool_decide (sp_Image spec = ""%string) then mret None
      else
        cat ← catalog;
        mret (match cat with
              | Some (_ :: _ as l) => if bool_decide (sp_Image spec ∈ l) then None else Some (sp_Image spec)
              | _ => None
              end)
  | Err _ => mret None
  end.

(** What is served once the box is attached; [None] while it still waits for
    the agent. *)
Definition serve_box (id : string) (wakes : list Wake) : M F (option served) :=
  r ← try (waitReady id wakes);
  match r with
  | Err e => mret (Some (Replied (msg ("hopbox: " +:+ Error e)) 1))
  | Ok None => mret None
  | Ok (Some _) =>
      up ← try (dialAgentSSH id);
      match up with
      | Err e => mret (Some (Replied (msg ("hopbox: connect to box: " +:+ Error e)) 1))
      | Ok cc => mret (Some (Proxied cc))
      end
  end.

(** [route].  [session] is what happens while the client's channels are being
    served, until it disconnects; the attached box is released after it. *)
Definition route (principal username : string) (wakes : list Wake) (session : served -> F -> F) : M F (option served) :=
  let spec := ParseSpec username in
  im ← lists_images spec;
  if im : bool then modify (session ImagesListed) ;; mret (Some ImagesListed)
  else
    bad ← unknown_image spec;
    match bad with
    | Some image =>
        let o := Replied (msg ("unknown image " +:+ quote image +:+ " — run  ssh images@host  to list the catalog")) 1 in
        modify (session o) ;; mret (Some o)
    | None =>
        b ← try (on_world (Attach newID wake cfg principal username));
        match b with
        | Err e =>
            let o := Replied (msg ("hopbox: " +:+ Error e)) 1 in
            modify (session o) ;; mret (Some o)
        | Ok b =>
            o ← serve_box (b_ID b) wakes;
            match o with
            | None => mret None
            | Some o =>
                modify (session o) ;;
                match o with Proxied cc => ignore (on_net (ssh_CloseConn cc)) | _ => mret tt end ;;
                on_world (releaser wake cfg (b_ID b)) ;;
                mret (Some o)
            end
        end
    end.

(** [handleConn], after the handshake. *)
Definition handleConn {K} (auth : Authority K) (h : Handshake K) (wakes : list Wake) (session : served -> F -> F) : M F (option served) :=
  match hs_accepted h with
  | None => mret None
  | Some _ => route (principal_of auth h) (hs_User h) wakes session
  end.
End front.

(** * Relaying a session *)
Module Relay.
(** What one side of a channel has been sent. *)
Inductive item : Type :=
| IRequest (r : Request)
| IReply (ok : bool)
| IData (data : string)
| IStderr (data : string)
| IEof
| IClose.

(** What is still to come from the client ([cl_]) and from the box ([bx_]), and
    what each has been sent.  [bx_ended]: the box has closed the channel after
    its last request and its last byte. *)
Record Relay : Type := mkRelay {
  cl_reqs : list Request;
  cl_data : list string;
  cl_eof : bool;                 (* the copy of stdin is over *)
  bx_reqs : list Request;
  bx_out : list string;
  bx_err : list string;
  to_client : list item;
  to_box : list item;
  rl_closed : bool
}.

(** The goroutines of [proxyChannel], at the grain of one message. *)
Inductive label : Type :=
| LClientRequest (ok : bool)     (* forwardRequests(dnReqs, upCh): [ok] is the box's answer *)
| LStdin                         (* io.Copy(upCh, dnCh) *)
| LStdinEnd                      (* upCh.CloseWrite *)
| LStderr                        (* io.Copy(dnCh.Stderr(), upCh.Stderr()) *)
| LStdout                        (* io.Copy(dnCh, upCh) *)
| LBoxRequest (ok : bool)        (* forwardRequests(upReqs, dnCh) *)
| LFinish.                       (* both have returned: close the channels *)

Definition answered (r : Request) (ok : bool) : list item := if rq_WantReply r then [IReply ok] else [].

(** A write on a closed channel fails and ends the copy. *)
Definition relay_step (l : label) (s : Relay) : option Relay :=
  match s with
  | mkRelay creqs cdata ceof breqs bout berr cl bx closed =>
      if closed then None
      else
        match l with
        | LClientRequest ok =>
            match creqs with
            | r :: creqs => Some (mkRelay creqs cdata ceof breqs bout berr (cl ++ answered r ok) (bx ++ [IRequest r]) false)
            | [] => None
            end
        | LStdin =>
            match cdata with
            | d :: cdata => Some (mkRelay creqs cdata ceof breqs bout berr cl (bx ++ [IData d]) false)
            | [] => None
            end
        | LStdinEnd =>
            match cdata with
            | [] => if ceof then None else Some (mkRelay creqs [] true breqs bout berr cl (bx ++ [IEof]) false)
            | _ => None
            end
        | LStderr =>
            match berr with
            | d :: berr => Some (mkRelay creqs cdata ceof breqs bout berr (cl ++ [IStderr d]) bx false)
            | [] => None
            end
        | LStdout =>
            match bout with
            | d :: bout => Some (mkRelay creqs cdata ceof breqs bout berr (cl ++ [IData d]) bx false)
            | [] => None
            end
        | LBoxRequest ok =>
            match breqs with
            | r :: breqs => Some (mkRelay creqs cdata ceof breqs bout berr (cl ++ [IRequest r]) (bx ++ answered r ok) false)
            | [] => None
            end
        | LFinish =>
            match breqs, bout with
            | [], [] => Some (mkRelay creqs cdata ceof [] [] berr (cl ++ [IClose]) (bx ++ [IClose]) true)
            | _, _ => None
            end
        end
  end.

Fixpoint relay_run (ls : list label) (s : Relay) : option Relay :=
  match ls with
  | [] => Some s
  | l :: ls' => s' ← relay_step l s; relay_run ls' s'
  end.

(** A session about to be relayed. *)
Definition start (creqs : list Request) (cdata : list string) (breqs : list Request) (bout berr : list string) : Relay :=
  mkRelay creqs cdata false breqs bout berr [] [] false.

(** The parts of what a side was sent. *)
Definition requests (l : list item) : list Request := omap (fun i => match i with IRequest r => Some r | _ => None end) l.
Definition data (l : list item) : list string := omap (fun i => match i with IData d => Some d | _ => None end) l.
Definition stderr (l : list item) : list string := omap (fun i => match i with IStderr d => Some d | _ => None end) l.
Definition replies (l : list item) : nat := length (omap (fun i => match i with IReply ok => Some ok | _ => None end) l).
Definition wanted (l : list Request) : nat := length (filter (fun r => rq_WantReply r = true) l).
End Relay.

(** [proxyChannel] up to the relay: what the client's request for a channel is
    answered, or the relay started. *)
Definition proxyChannel (typ : string) (opened : result unit) (accepted : bool) : chan_action + bool :=
  if negb (bool_decide (typ = "session"%string)) then inl only_sessions
  else
    match opened with
    | Err e => inl (AReject ConnectionFailed ("box session: " +:+ Error e))
    | Ok _ => inr accepted        (* [false]: the client is gone, the box's channel is closed *)
    end.

(** * Lemmas: the relay *)
Module RelayProofs.
Import Relay.
Definition reqs_of (i : item) : list Request := match i with IRequest r => [r] | _ => [] end.
Definition data_of (i : item) : list string := match i with IData d => [d] | _ => [] end.
Definition err_of (i : item) : list string := match i with IStderr d => [d] | _ => [] end.
Definition replies_of (i : item) : nat := match i with IReply _ => 1 | _ => 0 end.
Lemma requests_snoc l i : requests (l ++ [i]) = requests l ++ reqs_of i.
Proof. unfold requests. rewrite omap_app. by destruct i. Qed.
Lemma data_snoc l i : data (l ++ [i]) = data l ++ data_of i.
Proof. unfold data. rewrite omap_app. by destruct i. Qed.
Lemma stderr_snoc l i : stderr (l ++ [i]) = stderr l ++ err_of i.
Proof. unfold stderr. rewrite omap_app. by destruct i. Qed.
Lemma replies_snoc l i : replies (l ++ [i]) = (replies l + replies_of i)%nat.
Proof. unfold replies. rewrite omap_app, length_app. by destruct i. Qed.
Lemma wanted_snoc l r : wanted (l ++ [r]) = (wanted l + (if rq_WantReply r then 1 else 0))%nat.
Proof. unfold wanted. rewrite filter_app, length_app. f_equal. rewrite filter_cons. by destruct (rq_WantReply r). Qed.
Lemma requests_answered l r ok : requests (l ++ answered r ok) = requests l.
Proof. unfold answered. destruct (rq_WantReply r); [by rewrite requests_snoc, app_nil_r|by rewrite app_nil_r]. Qed.
Lemma data_answered l r ok : data (l ++ answered r ok) = data l.
Proof. unfold answered. destruct (rq_WantReply r); [by rewrite data_snoc, app_nil_r|by rewrite app_nil_r]. Qed.
Lemma stderr_answered l r ok : stderr (l ++ answered r ok) = stderr l.
Proof. unfold answered. destruct (rq_WantReply r); [by rewrite stderr_snoc, app_nil_r|by rewrite app_nil_r]. Qed.
Lemma replies_answered l r ok : replies (l ++ answered r ok) = (replies l + (if rq_WantReply r then 1 else 0))%nat.
Proof. unfold answered. destruct (rq_WantReply r); [by rewrite replies_snoc|rewrite app_nil_r; lia]. Qed.
#[local] Hint Rewrite requests_snoc data_snoc stderr_snoc replies_snoc requests_answered data_answered stderr_answered
  replies_answered : relay.
Ltac relay_side := cbn [cl_reqs cl_data bx_reqs bx_out bx_err to_client to_box rl_closed] in *; autorewrite with relay;
  cbn [reqs_of data_of err_of replies_of]; rewrite ?app_nil_r, <- ?app_assoc, ?wanted_snoc; try done; try lia.

(** Nothing is reordered, invented or dropped while the relay is open; what a
    closed one has dropped was not yet copied. *)
Record relayed (creqs breqs : list Request) (cdata bout berr : list string) (s : Relay) : Prop := mk_relayed {
  rel_creqs : requests (to_box s) ++ cl_reqs s = creqs;
  rel_cdata : data (to_box s) ++ cl_data s = cdata;
  rel_breqs : requests (to_client s) ++ bx_reqs s = breqs;
  rel_bout : data (to_client s) ++ bx_out s = bout;
  rel_berr : stderr (to_client s) ++ bx_err s = berr;
  rel_creplies : replies (to_client s) = wanted (requests (to_box s));
  rel_breplies : replies (to_box s) = wanted (requests (to_client s));
  rel_closed : rl_closed s = true ->
    bx_reqs s = [] /\ bx_out s = [] /\ last (to_client s) = Some IClose /\ last (to_box s) = Some IClose
}.

Lemma step_relayed creqs breqs cdata bout berr l s s' :
  relayed creqs breqs cdata bout berr s -> relay_step l s = Some s' -> relayed creqs breqs cdata bout berr s'.
Proof.
  destruct s as [cr cd ce br bo be tc tb []]; [done|]. intros [H1 H2 H3 H4 H5 H6 H7 _] Hs.
  destruct l as [ok| | | | |ok|]; cbn in Hs.
  - destruct cr as [|r cr]; [done|]. injection Hs as <-. split; relay_side.
  - destruct cd as [|d cd]; [done|]. injection Hs as <-. split; relay_side.
  - destruct cd; [|done]. destruct ce; [done|]. injection Hs as <-. rewrite app_nil_r in H2. split; relay_side.
  - destruct be as [|d be]; [done|]. injection Hs as <-. split; relay_side.
  - destruct bo as [|d bo]; [done|]. injection Hs as <-. split; relay_side.
  - destruct br as [|r br]; [done|]. injection Hs as <-. split; relay_side.
  - destruct br; [|done]. destruct bo; [|done]. injection Hs as <-. rewrite app_nil_r in H3, H4. split; relay_side.
    intros _. by rewrite !last_snoc.
Qed.

(** What is left to do: every step uses some of it up. *)
Definition work (s : Relay) : nat :=
  length (cl_reqs s) + length (cl_data s) + (if cl_eof s then 0 else 1) + length (bx_reqs s) + length (bx_out s) +
  length (bx_err s) + (if rl_closed s then 0 else 1).
Lemma step_works l s s' : relay_step l s = Some s' -> (S (work s') <= work s)%nat.
Proof.
  destruct s as [cr cd ce br bo be tc tb []]; [done|].
  destruct l, cr, cd, ce, br, bo, be; cbn; intros [= <-]; unfold work; cbn; lia.
Qed.

Lemma run_relayed creqs breqs cdata bout berr ls s s' :
  relayed creqs breqs cdata bout berr s -> relay_run ls s = Some s' ->
  relayed creqs breqs cdata bout berr s' /\ (length ls + work s' <= work s)%nat.
Proof.
  revert s. induction ls as [|l ls IH]; intros s Hr Hrun; cbn in Hrun; [simplify_eq; split; [done|cbn; lia]|].
  destruct (relay_step l s) as [s1|] eqn:Hs; [|done]. cbn in Hrun.
  destruct (IH s1 (step_relayed _ _ _ _ _ _ _ _ Hr Hs) Hrun) as [Hr' Hl]. pose proof (step_works _ _ _ Hs). split; [done|cbn; lia].
Qed.

Lemma relayed_start creqs cdata breqs bout berr : relayed creqs breqs cdata bout berr (start creqs cdata breqs bout berr).
Proof. done. Qed.
End RelayProofs.
Import RelayProofs.


(** The copy of stderr is not waited for: the channels can be closed while some
    of it is still to be copied, and then it is lost. *)
Lemma relay_loses_stderr :
  exists s, Relay.relay_run [Relay.LBoxRequest true; Relay.LFinish]
              (Relay.start [] [] [mkRequest "exit-status" false (be32 1)] [] ["no such file"%string]) = Some s /\
    Relay.rl_closed s = true /\ Relay.stderr (Relay.to_client s) = [].
Proof. eexists. split; [vm_compute; reflexivity|]. split; reflexivity. Qed.

(** * Lemmas: who is served *)
Lemma principal_of_accepted {K} (auth : Authority K) h k :
  authenticated auth h -> hs_accepted h = Some k -> auth k = Ok (principal_of auth h).
Proof.
  intros Ha Hk. destruct (Ha k Hk) as [Hl Hok]. apply last_Some in Hl as [l Hl]. unfold principal_of. rewrite Hl, foldl_app. cbn.
  unfold callback. by destruct (auth k).
Qed.

Section front_lemmas.
Context {S C H B N : Type} `{BoxByIP S} `{Compute C} `{FrontHub B} `{ClientConn N}.
Notation F := (Front S C H B N).
Variable newID : nat -> string.
Hypothesis newID_utf8 : forall n, utf8 (newID n) = true.
Variable ecfg : EngineConfig.
Hypothesis ecfg_grace : in_int64 (ec_DefaultGrace ecfg).
Variable images : option (M N (list string)).
Notation wake := (@System.wake S C H).

(** The box an attach yields is the caller's, by the name it gave, and it is in
    the table. *)
Lemma wp_byOwnerName_tenant owner name (w : World S C H) (Q : World S C H -> result Box -> Prop) :
  st_inv (wStore w) ->
  (forall b, boxes w !! b_ID b = Some b -> b_Owner b = owner -> b_Name b = name ->
     ec_Tenant ecfg = ""%string \/ b_TenantID b = ec_Tenant ecfg -> Q w (Ok b)) ->
  (forall e, Q w (Err e)) -> wp (byOwnerName ecfg owner name) Q w.
Proof.
  intros Hi HQ HE. unfold byOwnerName. wp_step. apply wp_on_store. eapply wp_mono; [by apply st_List_spec|].
  intros s' l (-> & Hl & _). replace (w <| wStore := wStore w |>) with w by by destruct w.
  destruct l as [l|e]; [|apply HE]. destruct (Hl l eq_refl) as [_ Hin].
  destruct (find (is_named owner name) l) as [b|] eqn:Hf; [|apply wp_throw, HE].
  apply find_some in Hf as [Hb Hn]. apply list_elem_of_In in Hb. apply Hin in Hb as [Hb Ht].
  unfold is_named in Hn. go_bool. by apply wp_ret, HQ.
Qed.

Definition yields (owner username : string) (w w' : World S C H) (b : Box) : Prop :=
  st_inv (wStore w') /\ wNow w' = wNow w /\ holds w' (b_ID b) b /\ b_Attached b = true /\ b_Owner b = owner /\
  (ec_Tenant ecfg <> ""%string -> b_TenantID b = ec_Tenant ecfg) /\
  (exists spec, ParseSpec username = Ok spec /\ b_Name b = sp_Name spec) /\
  forall j c, boxes w !! j = Some c -> exists c', boxes w' !! j = Some c' /\ same_key c c'.
Lemma yields_store owner username w w1 w2 b :
  wStore w2 = wStore w1 -> wNow w2 = wNow w1 -> yields owner username w w1 b -> yields owner username w w2 b.
Proof. intros Hs Hn (Hi & Hw & Hh & Hrest). unfold yields, holds, boxes in *. rewrite Hs, Hn. done. Qed.

Lemma Attach_yields owner username (w : World S C H) :
  st_inv (wStore w) -> clock_ok (wNow w) ->
  wp (Attach newID wake ecfg owner username) (fun w' r => forall b, r = Ok b -> yields owner username w w' b) w.
Proof.
  intros Hi Hclk. unfold Attach. wp_step. apply wp_of_result. destruct (ParseSpec username) as [spec|e] eqn:Hspec; [|done].
  destruct (negb _); [by apply wp_throw|]. wp_step. wp_step. apply wp_byOwnerName_tenant; [done|..].
  - intros b Hb Ho Hn Ht. destruct (view_storable w _ b Hi Hb) as [Hs _]. unfold clock. wp_step. apply wp_gets. wp_step. wp_step.
    change (wp (update (b <| b_Attached := true |>)) (fun w' r => match map_err (ErrWrap "attach box") r with
      | Ok a => wp (wake (b_ID a) (ec_Tenant ecfg) ;; mret a) (fun w' r => forall b, r = Ok b -> yields owner username w w' b) w'
      | Err e => forall b, Err e = Ok b -> yields owner username w w' b end) w).
    apply (wp_rewrite_box (b_ID b) b); try done.
    intros w' b2 Hb2 (Hi' & Hn' & Hm). simpl. wp_step. apply wp_Trigger. intros w2 Hs2 Hn2. apply wp_ret. intros b3 [= <-].
    eapply yields_store; [exact Hs2|exact Hn2|]. pose proof Hm as Hm0. specialize (Hm (b_ID b)). rewrite decide_True in Hm by done.
    unfold yields, holds. rewrite Hb2. cbn. split_and!; try done; [by destruct Ht|exists spec; by rewrite Hb2|].
    intros j c Hc. specialize (Hm0 j). unfold boxes in *. case_decide as Hj; [subst j|].
    + rewrite Hb in Hc. injection Hc as <-. destruct (st_view (wStore w') !! b_ID b) as [c'|]; [|by inversion Hm].
      exists c'. split; [done|]. apply (inj Some) in Hm. apply same_key_sym. eapply same_key_trans; [by apply equiv_same_key|done].
    + rewrite Hc in Hm0. destruct (st_view (wStore w') !! j) as [c'|]; [|by inversion Hm0].
      exists c'. split; [done|]. apply (inj Some) in Hm0. by apply same_key_sym, equiv_same_key.
  - intros e. destruct (errors_Is e ErrNotFound) eqn:HeN; [|by apply wp_throw].
    wp_step. unfold draw. apply wp_intro. intros w1 r1 [= <- <-]. unfold clock. wp_step. apply wp_gets.
    wp_step. apply wp_of_result. simpl. destruct (build _ _ _ _ _) as [b|e'] eqn:Hbuild; [|done].
    pose proof (build_storable _ _ _ _ _ _ (newID_utf8 _) (clock_in_range _ Hclk) (ParseSpec_grace _ _ Hspec) ecfg_grace Hbuild) as Hs.
    destruct (build_inv _ _ _ _ _ _ Hbuild) as (_ & Hten & Hown & Hnam & _).
    wp_step. wp_step. apply wp_on_store. eapply wp_mono; [apply st_Create_spec; [done|exact Hs]|].
    intros s' [[]|e'] (Hi' & _ & Hr); simpl; [|done]. destruct Hr as (Hnone & b' & Hb' & Hv).
    wp_step. apply wp_Trigger. intros w2 Hs2 Hn2. apply wp_ret. intros b3 [= <-].
    eapply yields_store; [exact Hs2|exact Hn2|]. unfold yields, holds, boxes. simpl. rewrite Hv, lookup_insert_eq.
    split_and!; try done; [by constructor|by exists spec|].
    intros j c Hc. exists c. split; [|done]. rewrite lookup_insert_ne; [done|]. intros <-. simpl in Hnone, Hc. unfold boxes in Hc. congruence.
Qed.

Lemma zoom_inv {W S' A} (get : W -> S') (put : S' -> W -> W) (m : M S' A) w w' r :
  zoom get put m w = (w', r) -> exists s, m (get w) = (s, r) /\ w' = put s w.
Proof. unfold zoom. destruct (m (get w)) as [s r']. intros [= <- <-]. by exists s. Qed.

Lemma try_ok {W A} (m : M W A) w w' r : try m w = (w', Ok r) -> m w = (w', r).
Proof. unfold try. destruct (m w). by intros [= <- <-]. Qed.

(** Looking at the catalog leaves the daemon alone. *)
Definition daemon_kept (f f' : F) : Prop := fr_world f' = fr_world f /\ fr_hub f' = fr_hub f.
Lemma catalog_kept (f f' : F) r : catalog images f = (f', r) -> daemon_kept f f'.
Proof.
  unfold catalog. destruct images as [l|]; [|by intros [= <- _]]. unfold mbind, M_bind.
  destruct (on_net l f) as [f1 r1] eqn:Hl. apply zoom_inv in Hl as (n & _ & ->). destruct r1; intros [= <- _]; done.
Qed.
Lemma lists_images_kept spec (f f' : F) r : lists_images images spec f = (f', r) -> daemon_kept f f'.
Proof.
  unfold lists_images. destruct spec as [spec|e]; [|by intros [= <- _]]. destruct (wants_images spec); [|by intros [= <- _]].
  unfold mbind, M_bind. destruct (catalog images f) as [f1 r1] eqn:Hl. apply catalog_kept in Hl. by destruct r1; intros [= <- _].
Qed.
Lemma unknown_image_kept spec (f f' : F) r : unknown_image images spec f = (f', r) -> daemon_kept f f'.
Proof.
  unfold unknown_image. destruct spec as [spec|e]; [|by intros [= <- _]]. destruct (bool_decide _); [by intros [= <- _]|].
  unfold mbind, M_bind. destruct (catalog images f) as [f1 r1] eqn:Hl. apply catalog_kept in Hl. by destruct r1; intros [= <- _].
Qed.

(** A poll that succeeds saw the agent connected; one that fails saw the box
    failed, or the hub fail. *)
Definition poll_ok (id : string) (f : F) : Prop := exists hb hb', fh_Connected id hb = (hb', Ok true) /\ fr_hub f = hb'.
Definition poll_failed (id : string) (e : error) : Prop :=
  (exists (w w' : World S C H) m, State ecfg id w = (w', Ok (Some (PhaseFailed, m))) /\ e = Errorf ("box failed to start: " +:+ m)) \/
  (exists hb hb' : B, fh_Connected id hb = (hb', Err e)) \/ (exists w w' : World S C H, State ecfg id w = (w', Err e)).
Lemma ready_spec id (f f' : F) r :
  ready ecfg id f = (f', r) -> (r = Ok true -> poll_ok id f') /\ (forall e, r = Err e -> poll_failed id e).
Proof.
  intros Hr. destruct r as [ok|e].
  - split; [|done]. intros [= ->]. apply bind_ok in Hr as (f1 & c & Hc & Hr).
    apply zoom_inv in Hc as (hb & Hc & ->). destruct c.
    + injection Hr as <-. by exists (fr_hub f), hb.
    + apply bind_ok in Hr as (f2 & st & _ & Hr). by destruct st as [[[] m]|].
  - split; [done|]. intros e' [= <-]. apply bind_err in Hr as [Hc|(f1 & c & Hc & Hr)].
    + apply zoom_inv in Hc as (hb & Hc & _). right. left. by eexists _, _.
    + destruct c; [done|]. apply bind_err in Hr as [Hs|(f2 & st & Hs & Hr)].
      * apply zoom_inv in Hs as (w & Hs & _). right. right. by eexists _, _.
      * apply zoom_inv in Hs as (w & Hs & _). left. destruct st as [[[] m]|]; try done. injection Hr as _ <-. by eexists _, _, m.
Qed.

(** How [waitReady] can fail. *)
Definition wait_failed (id : string) (wakes : list (@Wake S C H B N)) (e : error) : Prop :=
  poll_failed id e \/ (exists k, k ∈ wakes /\ wk_kind k = WakeDone e) \/
  (exists k, k ∈ wakes /\ wk_kind k = WakeDeadline /\ e = Errorf ("workspace " +:+ id +:+ " not ready within " +:+ readyTimeout_text)).
Lemma wait_loop_spec id (wakes : list (@Wake S C H B N)) (f f' : F) r :
  wait_loop ecfg id wakes f = (f', r) ->
  match r with
  | Ok (Some _) => poll_ok id f'
  | Ok None => Forall (fun k => wk_kind k = WakeTick) wakes
  | Err e => wait_failed id wakes e
  end.
Proof.
  revert f. induction wakes as [|k wakes IH]; intros f Hr; [by injection Hr as <- <-|].
  cbn [wait_loop] in Hr. rewrite (bind_eq_ok (modify (wk_others k)) _ f (wk_others k f) tt) in Hr by done.
  destruct (wk_kind k) eqn:Hk.
  - destruct (ready ecfg id (wk_others k f)) as [f1 c] eqn:Hrd. destruct (ready_spec id _ _ _ Hrd) as [Hok Hbad]. destruct c as [[]|e].
    + rewrite (bind_eq_ok _ _ _ _ _ Hrd) in Hr. injection Hr as <- <-. by apply Hok.
    + rewrite (bind_eq_ok _ _ _ _ _ Hrd) in Hr. apply IH in Hr. destruct r as [[]|e]; [done|by constructor|].
      destruct Hr as [?|[(k' & ? & ?)|(k' & ? & ?)]]; [by left|right; left|right; right]; exists k'; (split; [by right|done]).
    + rewrite (bind_eq_err _ _ _ _ _ Hrd) in Hr. injection Hr as <- <-. left. by apply Hbad.
  - injection Hr as <- <-. right. right. exists k. split; [by left|done].
  - injection Hr as <- <-. right. left. exists k. split; [by left|done].
Qed.

(** The wait for a box's agent ends, and says why: once the deadline passes
    or the connection is cancelled it never keeps waiting, it succeeds only on
    a poll that saw the agent connected, and it fails only because the box
    failed to start (with the box's message), the hub or the store did, the
    connection was cancelled or the deadline passed. *)
Theorem wait_ends id (wakes : list (@Wake S C H B N)) (f f' : F) r :
  waitReady ecfg id wakes f = (f', r) ->
  (Exists (fun k => wk_kind k <> WakeTick) wakes -> r <> Ok None) /\
  (r = Ok (Some tt) -> poll_ok id f') /\ (forall e, r = Err e -> wait_failed id wakes e).
Proof.
  unfold waitReady. intros Hr. destruct (ready ecfg id f) as [f1 c] eqn:Hrd. destruct (ready_spec id _ _ _ Hrd) as [Hok Hbad].
  destruct c as [[]|e].
  - rewrite (bind_eq_ok _ _ _ _ _ Hrd) in Hr. injection Hr as <- <-. split; [done|]. split; [|done]. intros _. by apply Hok.
  - rewrite (bind_eq_ok _ _ _ _ _ Hrd) in Hr. apply wait_loop_spec in Hr. split_and!.
    + intros Hex ->. apply Exists_exists in Hex as (k & Hk & Hne). rewrite Forall_forall in Hr. by apply Hne, Hr.
    + by intros ->.
    + by intros e ->.
  - rewrite (bind_eq_err _ _ _ _ _ Hrd) in Hr. injection Hr as <- <-. split; [done|]. split; [done|].
    intros e' [= <-]. left. by apply Hbad.
Qed.

(** What [dialAgentSSH] and [serve_box] reached. *)
Definition dialled (id : string) (cc : nat) : Prop :=
  (exists hb hb' : B, fh_Connected id hb = (hb', Ok true)) /\ exists (hb hb' : B) (n n' : N) stream,
    fh_OpenSSH id hb = (hb', Ok stream) /\ ssh_NewClientConn stream n = (n', Ok cc).
Lemma serve_box_dialled id (wakes : list (@Wake S C H B N)) (f f' : F) cc :
  serve_box ecfg id wakes f = (f', Ok (Some (Proxied cc))) -> dialled id cc.
Proof.
  intros Hs. apply bind_ok in Hs as (f1 & r & Hw & Hs). apply try_ok in Hw. destruct r as [[[]|]|e]; try done.
  apply bind_ok in Hs as (f2 & up & Hd & Hs). apply try_ok in Hd. destruct up as [c|e]; [|done]. injection Hs as _ ->.
  split.
  - assert (poll_ok id f1) as (hb & hb' & Hp & _); [|by exists hb, hb']. unfold waitReady in Hw. apply bind_ok in Hw as (f3 & ok & Hr & Hw). destruct ok.
    + injection Hw as <-. by apply (ready_spec id _ _ _ Hr).
    + by apply wait_loop_spec in Hw.
  - apply bind_ok in Hd as (f3 & stream & Ho & Hd). apply zoom_inv in Ho as (hb & Ho & ->).
    apply bind_ok in Hd as (f4 & r & Hc & Hd). apply try_ok in Hc. apply zoom_inv in Hc as (n & Hc & ->).
    destruct r as [cc'|e].
    + injection Hd as _ ->. by eexists _, _, _, _, stream.
    + apply bind_ok in Hd as (? & [] & _ & Hd). done.
Qed.

(** The two ways a connection ends: on a box it attached and has released, or
    without one. *)
Definition served_on (p username : string) (f f' : F) (o : served) : Prop :=
  exists w1 b w2, Attach newID wake ecfg p username (fr_world f) = (w1, Ok b) /\
    fr_world f' = (releaser wake ecfg (b_ID b) w2).1 /\ forall cc, o = Proxied cc -> dialled (b_ID b) cc.
Definition served_off (p username : string) (session : served -> F -> F) (f f' : F) (o : served) : Prop :=
  (forall cc, o <> Proxied cc) /\ exists g, f' = session o g /\
    (fr_world g = fr_world f \/ exists e, Attach newID wake ecfg p username (fr_world f) = (fr_world g, Err e)).

Lemma route_served p username (wakes : list (@Wake S C H B N)) session (f f' : F) o :
  route newID wake ecfg images p username wakes session f = (f', Ok (Some o)) ->
  served_on p username f f' o \/ served_off p username session f f' o.
Proof.
  intros Hr. apply bind_ok in Hr as (f1 & im & Him & Hr). apply lists_images_kept in Him as [E1 _]. destruct im.
  { apply bind_ok in Hr as (f2 & [] & [= <-] & [= <- <-]). right. split; [done|]. exists f1. split; [done|by left]. }
  apply bind_ok in Hr as (f2 & bad & Hbad & Hr). apply unknown_image_kept in Hbad as [E2 _]. destruct bad as [image|].
  { apply bind_ok in Hr as (f3 & [] & [= <-] & [= <- <-]). right. split; [done|]. exists f2. split; [done|left; congruence]. }
  apply bind_ok in Hr as (f3 & b & Ha & Hr). apply try_ok in Ha. apply zoom_inv in Ha as (w1 & Ha & ->).
  rewrite E2, E1 in Ha. destruct b as [b|e].
  2:{ apply bind_ok in Hr as (f4 & [] & [= <-] & [= <- <-]). right. split; [done|]. eexists. split; [done|]. right. by exists e. }
  left. apply bind_ok in Hr as (f4 & o1 & Ho & Hr). destruct o1 as [o1|]; [|done].
  apply bind_ok in Hr as (f5 & [] & [= <-] & Hr). apply bind_ok in Hr as (f6 & [] & _ & Hr).
  apply bind_ok in Hr as (f7 & [] & Hrel & [= <- <-]). apply zoom_inv in Hrel as (w2 & Hrel & ->).
  exists w1, b, (fr_world f6). split; [done|]. split; [by rewrite Hrel|]. intros cc ->. by eapply serve_box_dialled.
Qed.

(** C21. The front door leads a client to its own box only.  When a connection is
    relayed into a box, the client proved possession of a key, the box was
    attached for exactly that key's principal, it is that principal's box by
    the name the username gives, the hub saw its agent connected and opened the
    stream that is relayed; and when the client leaves, the box is released.
    Any other connection is answered without a box, or with the box it
    attached released as well. *)
Theorem front_door_confined {K} (auth : Authority K) h wakes session (f f' : F) o :
  st_inv (wStore (fr_world f)) -> clock_ok (wNow (fr_world f)) -> authenticated auth h ->
  handleConn newID wake ecfg images auth h wakes session f = (f', Ok (Some o)) ->
  exists k p, hs_accepted h = Some k /\ auth k = Ok p /\
    ((exists spec w1 b w2, ParseSpec (hs_User h) = Ok spec /\
        Attach newID wake ecfg p (hs_User h) (fr_world f) = (w1, Ok b) /\
        b_Owner b = p /\ b_Name b = sp_Name spec /\ b_Attached b = true /\
        fr_world f' = (releaser wake ecfg (b_ID b) w2).1 /\ forall cc, o = Proxied cc -> dialled (b_ID b) cc) \/
     served_off p (hs_User h) session f f' o).
Proof.
  intros Hi Hclk Hauth Hc. unfold handleConn in Hc. destruct (hs_accepted h) as [k|] eqn:Hk; [|done].
  exists k, (principal_of auth h). split; [done|]. split; [by apply principal_of_accepted|].
  destruct (route_served _ _ _ _ _ _ _ Hc) as [(w1 & b & w2 & Ha & Hw & Hd)|Hoff]; [left|by right].
  destruct (wp_all _ _ _ _ _ Ha (Attach_yields _ _ _ Hi Hclk) b eq_refl) as (_ & _ & _ & Hat & Ho & _ & (spec & Hs & Hn) & _).
  by exists spec, w1, b, w2.
Qed.
End front_lemmas.

(** * Two sessions on one box *)
Section sessions.
Context {S C H : Type} `{BoxByIP S} `{Compute C}.
Notation W := (World S C H).
Variable newID newToken : nat -> string.
Hypothesis newID_utf8 : forall n, utf8 (newID n) = true.
Variable ecfg : EngineConfig.
Hypothesis ecfg_grace : in_int64 (ec_DefaultGrace ecfg).
Variable rcfg : ReconcileConfig S H.
Hypothesis rcfg_hooks : forall hk, rc_Hooks rcfg = Some hk -> hooks_frame hk.
Notation wake := (@System.wake S C H).

Lemma wp_releaser_ready id b (w : W) :
  working w -> clock_ok (wNow w) -> holds w id b -> b_TenantID b = ec_Tenant ecfg ->
  wp (releaser wake ecfg id) (fun w' _ => working w' /\ wNow w' = wNow w /\
    holds w' id (b <| b_Attached := false |> <| b_LastActive := wNow w |>)) w.
Proof.
  intros [Hi Hh] Hclk Hb Ht. destruct (holds_row w id b (conj Hi (conj Hh Hclk)) Hb) as (c & Hc & Hcb & Hid & Hs).
  unfold releaser. apply wp_bind, wp_try.
  apply wp_on_store. eapply wp_mono; [by apply st_Get_spec|]. intros s' r (-> & _ & Hr & _).
  rewrite (Hr Hh c Hc); [|by rewrite Hcb]. replace (w <| wStore := wStore w |>) with w by by destruct w.
  apply wp_bind, wp_gets, wp_bind, wp_try.
  change (wp (update (c <| b_Attached := false |> <| b_LastActive := wNow w |>)) (fun w' r =>
    wp (match r with Err _ => mret tt | Ok _ => wake id (ec_Tenant ecfg) end) (fun w' _ => working w' /\ wNow w' = wNow w /\
      holds w' id (b <| b_Attached := false |> <| b_LastActive := wNow w |>)) w') w).
  eapply wp_mono; [apply (wp_update_ready id c); try done|].
  - unfold storable in *. simpl. apply clock_in_range in Hclk. naive_solver.
  - intros w1 q (( Hi' & Hh' & _) & Hn & _ & b2 & -> & _ & _ & Hh2). apply wp_Trigger. intros w2 Hs2 Hn2.
    unfold working, holds, boxes in *. rewrite Hs2, Hn2. split_and!; [done|done|done|]. rewrite Hh2. constructor. rewrite (forget_eq _ _ Hcb). by constructor.
Qed.

(** Two sessions of a user on one box share its single attached flag, so the
    first to end takes the box from the other: the two usernames denote the same
    box, the end of one session detaches it, and with the other session still
    open the reconciler runs the grace countdown and destroys the box. *)
Theorem first_release_reaps owner u1 u2 s1 s2 t0 ts t1 t2 (w w1 w2 w3 w4 w5 w6 : W) b1 b2 b r3 r5 r6 :
  st_inv (wStore w) -> clock_ok (wNow w) -> ec_Tenant ecfg <> ""%string ->
  ParseSpec u1 = Ok s1 -> ParseSpec u2 = Ok s2 -> sp_Name s1 = sp_Name s2 ->
  Attach newID wake ecfg owner u1 w = (w1, Ok b1) -> Attach newID wake ecfg owner u2 w1 = (w2, Ok b2) ->
  working w3 -> clock_ok (wNow w3) -> holds w3 (b_ID b2) b -> b_TenantID b = ec_Tenant ecfg ->
  b_Phase b = PhaseRunning -> b_Ephemeral b = true -> b_Attached b = true -> b_MaxTTL b <= 0 -> 0 < b_Grace b ->
  b_Deadline b = None -> destroys (b_InstanceRef b) ->
  releaser wake ecfg (b_ID b1) w3 = (w4, r3) ->
  Forall clock_ok (t0 :: t1 :: t2 :: ts) -> Forall (fun t => t < t0 + b_Grace b) ts -> t0 + b_Grace b <= t1 ->
  mfor (t0 :: ts) (tick newToken rcfg (ec_Tenant ecfg) (b_ID b2)) w4 = (w5, r5) ->
  mfor [t1; t2] (tick newToken rcfg (ec_Tenant ecfg) (b_ID b2)) w5 = (w6, r6) ->
  b_ID b1 = b_ID b2 /\ holds w4 (b_ID b2) (b <| b_Attached := false |> <| b_LastActive := wNow w3 |>) /\
  boxes w6 !! b_ID b2 = None.
Proof.
  intros Hi Hclk Htn Hs1 Hs2 Hname A1 A2 Hw3 Hclk3 Hb Ht Hph He Ha Hm Hg Hdl Hd Hrel Hts Hlt Ht1 T1 T2.
  destruct (wp_all _ _ _ _ _ A1 (Attach_yields newID newID_utf8 ecfg ecfg_grace owner u1 w Hi Hclk) b1 eq_refl)
    as (Hi1 & Hn1 & Hh1 & _ & Ho1 & Ht1' & (s1' & Hs1' & Hnm1) & _). simplify_eq.
  rewrite <- Hn1 in Hclk.
  destruct (wp_all _ _ _ _ _ A2 (Attach_yields newID newID_utf8 ecfg ecfg_grace (b_Owner b1) u2 w1 Hi1 Hclk) b2 eq_refl)
    as (Hi2 & _ & Hh2 & _ & Ho2 & Ht2' & (s2' & Hs2' & Hnm2) & Hkeep). simplify_eq.
  assert (b_ID b1 = b_ID b2) as Hid.
  { unfold holds in Hh1, Hh2. destruct (boxes w1 !! b_ID b1) as [c1|] eqn:Hc1; [|by inversion Hh1]. apply (inj Some) in Hh1.
    destruct (boxes w2 !! b_ID b2) as [c2|] eqn:Hc2; [|by inversion Hh2]. apply (inj Some) in Hh2.
    destruct (Hkeep _ _ Hc1) as (c1' & Hc1' & Hk).
    assert (same_key b1 c1') as (_ & K2 & K3 & K4 & _).
    { eapply same_key_trans; [|exact Hk]. by apply same_key_sym, equiv_same_key. }
    apply (st_view_name _ _ _ c1' c2 Hi2 Hc1' Hc2); rewrite Hh2.
    - rewrite <- K2, Ht1', Ht2'; done.
    - congruence.
    - congruence. }
  split; [done|]. rewrite Hid in Hrel.
  destruct (wp_all _ _ _ _ _ Hrel (wp_releaser_ready _ _ _ Hw3 Hclk3 Hb Ht)) as (Hw4 & _ & Hh4). split; [done|].
  exact (proj2 (countdown newToken rcfg rcfg_hooks (ec_Tenant ecfg) (b_ID b2) (b <| b_Attached := false |> <| b_LastActive := wNow w3 |>)
    t0 ts t1 t2 w4 w5 w6 r5 r6 Hw4 Hts Hh4 Ht Hph He eq_refl Hm Hg Hdl Hlt Ht1 Hd T1 T2)).
Qed.
End sessions.

(** * The account directory *)
Section tiers.
Context {K : Type} `{SSHKeys K}.

(** The key and account a line registers, comments and blank lines apart. *)
Definition registration (text : string) : option (string * string) :=
  let line := trim_space text in
  if bool_decide (line = ""%string) || has_prefix "#" line then None
  else match ParseAuthorizedLine line with Ok (key, comment) => Some (FingerprintSHA256 key, trim_space comment) | Err _ => None end.
Definition registrations (contents : string) : list (string * string) := omap registration (scan_lines contents None).1.
Definition account_of (regs : list (string * string)) (fp : string) : option string :=
  last (omap (fun '(f, a) => if bool_decide (f = fp) then Some a else None) regs).

Lemma load_lines_spec path ln lines d d' :
  load_lines path ln lines d = Ok d' ->
  Forall (fun r => r.2 <> ""%string) (omap registration lines) /\
  (forall p, p ∈ accounts d' <-> (exists fp, (fp, p) ∈ omap registration lines) \/ p ∈ accounts d) /\
  forall fp, byFP d' !! fp = match account_of (omap registration lines) fp with Some a => Some a | None => byFP d !! fp end.
Proof.
  revert ln d. induction lines as [|text lines IH]; intros ln d; cbn [load_lines].
  { intros [= <-]. split_and!; [by constructor| |done]. intros p. split; [by right|]. intros [(fp & Hin)|Hp]; [|done]. by apply not_elem_of_nil in Hin. }
  change (omap registration (text :: lines)) with (match registration text with Some r => r :: omap registration lines | None => omap registration lines end).
  assert (registration text = if bool_decide (trim_space text = ""%string) || has_prefix "#" (trim_space text) then None
    else match ParseAuthorizedLine (trim_space text) with Ok (key, comment) => Some (FingerprintSHA256 key, trim_space comment) | Err _ => None end)
    as -> by done.
  destruct (_ || _); [apply IH|]. destruct (ParseAuthorizedLine (trim_space text)) as [[key comment]|e]; [|done].
  destruct (bool_decide (trim_space comment = ""%string)) eqn:Hne; [done|]. go_bool. intros Hl.
  destruct (IH _ _ Hl) as (Hall & Hacc & Hfp). split_and!.
  - by constructor.
  - intros p. rewrite Hacc. cbn. split.
    + intros [(fp & Hin)|[->%elem_of_singleton|Hp]%elem_of_union]; [left; exists fp; by right|left; eexists; by left|by right].
    + intros [(fp & [[= -> ->]|Hin]%elem_of_cons)|Hp]; [right; set_solver|left; by exists fp|right; set_solver].
  - intros fp. rewrite Hfp. unfold account_of.
    change (omap (fun '(f, a) => if bool_decide (f = fp) then Some a else None) ((FingerprintSHA256 key, trim_space comment) :: omap registration lines))
      with (match (if bool_decide (FingerprintSHA256 key = fp) then Some (trim_space comment) else None) with
            | Some a => a :: omap (fun '(f, a) => if bool_decide (f = fp) then Some a else None) (omap registration lines)
            | None => omap (fun '(f, a) => if bool_decide (f = fp) then Some a else None) (omap registration lines) end).
    case_bool_decide as Hk.
    + subst fp. rewrite last_cons. cbn [byFP]. destruct (last _); [done|by rewrite lookup_insert_eq].
    + cbn [byFP]. destruct (last _); [done|by rewrite lookup_insert_ne].
Qed.

Lemma Load_inv path contents cause d :
  Load path contents cause = Ok d ->
  (scan_lines contents cause).2 = None /\ load_lines path 1 (scan_lines contents cause).1 (mkDirectory ∅ ∅) = Ok d.
Proof.
  unfold Load. destruct (scan_lines contents cause) as [lines e]. cbn. destruct (load_lines _ _ _ _) as [d'|e']; [|done].
  cbn. destruct e; [done|]. by intros [= <-].
Qed.

Lemma scan_tokens_whole ls cause tokens : scan_tokens ls cause = (tokens, None) -> cause = None.
Proof.
  revert tokens. induction ls as [|l ls IH]; intros tokens; cbn; [by intros [= _ ->]|].
  destruct (too_long l); [done|]. destruct (scan_tokens ls cause) as [t e] eqn:Hs. intros [= _ ->]. by eapply IH.
Qed.

Lemma account_of_elem regs fp a : account_of regs fp = Some a -> (fp, a) ∈ regs.
Proof.
  unfold account_of. intros Hl%last_Some_elem_of. apply list_elem_of_omap in Hl as ([f a'] & Hin & Hf).
  case_bool_decide; simplify_eq. done.
Qed.
Lemma account_of_none regs fp : account_of regs fp = None -> forall a, (fp, a) ∉ regs.
Proof.
  unfold account_of. intros Hl%last_None a Hin.
  assert (a ∈ omap (fun '(f, a) => if bool_decide (f = fp) then Some a else None) regs) as Ho.
  { apply list_elem_of_omap. exists (fp, a). split; [done|]. by rewrite bool_decide_eq_true_2. }
  rewrite Hl in Ho. by apply not_elem_of_nil in Ho.
Qed.

(** The registered-keys file decides the tier of a user's boxes.  When the
    file loads, it was read whole; a registered key signs in as the account of
    its last line and its new boxes are persistent and suspend when idle; any
    other key signs in as its fingerprint and its boxes are ephemeral, unless
    an account has that very name. *)
Theorem account_tiers path contents cause d cfg key id now spec b p :
  Load path contents cause = Ok d -> ec_Persistent cfg = Some (IsAccount d) ->
  Authenticate d key = Ok p -> build cfg id now p spec = Ok b ->
  let regs := registrations contents in
  let fp := FingerprintSHA256 key in
  cause = None /\ p = default fp (account_of regs fp) /\
  ((exists a, (fp, a) ∈ regs) -> b_AutoSuspend b = true /\ b_Ephemeral b = false /\ p <> ""%string) /\
  ((forall f, (f, fp) ∉ regs) -> (forall a, (fp, a) ∉ regs) -> b_AutoSuspend b = false /\ b_Ephemeral b = true).
Proof.
  intros Hload Hcfg Hauth Hb regs fp. apply Load_inv in Hload as [He Hload].
  assert (cause = None) as ->.
  { unfold scan_lines in He. eapply scan_tokens_whole. rewrite (surjective_pairing (scan_tokens _ _)), He. done. }
  destruct (load_lines_spec _ _ _ _ _ Hload) as (Hall & Hacc & Hfp). change (omap registration _) with regs in Hall, Hacc, Hfp.
  specialize (Hfp fp). unfold Authenticate in Hauth. fold fp in Hauth. rewrite Hfp in Hauth. cbn [byFP] in Hauth. rewrite lookup_empty in Hauth.
  assert (p = default fp (account_of regs fp)) as Hp by (destruct (account_of regs fp); by injection Hauth as <-).
  split; [done|]. split; [done|].
  destruct (build_inv _ _ _ _ _ _ Hb) as (_ & _ & _ & _ & He1 & He2 & _). unfold is_persistent in He1, He2. rewrite Hcfg in He1, He2.
  rewrite He1, He2. unfold IsAccount. split.
  - intros [a Ha]. destruct (account_of regs fp) as [a'|] eqn:Hof; [|by destruct (account_of_none _ _ Hof a)].
    cbn in Hp. subst p. apply account_of_elem in Hof. rewrite bool_decide_eq_true_2 by (apply Hacc; left; by exists fp).
    split_and!; [done..|]. rewrite Forall_forall in Hall. exact (Hall _ Hof).
  - intros Hn1 Hn2. destruct (account_of regs fp) as [a'|] eqn:Hof; [by destruct (Hn2 a'); apply account_of_elem|].
    cbn in Hp. subst p. rewrite bool_decide_eq_false_2; [done|]. rewrite Hacc. intros [(f & Hf)|Hf]; [by destruct (Hn1 f)|set_solver].
Qed.
End tiers.
