(* ===== verification/Concrete.v ===== *)
(** A concrete daemon: boxd's SQLite store, a compute provider that always
    succeeds, no host hooks.  The generic theorems of the core are applied to it
    here, which shows that their hypotheses can hold together. *)
From stdpp Require Import base option list strings gmap fin_maps.
From Stdlib Require Import ZArith Lia Floats.SpecFloat.
From S2P Require Import Prelude GoStrings GoTime Json Box Spec Ports Store World Engine Reconcile Boxmeta Sql BoxSqlite Boxd Lifecycle System.
Local Open Scope Z_scope.

(** The engine scans tables in insertion order. *)
Definition scan_order (l : list Row) : list Row := l.
Lemma scan_order_perm l : scan_order l ≡ₚ l.
Proof. reflexivity. Qed.
Definition unique_violation : error := Sentinel "sqlite" "constraint failed: UNIQUE constraint failed".

#[export] Existing Instance boxsqlite_store.
#[export] Instance concrete_store : BoxStore DB := boxsqlite_store scan_order unique_violation.
#[export] Instance concrete_spec : BoxStoreSpec DB := boxsqlite_spec scan_order scan_order_perm unique_violation.
#[export] Instance concrete_byip : BoxByIP DB := boxsqlite_byip scan_order scan_order_perm unique_violation.

(** The provider: instances are named after their workspace. *)
Definition null_suspender : Suspender unit := {| cp_Suspend _ := mret tt; cp_Resume _ := mret tt |}.
#[export] Instance null_compute : Compute unit := {|
  cp_Provision r := mret (mkInstance (pr_WorkspaceID r) InstanceRunning "10.9.0.2");
  cp_Status ref := mret (mkInstance ref InstanceRunning "10.9.0.2");
  cp_Stop _ := mret tt;
  cp_Destroy _ := mret tt;
  cp_suspender := Some null_suspender
|}.

Definition hex_token (n : nat) : string := "tok-" +:+ itoa (Z.of_nat n).
Lemma hex_token_nonempty n : hex_token n <> ""%string.
Proof. done. Qed.
Definition hex_id (n : nat) : string := "id-" +:+ itoa (Z.of_nat n).
Lemma hex_id_utf8 n : utf8 (hex_id n) = true.
Proof. apply ascii_text_utf8. unfold hex_id. rewrite ascii_text_app. apply ascii_text_itoa. lia. Qed.

Definition rcfg : ReconcileConfig DB unit :=
  mkReconcileConfig "10.9.0.1:7777" (mkAgentImage "agent" "/a" "/b" "/c") "http://10.9.0.1:8090" "/bin/box-guest"
    DefaultIdle Second None true.
Lemma rcfg_hooks hk : rc_Hooks rcfg = Some hk -> hooks_frame hk.
Proof. done. Qed.
Definition ecfg : EngineConfig :=
  mkEngineConfig "default" "ubuntu" ["docker"]%string "" (mkFlavor 1000 1024) (Some (fun o => bool_decide (o = "alice"%string))) (30 * Second).
Lemma ecfg_grace : in_int64 (ec_DefaultGrace ecfg).
Proof. by vm_compute. Qed.

(** 2023-11-14T22:13:20Z *)
Definition t0 : time := 63835596800 * Second.

Definition World0 : Type := World DB unit unit.
Definition world_with (rows : list Row) (now : time) : World0 := mkWorld (mkDB rows None) tt tt [] now 0.

(** A one-row table. *)
Lemma one_row b : storable b -> db_inv (mkDB [insert_row b] None) /\ db_view (mkDB [insert_row b] None) = {[b_ID b := b]}.
Proof.
  intros Hs. pose proof (scan_insert b Hs) as Hsc. split.
  - split_and!; simpl.
    + repeat constructor. by exists b.
    + apply NoDup_singleton.
    + by intros r r' ->%list_elem_of_singleton ->%list_elem_of_singleton.
  - unfold db_view, table_view, row_entry. simpl. by rewrite Hsc.
Qed.

(** An ephemeral box whose owner has just left, and a persistent idle one. *)
Definition left_box : Box :=
  (New "id-0" t0 "default" "bob" "proj" "ubuntu") <| b_Ephemeral := true |> <| b_Grace := 30 * Second |>
    <| b_Phase := PhaseRunning |> <| b_BootstrapToken := "tok-0"%string |> <| b_InstanceRef := "id-0"%string |>
    <| b_AgentConnected := true |>.
Definition idle_box : Box :=
  (New "id-1" t0 "default" "alice" "work" "ubuntu") <| b_AutoSuspend := true |>
    <| b_Phase := PhaseRunning |> <| b_BootstrapToken := "tok-1"%string |> <| b_InstanceRef := "id-1"%string |>
    <| b_AgentConnected := true |> <| b_LastActive := t0 |>.
Definition left_world : World0 := world_with [insert_row left_box] t0.
Definition idle_world : World0 := world_with [insert_row idle_box] (t0 + Hour).

Lemma left_storable : storable left_box.
Proof. apply storableb_ok. by vm_compute. Qed.
Lemma idle_storable : storable idle_box.
Proof. apply storableb_ok. by vm_compute. Qed.
Lemma left_inv : st_inv (wStore left_world).
Proof. exact (proj1 (one_row _ left_storable)). Qed.
Lemma idle_inv : st_inv (wStore idle_world).
Proof. exact (proj1 (one_row _ idle_storable)). Qed.
Lemma left_row : boxes left_world !! "id-0"%string = Some left_box.
Proof.
  change (db_view (mkDB [insert_row left_box] None) !! b_ID left_box = Some left_box).
  rewrite (proj2 (one_row _ left_storable)). apply lookup_singleton_eq.
Qed.
Lemma idle_row : boxes idle_world !! "id-1"%string = Some idle_box.
Proof.
  change (db_view (mkDB [insert_row idle_box] None) !! b_ID idle_box = Some idle_box).
  rewrite (proj2 (one_row _ idle_storable)). apply lookup_singleton_eq.
Qed.
Lemma idle_only id b : boxes idle_world !! id = Some b -> b = idle_box /\ id = "id-1"%string.
Proof.
  change (db_view (mkDB [insert_row idle_box] None) !! id = Some b -> b = idle_box /\ id = b_ID idle_box).
  rewrite (proj2 (one_row _ idle_storable)). intros [? ?]%lookup_singleton_Some. by split.
Qed.

Lemma clock_ok_dec t : ((- int64_min <=? t) && (t + int64_max <? (3652365 - day_shift) * day_secs * Second))%Z = true -> clock_ok t.
Proof. unfold clock_ok. intros. go_bool. done. Qed.
Lemma t0_ok : clock_ok t0.
Proof. apply clock_ok_dec. vm_compute. reflexivity. Qed.
Lemma t1_ok : clock_ok (t0 + Hour).
Proof. apply clock_ok_dec. vm_compute. reflexivity. Qed.

(** * Witnesses *)
Definition idle_step : World0 * result unit := ReconcileOne hex_token rcfg "default" "id-1" idle_world.

(** The idle box is suspended by that step. *)
Example idle_step_suspends :
  (match snd (GetByIP scan_order "" (mkDB [] None)), snd (BoxSqlite.Get scan_order "default" "id-1" (wStore (fst idle_step))) with
   | Err _, Ok b => bool_decide (b_Phase b = PhaseSuspended)
   | _, _ => false
   end) = true.
Proof. by vm_compute. Qed.

Lemma ReconcileOne_refines_witness :
  st_inv (wStore (fst idle_step)) /\
  lifecycle DefaultIdle (t0 + Hour) idle_box (boxes (fst idle_step) !! "id-1"%string).
Proof.
  destruct (ReconcileOne_refines hex_token hex_token_nonempty rcfg rcfg_hooks "default" "id-1" idle_world
    (fst idle_step) (snd idle_step) idle_inv t1_ok (surjective_pairing _)) as (Hi & _ & _ & Hl & _).
  split; [exact Hi|exact (Hl _ idle_row)].
Defined.

(** The row under an id, once it is known to exist. *)
Definition row_of (w : World0) (id : string) : Box := default left_box (boxes w !! id).

Lemma ReconcileOne_legal_witness :
  b_Phase (row_of (fst idle_step) "id-1") = PhaseSuspended /\ CanTransition PhaseRunning (b_Phase (row_of (fst idle_step) "id-1")) = true.
Proof.
  split; [vm_compute; reflexivity|].
  refine (proj1 (ReconcileOne_legal hex_token hex_token_nonempty rcfg rcfg_hooks "default" "id-1" idle_world
    (fst idle_step) (snd idle_step) idle_box _ idle_inv t1_ok (surjective_pairing _) idle_row _)).
  vm_compute. reflexivity.
Defined.

Lemma sweep_steps_witness :
  snd (sweep hex_token rcfg idle_world) = Ok tt.
Proof.
  exact (proj1 (sweep_steps hex_token hex_token_nonempty rcfg rcfg_hooks idle_world
    (fst (sweep hex_token rcfg idle_world)) _ idle_inv t1_ok (surjective_pairing _))).
Defined.

Lemma countdown_timeline_witness :
  let run1 := mfor [t0; t0 + 10 * Second; t0 + 29 * Second] (tick hex_token rcfg "default" "id-0") left_world in
  let run2 := mfor [t0 + 31 * Second; t0 + 32 * Second] (tick hex_token rcfg "default" "id-0") (fst run1) in
  boxes (fst run2) !! "id-0"%string = None.
Proof.
  intros run1 run2.
  refine (proj2 (countdown_timeline hex_token rcfg rcfg_hooks "default" "id-0" left_box t0
    [t0 + 10 * Second; t0 + 29 * Second] (t0 + 31 * Second) (t0 + 32 * Second) left_world (fst run1) (fst run2)
    (snd run1) (snd run2) left_inv eq_refl _ left_row eq_refl eq_refl eq_refl eq_refl _ _ eq_refl _ _ _
    (surjective_pairing _) (surjective_pairing _))).
  - repeat constructor; apply clock_ok_dec; vm_compute; reflexivity.
  - vm_compute. congruence.
  - vm_compute. congruence.
  - repeat constructor.
  - vm_compute. congruence.
  - right. reflexivity.
Defined.

Lemma Drain_suspends_witness :
  boxes (fst (Drain "default" idle_world)) !! "id-1"%string ≡ Some (drained (t0 + Hour) idle_box).
Proof.
  refine (proj2 (proj2 (Drain_suspends null_suspender "default" idle_world (fst (Drain "default" idle_world)) _
    eq_refl idle_inv t1_ok (surjective_pairing _)) "id-1"%string idle_box idle_row) eq_refl _ _).
  - intros ref c. reflexivity.
  - split; [reflexivity|]. split; [reflexivity|]. right. reflexivity.
Defined.

(** * Executions of the concrete daemon *)
Definition do (l : Label) (w : World0) : World0 := fst (run hex_id hex_token ecfg rcfg l w).

Lemma do_step l w : enabled l w -> step hex_id hex_token ecfg rcfg w l (do l w).
Proof. intros He. exact (step_run _ _ _ _ _ _ _ (snd (run hex_id hex_token ecfg rcfg l w)) He (surjective_pairing _)). Qed.

Lemma do_two l1 l2 w :
  enabled l1 w -> enabled l2 (do l1 w) -> execution hex_id hex_token ecfg rcfg w [l1; l2] (do l2 (do l1 w)).
Proof.
  intros H1 H2. apply (exec_snoc _ _ _ _ w [l1] l2 (do l1 w)); [|by apply do_step].
  apply (exec_snoc _ _ _ _ w [] l1 w); [constructor|by apply do_step].
Qed.

Definition empty_world : World0 := world_with [] t0.
Lemma empty_inv : st_inv (wStore empty_world).
Proof. split_and!; [constructor..|]. by intros r r' ?%not_elem_of_nil. Qed.
Lemma empty_rows id : boxes empty_world !! id = None.
Proof. change ((∅ : gmap string Box) !! id = None). apply lookup_empty. Qed.

(** Two owners, two boxes by the same name, then a sweep provisions both. *)
Example two_owners_same_name :
  (fun rows => (r_owner <$> rows, r_name <$> rows, r_phase <$> rows))
    (db_rows (wStore (do LSweep (do (LAttach "bob" "proj+1h") (do (LAttach "alice" "proj") empty_world)))))
  = (["alice"; "bob"], ["proj"; "proj"], ["Provisioning"; "Provisioning"])%string.
Proof. by vm_compute. Qed.

Lemma step_refines_witness :
  st_inv (wStore (do (LAttach "bob" "proj+1h") empty_world)).
Proof.
  exact (proj1 (step_refines hex_id hex_token hex_id_utf8 hex_token_nonempty ecfg ecfg_grace rcfg rcfg_hooks empty_world
    (LAttach "bob" "proj+1h") _ empty_inv t0_ok (do_step (LAttach "bob" "proj+1h") empty_world I))).
Defined.

Definition swept_world : World0 := do LSweep (do (LAttach "bob" "proj+1h") empty_world).
Lemma execution_sane_witness :
  b_Phase (row_of swept_world "id-0") = PhaseProvisioning /\ sane ecfg (row_of swept_world "id-0").
Proof.
  split; [vm_compute; reflexivity|].
  refine (proj1 (proj2 (execution_sane hex_id hex_token hex_id_utf8 hex_token_nonempty ecfg ecfg_grace rcfg rcfg_hooks empty_world
    [LAttach "bob" "proj+1h"; LSweep] _ empty_inv t0_ok _ (do_two (LAttach "bob" "proj+1h") LSweep empty_world I I))) "id-0"%string _ _).
  - intros id b Hb. rewrite empty_rows in Hb. discriminate Hb.
  - vm_compute. reflexivity.
Defined.

Lemma persistent_survives_witness :
  exists b', boxes (do LDrain (do LSweep idle_world)) !! "id-1"%string = Some b' /\ same_key idle_box b' /\
             b_Ephemeral b' = false /\ b_Phase b' <> PhaseDestroying.
Proof.
  refine (persistent_survives hex_id hex_token hex_id_utf8 hex_token_nonempty ecfg ecfg_grace rcfg rcfg_hooks "id-1" idle_box idle_world
    [LSweep; LDrain] _ idle_inv t1_ok (do_two LSweep LDrain idle_world I I) idle_row eq_refl _ _).
  - discriminate.
  - intros Hin. repeat (apply elem_of_cons in Hin as [Hin|Hin]; [discriminate Hin|]). by apply not_elem_of_nil in Hin.
Defined.

(** A live session on an ephemeral box whose deadline has passed. *)
Definition live_box : Box := left_box <| b_Attached := true |> <| b_Deadline := Some (t0 - Hour) |>.
Definition live_world : World0 := world_with [insert_row live_box] t0.
Lemma live_storable : storable live_box.
Proof. apply storableb_ok. vm_compute. reflexivity. Qed.
Lemma live_inv : st_inv (wStore live_world).
Proof. exact (proj1 (one_row _ live_storable)). Qed.
Lemma live_row : boxes live_world !! "id-0"%string = Some live_box.
Proof.
  change (db_view (mkDB [insert_row live_box] None) !! b_ID live_box = Some live_box).
  rewrite (proj2 (one_row _ live_storable)). apply lookup_singleton_eq.
Qed.


(** The reconciler holds [left_box]; its owner attaches; the reconciler writes. *)
Definition attached_world : World0 := do (LAttach "bob" "proj") left_world.
Lemma attached_row : boxes attached_world !! "id-0"%string = Some (left_box <| b_Attached := true |>).
Proof. vm_compute. reflexivity. Qed.
Lemma attached_inv : st_inv (wStore attached_world).
Proof.
  exact (proj1 (proj1 (step_to hex_id hex_token hex_id_utf8 hex_token_nonempty ecfg ecfg_grace rcfg rcfg_hooks left_world
    (LAttach "bob" "proj") _ left_inv t0_ok (do_step (LAttach "bob" "proj") left_world I)))).
Qed.

Lemma attach_lost_witness :
  exists b', boxes (fst (reconcileLifetime left_box attached_world)) !! "id-0"%string = Some b' /\ b_Attached b' = false /\
    (is_Some (b_Deadline b') \/ b_Phase b' = PhaseDestroying).
Proof.
  refine (attach_lost "id-0" left_box attached_world _ _ attached_inv _ t0_ok _ left_storable
    eq_refl eq_refl eq_refl eq_refl _ _ (surjective_pairing _)).
  - reflexivity.
  - rewrite attached_row. reflexivity.
  - vm_compute. congruence.
  - right. left. reflexivity.
Defined.

Lemma Attach_reuses_by_name_witness :
  Attach hex_id Trigger ecfg "bob" "proj" left_world = Attach hex_id Trigger ecfg "bob" "proj~docker:debian:large+" left_world.
Proof.
  destruct (ParseSpec "proj") as [s1|] eqn:H1; [|vm_compute in H1; discriminate H1].
  destruct (ParseSpec "proj~docker:debian:large+") as [s2|] eqn:H2; [|vm_compute in H2; discriminate H2].
  refine (Attach_reuses_by_name hex_id Trigger ecfg "bob" "proj" "proj~docker:debian:large+" s1 s2 left_world left_world left_box
    H1 H2 _ _ _ _); vm_compute in H1, H2; injection H1 as <-; injection H2 as <-; [reflexivity..|].
  vm_compute. reflexivity.
Defined.

(** An idle box that asked for two hours, two hours later. *)
Definition kept_box : Box := do_keepAlive (t0 + Hour) idle_box (mkKeepAliveBody "2h").
Definition kept_world : World0 := world_with [insert_row kept_box] (t0 + 3 * Hour).
Lemma kept_box_storable : storable kept_box.
Proof. apply storableb_ok. vm_compute. reflexivity. Qed.
Lemma kept_clock : clock_ok (wNow kept_world).
Proof. apply clock_ok_dec. vm_compute. reflexivity. Qed.
Definition kept_step : World0 := fst (ReconcileOne hex_token rcfg "default" "id-1" kept_world).

Lemma keepAlive_holds_witness : b_Phase (row_of kept_step "id-1") <> PhaseSuspended.
Proof.
  destruct (ReconcileOne_moved hex_token hex_token_nonempty rcfg rcfg_hooks "default" "id-1" kept_world
    kept_step _ (proj1 (one_row _ kept_box_storable)) kept_clock (surjective_pairing _)) as (_ & Hl & _).
  refine (keepAlive_holds DefaultIdle (t0 + Hour) (wNow kept_world) idle_box (mkKeepAliveBody "2h") (2 * Hour) _ _ _ _ (Hl kept_box _) _ _).
  - left. vm_compute. reflexivity.
  - vm_compute. congruence.
  - discriminate.
  - change (db_view (mkDB [insert_row kept_box] None) !! b_ID kept_box = Some kept_box).
    rewrite (proj2 (one_row _ kept_box_storable)). apply lookup_singleton_eq.
  - vm_compute. reflexivity.
Defined.
