(* ===== verification/FrontConcrete.v ===== *)
(** The front door at concrete inputs: a hub whose agent comes up after two
    polls, a world with no box yet, and the accounts file of one user. *)
From stdpp Require Import base option list strings gmap.
From Stdlib Require Import Ascii ZArith Lia.
From S2P Require Import Prelude GoStrings GoTime Json Box Spec Ports Store World Engine Reconcile Sql BoxSqlite Lifecycle Agentproto Agenthub Boxd System Sshfront Concrete.
Import Account.
Local Open Scope Z_scope.

#[local] Instance keys : SSHKeys string := {|
  FingerprintSHA256 k := "SHA256:" +:+ k;
  ParseAuthorizedLine line :=
    match split " " line with
    | [_; k; c] => Ok (k, c)
    | [_; k] => Ok (k, ""%string)
    | _ => Err (Errorf "ssh: no key found")
    end
|}.
#[local] Instance hub : FrontHub nat := {|
  fh_Connected _ := fun n => (S n, Ok (2 <=? n)%nat);
  fh_OpenSSH _ := mret (mkStream 3 (mkWriter "" None))
|}.
#[local] Instance net : ClientConn unit := {|
  ssh_NewClientConn s := mret (sm_id s); ssh_CloseStream _ := mret tt; ssh_CloseConn _ := mret tt
|}.

Definition door : Type := Front DB unit unit nat unit.
Definition nobody : door := mkFront empty_world 0%nat tt.
Definition after_tick : @Wake DB unit unit nat unit := mkWake id WakeTick.
Definition login : Handshake string := mkHandshake ["k0"; "k1"]%string (Some "k1"%string) "proj+1h".
Notation visit :=
  (handleConn hex_id System.wake ecfg None AnyKey login [after_tick; after_tick; after_tick] (fun _ f => f) nobody).

Lemma with_outcome {A B} (x : A * B) b : x.2 = b -> x = (x.1, b).
Proof. intros <-. apply surjective_pairing. Qed.


Lemma wait_ends_witness :
  (waitReady ecfg "id-0" [after_tick; mkWake id WakeDeadline] nobody).2 =
    Err (Errorf "workspace id-0 not ready within 1m0s") /\
  (waitReady ecfg "id-0" [after_tick; mkWake id WakeDeadline] nobody).2 <> Ok None.
Proof.
  split; [vm_compute; reflexivity|].
  refine (proj1 (wait_ends ecfg "id-0" [after_tick; mkWake id WakeDeadline] nobody _ _ (surjective_pairing _)) _).
  right. left. discriminate.
Defined.

Lemma front_door_confined_witness :
  visit.2 = Ok (Some (Proxied 3)) /\
  exists w1 b, Attach hex_id System.wake ecfg "SHA256:k1" "proj+1h" empty_world = (w1, Ok b) /\ b_Owner b = "SHA256:k1"%string /\
    dialled (B := nat) (N := unit) (b_ID b) 3.
Proof.
  assert (visit.2 = Ok (Some (Proxied 3))) as Hv by (vm_compute; reflexivity). split; [exact Hv|].
  destruct (front_door_confined hex_id hex_id_utf8 ecfg ecfg_grace None AnyKey login [after_tick; after_tick; after_tick]
    (fun _ f => f) nobody visit.1 (Proxied 3)) as (k & p & Hk & Hp & Hc).
  - exact empty_inv.
  - exact t0_ok.
  - intros k [= <-]. split; reflexivity.
  - exact (with_outcome _ _ Hv).
  - injection Hk as <-. injection Hp as <-. destruct Hc as [(spec & w1 & b & w2 & _ & Ha & Ho & _ & _ & _ & Hd)|[Hn _]].
    + exists w1, b. split; [exact Ha|]. split; [exact Ho|]. exact (Hd 3%nat eq_refl).
    + destruct (Hn 3%nat eq_refl).
Defined.

Definition accounts_file : string :=
  "# team" +:+ String (byte_of 10) ("ssh-ed25519 k1 alice" +:+ String (byte_of 10) EmptyString).
Lemma account_tiers_witness :
  exists d b, Load "accounts" accounts_file None = Ok d /\ b_AutoSuspend b = true /\ b_Owner b = "alice"%string.
Proof.
  destruct (Load "accounts" accounts_file None) as [d|] eqn:Hd; [|vm_compute in Hd; discriminate Hd].
  set (cfg := mkEngineConfig "default" "alpine" ["docker"]%string "" (mkFlavor 0 0) (Some (IsAccount d)) 0).
  destruct (ParseSpec "proj") as [spec|] eqn:Hspec; [|vm_compute in Hspec; discriminate Hspec].
  assert (Authenticate d "k1"%string = Ok "alice"%string) as Ha by (vm_compute in Hd; injection Hd as <-; vm_compute; reflexivity).
  destruct (build cfg "id-0" t0 "alice" spec) as [b|] eqn:Hb.
  2:{ vm_compute in Hspec. injection Hspec as <-. unfold build in Hb. cbn in Hb. discriminate Hb. }
  exists d, b. split; [reflexivity|].
  destruct (account_tiers "accounts" accounts_file None d cfg "k1"%string "id-0" t0 spec b "alice" Hd eq_refl Ha Hb) as (_ & _ & Hr & _).
  split; [|exact (proj1 (proj2 (proj2 (build_inv _ _ _ _ _ _ Hb))))].
  refine (proj1 (Hr _)). exists "alice"%string. vm_compute. by left.
Defined.

(** Two sessions of bob on one box, which then comes up. *)
Lemma do_inv l w : st_inv (wStore w) -> clock_ok (wNow w) -> enabled l w -> st_inv (wStore (do l w)).
Proof.
  intros Hi Hclk He.
  exact (proj1 (proj1 (step_to hex_id hex_token hex_id_utf8 hex_token_nonempty ecfg ecfg_grace rcfg rcfg_hooks w l _ Hi Hclk (do_step l w He)))).
Qed.
Notation first_attach := (Attach hex_id System.wake ecfg "bob" "proj+1h" empty_world).
Notation second_attach w := (Attach hex_id System.wake ecfg "bob" "proj" w).
Definition box_id (r : result Box) : string := match r with Ok b => b_ID b | Err _ => "" end.
Definition shared_world : World0 :=
  do LSweep (do (LAgent "id-0" true) (do LSweep (do (LAttach "bob" "proj") (do (LAttach "bob" "proj+1h") empty_world)))).
Lemma shared_inv : st_inv (wStore shared_world).
Proof. unfold shared_world. repeat (apply do_inv; [|vm_compute; split; congruence|done]). exact empty_inv. Qed.
Lemma shared_works : working shared_world.
Proof. split; [exact shared_inv|vm_compute; reflexivity]. Qed.
Definition shared_box : Box := row_of shared_world "id-0".
Lemma shared_row : holds shared_world "id-0" shared_box.
Proof.
  unfold holds, shared_box, row_of. destruct (boxes shared_world !! "id-0"%string) eqn:Hr; [done|]. vm_compute in Hr. discriminate Hr.
Qed.
Notation ticks ts := (mfor ts (tick hex_token rcfg (ec_Tenant ecfg) "id-0")).
Notation hung_up := (releaser System.wake ecfg "id-0" shared_world).1.

Lemma first_release_reaps_witness :
  boxes (ticks [t0 + 2 * Hour; t0 + 3 * Hour] (ticks [t0 + Second] hung_up).1).1 !! "id-0"%string = None.
Proof.
  destruct (ParseSpec "proj+1h") as [s1|] eqn:H1; [|vm_compute in H1; discriminate H1].
  destruct (ParseSpec "proj") as [s2|] eqn:H2; [|vm_compute in H2; discriminate H2].
  assert (box_id first_attach.2 = "id-0"%string) as E1 by (vm_compute; reflexivity).
  assert (box_id (second_attach first_attach.1).2 = "id-0"%string) as E2 by (vm_compute; reflexivity).
  destruct first_attach as [w1 [b1|]] eqn:A1; cbn [fst snd box_id] in *; [|discriminate E1].
  destruct (second_attach w1) as [w2 [b2|]] eqn:A2; cbn [fst snd box_id] in *; [|discriminate E2].
  pose proof (first_release_reaps hex_id hex_token hex_id_utf8 ecfg ecfg_grace rcfg rcfg_hooks "bob" "proj+1h" "proj" s1 s2
    (t0 + Second) [] (t0 + 2 * Hour) (t0 + 3 * Hour) empty_world w1 w2 shared_world hung_up (ticks [t0 + Second] hung_up).1
    (ticks [t0 + 2 * Hour; t0 + 3 * Hour] (ticks [t0 + Second] hung_up).1).1 b1 b2 shared_box
    (releaser System.wake ecfg "id-0" shared_world).2 (ticks [t0 + Second] hung_up).2
    (ticks [t0 + 2 * Hour; t0 + 3 * Hour] (ticks [t0 + Second] hung_up).1).2) as Hr.
  rewrite E1, E2 in Hr. refine (proj2 (proj2 (Hr empty_inv t0_ok _ H1 H2 _ A1 A2 shared_works _ shared_row _ _ _ _ _ _ _ _
    (surjective_pairing _) _ _ _ (surjective_pairing _) (surjective_pairing _)))).
  - discriminate.
  - vm_compute in H1, H2. injection H1 as <-. injection H2 as <-. reflexivity.
  - split; vm_compute; congruence.
  - vm_compute. reflexivity.
  - vm_compute. reflexivity.
  - vm_compute. reflexivity.
  - vm_compute. reflexivity.
  - vm_compute. congruence.
  - vm_compute. reflexivity.
  - vm_compute. reflexivity.
  - right. reflexivity.
  - repeat constructor; apply clock_ok_dec; vm_compute; reflexivity.
  - constructor.
  - vm_compute. congruence.
Defined.
