(* ===== verification/Gateway.v ===== *)
(** The service gateway ([internal/gateway], [cmd/hopboxd/gateway.go],
    [cmd/hopbox-gw]): a request's Host is connected to the workspace service it
    maps to, in the daemon's process or over the tunnel of a remote gateway.

    A connection is a raw pipe: the bytes the other end answers, all told, to the
    bytes written.  Go's reverse proxy is an argument that may dial once. *)
From stdpp Require Import base option list strings gmap.
From Stdlib Require Import Ascii ZArith Lia.
From S2P Require Import Prelude GoStrings GoNet Json Ports Agentproto Agenthub Agentssh Agent Providers.
Local Open Scope Z_scope.

Definition ErrNoRoute : error := Sentinel "gateway" "gateway: no route for host".

Record Conn : Type := mkConn {
  cn_id : nat;
  cn_pipe : string -> string
}.
(** [Connector], with the connection's [Close]. *)
Class Connector (W : Type) : Type := {
  cn_Connect : string -> M W Conn;
  cn_Close : nat -> M W unit
}.

(** * Gateway.ServeHTTP *)
Inductive Outcome (R : Type) : Type :=
| GwError (status : Z) (text : string)      (* http.Error *)
| GwProxied (r : R).
Arguments GwError {R}.
Arguments GwProxied {R}.

(** [DialContext]: the open connection, once; the state is [used]. *)
Definition dial_once (upstream : Conn) : M bool Conn := fun used =>
  if used then (true, Err (Errorf "hopbox-gw: upstream conn already consumed")) else (true, Ok upstream).

Definition ServeHTTP {W R} `{Connector W} (proxy : string -> M bool Conn -> M bool R) (rhost : string) : M W (Outcome R) :=
  let host := host_of rhost in
  r ← try (cn_Connect host);
  match r with
  | Err e =>
      mret (if errors_Is e ErrNoRoute then GwError 404 ("hopbox-gw: no route for host " +:+ host)
            else GwError 502 ("hopbox-gw: connect: " +:+ Error e))
  | Ok upstream =>
      let '(used, res) := proxy host (dial_once upstream) false in
      (if used : bool then mret tt else ignore (cn_Close (cn_id upstream))) ;;
      mret (match res with
            | Ok r => GwProxied r
            | Err e => GwError 502 ("hopbox-gw: upstream error: " +:+ Error e)
            end)
  end.

(** * The tunnel *)
Record TunnelHeader : Type := mkTunnelHeader { th_Host : string }.
Record TunnelResponse : Type := mkTunnelResponse {
  tr_Status : string;
  tr_Reason : string
}.
Definition tunnel_header_json (h : TunnelHeader) : json := JObj [("host"%string, JStr (th_Host h))].
Definition tunnel_header_fields : Fields TunnelHeader := [("host"%string, str_field (fun s _ => mkTunnelHeader s))].
Definition tunnel_response_json (r : TunnelResponse) : json :=
  JObj ([("status"%string, JStr (tr_Status r))] ++ omit_empty (bool_decide (tr_Reason r = ""%string)) "reason" (JStr (tr_Reason r))).
Definition tunnel_response_fields : Fields TunnelResponse :=
  [("status", str_field (fun s r => mkTunnelResponse s (tr_Reason r)));
   ("reason", str_field (fun s r => mkTunnelResponse (tr_Status r) s))]%string.

Definition maxTunnelFrame : Z := 65536.
Definition tunnel_too_large (n : Z) : error := Errorf ("gateway tunnel: frame too large (" +:+ itoa n +:+ ")").
Definition tunnel_writeFrame (v : json) : M Writer unit :=
  let b := print v in
  if maxTunnelFrame <? zlen b then throw (tunnel_too_large (zlen b))
  else Write (be32 (zlen b)) ;; Write b.
Definition tunnel_readFrame {T} (fs : Fields T) (zero : T) : M string T :=
  hdr ← ReadFull 4;
  let n := un_be32 hdr in
  if maxTunnelFrame <? n then throw (tunnel_too_large n)
  else
  b ← ReadFull (Z.to_nat n);
  of_result (unmarshal fs b zero).

(** ** The server's side *)
Section server.
Context {W : Type} `{Connector W}.

(** [TunnelServer.handle] up to the bridge: what it wrote, and the connection
    it bridges with what it had read past the header.  [w] is its end of the
    tunnel connection, which it closes when there is nothing to bridge. *)
Definition tunnel_accept (input : string) (w : Writer) : M W (Writer * option (Conn * string)) :=
  match tunnel_readFrame tunnel_header_fields (mkTunnelHeader "") input with
  | (_, Err _) => mret (w, None)
  | (rest, Ok hdr) =>
      r ← try (cn_Connect (th_Host hdr));
      match r with
      | Err e =>
          let resp := if bool_decide (e = ErrNoRoute) then mkTunnelResponse "no_route" ""
                      else mkTunnelResponse "error" (Error e) in
          mret ((tunnel_writeFrame (tunnel_response_json resp) w).1, None)
      | Ok upstream =>
          match tunnel_writeFrame (tunnel_response_json (mkTunnelResponse "ok" "")) w with
          | (w', Err _) => ignore (cn_Close (cn_id upstream)) ;; mret (w', None)
          | (w', Ok _) => mret (w', Some (upstream, rest))
          end
      end
  end.
End server.

(** The bridge: two copies, each a chunk at a time; the first to end ends both. *)
Module Bridge.
Record Bridge : Type := mkBridge {
  br_up : list string;        (* still to come from the gateway *)
  br_down : list string;      (* still to come from the workspace *)
  br_got_up : list string;    (* copied to the workspace *)
  br_got_down : list string;  (* copied to the gateway *)
  br_closed : bool
}.
Inductive label : Type :=
| LUp
| LDown
| LUpEnd
| LDownEnd.
Definition bridge_step (l : label) (b : Bridge) : option Bridge :=
  if br_closed b then None
  else match l, br_up b, br_down b with
  | LUp, c :: up, down => Some (mkBridge up down (br_got_up b ++ [c]) (br_got_down b) false)
  | LDown, up, c :: down => Some (mkBridge up down (br_got_up b) (br_got_down b ++ [c]) false)
  | LUpEnd, [], down => Some (mkBridge [] down (br_got_up b) (br_got_down b) true)
  | LDownEnd, up, [] => Some (mkBridge up [] (br_got_up b) (br_got_down b) true)
  | _, _, _ => None
  end.
Fixpoint bridge_run (ls : list label) (b : Bridge) : option Bridge :=
  match ls with
  | [] => Some b
  | l :: ls' => b' ← bridge_step l b; bridge_run ls' b'
  end.
Definition start (up down : list string) : Bridge := mkBridge up down [] [] false.
End Bridge.

(** ** The gateway's side *)

(** The tunnel as the remote gateway finds it: dialling, and what the other end
    writes in answer to the header's bytes and then to further ones. *)
Class Tunnel (W : Type) : Type := {
  tn_dial : string -> M W nat;
  tn_serve : nat -> string -> M W (string * (string -> string));
  tn_Close : nat -> M W unit
}.

(** [RemoteConnector.Connect] *)
Definition RemoteConnect {W} `{Tunnel W} (addr host : string) : M W Conn :=
  conn ← wrapping ("gateway tunnel: dial " +:+ quote addr) (tn_dial addr);
  match tunnel_writeFrame (tunnel_header_json (mkTunnelHeader host)) (mkWriter "" None) with
  | (_, Err e) => ignore (tn_Close conn) ;; throw e
  | (w, Ok _) =>
      '(answer, pipe) ← tn_serve conn (wr_out w);
      match (tunnel_readFrame tunnel_response_fields (mkTunnelResponse "" "") answer).2 with
      | Err e => ignore (tn_Close conn) ;; throw e
      | Ok resp =>
          if bool_decide (tr_Status resp = "ok"%string) then mret (mkConn conn pipe)
          else if bool_decide (tr_Status resp = "no_route"%string) then ignore (tn_Close conn) ;; throw ErrNoRoute
          else ignore (tn_Close conn) ;; throw (Errorf ("gateway tunnel: " +:+ tr_Reason resp))
      end
  end.
Definition remote_connector {W} `{Tunnel W} (addr : string) : Connector W :=
  {| cn_Connect := RemoteConnect addr; cn_Close := tn_Close |}.

(** A tunnel whose other end is a [TunnelServer] on the same state. *)
Definition loopback {W} `{Connector W} : Tunnel W := {|
  tn_dial _ := mret 0%nat;
  tn_serve _ bytes :=
    '(w, up) ← tunnel_accept bytes (mkWriter "" None);
    mret (wr_out w, match up with Some (c, rest) => fun req => cn_pipe c (rest +:+ req) | None => fun _ => ""%string end);
  tn_Close _ := mret tt
|}.

(** * The connector in the daemon's process *)
Section in_process.
Context {Y S : Type} `{Yamux Y} `{StateSink S}.
Notation W := (gmap string Subdomain.Route * Hub Y S)%type.
Variable agent : string -> string -> string.  (* a workspace's agent on a stream *)

Definition inproc_Connect (host : string) : M W Conn :=
  routes ← gets fst;
  match Subdomain.Lookup host routes with
  | None => throw ErrNoRoute
  | Some rt =>
      st ← zoom snd (fun h w => (w.1, h)) (OpenForward (Subdomain.rt_WorkspaceID rt) (uint32 (Subdomain.rt_Port rt)));
      mret (mkConn (sm_id st) (fun req => agent (Subdomain.rt_WorkspaceID rt) (wr_out (sm_w st) +:+ req)))
  end.
Definition inProcConnector : Connector W := {|
  cn_Connect := inproc_Connect;
  cn_Close id := zoom snd (fun h w => (w.1, h)) (on_yamux (ym_CloseStream id))
|}.
End in_process.

(** * hopbox-gw's side services *)

(** The on-demand-TLS question: may a certificate for this domain be issued? *)
Definition ask (zone d : string) : bool :=
  let z := trim_prefix "." zone in
  bool_decide (d = z) || match cut_suffix ("." +:+ z) d with Some _ => true | None => false end.
Definition redirectToHTTPS (host request_uri : string) : string := "https://" +:+ host +:+ request_uri.

(** * Lemmas: tunnel frames

    Within the bound they are the bytes of the agent protocol's frames. *)
#[local] Obligation Tactic := idtac.
#[export] Program Instance tunnel_header_framed : Framed TunnelHeader := {|
  fr_json := tunnel_header_json; fr_fields := tunnel_header_fields; fr_zero := mkTunnelHeader ""; fr_ok h := utf8 (th_Host h)
|}.
Next Obligation. intros h Hok. simpl. by rewrite Hok. Qed.
Next Obligation. by intros [] _. Qed.
#[export] Program Instance tunnel_response_framed : Framed TunnelResponse := {|
  fr_json := tunnel_response_json; fr_fields := tunnel_response_fields; fr_zero := mkTunnelResponse "" "";
  fr_ok r := utf8 (tr_Status r) && utf8 (tr_Reason r)
|}.
Next Obligation.
  intros [st re] Hok. simpl in *. apply andb_true_iff in Hok as [-> Hr]. unfold tunnel_response_json, omit_empty. simpl.
  case_bool_decide; simpl; [done|by rewrite Hr].
Qed.
Next Obligation.
  intros [st re] _. unfold tunnel_response_json, omit_empty. cbn [tr_Reason tr_Status].
  case_bool_decide as He; [by rewrite He|done].
Qed.

Lemma tunnel_write_frame v w : zlen (print v) <= maxTunnelFrame -> tunnel_writeFrame v w = writeFrame v w.
Proof.
  intros Hl. unfold tunnel_writeFrame, writeFrame. change maxFrame with maxTunnelFrame.
  by rewrite (proj2 (Z.ltb_ge maxTunnelFrame (zlen (print v)))).
Qed.
Lemma tunnel_read_frame {T} (fs : Fields T) zero s rest x :
  readFrame fs zero s = (rest, Ok x) -> tunnel_readFrame fs zero s = (rest, Ok x).
Proof.
  unfold tunnel_readFrame, readFrame. change maxFrame with maxTunnelFrame. unfold mbind, M_bind.
  destruct (ReadFull 4 s) as [s1 [h|e]]; [|done]. by destruct (maxTunnelFrame <? un_be32 h).
Qed.

(** What the two ends exchange fits a frame and is text. *)
Definition fits {T} `{Framed T} (x : T) : Prop := fr_ok x = true /\ zlen (print (fr_json x)) <= maxTunnelFrame.
Lemma tunnel_frame {T} `{Framed T} (x : T) : fits x ->
  exists bytes, tunnel_writeFrame (fr_json x) (mkWriter "" None) = (mkWriter bytes None, Ok tt) /\
    forall rest, tunnel_readFrame fr_fields fr_zero (bytes +:+ rest) = (rest, Ok x).
Proof.
  intros [Hok Hl]. destruct (frame_bytes x Hok Hl) as (b & Hw & _ & Hr). exists b. split.
  - by rewrite tunnel_write_frame, Hw.
  - intros rest. by apply tunnel_read_frame.
Qed.

(** What the remote connector makes of the server's answer. *)
Definition seen_remotely (e : error) : error :=
  if bool_decide (e = ErrNoRoute) then ErrNoRoute else Errorf ("gateway tunnel: " +:+ Error e).
Definition refusal (e : error) : TunnelResponse :=
  if bool_decide (e = ErrNoRoute) then mkTunnelResponse "no_route" "" else mkTunnelResponse "error" (Error e).

Lemma RemoteConnect_loopback {W} `{Connector W} addr host (w : W) :
  fits (mkTunnelHeader host) -> (forall e, (cn_Connect host w).2 = Err e -> fits (refusal e)) ->
  let r := RemoteConnect (H := loopback) addr host w in
  r.1 = (cn_Connect host w).1 /\
  match (cn_Connect host w).2 with
  | Ok c => exists c', r.2 = Ok c' /\ forall req, cn_pipe c' req = cn_pipe c req
  | Err e => r.2 = Err (seen_remotely e)
  end.
Proof.
  intros Hh He. destruct (tunnel_frame _ Hh) as (b & Hw & Hr). cbn [fr_json fr_fields fr_zero tunnel_header_framed] in Hw, Hr.
  assert (tunnel_accept b (mkWriter "" None) w =
    (r ← try (cn_Connect host);
     match r with
     | Err e => mret ((tunnel_writeFrame (tunnel_response_json (refusal e)) (mkWriter "" None)).1, None)
     | Ok upstream =>
         match tunnel_writeFrame (tunnel_response_json (mkTunnelResponse "ok" "")) (mkWriter "" None) with
         | (w', Err _) => ignore (cn_Close (cn_id upstream)) ;; mret (w', None)
         | (w', Ok _) => mret (w', Some (upstream, EmptyString))
         end
     end) w) as Hacc.
  { unfold tunnel_accept. specialize (Hr EmptyString). rewrite string_app_nil_r in Hr. by rewrite Hr. }
  intros r. subst r. unfold RemoteConnect. rewrite (bind_eq_ok (wrapping _ (tn_dial addr)) _ w w 0%nat) by done.
  rewrite Hw. cbn [wr_out].
  assert (forall w' ans pipe, tunnel_accept b (mkWriter "" None) w = (w', Ok (mkWriter ans None, pipe)) ->
    tn_serve (Tunnel := loopback) 0 b w = (w', Ok (ans, match pipe with Some (c, rest) => fun req => cn_pipe c (rest +:+ req)
      | None => fun _ => ""%string end))) as Hserve.
  { intros w' ans pipe Ha. cbn [tn_serve loopback]. rewrite (bind_eq_ok _ _ _ _ _ Ha). done. }
  unfold try, mbind, M_bind in Hacc. destruct (cn_Connect host w) as [w' [c|e]]; cbn [fst snd].
  - destruct (tunnel_frame (mkTunnelResponse "ok" "")) as (b2 & Hw2 & Hr2); [by split; vm_compute|].
    cbn [fr_json fr_fields fr_zero tunnel_response_framed] in Hw2, Hr2. rewrite Hw2 in Hacc.
    rewrite (bind_eq_ok _ _ _ _ _ (Hserve _ _ _ Hacc)).
    specialize (Hr2 EmptyString). rewrite string_app_nil_r in Hr2. rewrite Hr2. split; [done|]. by eexists.
  - destruct (tunnel_frame (refusal e)) as (b2 & Hw2 & Hr2); [by apply He|].
    cbn [fr_json fr_fields fr_zero tunnel_response_framed] in Hw2, Hr2. rewrite Hw2 in Hacc.
    rewrite (bind_eq_ok _ _ _ _ _ (Hserve _ _ _ Hacc)).
    specialize (Hr2 EmptyString). rewrite string_app_nil_r in Hr2. rewrite Hr2.
    unfold refusal, seen_remotely. by case_bool_decide as Heq.
Qed.

(** The same request through the daemon's gateway and through a remote one. *)
Definition same_outcome {R} (local remote : Outcome R) : Prop :=
  match local, remote with
  | GwProxied r, GwProxied r' => r = r'
  | GwError s t, GwError s' t' => s = s' /\ (s = 404 -> t = t')
  | _, _ => False
  end.


(** * The bridge *)
Lemma bridge_kept ls (b b' : Bridge.Bridge) : Bridge.bridge_run ls b = Some b' ->
  Bridge.br_got_up b' ++ Bridge.br_up b' = Bridge.br_got_up b ++ Bridge.br_up b /\
  Bridge.br_got_down b' ++ Bridge.br_down b' = Bridge.br_got_down b ++ Bridge.br_down b /\
  (Bridge.br_closed b' = true -> Bridge.br_closed b = false -> Bridge.br_up b' = [] \/ Bridge.br_down b' = []).
Proof.
  revert b. induction ls as [|l ls IH]; intros b Hr; cbn [Bridge.bridge_run] in Hr; [injection Hr as <-; split_and!; congruence|].
  apply bind_Some in Hr as (b1 & Hs & Hr). unfold Bridge.bridge_step in Hs.
  destruct b as [up down gu gd []]; [done|]. cbn in *.
  destruct l, up as [|u up], down as [|d down]; try done; injection Hs as <-;
    destruct (IH _ Hr) as (H1 & H2 & H3); cbn in *; rewrite <- ?app_assoc in *; (split_and!; [done|done|]); intros Hc _;
    try (by apply H3).
  all: destruct ls as [|l ls]; [injection Hr as <-; cbn; auto|]; exfalso; cbn in Hr; by destruct l.
Qed.
(** Nothing is reordered or invented in either direction, and a bridge that has
    closed had delivered one of the two in full. *)
Lemma bridge_delivers ls up down b :
  Bridge.bridge_run ls (Bridge.start up down) = Some b ->
  Bridge.br_got_up b `prefix_of` up /\ Bridge.br_got_down b `prefix_of` down /\
  (Bridge.br_closed b = true -> Bridge.br_got_up b = up \/ Bridge.br_got_down b = down).
Proof.
  intros Hr. destruct (bridge_kept _ _ _ Hr) as (Hu & Hd & Hc). cbn in *. split_and!.
  - by eexists.
  - by eexists.
  - intros Hcl. destruct (Hc Hcl eq_refl) as [He|He]; rewrite He, app_nil_r in *; auto.
Qed.
(** The end of either direction ends both: a gateway that closes its writing
    half after the request loses an answer still to come. *)
Lemma half_close_loses :
  exists b, Bridge.bridge_run [Bridge.LUp; Bridge.LUpEnd] (Bridge.start ["GET"%string] ["200 OK"%string]) = Some b /\
    Bridge.br_closed b = true /\ Bridge.br_got_down b = [].
Proof. eexists. split; [reflexivity|]. split; reflexivity. Qed.

(** * End to end: a host reaches its own workspace's service *)
Section end_to_end.
Context {Y S : Type} `{Yamux Y} `{StateSink S}.
Notation W := (gmap string Subdomain.Route * Hub Y S)%type.
Hypothesis fresh_stream : forall s y y' st, ym_OpenStream s y = (y', Ok st) -> wr_out (sm_w st) = EmptyString.
Hypothesis yamux_errors : forall s y y' e, ym_OpenStream s y = (y', Err e) -> errors_Is e ErrNoRoute = false.
Variable os : string -> AgentOS.  (* the machine of each workspace *)
Variable zone : string.

(** The agent of a workspace on the bytes of a stream, and its service on a port. *)
Definition agent_on (ws bytes : string) : string :=
  wr_out (dx_out (handleStream (H := os ws) (mkDuplex bytes (mkWriter "" None))).1).
Definition service (ws : string) (port : Z) (req : string) : string :=
  wr_out (dx_out (run_forward (H := os ws) port (mkDuplex req (mkWriter "" None))).1).

(** An exposed port is an [int32]. *)
Definition port_ok (o : Subdomain.op) : Prop :=
  match o with Subdomain.OExpose r => er_Port r < 2 ^ 31 | Subdomain.OUnexpose _ => True end.
Lemma routes_port ops p h rt : Forall port_ok ops -> (forall h rt, p !! h = Some rt -> Subdomain.rt_Port rt < 2 ^ 31) ->
  foldl (Subdomain.run_op zone) p ops !! h = Some rt -> Subdomain.rt_Port rt < 2 ^ 31.
Proof.
  intros Hops. revert p. induction Hops as [|o ops Ho _ IH]; intros p Hp; simpl; [by apply Hp|]. apply IH.
  intros h' rt'. destruct o as [r|ref]; simpl.
  - unfold Subdomain.Expose. destruct (_ || _); [by apply Hp|]. destruct (er_Port r <=? 0); [by apply Hp|]. simpl.
    rewrite lookup_insert. case_decide; [by intros [= <-]|by apply Hp].
  - rewrite lookup_delete_Some. intros [_ ?]. by apply (Hp h').
Qed.
Lemma routes_own ops id name rt :
  Forall Subdomain.op_ok ops -> contains_byte "-" id = false ->
  Subdomain.Lookup (Subdomain.host zone id name) (foldl (Subdomain.run_op zone) ∅ ops) = Some rt ->
  Subdomain.rt_WorkspaceID rt = id /\ Subdomain.rt_Name rt = name /\ 0 < Subdomain.rt_Port rt.
Proof.
  intros Hops Hid Hl. assert (Hok : Subdomain.routes_ok zone (foldl (Subdomain.run_op zone) ∅ ops)).
  { assert (Hstart : Subdomain.routes_ok zone ∅) by (by intros h r; rewrite lookup_empty).
    revert Hstart. generalize (∅ : gmap string Subdomain.Route). clear Hl.
    induction Hops as [|o ops Ho _ IH]; simpl; [done|]. intros p Hp. by apply IH, Subdomain.run_op_ok. }
  destruct (Hok _ _ Hl) as (_ & Hh & Hport & _ & _ & Hd). apply Subdomain.host_inj in Hh as [-> ->]; done.
Qed.

(** The hub's errors are not the gateway's. *)
Lemma writeFrame_errors v (w w' : Writer) e : writeFrame v w = (w', Err e) -> errors_Is e ErrNoRoute = false.
Proof.
  assert (forall s (w w' : Writer) e, Write s w = (w', Err e) -> e = closed_pipe) as HW.
  { intros s0 w0 w1 e0. unfold Write. destruct (wr_room w0) as [k|]; [|done]. destruct (_ <=? _)%nat; [done|]. by intros [= _ <-]. }
  unfold writeFrame. destruct (maxFrame <? _); [by intros [= _ <-]|]. intros [Hb|(w1 & u & _ & Hb)]%bind_err; by apply HW in Hb as ->.
Qed.
Lemma write_or_close_errors prefix v st (h h' : Hub Y S) e :
  write_or_close prefix (writeFrame v) st h = (h', Err e) -> errors_Is e ErrNoRoute = false.
Proof.
  unfold write_or_close. destruct (writeFrame v (sm_w st)) as [w [[]|e0]] eqn:Hw; [done|]. apply writeFrame_errors in Hw.
  intros [Hb|(h1 & u & _ & Hb)]%bind_err.
  - unfold ignore in Hb. by destruct (on_yamux _ h).
  - injection Hb as _ <-. simpl. by rewrite Hw.
Qed.
Lemma OpenForward_errors ws port (h h' : Hub Y S) e : OpenForward ws port h = (h', Err e) -> errors_Is e ErrNoRoute = false.
Proof.
  intros [Ho|(h1 & st & _ & Ho)]%bind_err.
  - apply bind_err in Ho as [Ho|(h0 & s & _ & Ho)]; [done|]. apply bind_err in Ho as [Ho|(h1 & h2 & _ & Ho)]; [done|].
    destruct s as [s|]; [|by injection Ho as _ <-]. destruct (ym_IsClosed _ s); [by injection Ho as _ <-|].
    unfold wrapping, on_yamux, zoom in Ho. destruct (ym_OpenStream s (hb_yamux h1)) as [y [st|e0]] eqn:Hs; [done|].
    injection Ho as _ <-. simpl. by rewrite (yamux_errors _ _ _ _ Hs).
  - apply bind_err in Ho as [Ho|(h2 & st2 & _ & Ho)]; by apply write_or_close_errors in Ho.
Qed.

(** C27. A host of the gateway leads to its own endpoint and nowhere else.  Whatever
    ports the workspaces (whose generated ids have no dash) exposed and
    unexposed: a request for an endpoint's host, with or without a port in the
    Host header, is not found if that workspace has no such endpoint now;
    otherwise either the stream could not be opened and it is a bad gateway, or
    that workspace's agent is connected and the reverse proxy was given one
    connection, to the service listening on the exposed port inside that
    workspace, and its response is the outcome. *)
Theorem gateway_isolated {R} (proxy : string -> M bool Conn -> M bool R) ops id name rhost (h : Hub Y S) p' out :
  Forall Subdomain.op_ok ops -> Forall port_ok ops -> contains_byte "-" id = false ->
  host_of rhost = Subdomain.host zone id name ->
  let routes := foldl (Subdomain.run_op zone) ∅ ops in
  ServeHTTP (H := inProcConnector agent_on) proxy rhost (routes, h) = (p', Ok out) ->
  match Subdomain.Lookup (Subdomain.host zone id name) routes with
  | None => out = GwError 404 ("hopbox-gw: no route for host " +:+ host_of rhost) /\ p' = (routes, h)
  | Some rt =>
      Subdomain.rt_WorkspaceID rt = id /\ Subdomain.rt_Name rt = name /\ 0 < Subdomain.rt_Port rt /\
      ((exists e, out = GwError 502 ("hopbox-gw: connect: " +:+ Error e)) \/
       (opened h id /\ exists c, (forall req, cn_pipe c req = service id (Subdomain.rt_Port rt) req) /\
          out = match (proxy (host_of rhost) (dial_once c) false).2 with
                | Ok r => GwProxied r
                | Err e => GwError 502 ("hopbox-gw: upstream error: " +:+ Error e)
                end))
  end.
Proof.
  intros Hops Hport Hid Hhost routes Hs. unfold ServeHTTP in Hs. rewrite <- Hhost.
  change (cn_Connect (host_of rhost)) with (inproc_Connect (Y := Y) (S := S) agent_on (host_of rhost)) in Hs.
  unfold inproc_Connect in Hs. unfold try, mbind, M_bind, gets in Hs. cbn [fst] in Hs.
  destruct (Subdomain.Lookup (host_of rhost) routes) as [rt|] eqn:Hl.
  2: { injection Hs as <- <-. split; [done|]. done. }
  rewrite Hhost in Hl. destruct (routes_own _ _ _ _ Hops Hid Hl) as (Hws & Hnm & Hp0).
  assert (Subdomain.rt_Port rt < 2 ^ 31) as Hp1.
  { eapply routes_port; [exact Hport| |exact Hl]. by intros h' r'; rewrite lookup_empty. }
  split_and!; [done..|]. unfold zoom in Hs. cbn [snd] in Hs.
  assert (uint32 (Subdomain.rt_Port rt) = Subdomain.rt_Port rt) as Hu by (apply Z.mod_small; lia). rewrite Hu, Hws in Hs.
  destruct (OpenForward id (Subdomain.rt_Port rt) h) as [h' [st|e]] eqn:Ho.
  - assert (forall req, opened h id /\ handleStream (H := os id) (mkDuplex (wr_out (sm_w st) +:+ req) (mkWriter "" None)) =
      run_forward (H := os id) (Subdomain.rt_Port rt) (mkDuplex req (mkWriter "" None))) as Hsv.
    { intros req. apply (OpenForward_served (H := os id) fresh_stream h h'); [lia|done]. }
    right. split; [apply (Hsv EmptyString)|].
    cbn [mret M_ret] in Hs. set (c := mkConn _ _) in Hs. exists c. split.
    + intros req. unfold c. cbn [cn_pipe]. unfold agent_on, service. by rewrite (proj2 (Hsv req)).
    + destruct (proxy (host_of rhost) (dial_once c) false) as [used res]. cbn [snd].
      destruct used; cbn in Hs; [by injection Hs as _ <-|].
      unfold ignore in Hs. destruct (zoom snd _ _ (routes, h')) as [p1 r1]. by injection Hs as _ <-.
  - left. exists e. cbn in Hs. by rewrite (OpenForward_errors _ _ _ _ _ Ho) in Hs; injection Hs as _ <-.
Qed.
End end_to_end.

(** Every host the daemon routes is one a certificate may be issued for. *)
Lemma ask_covers zone ws name : ask zone (Subdomain.host (Subdomain.New zone).1 ws name) = true.
Proof.
  unfold ask, Subdomain.host, Subdomain.New. cbn [fst]. apply orb_true_iff. right.
  assert (name +:+ "-" +:+ ws +:+ "." +:+ trim_prefix "." zone = (name +:+ "-" +:+ ws) +:+ ("." +:+ trim_prefix "." zone)) as ->
    by by rewrite <- !string_app_assoc.
  by rewrite cut_suffix_app.
Qed.

(** * Concrete inputs *)
Section witnesses.
#[local] Existing Instance Net.net.
#[local] Existing Instance Demo.os.
Definition demo_hub : Hub Net.Net (list (string * bool)) := Net.with_closed [] {["0a1b"%string := 1%nat]} [].
Definition demo_ops : list Subdomain.op :=
  [Subdomain.OExpose (mkExposeRequest "0a1b" "app" 8080 "subdomain" "t"); Subdomain.OExpose (mkExposeRequest "ff00" "app" 3000 "subdomain" "t");
   Subdomain.OUnexpose "app-ff00.gw.example.com"]%string.
Definition demo_os (ws : string) : AgentOS := Demo.os.
(** A reverse proxy that sends one request and takes the whole answer. *)
Definition one_request (host : string) (dial : M bool Conn) : M bool string := c ← dial; mret (cn_pipe c "GET").
Definition demo_routes : gmap string Subdomain.Route := foldl (Subdomain.run_op "gw.example.com") ∅ demo_ops.
Notation get host :=
  (ServeHTTP (H := inProcConnector (agent_on demo_os)) one_request host (demo_routes, demo_hub)).

Lemma demo_fresh (s : nat) (y y' : Net.Net) st : ym_OpenStream s y = (y', Ok st) -> wr_out (sm_w st) = EmptyString.
Proof. intros Hs. by injection Hs as _ <-. Qed.
Lemma demo_no_errors (s : nat) (y y' : Net.Net) e : ym_OpenStream s y = (y', Err e) -> errors_Is e ErrNoRoute = false.
Proof. intros Hs. discriminate Hs. Qed.

Lemma gateway_isolated_witness :
  (get "app-0a1b.gw.example.com:443"%string).2 = Ok (GwProxied "echo GET"%string) /\
  (get "app-ff00.gw.example.com"%string).2 = Ok (GwError 404 "hopbox-gw: no route for host app-ff00.gw.example.com").
Proof.
  split; [vm_compute; reflexivity|].
  assert (exists out, (get "app-ff00.gw.example.com"%string).2 = Ok out) as [out Hout] by (eexists; vm_compute; reflexivity).
  destruct (gateway_isolated demo_fresh demo_no_errors demo_os "gw.example.com" one_request demo_ops "ff00" "app"
    "app-ff00.gw.example.com" demo_hub (get "app-ff00.gw.example.com"%string).1 out) as [Hg _].
  - repeat constructor.
  - repeat constructor.
  - reflexivity.
  - vm_compute. reflexivity.
  - rewrite <- Hout. apply surjective_pairing.
  - rewrite Hout, Hg. reflexivity.
Defined.

End witnesses.
