(* ===== verification/Mcp.v ===== *)
(** The AI control plane ([internal/mcp]): rendered surfaces and the events
    people send back ([surface.go]), the backend over the box engine and the
    agent hub ([engine_backend.go]) and the protocol server ([server.go]).

    A message is the JSON value it denotes.  A session is one connection's
    server: what it subscribed to and what was written to it so far.  Callbacks
    run inside the operation that notifies, so its messages come before the
    answer to the request being handled.  Iteration over a session's
    subscriptions is in any order, the argument [range]; other goroutines run
    between operations, as functions on the whole state. *)
From stdpp Require Import base option list strings gmap fin_maps.
From Stdlib Require Import Ascii ZArith Lia.
From S2P Require Import Prelude GoStrings GoTime Json Box Spec Ports Store World Engine Agentproto Agenthub.
Local Open Scope Z_scope.

(** * Surfaces *)
Record SurfaceEvent : Type := mkSurfaceEvent {
  se_Kind : string;
  se_Target : string;
  se_Value : string;
  se_At : Z
}.
Record surface : Type := mkSurface {
  su_html : string;
  su_events : list SurfaceEvent
}.
Record Surfaces : Type := mkSurfaces {
  sf_base : string;
  sf_m : gmap string surface
}.

Definition dq : string := String dquote EmptyString.
Definition nl : string := String (byte_of 10) EmptyString.
(** [strings.TrimRight(s, "/")] *)
Fixpoint trim_right_slash (s : string) : string :=
  match s with
  | EmptyString => EmptyString
  | String c s' =>
      match trim_right_slash s' with
      | EmptyString => if ascii_eqb c "/" then EmptyString else String c EmptyString
      | r => String c r
      end
  end.

Module Surface.
Definition New (base : string) : Surfaces := mkSurfaces base ∅.

(** The surface of a name, made when it is missing. *)
Definition of_name (s : Surfaces) (name : string) : surface := default (mkSurface "" []) (sf_m s !! name).
Definition set (s : Surfaces) (name : string) (su : surface) : Surfaces := mkSurfaces (sf_base s) (<[name := su]> (sf_m s)).

Definition Render (name html : string) (s : Surfaces) : Surfaces * string :=
  (set s name (mkSurface html (su_events (of_name s name))), trim_right_slash (sf_base s) +:+ "/s/" +:+ name).

(** [append([]SurfaceEvent(nil), ...)]: nil when there is none. *)
Definition Events (s : Surfaces) (name : string) : list SurfaceEvent :=
  match sf_m s !! name with Some su => su_events su | None => [] end.

Definition inject_pre : string := "
<script>(function(){
  function send(ev){fetch('/s/".
Definition inject_post : string := "/event',{method:'POST',headers:{'Content-Type':'application/json'},body:JSON.stringify(ev)});}
  document.addEventListener('click',function(e){var t=e.target;send({kind:'click',target:t.id||t.name||t.tagName,value:(t.value||t.textContent||'').slice(0,120)});});
  document.addEventListener('change',function(e){var t=e.target;send({kind:'change',target:t.id||t.name||t.tagName,value:(t.value||'').slice(0,200)});});
})();</script>".
(** [injectJS] printed with the surface's name. *)
Definition injectJS (name : string) : string := inject_pre +:+ name +:+ inject_post.

(** [serve]: the page, or none (404). *)
Definition serve (s : Surfaces) (name : string) : option string :=
  match sf_m s !! name with Some su => Some (su_html su +:+ injectJS name) | None => None end.

Definition event_fields : Fields SurfaceEvent :=
  [("kind", str_field (fun x e => mkSurfaceEvent x (se_Target e) (se_Value e) (se_At e)));
   ("target", str_field (fun x e => mkSurfaceEvent (se_Kind e) x (se_Value e) (se_At e)));
   ("value", str_field (fun x e => mkSurfaceEvent (se_Kind e) (se_Target e) x (se_At e)));
   ("at", int_field 64 (fun x e => mkSurfaceEvent (se_Kind e) (se_Target e) (se_Value e) x))]%string.
(** The first value of at most [1<<16] bytes of body; errors are ignored. *)
Definition max_event : Z := 65536.
Definition decode_event (now : time) (body : string) : SurfaceEvent :=
  let doc := fst <$> parse_value (S (slen body)) (stake (Z.to_nat max_event) body) in
  let ev := unmarshal_ignore event_fields doc (mkSurfaceEvent "" "" "" 0) in
  mkSurfaceEvent (se_Kind ev) (se_Target ev) (se_Value ev) (Unix now).

(** [event], up to [onEvent]. *)
Definition event (now : time) (name body : string) (s : Surfaces) : Surfaces :=
  let su := of_name s name in
  set s name (mkSurface (su_html su) (su_events su ++ [decode_event now body])).
End Surface.

(** * Messages *)
Record FleetBox : Type := mkFleetBox {
  fb_ID : string;
  fb_Name : string;
  fb_Image : string;
  fb_State : string;
  fb_IP : string;
  fb_AgentState : string;
  fb_AgentStatus : string;
  fb_Task : string;
  fb_Result : string;
  fb_Updated : Z
}.
Record SpecBox : Type := mkSpecBox {
  sx_Key : string;
  sx_Image : string;
  sx_Task : string
}.

Definition str_member (k s : string) : list (string * json) := [(k, JStr s)].
Definition oe_member (k s : string) : list (string * json) := omit_empty (bool_decide (s = ""%string)) k (JStr s).
Definition box_json (b : FleetBox) : json :=
  JObj (str_member "id" (fb_ID b) ++ str_member "name" (fb_Name b) ++ oe_member "image" (fb_Image b) ++
        str_member "state" (fb_State b) ++ oe_member "ip" (fb_IP b) ++ oe_member "agent_state" (fb_AgentState b) ++
        oe_member "agent_status" (fb_AgentStatus b) ++ oe_member "task" (fb_Task b) ++ oe_member "result" (fb_Result b) ++
        [("updated", JNum (itoa (fb_Updated b)))]%string).
Definition event_json (e : SurfaceEvent) : json :=
  JObj (str_member "kind" (se_Kind e) ++ oe_member "target" (se_Target e) ++ oe_member "value" (se_Value e) ++
        [("at", JNum (itoa (se_At e)))]%string).
(** A slice that is nil when it is empty. *)
Definition nil_slice (l : list json) : json := match l with [] => JNull | _ => JArr l end.

Record req : Type := mkReq {
  rq_ID : option json;
  rq_Method : string;
  rq_Params : option json
}.
Definition req_fields : Fields req :=
  [("id", raw_field (fun j r => mkReq (Some j) (rq_Method r) (rq_Params r)));
   ("method", str_field (fun s r => mkReq (rq_ID r) s (rq_Params r)));
   ("params", raw_field (fun j r => mkReq (rq_ID r) (rq_Method r) (Some j)))]%string.

Record uri_params : Type := mkUriParams { up_URI : string }.
Definition uri_fields : Fields uri_params := [("uri", str_field (fun s _ => mkUriParams s))]%string.
Record call_params : Type := mkCallParams {
  tc_Name : string;
  tc_Arguments : option json
}.
Definition call_fields : Fields call_params :=
  [("name", str_field (fun s p => mkCallParams s (tc_Arguments p)));
   ("arguments", raw_field (fun j p => mkCallParams (tc_Name p) (Some j)))]%string.
Record text_arg : Type := mkTextArg { ta_Text : string }.
Definition task_fields : Fields text_arg := [("task", str_field (fun s _ => mkTextArg s))]%string.
Definition name_fields : Fields text_arg := [("name", str_field (fun s _ => mkTextArg s))]%string.
Record render_args : Type := mkRenderArgs {
  ra_Name : string;
  ra_HTML : string
}.
Definition render_fields : Fields render_args :=
  [("name", str_field (fun s a => mkRenderArgs s (ra_HTML a)));
   ("html", str_field (fun s a => mkRenderArgs (ra_Name a) s))]%string.
Definition spec_fields : Fields SpecBox :=
  [("key", str_field (fun s b => mkSpecBox s (sx_Image b) (sx_Task b)));
   ("image", str_field (fun s b => mkSpecBox (sx_Key b) s (sx_Task b)));
   ("task", str_field (fun s b => mkSpecBox (sx_Key b) (sx_Image b) s))]%string.
(** An array is stored over the slice element by element. *)
Fixpoint store_boxes (l : list json) (old : list SpecBox) : list SpecBox :=
  match l with
  | [] => []
  | j :: l' =>
      match old with
      | b :: old' => unmarshal_ignore spec_fields (Some j) b :: store_boxes l' old'
      | [] => unmarshal_ignore spec_fields (Some j) (mkSpecBox "" "" "") :: store_boxes l' []
      end
  end.
Record apply_args : Type := mkApplyArgs { aa_Boxes : list SpecBox }.
Definition apply_fields : Fields apply_args :=
  [("boxes"%string, fun j a =>
     match j with
     | JArr l => Ok (mkApplyArgs (store_boxes l (aa_Boxes a)))
     | JNull => Ok (mkApplyArgs [])
     | _ => Err (type_error "boxes")
     end)].

(** * The plane: one backend and the sessions on it *)
Record task : Type := mkTask {
  tk_task : string;
  tk_state : string;
  tk_result : string
}.
Record Session : Type := mkSession {
  ss_subs : gset string;
  ss_out : list json
}.
(** [execHub], with the stream's [Close]. *)
Class ExecHub (B : Type) : Type := {
  eh_Connected : string -> B -> bool;
  eh_OpenExec : string -> list string -> M B Stream;
  eh_Close : Stream -> M B unit
}.
#[export] Instance agenthub_exec {Y S} `{Yamux Y} : ExecHub (Hub Y S) := {|
  eh_Connected ws h := match (Agenthub.Connected ws h).2 with Ok c => c | Err _ => false end;
  eh_OpenExec := Agenthub.OpenExec;
  eh_Close st := on_yamux (ym_CloseStream (sm_id st))
|}.

Record Plane (S C H B : Type) : Type := mkPlane {
  pl_world : World S C H;              (* b.engine *)
  pl_hub : B;
  pl_surfaces : Surfaces;
  pl_tasks : gmap string task;
  pl_keys : gmap string string;
  pl_subs : gmap nat nat;              (* the session whose notifyAll it is *)
  pl_nextSub : nat;
  pl_sessions : gmap nat Session;
  pl_spawned : list (string * string)  (* go b.runTask(id, taskCmd, ...) *)
}.
Arguments mkPlane {S C H B}.
Arguments pl_world {S C H B}.
Arguments pl_hub {S C H B}.
Arguments pl_surfaces {S C H B}.
Arguments pl_tasks {S C H B}.
Arguments pl_keys {S C H B}.
Arguments pl_subs {S C H B}.
Arguments pl_nextSub {S C H B}.
Arguments pl_sessions {S C H B}.
Arguments pl_spawned {S C H B}.

Section setters.
Context {S C H B : Type}.
#[export] Instance set_pl_world : Setter (@pl_world S C H B) := fun f p =>
  mkPlane (f (pl_world p)) (pl_hub p) (pl_surfaces p) (pl_tasks p) (pl_keys p) (pl_subs p) (pl_nextSub p) (pl_sessions p) (pl_spawned p).
#[export] Instance set_pl_hub : Setter (@pl_hub S C H B) := fun f p =>
  mkPlane (pl_world p) (f (pl_hub p)) (pl_surfaces p) (pl_tasks p) (pl_keys p) (pl_subs p) (pl_nextSub p) (pl_sessions p) (pl_spawned p).
#[export] Instance set_pl_surfaces : Setter (@pl_surfaces S C H B) := fun f p =>
  mkPlane (pl_world p) (pl_hub p) (f (pl_surfaces p)) (pl_tasks p) (pl_keys p) (pl_subs p) (pl_nextSub p) (pl_sessions p) (pl_spawned p).
#[export] Instance set_pl_tasks : Setter (@pl_tasks S C H B) := fun f p =>
  mkPlane (pl_world p) (pl_hub p) (pl_surfaces p) (f (pl_tasks p)) (pl_keys p) (pl_subs p) (pl_nextSub p) (pl_sessions p) (pl_spawned p).
#[export] Instance set_pl_keys : Setter (@pl_keys S C H B) := fun f p =>
  mkPlane (pl_world p) (pl_hub p) (pl_surfaces p) (pl_tasks p) (f (pl_keys p)) (pl_subs p) (pl_nextSub p) (pl_sessions p) (pl_spawned p).
#[export] Instance set_pl_subs : Setter (@pl_subs S C H B) := fun f p =>
  mkPlane (pl_world p) (pl_hub p) (pl_surfaces p) (pl_tasks p) (pl_keys p) (f (pl_subs p)) (pl_nextSub p) (pl_sessions p) (pl_spawned p).
#[export] Instance set_pl_nextSub : Setter (@pl_nextSub S C H B) := fun f p =>
  mkPlane (pl_world p) (pl_hub p) (pl_surfaces p) (pl_tasks p) (pl_keys p) (pl_subs p) (f (pl_nextSub p)) (pl_sessions p) (pl_spawned p).
#[export] Instance set_pl_sessions : Setter (@pl_sessions S C H B) := fun f p =>
  mkPlane (pl_world p) (pl_hub p) (pl_surfaces p) (pl_tasks p) (pl_keys p) (pl_subs p) (pl_nextSub p) (f (pl_sessions p)) (pl_spawned p).
#[export] Instance set_pl_spawned : Setter (@pl_spawned S C H B) := fun f p =>
  mkPlane (pl_world p) (pl_hub p) (pl_surfaces p) (pl_tasks p) (pl_keys p) (pl_subs p) (pl_nextSub p) (pl_sessions p) (f (pl_spawned p)).
End setters.

(** The notification of a changed resource. *)
Definition updated (uri : string) : json :=
  JObj [("jsonrpc", JStr "2.0"); ("method", JStr "notifications/resources/updated"); ("params", JObj [("uri", JStr uri)])]%string.
Definition write_out (msgs : list json) (s : Session) : Session := mkSession (ss_subs s) (ss_out s ++ msgs).

(** [fmt.Sprintf("mcp-%d", time.Now().UnixNano()%1e6)] *)
Definition mcp_name (now : time) : string := "mcp-" +:+ itoa (Z.rem (wrap64 (now - unix_epoch * Second)) 1000000).

Section plane.
Context {S C H B : Type} `{BoxStore S} `{ExecHub B}.
Notation P := (Plane S C H B).
Variable newID : nat -> string.
Variable wake : string -> string -> M (World S C H) unit.
Variable cfg : EngineConfig.
Variable range : gset string -> list string.

Definition on_engine {A} (m : M (World S C H) A) : M P A := zoom pl_world (fun w p => p <| pl_world := w |>) m.
Definition on_hub {A} (m : M B A) : M P A := zoom pl_hub (fun b p => p <| pl_hub := b |>) m.
Definition at_session (n : nat) (f : Session -> Session) : M P unit :=
  modify (fun p => p <| pl_sessions := alter f n (pl_sessions p) |>).

(** ** The backend *)
Definition owner : string := "mcp".

(** [Server.notifyAll] of session [n]. *)
Definition notifyAll (n : nat) : M P unit := at_session n (fun s => write_out (map updated (range (ss_subs s))) s).

Definition notify : M P unit :=
  p ← gets id;
  mfor (map snd (map_to_list (pl_subs p))) notifyAll.

(** [OnChange] with session [n]'s callback: the subscription to cancel. *)
Definition OnChange (n : nat) : M P nat := fun p =>
  (p <| pl_nextSub := Datatypes.S (pl_nextSub p) |> <| pl_subs := <[pl_nextSub p := n]> (pl_subs p) |>, Ok (pl_nextSub p)).
Definition cancel (sub : nat) : M P unit := modify (fun p => p <| pl_subs := delete sub (pl_subs p) |>).

Definition setTask (id taskCmd state result : string) : M P unit :=
  modify (fun p => p <| pl_tasks := <[id := mkTask taskCmd state result]> (pl_tasks p) |>) ;;
  notify.

Definition fleet_box (tasks : gmap string task) (bx : Box) : FleetBox :=
  let v := mkFleetBox (b_ID bx) (b_Name bx) (b_ImageRef bx) (phase_string (b_Phase bx)) (b_IP bx)
             (b_AgentState bx) (b_AgentStatus bx) "" "" (Unix (b_UpdatedAt bx)) in
  match tasks !! b_ID bx with
  | None => v
  | Some t =>
      mkFleetBox (fb_ID v) (fb_Name v) (fb_Image v)
        (if bool_decide (tk_state t = ""%string) then fb_State v else tk_state t)
        (fb_IP v) (fb_AgentState v) (fb_AgentStatus v) (tk_task t) (tk_result t) (fb_Updated v)
  end.
Definition Fleet : M P (list FleetBox) :=
  boxes ← try (on_engine (Engine.List cfg));
  p ← gets id;
  mret (map (fleet_box (pl_tasks p)) (match boxes with Ok l => l | Err _ => [] end)).

Definition release (id : string) : M P unit := ignore (on_engine (releaser wake cfg id)).

Definition Spawn (name : string) : M P string :=
  now ← on_engine clock;
  let name := if bool_decide (name = ""%string) then mcp_name now else name in
  bx ← on_engine (Attach newID wake cfg owner name);
  release (b_ID bx) ;;
  notify ;;
  mret (b_ID bx).

Definition delegateNamed (username taskCmd : string) : M P string :=
  bx ← on_engine (Attach newID wake cfg owner username);
  setTask (b_ID bx) taskCmd "working" "" ;;
  modify (fun p => p <| pl_spawned := pl_spawned p ++ [(b_ID bx, taskCmd)] |>) ;;
  mret (b_ID bx).

Definition Delegate (taskCmd : string) : M P string :=
  now ← on_engine clock;
  delegateNamed (mcp_name now) taskCmd.

Definition fleet_username (sb : SpecBox) : string :=
  "fleet-" +:+ sx_Key sb +:+ (if bool_decide (sx_Image sb = ""%string) then "" else ":" +:+ sx_Image sb).

(** The loop of [Apply]: the ids created, and the error it stopped at. *)
Fixpoint apply_loop (live : list string) (created : list string) (spec : list SpecBox) : M P (list string * option error) :=
  match spec with
  | [] => mret (created, None)
  | sb :: spec' =>
      if bool_decide (sx_Key sb = ""%string) then apply_loop live created spec'
      else
        p ← gets id;
        if match pl_keys p !! sx_Key sb with Some existing => bool_decide (existing ∈ live) | None => false end
        then apply_loop live created spec'
        else
          r ← try (delegateNamed (fleet_username sb) (sx_Task sb));
          match r with
          | Err e => mret (created, Some e)
          | Ok id =>
              modify (fun p => p <| pl_keys := <[sx_Key sb := id]> (pl_keys p) |>) ;;
              apply_loop live (created ++ [id]) spec'
          end
  end.
Definition Apply (spec : list SpecBox) : M P (list string * option error) :=
  fl ← Fleet;
  apply_loop (map fb_ID fl) [] spec.

Definition RenderSurface (name html : string) : M P string := fun p =>
  let '(s, url) := Surface.Render name html (pl_surfaces p) in (p <| pl_surfaces := s |>, Ok url).
Definition SurfaceEvents (name : string) : M P (list SurfaceEvent) :=
  gets (fun p => Surface.Events (pl_surfaces p) name).
(** [POST /s/{name}/event]: the interaction, then [onEvent]. *)
Definition surface_event (name body : string) : M P unit :=
  now ← on_engine clock;
  modify (fun p => p <| pl_surfaces := Surface.event now name body (pl_surfaces p) |>) ;;
  notify.

(** ** [runTask], on a goroutine of its own *)
Definition task_patience : duration := 90 * Second.

(** The wait for the agent: what others do while it sleeps, sleep by sleep;
    [None] when it still waits after them. *)
Fixpoint task_wait (id taskCmd : string) (deadline : time) (sleeps : list (P -> P)) : M P (option bool) :=
  p ← gets Datatypes.id;
  if eh_Connected id (pl_hub p) then mret (Some true)
  else
    st ← on_engine (State cfg id);
    match st with
    | Some (PhaseFailed, _) => setTask id taskCmd "failed" "box failed to start" ;; mret (Some false)
    | _ =>
        now ← on_engine clock;
        if After now deadline then setTask id taskCmd "failed" "box not ready in time" ;; mret (Some false)
        else match sleeps with
             | [] => mret None
             | others :: sleeps' => modify others ;; task_wait id taskCmd deadline sleeps'
             end
    end.

(** The loop over the frames: the output and the exit code so far. *)
Fixpoint collect (fuel : nat) (stream out : string) (code : Z) : option (string * Z) :=
  match fuel with
  | O => None
  | Datatypes.S f =>
      match ReadExecFrame stream with
      | (_, Err _) => Some (out, code)
      | (stream', Ok (typ, data, c)) =>
          if bool_decide (typ = ExecStdout) || bool_decide (typ = ExecStderr) then collect f stream' (out +:+ data) code
          else if bool_decide (typ = ExecExit) then Some (out, c)
          else collect f stream' out code
      end
  end.

(** What the task's stream comes to: its state and its result. *)
Definition outcome (stream : string) : option (string * string) :=
  (fun oc : string * Z => ((if (oc.2 =? 0)%Z then "done" else "failed")%string, trim_space oc.1))
    <$> collect (Datatypes.S (slen stream)) stream "" 0.

Definition task_cmd (taskCmd : string) : list string := ["/bin/sh"; "-c"; taskCmd]%string.

(** [agent]: the bytes the agent answers to those written on the stream;
    [others]: what happens while the task runs.  [None] when it still waits. *)
Definition runTask (id taskCmd : string) (sleeps : list (P -> P)) (agent : string -> string) (others : P -> P) : M P (option unit) :=
  start ← on_engine clock;
  ready ← task_wait id taskCmd (Add start task_patience) sleeps;
  match ready with
  | None => mret None
  | Some false => release id ;; mret (Some tt)
  | Some true =>
      s ← try (on_hub (eh_OpenExec id (task_cmd taskCmd)));
      match s with
      | Err e => setTask id taskCmd "failed" (Error e) ;; release id ;; mret (Some tt)
      | Ok st =>
          modify others ;;
          match outcome (agent (wr_out (sm_w st))) with
          | None => mret None
          | Some (state, result) =>
              setTask id taskCmd state result ;;
              ignore (on_hub (eh_Close st)) ;; release id ;; mret (Some tt)
          end
      end
  end.

(** A tick of [watch]: [last] is the fleet's shape at the previous one. *)
Definition fleet_shape (fl : list FleetBox) : string :=
  join "" (map (fun b => fb_ID b +:+ fb_State b +:+ fb_AgentState b +:+ fb_AgentStatus b +:+ ";") fl).
Definition watch_tick (last : string) : M P string :=
  fl ← Fleet;
  let cur := fleet_shape fl in
  if bool_decide (cur = last) then mret last else notify ;; mret cur.

(** ** The server: one session *)
Definition guide : string :=
  "hopbox is a live control plane for isolated cloud boxes, shared by humans and AIs.
It is EVENT-DRIVEN: subscribe to resources and react to pushed changes — never poll.

RESOURCES (resources/subscribe, then react to notifications/resources/updated):
- hopbox://fleet — every box with its live phase and the agent's self-reported status.
- hopbox://surface/<name>/events — a rendered surface's interaction events.

TOOLS:
- box.delegate {task} — spawn a box, run a task; watch hopbox://fleet for the result.
- fleet.apply {boxes:[{key,image,task}]} — declare a desired set of task-boxes; hopbox
  converges to it, idempotent per key. Prefer this over many box.delegate calls.
- surface.render {name,html} — the CANVAS LOOP, below.
- box.spawn, fleet.get — spawn an empty box / snapshot the fleet.

THE CANVAS LOOP — talk to humans with more than text:
When you need a human's decision, input, approval, or attention, you are NOT limited to
chat. Render an interactive UI and watch them use it, live:
" +:+
  "  1. surface.render {name:" +:+ dq +:+ "approve" +:+ dq +:+ ", html:" +:+ dq +:+ "<h3>Deploy?</h3><button id=ok>Approve</button>" +:+ dq +:+ "}" +:+ nl +:+
  "     returns a URL — give it to the human.
  2. resources/subscribe hopbox://surface/approve/events.
  3. Each click/input is PUSHED to you as {kind,target,value}. React: re-render the surface,
     branch your work, or unblock a waiting task. You can even block until a specific
     interaction happens (e.g. an approval), then continue autonomously.
Reach for this for approvals and gates, choices, forms, and dashboards you update live —
anytime showing beats telling. The loop is bidirectional: you render, they act, you
observe, you respond. It is a primary way to collaborate with a human here, not a fallback.".

Definition empty_obj : json := JObj [].
Definition of_type (t : string) (rest : list (string * json)) : json := JObj (rest ++ [("type"%string, JStr t)]).
Definition tool (name description : string) (schema : json) : json :=
  JObj [("description", JStr description); ("inputSchema", schema); ("name", JStr name)]%string.
Definition string_schema : json := of_type "string" [].
Definition tools : list json :=
  [tool "box.delegate" "Spawn a box and run a task on it. Returns immediately with an id; watch hopbox://fleet for completion."
     (JObj [("properties", JObj [("task", string_schema)]); ("required", JArr [JStr "task"]); ("type", JStr "object")]);
   tool "box.spawn" "Spawn a box (no task)."
     (of_type "object" [("properties", JObj [("name", string_schema)])]);
   tool "fleet.apply" "Declare a desired set of task-boxes and converge to it (idempotent per key). Spawns each key whose box is absent; watch hopbox://fleet."
     (JObj [("properties", JObj [("boxes",
         JObj [("items", JObj [("properties", JObj [("image", string_schema); ("key", string_schema); ("task", string_schema)]);
                               ("required", JArr [JStr "key"]); ("type", JStr "object")]);
               ("type", JStr "array")])]);
       ("required", JArr [JStr "boxes"]); ("type", JStr "object")]);
   tool "surface.render" "Render an interactive HTML canvas at a URL; the user's clicks/inputs come back via hopbox://surface/<name>/events (the canvas loop)."
     (JObj [("properties", JObj [("html", string_schema); ("name", string_schema)]);
            ("required", JArr [JStr "name"; JStr "html"]); ("type", JStr "object")]);
   tool "fleet.get" "Snapshot of every box and its state." (of_type "object" [("properties", empty_obj)])]%string.

Definition initialize_result : json :=
  JObj [("capabilities", JObj [("resources", JObj [("subscribe", JBool true)]); ("tools", empty_obj)]);
        ("instructions", JStr guide); ("protocolVersion", JStr "2024-11-05");
        ("serverInfo", JObj [("name", JStr "hopbox"); ("version", JStr "0.1")])]%string.
Definition resource (uri name mime description : string) : json :=
  JObj [("description", JStr description); ("mimeType", JStr mime); ("name", JStr name); ("uri", JStr uri)]%string.
Definition resources : json :=
  JObj [("resources", JArr
    [resource "hopbox://guide" "guide" "text/markdown" "how to use hopbox, including the canvas loop for talking to humans";
     resource "hopbox://fleet" "fleet" "application/json" "every box and its live state"])]%string.

(** [resp] *)
Definition id_member (id : option json) : list (string * json) :=
  match id with Some j => [("id"%string, j)] | None => [] end.
Definition respond (id : option json) (body : string * json) : json :=
  JObj ([("jsonrpc"%string, JStr "2.0")] ++ id_member id ++ [body]).
Definition rpcErr (code : Z) (message : string) : string * json :=
  ("error", JObj [("code", JNum (itoa code)); ("message", JStr message)])%string.

Section session.
Variable n : nat.

Definition send (v : json) : M P unit := at_session n (write_out [v]).
Definition reply (id : option json) (result : json) : M P unit := send (respond id ("result"%string, result)).
Definition content (t : string) (isError : bool) : json :=
  JObj [("content", JArr [JObj [("text", JStr t); ("type", JStr "text")]]); ("isError", JBool isError)]%string.

Definition fleetJSON : M P string :=
  fl ← Fleet;
  mret (print (JArr (map box_json fl))).

Definition surface_prefix : string := "hopbox://surface/".
Definition readResource (uri : string) : M P string :=
  match cut_prefix surface_prefix uri with
  | Some rest =>
      evs ← SurfaceEvents (default rest (cut_suffix "/events" rest));
      mret (print (nil_slice (map event_json evs)))
  | None => fleetJSON
  end.

Definition text (r : req) (t : string) : M P unit := reply (rq_ID r) (content t false).
Definition fail (r : req) (e : error) : M P unit := reply (rq_ID r) (content (Error e) true).

Definition toolCall (r : req) : M P unit :=
  let p := unmarshal_ignore call_fields (rq_Params r) (mkCallParams "" None) in
  let arg {T} (fs : Fields T) (zero : T) : T := unmarshal_ignore fs (tc_Arguments p) zero in
  if bool_decide (tc_Name p = "box.delegate"%string) then
    let a := arg task_fields (mkTextArg "") in
    x ← try (Delegate (ta_Text a));
    match x with
    | Err e => fail r e
    | Ok id => text r ("delegated (box " +:+ id +:+ "); watch hopbox://fleet")
    end
  else if bool_decide (tc_Name p = "box.spawn"%string) then
    let a := arg name_fields (mkTextArg "") in
    x ← try (Spawn (ta_Text a));
    match x with
    | Err e => fail r e
    | Ok id => text r ("spawned box " +:+ id)
    end
  else if bool_decide (tc_Name p = "fleet.apply"%string) then
    let a := arg apply_fields (mkApplyArgs []) in
    x ← Apply (aa_Boxes a);
    match x with
    | (_, Some e) => fail r e
    | (created, None) =>
        let k := Z.of_nat (length (aa_Boxes a)) in
        let c := Z.of_nat (length created) in
        text r ("applied " +:+ itoa k +:+ " box(es): " +:+ itoa c +:+ " created, " +:+ itoa (k - c)
          +:+ " already present; watch hopbox://fleet")
    end
  else if bool_decide (tc_Name p = "surface.render"%string) then
    let a := arg render_fields (mkRenderArgs "" "") in
    url ← RenderSurface (ra_Name a) (ra_HTML a);
    text r ("surface " +:+ quote (ra_Name a) +:+ " at " +:+ url +:+ " — subscribe hopbox://surface/" +:+ ra_Name a +:+ "/events")
  else if bool_decide (tc_Name p = "fleet.get"%string) then
    t ← fleetJSON;
    text r t
  else send (respond (rq_ID r) (rpcErr (-32602) ("unknown tool: " +:+ tc_Name p))).

Definition handle (r : req) : M P unit :=
  let uri := up_URI (unmarshal_ignore uri_fields (rq_Params r) (mkUriParams "")) in
  if bool_decide (rq_Method r = "initialize"%string) then reply (rq_ID r) initialize_result
  else if bool_decide (rq_Method r = "notifications/initialized"%string) then mret tt
  else if bool_decide (rq_Method r = "tools/list"%string) then reply (rq_ID r) (JObj [("tools"%string, JArr tools)])
  else if bool_decide (rq_Method r = "tools/call"%string) then toolCall r
  else if bool_decide (rq_Method r = "resources/list"%string) then reply (rq_ID r) resources
  else if bool_decide (rq_Method r = "resources/read"%string) then
    let uri := if bool_decide (uri = ""%string) then "hopbox://fleet"%string else uri in
    body ← readResource uri;
    let '(mime, body) := if bool_decide (uri = "hopbox://guide"%string) then ("text/markdown"%string, guide)
                         else ("application/json"%string, body) in
    reply (rq_ID r) (JObj [("contents", JArr [JObj [("mimeType", JStr mime); ("text", JStr body); ("uri", JStr uri)]])]%string)
  else if bool_decide (rq_Method r = "resources/subscribe"%string) then
    at_session n (fun s => mkSession ({[uri]} ∪ ss_subs s) (ss_out s)) ;;
    reply (rq_ID r) empty_obj
  else match rq_ID r with
       | Some _ => send (respond (rq_ID r) (rpcErr (-32601) ("method not found: " +:+ rq_Method r)))
       | None => mret tt
       end.

(** The loop of [Serve]: each message with what others do before it comes. *)
Fixpoint serve_loop (docs : list ((P -> P) * json)) : M P unit :=
  match docs with
  | [] => mret tt
  | (others, doc) :: docs' =>
      modify others ;;
      match decode_struct req_fields doc (mkReq None "" None) with
      | Err _ => mret tt
      | Ok r => handle r ;; serve_loop docs'
      end
  end.
(** [NewServer(be).Serve(in, out)] *)
Definition Serve (docs : list ((P -> P) * json)) : M P unit :=
  modify (fun p => p <| pl_sessions := <[n := mkSession ∅ []]> (pl_sessions p) |>) ;;
  sub ← OnChange n;
  serve_loop docs ;;
  cancel sub.
End session.
End plane.

(** * Lemmas: what a session sees of an operation *)
Section sessions.
Context {S C H B : Type} `{BoxStore S} `{ExecHub B}.
Notation P := (Plane S C H B).
Variable newID : nat -> string.
Variable wake : string -> string -> M (World S C H) unit.
Variable cfg : EngineConfig.
Variable range : gset string -> list string.
Hypothesis range_all : forall X, range X ≡ₚ elements X.

Definition noted (s s' : Session) : Prop :=
  exists notes, (forall u, u ∈ notes -> u ∈ ss_subs s) /\ s' = write_out (map updated notes) s.
(** Between the two states, sessions were only sent notifications of resources
    they are subscribed to. *)
Definition notes_only (p p' : P) : Prop := forall m : nat, option_relation noted (fun _ => False) (fun _ => False) (pl_sessions p !! m) (pl_sessions p' !! m).

Lemma noted_refl s : noted s s.
Proof. exists []. split; [by intros u ?%not_elem_of_nil|]. destruct s as [X out]. unfold write_out. simpl. by rewrite app_nil_r. Qed.
Lemma noted_trans s1 s2 s3 : noted s1 s2 -> noted s2 s3 -> noted s1 s3.
Proof.
  intros (n1 & Hn1 & ->) (n2 & Hn2 & ->). exists (n1 ++ n2). split.
  - intros u [?|?]%elem_of_app; [by apply Hn1|by apply Hn2].
  - unfold write_out. simpl. by rewrite map_app, <- app_assoc.
Qed.
Lemma notes_refl p : notes_only p p.
Proof. intros m. destruct (pl_sessions p !! m); [apply noted_refl|done]. Qed.
Lemma notes_same p p' : pl_sessions p' = pl_sessions p -> notes_only p p'.
Proof. intros He m. rewrite He. apply notes_refl. Qed.
Lemma notes_trans p1 p2 p3 : notes_only p1 p2 -> notes_only p2 p3 -> notes_only p1 p3.
Proof.
  intros H12 H23 m. specialize (H12 m). specialize (H23 m).
  destruct (pl_sessions p1 !! m), (pl_sessions p2 !! m), (pl_sessions p3 !! m); simpl in *; try done.
  by eapply noted_trans.
Qed.

(** An operation that answers nothing, and one that moreover never fails. *)
Definition calm {A} (m : M P A) : Prop := forall p, wp m (fun p' _ => notes_only p p') p.
Definition calm_total {A} (m : M P A) : Prop := forall p, wp m (fun p' r => notes_only p p' /\ is_ok r = true) p.

Lemma calm_of_total {A} (m : M P A) : calm_total m -> calm m.
Proof. intros Hm p. eapply wp_mono; [apply Hm|]. by intros ? ? []. Qed.
Lemma calm_bind {A A'} (m : M P A) (f : A -> M P A') : calm m -> (forall a, calm (f a)) -> calm (m ≫= f).
Proof.
  intros Hm Hf p. apply wp_bind. eapply wp_mono; [apply Hm|]. intros p1 [a|e] Hn1; [|done].
  eapply wp_mono; [apply Hf|]. intros p2 r Hn2. by eapply notes_trans.
Qed.
Lemma total_bind {A A'} (m : M P A) (f : A -> M P A') : calm_total m -> (forall a, calm_total (f a)) -> calm_total (m ≫= f).
Proof.
  intros Hm Hf p. apply wp_bind. eapply wp_mono; [apply Hm|]. intros p1 [a|e] [Hn1 Hok]; [|done].
  eapply wp_mono; [apply Hf|]. intros p2 r [Hn2 ?]. split; [by eapply notes_trans|done].
Qed.
Lemma calm_engine {A} (m : M (World S C H) A) : calm (on_engine m : M P A).
Proof. intros p. unfold wp, on_engine, zoom. destruct (m (pl_world p)). by apply notes_same. Qed.
Lemma total_clock : calm_total (on_engine clock : M P time).
Proof. intros p. split; [by apply notes_same|done]. Qed.
Lemma total_try {A} (m : M P A) : calm m -> calm_total (try m).
Proof. intros Hm p. apply wp_try. eapply wp_mono; [apply Hm|]. done. Qed.
Lemma total_ignore {A} (m : M P A) : calm m -> calm_total (ignore m).
Proof. intros Hm p. apply wp_ignore. eapply wp_mono; [apply Hm|]. done. Qed.
Lemma total_ret {A} (a : A) : calm_total (mret a : M P A).
Proof. intros p. split; [apply notes_refl|done]. Qed.
Lemma total_gets {A} (f : P -> A) : calm_total (gets f).
Proof. intros p. split; [apply notes_refl|done]. Qed.
Lemma total_modify (f : P -> P) : (forall p, pl_sessions (f p) = pl_sessions p) -> calm_total (modify f).
Proof. intros Hf p. split; [by apply notes_same|done]. Qed.

Lemma total_notifyAll n : calm_total (notifyAll range n : M P unit).
Proof.
  intros p. split; [|done]. intros m. simpl. destruct (decide (m = n)) as [->|Hm].
  - rewrite lookup_alter_eq. destruct (pl_sessions p !! n) as [s|]; [|done]. exists (range (ss_subs s)). split; [|done].
    intros u. by rewrite range_all, elem_of_elements.
  - rewrite lookup_alter_ne by done. apply notes_refl.
Qed.
Lemma total_mfor {A} (l : list A) (m : A -> M P unit) : (forall a, calm_total (m a)) -> calm_total (mfor l m).
Proof. intros Hm. induction l as [|a l IH]; [apply total_ret|]. cbn [mfor]. by apply total_bind. Qed.
Lemma total_notify : calm_total (notify range : M P unit).
Proof. apply total_bind; [apply total_gets|]. intros p. apply total_mfor, total_notifyAll. Qed.
Lemma total_setTask id t st res : calm_total (setTask range id t st res : M P unit).
Proof. apply total_bind; [by apply total_modify|]. intros _. apply total_notify. Qed.
Lemma total_Fleet : calm_total (Fleet cfg : M P (list FleetBox)).
Proof.
  apply total_bind; [apply total_try, calm_engine|]. intros l. apply total_bind; [apply total_gets|]. intros p. apply total_ret.
Qed.
Lemma calm_delegateNamed u t : calm (delegateNamed newID wake cfg range u t : M P string).
Proof.
  apply calm_bind; [apply calm_engine|]. intros bx. apply calm_bind; [apply calm_of_total, total_setTask|]. intros _.
  apply calm_of_total, total_bind; [by apply total_modify|]. intros _. apply total_ret.
Qed.
Lemma calm_Delegate t : calm (Delegate newID wake cfg range t : M P string).
Proof. apply calm_bind; [apply calm_engine|]. intros now. apply calm_delegateNamed. Qed.
Lemma calm_Spawn name : calm (Spawn newID wake cfg range name : M P string).
Proof.
  apply calm_bind; [apply calm_engine|]. intros now. apply calm_bind; [apply calm_engine|]. intros bx.
  apply calm_of_total, total_bind; [apply total_ignore, calm_engine|]. intros _.
  apply total_bind; [apply total_notify|]. intros _. apply total_ret.
Qed.
Lemma total_Apply spec : calm_total (Apply newID wake cfg range spec : M P _).
Proof.
  apply total_bind; [apply total_Fleet|]. intros fl. generalize (@nil string) as created.
  induction spec as [|sb spec IH]; intros created; cbn [apply_loop]; [apply total_ret|].
  destruct (bool_decide _); [apply IH|]. apply total_bind; [apply total_gets|]. intros p.
  destruct (match pl_keys _ !! _ with Some _ => _ | None => _ end); [apply IH|].
  apply total_bind; [apply total_try, calm_delegateNamed|]. intros [id|e]; [|apply total_ret].
  apply total_bind; [by apply total_modify|]. intros _. apply IH.
Qed.

(** An operation that sends session [n] one answer to [id], after any
    notifications. *)
Definition answers (n : nat) (id : option json) (m : M P unit) : Prop := forall p, wp m (fun p' r =>
  exists p1 body, notes_only p p1 /\ (body.1 = "result"%string \/ body.1 = "error"%string) /\ r = Ok tt /\
    pl_sessions p' = alter (write_out [respond id body]) n (pl_sessions p1)) p.

Lemma answers_bind {A} n id (m : M P A) (f : A -> M P unit) : calm_total m -> (forall a, answers n id (f a)) -> answers n id (m ≫= f).
Proof.
  intros Hm Hf p. apply wp_bind. eapply wp_mono; [apply Hm|]. intros p1 [a|e] [Hn1 Hok]; [|done].
  eapply wp_mono; [apply Hf|]. intros p2 r (p3 & body & Hn3 & Hrest). exists p3, body. split; [by eapply notes_trans|done].
Qed.
Lemma answers_send n id body : body.1 = "result"%string \/ body.1 = "error"%string -> answers n id (send n (respond id body)).
Proof. intros Hb p. exists p, body. split; [apply notes_refl|done]. Qed.
Lemma answers_reply n id j : answers n id (reply n id j).
Proof. apply answers_send. by left. Qed.
Lemma total_fleetJSON : calm_total (fleetJSON cfg : M P string).
Proof. apply total_bind; [apply total_Fleet|]. intros fl. apply total_ret. Qed.
Lemma total_readResource uri : calm_total (readResource cfg uri : M P string).
Proof.
  unfold readResource. destruct (cut_prefix _ uri); [|apply total_fleetJSON].
  apply total_bind; [apply total_gets|]. intros evs. apply total_ret.
Qed.
Create HintDb mcp.
#[local] Hint Resolve total_try calm_Delegate calm_Spawn total_Apply total_readResource total_fleetJSON answers_reply : mcp.

Lemma toolCall_answers n r : answers n (rq_ID r) (toolCall newID wake cfg range n r).
Proof.
  unfold toolCall. cbv zeta. repeat case_bool_decide.
  - apply answers_bind; [auto with mcp|]. intros [x|e]; apply answers_reply.
  - apply answers_bind; [auto with mcp|]. intros [x|e]; apply answers_reply.
  - apply answers_bind; [auto with mcp|]. intros [x [e|]]; apply answers_reply.
  - apply answers_bind; [|intros url; apply answers_reply]. intros p. unfold wp, RenderSurface.
    destruct (Surface.Render _ _ _). split; [by apply notes_same|done].
  - apply answers_bind; [auto with mcp|]. intros t. apply answers_reply.
  - apply answers_send. by right.
Qed.

(** The messages the server does not answer. *)
Definition known_methods : list string :=
  ["initialize"; "tools/list"; "tools/call"; "resources/list"; "resources/read"; "resources/subscribe"]%string.
Definition silent (r : req) : bool :=
  bool_decide (rq_Method r = "notifications/initialized"%string) ||
  (negb (existsb (fun k => bool_decide (k = rq_Method r)) known_methods) && match rq_ID r with None => true | Some _ => false end).
Definition subscribed_uri (r : req) : option string :=
  if bool_decide (rq_Method r = "resources/subscribe"%string)
  then Some (up_URI (unmarshal_ignore uri_fields (rq_Params r) (mkUriParams ""))) else None.

(** What a message does to the sessions. *)
Definition handled (n : nat) (r : req) (p p' : P) (res : result unit) : Prop :=
  res = Ok tt /\
  if silent r then pl_sessions p' = pl_sessions p
  else exists p1 body, notes_only p p1 /\ (body.1 = "result"%string \/ body.1 = "error"%string) /\
    pl_sessions p' = alter (fun s => write_out [respond (rq_ID r) body]
      (mkSession (match subscribed_uri r with Some uri => {[uri]} ∪ ss_subs s | None => ss_subs s end) (ss_out s))) n (pl_sessions p1).

Lemma handled_answers n r m : silent r = false -> subscribed_uri r = None -> answers n (rq_ID r) m ->
  forall p, wp m (handled n r p) p.
Proof.
  intros Hs Hu Hm p. eapply wp_mono; [apply Hm|]. intros p' res (p1 & body & Hn & Hb & -> & He). split; [done|]. rewrite Hs, Hu.
  exists p1, body. split_and!; [done..|]. rewrite He. apply alter_ext. by intros [X out] _.
Qed.
(** The method at hand decides both. *)
Ltac by_method :=
  match goal with He : rq_Method ?r = _ |- _ => unfold silent, subscribed_uri; rewrite He; by destruct (rq_ID r) end.
Lemma handle_handled n r p : wp (handle newID wake cfg range n r) (handled n r p) p.
Proof.
  unfold handle. cbv zeta.
  case_bool_decide; [apply handled_answers; [by_method..|]; apply answers_reply|].
  case_bool_decide; [split; [done|]; by replace (silent r) with true by by_method|].
  case_bool_decide; [apply handled_answers; [by_method..|]; apply answers_reply|].
  case_bool_decide; [apply handled_answers; [by_method..|]; apply toolCall_answers|].
  case_bool_decide; [apply handled_answers; [by_method..|]; apply answers_reply|].
  case_bool_decide.
  { apply handled_answers; [by_method..|]. apply answers_bind; [auto with mcp|]. intros body.
    destruct (if bool_decide (_ = "hopbox://guide"%string) then _ else _) as [mime b]. apply answers_reply. }
  case_bool_decide.
  - split; [done|]. replace (silent r) with false by by_method.
    replace (subscribed_uri r) with (Some (up_URI (unmarshal_ignore uri_fields (rq_Params r) (mkUriParams "")))) by by_method.
    exists p, ("result"%string, empty_obj). split; [apply notes_refl|]. split; [by left|]. simpl.
    rewrite alter_alter_eq. apply alter_ext. by intros [X out] _.
  - assert (subscribed_uri r = None) as Hu by (unfold subscribed_uri; by rewrite bool_decide_eq_false_2).
    assert (silent r = match rq_ID r with None => true | Some _ => false end) as Hs.
    { unfold silent, known_methods. cbn [existsb].
      repeat (rewrite (bool_decide_eq_false_2 (_ = _)) by congruence). done. }
    destruct (rq_ID r) as [id|] eqn:Hid; [|split; [done|]; by rewrite Hs].
    rewrite <- Hid. apply handled_answers; [congruence|done|]. apply answers_send. by right.
Qed.
End sessions.

(** A message gets its one answer.  Handling a message never fails; a request
    with an id, and any message of a known method, is answered exactly once,
    with that id and a result or an error, as the last thing written to its
    session, after nothing but notifications of resources that session was
    already subscribed to; a message that asks for no answer changes no session;
    a subscription adds its resource; and every other session sees at most
    notifications of its own subscriptions. *)
Theorem handle_replies {S C H B} `{BoxStore S} `{ExecHub B} newID wake cfg range n r (p p' : Plane S C H B) res s :
  (forall X, range X ≡ₚ elements X) ->
  handle newID wake cfg range n r p = (p', res) -> pl_sessions p !! n = Some s ->
  res = Ok tt /\
  (if silent r then pl_sessions p' = pl_sessions p
   else exists notes body, (forall u, u ∈ notes -> u ∈ ss_subs s) /\ (body.1 = "result"%string \/ body.1 = "error"%string) /\
     pl_sessions p' !! n = Some (mkSession
       (match subscribed_uri r with Some uri => {[uri]} ∪ ss_subs s | None => ss_subs s end)
       (ss_out s ++ map updated notes ++ [respond (rq_ID r) body]))) /\
  (forall m sm, m <> n -> pl_sessions p !! m = Some sm -> exists notes, (forall u, u ∈ notes -> u ∈ ss_subs sm) /\
     pl_sessions p' !! m = Some (write_out (map updated notes) sm)).
Proof.
  intros Hr Hh Hs. destruct (wp_all _ _ _ _ _ Hh (handle_handled newID wake cfg range Hr n r p)) as [-> Hh'].
  split; [done|]. destruct (silent r).
  { split; [done|]. intros m sm _ Hm. exists []. split; [by intros u ?%not_elem_of_nil|]. rewrite Hh', Hm.
    unfold write_out. simpl. rewrite app_nil_r. by destruct sm. }
  destruct Hh' as (p1 & body & Hn & Hb & ->). split.
  - specialize (Hn n). rewrite Hs in Hn. destruct (pl_sessions p1 !! n) as [s1|] eqn:Hs1; [|done].
    destruct Hn as (notes & Hnotes & ->). exists notes, body. split_and!; [done..|]. rewrite lookup_alter_eq, Hs1. simpl.
    unfold write_out. simpl. by rewrite <- app_assoc.
  - intros m sm Hm Hsm. specialize (Hn m). rewrite Hsm in Hn. destruct (pl_sessions p1 !! m) as [s1|] eqn:Hs1; [|done].
    destruct Hn as (notes & Hnotes & ->). exists notes. split; [done|]. by rewrite lookup_alter_ne, Hs1.
Qed.

(** * The canvas loop *)
Section canvas.
Context {S C H B : Type} `{BoxStore S} `{ExecHub B}.
Notation P := (Plane S C H B).
Variable range : gset string -> list string.

(** Callbacks of other sessions leave a session alone. *)
Lemma notify_others (l : list nat) n (p : P) : n ∉ l ->
  wp (mfor l (notifyAll range)) (fun p' r => r = Ok tt /\ pl_sessions p' !! n = pl_sessions p !! n /\ pl_world p' = pl_world p /\
    pl_surfaces p' = pl_surfaces p /\ pl_tasks p' = pl_tasks p /\ pl_keys p' = pl_keys p /\ pl_spawned p' = pl_spawned p /\ pl_hub p' = pl_hub p) p.
Proof.
  revert p. induction l as [|k l IH]; intros p Hn; [by apply wp_ret|]. apply not_elem_of_cons in Hn as [Hk Hl].
  cbn [mfor]. apply wp_bind. unfold wp at 1. cbn. eapply wp_mono; [by apply IH|]. cbn. intros p' r (-> & -> & Hrest).
  split; [done|]. split; [by apply lookup_alter_ne|done].
Qed.

(** One callback per session: each registered session is told once of each of
    its subscriptions. *)
Lemma notify_pushes n s (p : P) :
  NoDup (map snd (map_to_list (pl_subs p))) -> n ∈ map snd (map_to_list (pl_subs p)) -> pl_sessions p !! n = Some s ->
  wp (notify range) (fun p' r => r = Ok tt /\ pl_sessions p' !! n = Some (write_out (map updated (range (ss_subs s))) s) /\
    pl_surfaces p' = pl_surfaces p) p.
Proof.
  intros Hnd Hin Hs. unfold notify. apply wp_bind, wp_gets. change (id p) with p.
  generalize (map snd (map_to_list (pl_subs p))) as l, Hnd, Hin. clear Hnd Hin. intros l. revert p Hs.
  induction l as [|k l IH]; intros p Hs Hnd Hin; [by apply not_elem_of_nil in Hin|].
  apply NoDup_cons in Hnd as [Hk Hnd]. cbn [mfor]. apply wp_bind. unfold wp at 1. cbn.
  destruct (decide (k = n)) as [->|Hkn].
  - eapply wp_mono; [by apply notify_others|]. cbn. intros p' r (-> & -> & _ & -> & _). split; [done|]. split; [|done].
    by rewrite lookup_alter_eq, Hs.
  - apply elem_of_cons in Hin as [->|Hin]; [done|]. eapply wp_mono; [apply IH; [|done|done]|].
    + cbn. by rewrite lookup_alter_ne.
    + by cbn.
Qed.
End canvas.

(** The uri of a surface's events. *)
Definition surface_uri (name : string) : string := surface_prefix +:+ name +:+ "/events".
Definition read_request (id : json) (uri : string) : req := mkReq (Some id) "resources/read" (Some (JObj [("uri"%string, JStr uri)])).
Definition contents (uri body : string) : json :=
  JObj [("contents", JArr [JObj [("mimeType", JStr "application/json"); ("text", JStr body); ("uri", JStr uri)]])]%string.

Lemma read_surface {S C H B} `{BoxStore S} `{ExecHub B} newID wake cfg range n id name (p : Plane S C H B) :
  handle newID wake cfg range n (read_request id (surface_uri name)) p =
  reply n (Some id) (contents (surface_uri name)
    (print (nil_slice (map event_json (Surface.Events (pl_surfaces p) name))))) p.
Proof.
  unfold handle, read_request, surface_uri. cbn [rq_Method rq_Params rq_ID].
  set (uri := surface_prefix +:+ name +:+ "/events").
  change (unmarshal_ignore uri_fields _ _) with (mkUriParams uri). cbv zeta. cbn [up_URI].
  repeat (rewrite (bool_decide_eq_false_2 ("resources/read"%string = _)) by done).
  rewrite (bool_decide_eq_true_2 ("resources/read"%string = _)) by done.
  rewrite (bool_decide_eq_false_2 (uri = _)), (bool_decide_eq_false_2 (uri = _)) by done.
  unfold readResource, uri. rewrite cut_prefix_app, cut_suffix_app. done.
Qed.

(** C25. The canvas loop closes.  An interaction posted to a surface is recorded
    after the earlier ones, with the server's own time, whatever the body said,
    and no other surface or page changes; every session on the backend is sent,
    once each, the resources it subscribed to; and a client that then reads the
    surface's events is answered with exactly the recorded list. *)
Theorem canvas_loop {S C H B} `{BoxStore S} `{ExecHub B} newID wake cfg range name body n s id (p p1 p2 : Plane S C H B) r1 r2 :
  NoDup (map snd (map_to_list (pl_subs p))) -> n ∈ map snd (map_to_list (pl_subs p)) -> pl_sessions p !! n = Some s ->
  surface_event range name body p = (p1, r1) ->
  handle newID wake cfg range n (read_request id (surface_uri name)) p1 = (p2, r2) ->
  let ev := Surface.decode_event (wNow (pl_world p)) body in
  let evs := Surface.Events (pl_surfaces p) name ++ [ev] in
  se_At ev = Unix (wNow (pl_world p)) /\
  Surface.Events (pl_surfaces p1) name = evs /\
  (forall other, other <> name -> sf_m (pl_surfaces p1) !! other = sf_m (pl_surfaces p) !! other) /\
  su_html (Surface.of_name (pl_surfaces p1) name) = su_html (Surface.of_name (pl_surfaces p) name) /\
  pl_sessions p2 !! n = Some (write_out (map updated (range (ss_subs s)) ++
    [respond (Some id) ("result"%string, contents (surface_uri name) (print (JArr (map event_json evs))))]) s).
Proof.
  intros Hnd Hin Hs He Hr ev evs. split; [done|]. rewrite read_surface in Hr.
  assert (surface_event range name body p =
    notify range (p <| pl_surfaces := Surface.event (wNow (pl_world p)) name body (pl_surfaces p) |>)) as Hev by by destruct p.
  rewrite Hev in He. set (q := set_field pl_surfaces _ p) in He.
  destruct (wp_all _ _ _ _ _ He (notify_pushes range n s q Hnd Hin Hs)) as (-> & Hs1 & Hsf).
  cbn in Hsf. rewrite Hsf. unfold Surface.event, Surface.set, Surface.Events, Surface.of_name. cbn.
  assert (Surface.Events (pl_surfaces p1) name = evs) as Hevs.
  { rewrite Hsf. unfold evs, Surface.Events, Surface.event, Surface.set, Surface.of_name. cbn. rewrite lookup_insert_eq. cbn.
    by destruct (sf_m (pl_surfaces p) !! name). }
  rewrite Hevs in Hr. rewrite lookup_insert_eq. cbn. split_and!.
  - unfold evs, Surface.Events. by destruct (sf_m (pl_surfaces p) !! name).
  - intros other Ho. by rewrite lookup_insert_ne.
  - done.
  - injection Hr as <- _. cbn. rewrite lookup_alter_eq, Hs1. cbn. unfold write_out. cbn. rewrite <- app_assoc.
    replace (nil_slice (map event_json evs)) with (JArr (map event_json evs)); [done|].
    unfold evs. rewrite map_app. by destruct (map event_json (Surface.Events (pl_surfaces p) name)).
Qed.
