(* ===== verification/Mcpfleet.v ===== *)
(** The AI control plane over the box engine and a workspace's agent
    ([internal/mcp/engine_backend.go]): a declared fleet converges, and a
    delegated task's command, output and exit code are what its overlay says. *)
From stdpp Require Import base option list strings gmap fin_maps.
From Stdlib Require Import Ascii ZArith Lia.
From S2P Require Import Prelude GoStrings GoTime Json Box Spec Ports Store World Engine Reconcile Boxmeta BoxSqlite Boxd Lifecycle System Agentproto Agenthub Agentssh Agent Workspace Api Sshfront Mcp.
Local Open Scope Z_scope.

Section fleet.
Context {S C H B : Type} `{BoxByIP S} `{Compute C} `{ExecHub B}.
Notation P := (Plane S C H B).
Variable newID : nat -> string.
Hypothesis newID_utf8 : forall n, utf8 (newID n) = true.
Variable ecfg : EngineConfig.
Hypothesis ecfg_grace : in_int64 (ec_DefaultGrace ecfg).
Variable range : gset string -> list string.
Notation wake := (@System.wake S C H).

(** A box of the daemon's tenant is in the table. *)
Definition present (p : P) (id : string) : Prop :=
  exists b, boxes (pl_world p) !! id = Some b /\ (ec_Tenant ecfg = ""%string \/ b_TenantID b = ec_Tenant ecfg).
(** The fleet a key declares is there. *)
Definition converged (p : P) (key : string) : Prop := exists id, pl_keys p !! key = Some id /\ present p id.
Definition plane_ok (p : P) : Prop := st_inv (wStore (pl_world p)) /\ clock_ok (wNow (pl_world p)).

Lemma wp_on_engine {A} (m : M (World S C H) A) (Q : P -> result A -> Prop) p :
  wp m (fun w r => Q (p <| pl_world := w |>) r) (pl_world p) -> wp (on_engine m) Q p.
Proof. unfold wp, on_engine, zoom. by destruct (m (pl_world p)). Qed.

Lemma Fleet_spec (p : P) : plane_ok p ->
  wp (Fleet ecfg) (fun p' r => p' = p /\ exists fl, r = Ok fl /\ (forall id, id ∈ map fb_ID fl -> present p id) /\
    (st_healthy (wStore (pl_world p)) -> forall id, present p id -> id ∈ map fb_ID fl)) p.
Proof.
  intros [Hi Hc]. unfold Fleet. apply wp_bind, wp_try, wp_on_engine. unfold Engine.List. apply World.wp_on_store.
  eapply wp_mono; [by apply st_List_spec|]. intros s' r (-> & Hin & Hok).
  replace (p <| pl_world := (pl_world p) <| wStore := wStore (pl_world p) |> |>) with p
    by (destruct p as [w ? ? ? ? ? ? ? ?]; by destruct w).
  apply wp_bind, wp_gets, wp_ret. split; [done|]. eexists. split; [done|].
  assert (forall l, map fb_ID (map (fleet_box (pl_tasks p)) l) = map b_ID l) as Hids.
  { intros l. rewrite map_map. apply map_ext. intros b. unfold fleet_box. by destruct (pl_tasks p !! b_ID b). }
  change (Datatypes.id p) with p. rewrite Hids. split.
  - intros id Hid. destruct r as [l|e]; [|by apply not_elem_of_nil in Hid]. destruct (Hin l eq_refl) as [_ Hl].
    apply list_elem_of_In, in_map_iff in Hid as (b & <- & Hb). apply list_elem_of_In, Hl in Hb as [Hb Ht]. by exists b.
  - intros Hh id (b & Hb & Ht). destruct r as [l|e]; [|by specialize (Hok Hh)]. destruct (Hin l eq_refl) as [_ Hl].
    destruct (st_view_id _ _ _ Hi Hb) as [Hid _]. apply list_elem_of_In, in_map_iff. exists b. split; [done|].
    apply list_elem_of_In, Hl. by rewrite Hid.
Qed.

Lemma setTask_spec id t st res (p : P) :
  wp (setTask range id t st res) (fun p' r => r = Ok tt /\ pl_world p' = pl_world p /\ pl_keys p' = pl_keys p /\
    pl_spawned p' = pl_spawned p /\ pl_hub p' = pl_hub p /\ pl_tasks p' = <[id := mkTask t st res]> (pl_tasks p)) p.
Proof.
  unfold setTask, notify. apply wp_bind, wp_modify, wp_bind, wp_gets.
  set (q := p <| pl_tasks := _ |>). change (Datatypes.id q) with q.
  assert (forall l (q : P), wp (mfor l (notifyAll range)) (fun p' r => r = Ok tt /\ pl_world p' = pl_world q /\ pl_keys p' = pl_keys q /\
    pl_spawned p' = pl_spawned q /\ pl_hub p' = pl_hub q /\ pl_tasks p' = pl_tasks q) q) as Hn.
  { induction l as [|k l IH]; intros q0; [by apply wp_ret|]. cbn [mfor]. apply wp_bind. unfold wp at 1. cbn.
    eapply wp_mono; [apply IH|]. by cbn. }
  eapply wp_mono; [apply Hn|]. done.
Qed.

(** What delegating by a username does. *)
Definition delegated (username taskCmd : string) (p p' : P) (id : string) : Prop :=
  plane_ok p' /\ present p' id /\ (forall j, present p j -> present p' j) /\ pl_keys p' = pl_keys p /\
  pl_spawned p' = pl_spawned p ++ [(id, taskCmd)] /\ pl_tasks p' !! id = Some (mkTask taskCmd "working" "") /\
  exists b spec, boxes (pl_world p') !! id ≡ Some b /\ b_Owner b = owner /\ b_Attached b = true /\
    ParseSpec username = Ok spec /\ b_Name b = sp_Name spec.
Lemma delegateNamed_spec username taskCmd (p : P) : plane_ok p ->
  wp (delegateNamed newID wake ecfg range username taskCmd)
    (fun p' r => forall id, r = Ok id -> delegated username taskCmd p p' id) p.
Proof.
  intros [Hi Hc]. unfold delegateNamed. apply wp_bind, wp_on_engine.
  eapply wp_mono; [by apply (Attach_yields newID newID_utf8 ecfg ecfg_grace owner username)|]. intros w' [b|e] Ha; [|done].
  destruct (Ha b eq_refl) as (Hi' & Hn & Hh & Hat & Ho & Ht & (spec & Hspec & Hname) & Hold).
  apply wp_bind. eapply wp_mono; [apply setTask_spec|]. intros p1 r (-> & Hw & Hk & Hsp & _ & Htk).
  apply wp_bind, wp_modify, wp_ret. intros id [= <-]. cbn in Hw, Hk, Hsp, Htk.
  unfold delegated, plane_ok, present. cbn. rewrite Hw, Hk, Hsp, Htk. cbn. rewrite Hn.
  unfold holds, boxes in *. split_and!; try done.
  - destruct (st_view (wStore w') !! b_ID b) as [b'|] eqn:Hb; [|by inversion Hh]. exists b'. split; [done|].
    apply (inj Some) in Hh. rewrite Hh. destruct (decide (ec_Tenant ecfg = ""%string)); [by left|right; by apply Ht].
  - intros j (c & Hcj & Htc). destruct (Hold j c Hcj) as (c' & Hc' & Hkey). exists c'. split; [done|].
    destruct Hkey as (_ & <- & _). done.
  - by rewrite lookup_insert_eq.
  - by exists b, spec.
Qed.

Lemma converged_insert (p : P) key id k : present p id -> converged p k ->
  converged (p <| pl_keys := <[key := id]> (pl_keys p) |>) k.
Proof.
  intros Hid (j & Hj & Hp). unfold converged. cbn. destruct (decide (k = key)) as [->|Hk].
  - exists id. by rewrite lookup_insert_eq.
  - exists j. by rewrite lookup_insert_ne.
Qed.

Lemma apply_loop_spec live spec created (p : P) : plane_ok p -> (forall id, id ∈ live -> present p id) ->
  wp (apply_loop newID wake ecfg range live created spec) (fun p' r => forall created', r = Ok (created', None) ->
    (forall j, present p j -> present p' j) /\ (forall k, converged p k -> converged p' k) /\ plane_ok p' /\
    (forall sb, sb ∈ spec -> sx_Key sb <> ""%string -> converged p' (sx_Key sb)) /\
    exists jobs, created' = created ++ map fst jobs /\ pl_spawned p' = pl_spawned p ++ jobs /\
      sublist (map snd jobs) (map sx_Task spec)) p.
Proof.
  revert created p. induction spec as [|sb spec IH]; intros created p Hp Hlive; cbn [apply_loop].
  { apply wp_ret. intros c [= <-]. split_and!; [done..| |].
    - by intros sb ?%not_elem_of_nil.
    - exists []. by rewrite !app_nil_r. }
  assert (forall p1 : P, plane_ok p1 -> (forall j, present p j -> present p1 j) -> (forall k, converged p k -> converged p1 k) ->
    (sx_Key sb <> ""%string -> converged p1 (sx_Key sb)) -> forall created jobs0,
    pl_spawned p1 = pl_spawned p ++ jobs0 -> sublist (map snd jobs0) [sx_Task sb] ->
    wp (apply_loop newID wake ecfg range live created spec) (fun p' r => forall created', r = Ok (created', None) ->
      (forall j, present p j -> present p' j) /\ (forall k, converged p k -> converged p' k) /\ plane_ok p' /\
      (forall s, s ∈ sb :: spec -> sx_Key s <> ""%string -> converged p' (sx_Key s)) /\
      exists jobs, created' = created ++ map fst jobs /\ pl_spawned p' = pl_spawned p ++ jobs0 ++ jobs /\
        sublist (map snd (jobs0 ++ jobs)) (map sx_Task (sb :: spec))) p1) as Hnext.
  { intros p1 Hp1 Hpr Hcv Hkey c jobs0 Hs0 Hsub0. eapply wp_mono; [apply IH; [done|]|].
    - intros id Hid. by apply Hpr, Hlive.
    - intros p' r Hr c' Hc'. destruct (Hr c' Hc') as (H1' & H2' & H3' & H4' & jobs & -> & Hsp & Hsub).
      split_and!; [by auto..| |].
      + intros s [->|Hin]%elem_of_cons Hne; [by apply H2', Hkey|by apply H4'].
      + exists jobs. split; [done|]. split; [by rewrite Hsp, Hs0, <- app_assoc|]. rewrite map_app. cbn [map].
        change (sx_Task sb :: map sx_Task spec) with ([sx_Task sb] ++ map sx_Task spec). by apply sublist_app. }
  destruct (bool_decide_reflect (sx_Key sb = ""%string)) as [Hk|Hk].
  { eapply wp_mono; [apply (Hnext p Hp ltac:(done) ltac:(done) ltac:(done) created [])|]; [by rewrite app_nil_r|apply sublist_nil_l|].
    done. }
  apply wp_bind, wp_gets. change (Datatypes.id p) with p.
  destruct (match pl_keys p !! sx_Key sb with Some _ => _ | None => _ end) eqn:Hhas.
  { eapply wp_mono; [apply (Hnext p Hp ltac:(done) ltac:(done))|]; [|by rewrite app_nil_r|apply sublist_nil_l|done].
    intros _. destruct (pl_keys p !! sx_Key sb) as [id|] eqn:Hid; [|done]. exists id. split; [done|].
    apply bool_decide_eq_true_1 in Hhas. by apply Hlive. }
  apply wp_bind, wp_try. eapply wp_mono; [by apply delegateNamed_spec|]. intros p1 [id|e] Hd; [|by apply wp_ret].
  destruct (Hd id eq_refl) as (Hp1 & Hid & Hpr & Hkeys & Hsp & _). apply wp_bind, wp_modify.
  set (q := p1 <| pl_keys := <[sx_Key sb := id]> (pl_keys p1) |>).
  assert (plane_ok q) as Hq by (unfold plane_ok in *; exact Hp1).
  assert (forall j, present p j -> present q j) as Hpq by (unfold present in *; exact Hpr).
  eapply wp_mono; [apply (Hnext q Hq Hpq)|]; [..|].
  - intros k (j & Hj & Hpj). apply converged_insert; [done|]. exists j. rewrite Hkeys. auto.
  - intros _. exists id. cbn. by rewrite lookup_insert_eq.
  - cbn. exact Hsp.
  - done.
  - intros p' r Hr c' Hc'. destruct (Hr c' Hc') as (H1' & H2' & H3' & H4' & jobs & -> & Hs' & Hsub).
    split_and!; [done..|]. exists ((id, sx_Task sb) :: jobs). split; [by rewrite <- app_assoc|]. done.
Qed.

(** Nothing is created for keys whose boxes are there. *)
Lemma apply_loop_converged live spec created (p : P) :
  (forall sb, sb ∈ spec -> sx_Key sb <> ""%string -> exists id, pl_keys p !! sx_Key sb = Some id /\ id ∈ live) ->
  apply_loop newID wake ecfg range live created spec p = (p, Ok (created, None)).
Proof.
  induction spec as [|sb spec IH]; intros Hall; [done|]. cbn [apply_loop].
  assert (apply_loop newID wake ecfg range live created spec p = (p, Ok (created, None))) as Hrest.
  { apply IH. intros s Hs. apply Hall. by right. }
  case_bool_decide as Hk; [done|]. destruct (Hall sb ltac:(by left) Hk) as (id & Hid & Hl).
  rewrite (bind_eq_ok (gets Datatypes.id) _ p p p) by done. by rewrite Hid, bool_decide_eq_true_2.
Qed.

End fleet.

(** * A task's stream *)
(** The bytes of a frame [runTask] keeps. *)
Definition frame_text (f : ExecFrame) : string :=
  match f with
  | FData typ data => if bool_decide (typ = ExecStdout) || bool_decide (typ = ExecStderr) then data else ""
  | _ => ""
  end.
Definition frames_text (fs : list ExecFrame) : string := join "" (map frame_text fs).

Lemma collect_frames fs o :
  forallb frame_ok fs = true -> existsb is_exit fs = false ->
  exists bytes, mfor fs write_frame (mkWriter o None) = (mkWriter (o +:+ bytes) None, Ok tt) /\
    forall rest fuel out code, (slen (bytes +:+ rest) < fuel)%nat ->
      exists fuel', (slen rest < fuel')%nat /\
        collect fuel (bytes +:+ rest) out code = collect fuel' rest (out +:+ frames_text fs) code.
Proof.
  revert o. induction fs as [|f fs IH]; intros o Hok Hex; cbn [forallb existsb] in Hok, Hex.
  { exists EmptyString. split; [cbn; by rewrite string_app_nil_r|]. intros rest fuel out code Hf. exists fuel.
    split; [exact Hf|]. change (frames_text []) with EmptyString. by rewrite string_app_nil_r. }
  apply andb_true_iff in Hok as [Hf Hok]. apply orb_false_iff in Hex as [He Hex].
  destruct (exec_frame_bytes f Hf) as (b1 & Hw & Hr). destruct (IH (o +:+ b1) Hok Hex) as (b2 & Hw2 & Hc).
  exists (b1 +:+ b2). split; [cbn [mfor]; by rewrite (bind_eq_ok _ _ _ _ _ (Hw o)), Hw2, string_app_assoc|].
  intros rest fuel out code Hfu. destruct fuel as [|fuel]; [lia|]. rewrite <- string_app_assoc in *.
  pose proof (ReadExecFrame_shorter _ _ _ (Hr (b2 +:+ rest))) as Hs.
  destruct (Hc rest fuel (out +:+ frame_text f) code ltac:(lia)) as (fuel' & Hf' & Hcol). exists fuel'. split; [done|].
  assert (out +:+ frames_text (f :: fs) = (out +:+ frame_text f) +:+ frames_text fs) as ->.
  { unfold frames_text. cbn [map]. by rewrite join_nil_cons, string_app_assoc. }
  rewrite <- Hcol.
  cbn [collect]. rewrite Hr. destruct f as [typ data| |c]; cbn [frame_view frame_text]; [| |done].
  - cbn [frame_ok] in Hf. apply andb_true_iff in Hf as [Hf _]. apply negb_true_iff in Hf. rewrite Hf.
    destruct (bool_decide (typ = ExecStdout) || _); [done|by rewrite string_app_nil_r].
  - by rewrite string_app_nil_r.
Qed.

(** The outcome of a stream of frames that ends with an exit code, and of one
    that dies before it. *)
Lemma outcome_frames fs tail o :
  forallb frame_ok (fs ++ tail) = true -> existsb is_exit fs = false -> tail = [] \/ (exists c, tail = [FExit c]) ->
  exists bytes, mfor (fs ++ tail) write_frame (mkWriter o None) = (mkWriter (o +:+ bytes) None, Ok tt) /\
    outcome bytes = Some ((if match tail with [FExit c] => (c =? 0)%Z | _ => true end then "done" else "failed")%string,
                          trim_space (frames_text fs)).
Proof.
  intros Hok Hex Htail. rewrite forallb_app in Hok. apply andb_true_iff in Hok as [Hf Ht].
  destruct (collect_frames fs o Hf Hex) as (b & Hw & Hc). unfold outcome. destruct Htail as [->|[c ->]].
  - rewrite app_nil_r. exists b. split; [done|].
    destruct (Hc EmptyString (Datatypes.S (slen b)) EmptyString 0) as (fuel' & Hf' & Hcol); [rewrite string_app_nil_r; lia|].
    rewrite string_app_nil_r in Hcol. rewrite Hcol. destruct fuel' as [|fuel']; [simpl in Hf'; lia|]. done.
  - cbn [forallb] in Ht. rewrite andb_true_r in Ht. destruct (exec_frame_bytes (FExit c) Ht) as (b2 & Hw2 & Hr2).
    exists (b +:+ b2). split.
    { rewrite mfor_app, (bind_eq_ok _ _ _ _ _ Hw). cbn [mfor]. rewrite (bind_eq_ok _ _ _ _ _ (Hw2 (o +:+ b))). by rewrite string_app_assoc. }
    destruct (Hc b2 (Datatypes.S (slen (b +:+ b2))) EmptyString 0) as (fuel' & Hf' & Hcol); [lia|]. rewrite Hcol.
    destruct fuel' as [|fuel']; [lia|]. cbn [collect]. specialize (Hr2 EmptyString). rewrite string_app_nil_r in Hr2. rewrite Hr2.
    done.
Qed.

(** A stream that breaks before the command's exit code is reported as a task
    that is done, whatever the command had printed. *)
Lemma lost_stream_reads_done fs o :
  forallb frame_ok fs = true -> existsb is_exit fs = false ->
  exists bytes, mfor fs write_frame (mkWriter o None) = (mkWriter (o +:+ bytes) None, Ok tt) /\
    outcome bytes = Some ("done"%string, trim_space (frames_text fs)).
Proof.
  intros Hok Hex. destruct (outcome_frames fs [] o) as (b & Hw & Ho); [by rewrite app_nil_r|done|by left|].
  rewrite app_nil_r in Hw. by exists b.
Qed.

Lemma writes_text writes : Forall (fun wr : ascii * string => wr.1 = ExecStdout \/ wr.1 = ExecStderr) writes ->
  frames_text (concat (map chunk_frames writes)) = join "" (map snd writes).
Proof.
  unfold frames_text. induction 1 as [|wr l Hwr Hl IH]; [done|]. cbn [map concat]. rewrite map_app.
  rewrite join_nil_app, IH, join_nil_cons. f_equal. rewrite <- (proj1 (chunk_list_spec execChunk wr.2)). unfold chunk_frames.
  rewrite map_map. f_equal. etransitivity; [|apply map_id]. apply map_ext. intros d. cbn. destruct Hwr as [-> | ->]; by vm_compute.
Qed.

(** * A delegated task, end to end *)
Section task.
Context {S C H Y K : Type} `{AgentOS} `{BoxStore S} `{Yamux Y} `{StateSink K}.
Notation P := (Plane S C H (Hub Y K)).
Hypothesis fresh_stream : forall s y y' st, ym_OpenStream s y = (y', Ok st) -> sm_w st = mkWriter "" None.
Variable wake : string -> string -> M (World S C H) unit.
Variable cfg : EngineConfig.
Variable range : gset string -> list string.

Lemma release_tasks id (p : P) : wp (release wake cfg id) (fun p' r => r = Ok tt /\ pl_tasks p' = pl_tasks p) p.
Proof. unfold release. apply wp_ignore. unfold wp, on_engine, zoom. by destruct (releaser wake cfg id (pl_world p)). Qed.

Lemma finish_tasks id cmd st res stream (p : P) :
  wp (setTask range id cmd st res ;; ignore (on_hub (eh_Close stream)) ;; release wake cfg id ;; mret (Some tt))
    (fun p' r => r = Ok (Some tt) /\ pl_tasks p' !! id = Some (mkTask cmd st res)) p.
Proof.
  apply wp_bind. eapply wp_mono; [apply setTask_spec|]. intros p1 r (-> & _ & _ & _ & _ & Ht).
  apply wp_bind, wp_ignore. unfold wp at 1, on_hub, zoom. destruct (eh_Close stream (pl_hub p1)) as [h r].
  apply wp_bind. eapply wp_mono; [apply release_tasks|]. intros p2 r2 (-> & Ht2). apply wp_ret. split; [done|].
  rewrite Ht2. cbn. rewrite Ht. by rewrite lookup_insert_eq.
Qed.

(** What the overlay says of a command that ran. *)
Definition task_report (cmd : string) (writes : list (ascii * string)) (code : Z) : task :=
  mkTask cmd (if (code =? 0)%Z then "done" else "failed")%string (trim_space (join "" (map snd writes))).

(** A delegated command is reported as it ran.  When the box's agent is there
    and takes the stream, the command runs in the box with no input, and the
    task ends: done exactly when the exit code is zero and failed otherwise,
    its result being all that the command wrote, standard output and standard
    error in the order of the writes, without surrounding white space. *)
Theorem task_reported id cmd sleeps others (p p' : P) h' st writes err r :
  utf8 cmd = true -> eh_Connected id (pl_hub p) = true -> eh_OpenExec id (task_cmd cmd) (pl_hub p) = (h', Ok st) ->
  ao_exec (mkCmd (task_cmd cmd) "" (ao_environ ++ ["TERM=dumb"%string])) "" = Ran writes err ->
  Forall (fun wr => wr.1 = ExecStdout \/ wr.1 = ExecStderr) writes -> in_int32 (wait_code err true) ->
  runTask wake cfg range id cmd sleeps agent_side others p = (p', r) ->
  r = Ok (Some tt) /\
  pl_tasks p' !! id = Some (task_report cmd writes (wait_code err true)).
Proof.
  unfold task_report. intros Hu Hcon Hopen Hrun Hty Hcode Hr. unfold runTask in Hr.
  rewrite (bind_eq_ok _ _ p (p <| pl_world := pl_world p |>) (wNow (pl_world p))) in Hr by done.
  replace (p <| pl_world := pl_world p |>) with p in Hr by by destruct p.
  assert (task_wait cfg range id cmd (Add (wNow (pl_world p)) task_patience) sleeps p = (p, Ok (Some true))) as Hwait.
  { destruct sleeps; cbn [task_wait]; rewrite (bind_eq_ok (gets Datatypes.id) _ p p p) by done; by rewrite Hcon. }
  rewrite (bind_eq_ok _ _ _ _ _ Hwait) in Hr.
  assert (try (on_hub (eh_OpenExec id (task_cmd cmd))) p = (p <| pl_hub := h' |>, Ok (Ok st))) as Ho.
  { unfold try, on_hub, zoom. by rewrite Hopen. }
  rewrite (bind_eq_ok _ _ _ _ _ Ho) in Hr.
  assert (Forall (fun wr : ascii * string => wr.1 <> ExecExit) writes) as Hne.
  { eapply Forall_impl; [exact Hty|]. intros wr [->| ->]; by vm_compute. }
  destruct (OpenExec_served (fun s y y' st Hs => f_equal wr_out (fresh_stream s y y' st Hs)) _ _ id st EmptyString
    (mkWriter "" None) (task_cmd cmd) ltac:(cbn; by rewrite Hu) Hopen) as [_ Hserve].
  rewrite string_app_nil_r in Hserve.
  destruct (run_exec_frames (task_cmd cmd) EmptyString "" writes err ltac:(done) Hrun Hne Hcode) as (bytes & Hb1 & Hb2).
  destruct (outcome_frames (concat (map chunk_frames writes)) [FExit (wait_code err true)] "") as (b & Hw & Hout).
  - by apply exec_frames_ok.
  - clear. induction writes as [|wr l IH]; [done|]. cbn [map concat]. rewrite existsb_app, IH, orb_false_r.
    unfold chunk_frames. by induction (chunk_list execChunk wr.2).
  - right. by eexists.
  - unfold exec_frames in Hb2. rewrite Hw in Hb2. injection Hb2 as Hb2. rewrite !string_app_nil_l in Hb2. subst b.
    assert (agent_side (wr_out (sm_w st)) = bytes) as Hside.
    { unfold agent_side. rewrite Hserve, Hb1. cbn. by rewrite string_app_nil_l. }
    rewrite (bind_eq_ok (modify others) _ _ _ tt eq_refl), Hside, Hout, writes_text in Hr by done.
    exact (wp_all _ _ _ _ _ Hr (finish_tasks _ _ _ _ _ _)).
Qed.
End task.
