(* ===== verification/McpConcrete.v ===== *)
(** The AI control plane at concrete inputs: an empty daemon, a hub with the
    agent of the box to come connected, and an agent with a shell. *)
From stdpp Require Import base option list strings gmap.
From Stdlib Require Import Ascii ZArith Lia.
From S2P Require Import Prelude GoStrings GoTime Json Box Spec Ports Store World Engine Reconcile Sql BoxSqlite Lifecycle Agentproto Agenthub Boxd System Agentssh Agent Api Concrete Mcp Mcpfleet.
Local Open Scope Z_scope.

#[local] Existing Instance Net.net.
#[local] Instance shell : AgentOS := {|
  ao_environ := ["PATH=/bin"]%string;
  ao_Getenv _ := ""%string;
  ao_isdir _ := false;
  ao_exec c stdin := match cm_Args c with
                     | [_; _; "make"%string] => Ran [(ExecStdout, " cc -c a.c"%string); (ExecStderr, "; a.c: error "%string)] (ExitError 2)
                     | _ => Ran [] WaitNil
                     end;
  ao_dial _ := Err io_EOF;
  ao_pty _ _ := Err io_EOF;
  ao_ssh := None
|}.

Definition plane : Type := Plane DB unit unit (Hub Net.Net (list (string * bool))).
Definition one_agent : Hub Net.Net (list (string * bool)) := Net.with_closed [] {["id-0"%string := 1%nat]} [].
(** One session, number 7, subscribed to the fleet and to a surface. *)
Definition watching : Session := mkSession {["hopbox://fleet"; "hopbox://surface/approve/events"]}%string [].
Definition plane0 : plane :=
  mkPlane empty_world one_agent (Surface.New "https://boxes.example/") ∅ ∅ {[0%nat := 7%nat]} 1 {[7%nat := watching]} [].
Definition order : gset string -> list string := elements.
Definition spec2 : list SpecBox := [mkSpecBox "web" "" "make"; mkSpecBox "" "" "skip"; mkSpecBox "db" "postgres" "initdb"]%string.
Notation apply2 := (Apply hex_id System.wake ecfg order spec2 plane0).

Lemma plane0_ok : plane_ok plane0.
Proof. split; [exact empty_inv|exact t0_ok]. Qed.


(** The keys live in memory and are looked up against the fleet as it was when
    the call began: naming a key twice in one call, or declaring the fleet again
    after a restart, runs the task again in the box that is already there. *)
Example duplicate_key_runs_twice :
  let twice := Apply hex_id System.wake ecfg order [mkSpecBox "web" "" "make"; mkSpecBox "web" "" "make"]%string plane0 in
  twice.2 = Ok (["id-0"; "id-0"]%string, None) /\ pl_spawned twice.1 = [("id-0", "make"); ("id-0", "make")]%string.
Proof. vm_compute. split; reflexivity. Qed.
Example restart_runs_again :
  let restarted := apply2.1 <| pl_keys := ∅ |> <| pl_tasks := ∅ |> <| pl_spawned := [] |> in
  let again := Apply hex_id System.wake ecfg order spec2 restarted in
  again.2 = Ok (["id-0"; "id-1"]%string, None) /\ pl_spawned again.1 = [("id-0", "make"); ("id-1", "initdb")]%string.
Proof. vm_compute. split; reflexivity. Qed.

Definition call_req : req := mkReq (Some (JNum "5")) "tools/call"
  (Some (JObj [("name", JStr "box.delegate"); ("arguments", JObj [("task", JStr "make")])]))%string.
Notation called := (handle hex_id System.wake ecfg order 7 call_req plane0).
Definition written (r : plane * result unit) : option (list json) := ss_out <$> pl_sessions r.1 !! 7%nat.

Lemma handle_replies_witness :
  called.2 = Ok tt /\ (length <$> written called) = Some 3%nat /\
  exists body out, written called = Some (out ++ [respond (Some (JNum "5")) body]).
Proof.
  split; [|split; [vm_compute; reflexivity|]].
  - refine (proj1 (handle_replies hex_id System.wake ecfg order 7 call_req plane0 called.1 called.2 watching _ (surjective_pairing _) _)).
    + intros X. reflexivity.
    + reflexivity.
  - destruct (handle_replies hex_id System.wake ecfg order 7 call_req plane0 called.1 called.2 watching
      (fun X => reflexivity _) (surjective_pairing _) eq_refl) as (_ & Hans & _).
    destruct Hans as (notes & body & _ & _ & Hs). exists body, (ss_out watching ++ map updated notes).
    exact (eq_trans (f_equal (fmap ss_out) Hs) (f_equal Some (app_assoc _ _ _))).
Defined.

Notation clicked := (surface_event order "approve" "{}" plane0).
Notation reread := (handle hex_id System.wake ecfg order 7 (read_request (JNum "6") (surface_uri "approve")) clicked.1).
Lemma canvas_loop_witness :
  Surface.Events (pl_surfaces clicked.1) "approve" = [mkSurfaceEvent "" "" "" 1700000000] /\
  (length <$> written reread) = Some 3%nat.
Proof.
  destruct (canvas_loop hex_id System.wake ecfg order "approve" "{}" 7 watching (JNum "6") plane0 clicked.1 reread.1
    clicked.2 reread.2) as (_ & He & _ & _ & Hs).
  - vm_compute. repeat constructor. intros Hx. inversion Hx.
  - vm_compute. left.
  - reflexivity.
  - apply surjective_pairing.
  - apply surjective_pairing.
  - split; [rewrite He; vm_compute; reflexivity|]. exact (eq_trans (f_equal (fun o => length <$> (ss_out <$> o)) Hs) eq_refl).
Defined.

Notation opened := (eh_OpenExec "id-0"%string (task_cmd "make") one_agent).
Notation ran := (runTask System.wake ecfg order "id-0" "make" [] agent_side (fun p => p) plane0).
Lemma task_reported_witness :
  ran.2 = Ok (Some tt) /\
  pl_tasks ran.1 !! "id-0"%string = Some (mkTask "make" "failed" "cc -c a.c; a.c: error")%string.
Proof.
  destruct opened as [h' r] eqn:Ho.
  assert (is_ok r = true) as Hr by (change (is_ok (h', r).2 = true); rewrite <- Ho; vm_compute; reflexivity).
  destruct r as [st|e]; [|discriminate Hr].
  refine (task_reported _ System.wake ecfg order "id-0" "make" [] (fun p => p) plane0 ran.1 h' st
    [(ExecStdout, " cc -c a.c"%string); (ExecStderr, "; a.c: error "%string)] (ExitError 2) ran.2 _ _ Ho _ _ _ (surjective_pairing _)).
  - intros s y y' st' Hs. injection Hs as _ <-. reflexivity.
  - reflexivity.
  - vm_compute. reflexivity.
  - reflexivity.
  - constructor; [left; reflexivity|]. constructor; [right; reflexivity|constructor].
  - vm_compute. split; [discriminate|reflexivity].
Defined.
