(* ===== verification/Mcpclient.v ===== *)
(** The control plane's own client ([cmd/hopbox-mcp]: [transport.go], [ps.go],
    [watch.go], [demo.go]): reading an MCP byte stream, pairing calls with
    answers, and taking fleets, events and box ids out of replies.

    Messages are documents, as [Mcp] writes them to a session; the client
    decodes each into a map.  [responses] and [notifs] are the channels [route]
    fills; a call is answered by the next response, whatever its id.  The
    terminal's tables and colours are not modelled. *)
From stdpp Require Import base option list strings gmap.
From Stdlib Require Import Ascii ZArith Lia.
From S2P Require Import Prelude GoStrings GoTime Json Box Ports Store World Engine Agentproto Agenthub Agentssh Agent Workspace Api Mcp McpConcrete Concrete.
Local Open Scope Z_scope.

(** * Reading replies *)

(** [m[k]] of a decoded map: the last member of that name. *)
Fixpoint member (k : string) (l : list (string * json)) : option json :=
  match l with
  | [] => None
  | (k', v) :: l' => match member k l' with Some v' => Some v' | None => if bool_decide (k' = k) then Some v else None end
  end.
Definition at_key (k : string) (j : option json) : option json := match j with Some (JObj l) => member k l | _ => None end.
(** [c0["text"].(string)] of the first element of [m["result"][k]]. *)
Definition first_text (k : string) (m : option json) : option string :=
  match at_key k (at_key "result" m) with
  | Some (JArr (c0 :: _)) => Some (match at_key "text" (Some c0) with Some (JStr t) => t | _ => ""%string end)
  | _ => None
  end.
Definition toolText (m : option json) : string := default ""%string (first_text "content" m).

(** [_ = json.Unmarshal([]byte(text), &xs)] into a fresh slice of structs. *)
Definition unmarshal_slice {T} (fs : Fields T) (zero : T) (text : string) : list T :=
  match parse text with
  | Some (JArr l) => map (fun j => unmarshal_ignore fs (Some j) zero) l
  | _ => []
  end.

Definition no_box : FleetBox := mkFleetBox "" "" "" "" "" "" "" "" "" 0.
Definition box_fields : Fields FleetBox :=
  [("id", str_field (fun s b => mkFleetBox s (fb_Name b) (fb_Image b) (fb_State b) (fb_IP b) (fb_AgentState b) (fb_AgentStatus b) (fb_Task b) (fb_Result b) (fb_Updated b)));
   ("name", str_field (fun s b => mkFleetBox (fb_ID b) s (fb_Image b) (fb_State b) (fb_IP b) (fb_AgentState b) (fb_AgentStatus b) (fb_Task b) (fb_Result b) (fb_Updated b)));
   ("image", str_field (fun s b => mkFleetBox (fb_ID b) (fb_Name b) s (fb_State b) (fb_IP b) (fb_AgentState b) (fb_AgentStatus b) (fb_Task b) (fb_Result b) (fb_Updated b)));
   ("state", str_field (fun s b => mkFleetBox (fb_ID b) (fb_Name b) (fb_Image b) s (fb_IP b) (fb_AgentState b) (fb_AgentStatus b) (fb_Task b) (fb_Result b) (fb_Updated b)));
   ("ip", str_field (fun s b => mkFleetBox (fb_ID b) (fb_Name b) (fb_Image b) (fb_State b) s (fb_AgentState b) (fb_AgentStatus b) (fb_Task b) (fb_Result b) (fb_Updated b)));
   ("agent_state", str_field (fun s b => mkFleetBox (fb_ID b) (fb_Name b) (fb_Image b) (fb_State b) (fb_IP b) s (fb_AgentStatus b) (fb_Task b) (fb_Result b) (fb_Updated b)));
   ("agent_status", str_field (fun s b => mkFleetBox (fb_ID b) (fb_Name b) (fb_Image b) (fb_State b) (fb_IP b) (fb_AgentState b) s (fb_Task b) (fb_Result b) (fb_Updated b)));
   ("task", str_field (fun s b => mkFleetBox (fb_ID b) (fb_Name b) (fb_Image b) (fb_State b) (fb_IP b) (fb_AgentState b) (fb_AgentStatus b) s (fb_Result b) (fb_Updated b)));
   ("result", str_field (fun s b => mkFleetBox (fb_ID b) (fb_Name b) (fb_Image b) (fb_State b) (fb_IP b) (fb_AgentState b) (fb_AgentStatus b) (fb_Task b) s (fb_Updated b)));
   ("updated", int_field 64 (fun z b => mkFleetBox (fb_ID b) (fb_Name b) (fb_Image b) (fb_State b) (fb_IP b) (fb_AgentState b) (fb_AgentStatus b) (fb_Task b) (fb_Result b) z))]%string.

Definition fleetFrom (m : option json) : list FleetBox :=
  match first_text "contents" m with Some t => unmarshal_slice box_fields no_box t | None => [] end.
Definition eventsFrom (m : option json) : list SurfaceEvent :=
  match first_text "contents" m with Some t => unmarshal_slice Surface.event_fields (mkSurfaceEvent "" "" "" 0) t | None => [] end.

(** [strings.Index] up to the text after the occurrence. *)
Fixpoint after_sub (sub s : string) : option string :=
  match cut_prefix sub s with
  | Some rest => Some rest
  | None => match s with EmptyString => None | String _ s' => after_sub sub s' end
  end.
(** [strings.TrimRight(s, ");")] *)
Fixpoint trim_marks (s : string) : string :=
  match s with
  | EmptyString => EmptyString
  | String c s' =>
      match trim_marks s' with
      | EmptyString => if bool_decide (c = ")"%char) || bool_decide (c = ";"%char) then EmptyString else String c EmptyString
      | t => String c t
      end
  end.
Definition idFrom (txt : string) : string :=
  match after_sub "box " txt with
  | Some rest => match string_Fields rest with f :: _ => trim_marks f | [] => ""%string end
  | None => ""%string
  end.

(** ** What [ps] and the demo print of a box *)
Definition short (s : string) : string := if (8 <? slen s)%nat then stake 8 s else s.
Definition dash (s : string) : string := if bool_decide (s = ""%string) then "-"%string else s.
Definition ps_row (b : FleetBox) : list string :=
  [short (fb_ID b); dash (fb_Name b); dash (fb_Image b); dash (fb_State b); dash (fb_AgentState b); dash (fb_AgentStatus b)].
Definition ended (b : FleetBox) : bool := bool_decide (fb_State b = "done"%string) || bool_decide (fb_State b = "failed"%string).
(** The demo's loop ends when as many of its boxes have ended as it asked for. *)
Definition demo_done (mine : gset string) (fleet : list FleetBox) : bool :=
  bool_decide (length (filter (fun b => fb_ID b ∈ mine /\ ended b = true) fleet) = size mine).
(** The events [watch] prints, and how many it has then seen. *)
Definition show (seen : nat) (evs : list SurfaceEvent) : option (list SurfaceEvent * nat) :=
  if (seen <=? length evs)%nat then Some (drop seen evs, length evs) else None.   (* evs[seen:] panics *)

(** * The transport: [unix:/path], or a TCP address *)
Definition transport_addr (connect : string) : string * string :=
  match cut_prefix "unix:" connect with Some path => ("unix"%string, path) | None => ("tcp"%string, connect) end.

(** * The channels *)

(** [m["method"] != nil] *)
Definition is_notif (doc : json) : bool :=
  match at_key "method" (Some doc) with None | Some JNull => false | Some _ => true end.
(** What [Decode] puts into a map. *)
Definition into_map (doc : json) : bool := match doc with JObj _ | JNull => true | _ => false end.
(** [route] on a stream whose reader keeps both channels empty. *)
Fixpoint route (docs : list json) : list json * list json :=
  match docs with
  | [] => ([], [])
  | d :: docs' =>
      if into_map d then
        let '(rs, ns) := route docs' in
        if is_notif d then (rs, d :: ns) else (d :: rs, ns)
      else ([], [])
  end.

(** A call between sending and its answer: nobody receives notifications, so
    [route] blocks for good on one that does not fit.  [room] is what is left of
    the channel's 64. *)
Definition chan_cap : nat := 64.
Inductive Awaited : Type :=
| Answered (m : option json) (notifs : list json) (rest : list json)
| Waiting (notifs : list json)            (* the stream has no more yet *)
| Stuck.                                  (* route is blocked, the caller waits for it *)
Fixpoint await (room : nat) (notifs : list json) (docs : list json) {struct docs} : Awaited :=
  match docs with
  | [] => Waiting notifs
  | d :: docs' =>
      if negb (into_map d) then Answered None notifs []      (* close(responses) *)
      else if is_notif d then
        match room with O => Stuck | S room' => await room' (notifs ++ [d]) docs' end
      else Answered (Some d) notifs docs'
  end.
Definition call (queued : list json) (docs : list json) : Awaited := await (chan_cap - length queued) queued docs.

(** * Lemmas: decoding what the server encodes *)
Section encode.
Context {T : Type}.
Variable fs : Fields T.
Lemma keep_cons k v l t : keep_members fs ((k, v) :: l) t =
  keep_members fs l (match field_for fs k with Some store => match store v t with Ok t' => t' | Err _ => t end | None => t end).
Proof. done. Qed.
(** The [i]th field, when its name is new. *)
Definition named (i : nat) (k : string) : Prop := forallb (fun f => negb (bool_decide (f.1 = k))) (take i fs) = true.
Lemma field_at i k a : fs !! i = Some (k, a) -> named i k -> field_for fs k = Some a.
Proof.
  intros Hi Hn. unfold field_for. enough (find (fun '(n, _) => bool_decide (n = k)) fs = Some (k, a)) as -> by done.
  unfold named in Hn. clear -Hi Hn. revert i Hi Hn. induction fs as [|[n b] fs' IH]; intros i Hi Hn; [done|]. cbn [find].
  destruct i as [|i]; [injection Hi as -> ->; by rewrite bool_decide_eq_true_2|]. cbn in Hn. go_bool.
  rewrite bool_decide_eq_false_2 by done. by apply (IH i).
Qed.
Lemma keep_str i k s set l t : fs !! i = Some (k, str_field set) -> named i k ->
  keep_members fs (str_member k s ++ l) t = keep_members fs l (set s t).
Proof. intros Hi Hn. cbn [app str_member]. by rewrite keep_cons, (field_at _ _ _ Hi Hn). Qed.
Lemma keep_oe i k s set l t : fs !! i = Some (k, str_field set) -> named i k -> set ""%string t = t ->
  keep_members fs (oe_member k s ++ l) t = keep_members fs l (set s t).
Proof.
  intros Hi Hn Hz. unfold oe_member, omit_empty. case_bool_decide as Hs; [subst s; by rewrite Hz|]. cbn [app].
  by rewrite keep_cons, (field_at _ _ _ Hi Hn).
Qed.
Lemma keep_int i k z set t : fs !! i = Some (k, int_field 64 set) -> named i k -> in_int64 z -> keep_members fs [(k, JNum (itoa z))] t = set z t.
Proof.
  intros Hi Hn Hz. rewrite keep_cons, (field_at _ _ _ Hi Hn). unfold int_field, num_field. rewrite int_literal_itoa.
  change (2 ^ (64 - 1)) with (2 ^ 63). unfold in_int64, int64_min, int64_max in Hz.
  assert ((- 2 ^ 63 <=? z) && (z <? 2 ^ 63) = true) as -> by (apply andb_true_iff; split; [apply Z.leb_le|apply Z.ltb_lt]; lia). done.
Qed.
End encode.

(** A box and an event JSON can carry. *)
Definition box_clean (b : FleetBox) : bool :=
  forallb utf8 [fb_ID b; fb_Name b; fb_Image b; fb_State b; fb_IP b; fb_AgentState b; fb_AgentStatus b; fb_Task b; fb_Result b] &&
  (- 2 ^ 63 <=? fb_Updated b) && (fb_Updated b <? 2 ^ 63).
Definition event_clean (e : SurfaceEvent) : bool :=
  forallb utf8 [se_Kind e; se_Target e; se_Value e] && (- 2 ^ 63 <=? se_At e) && (se_At e <? 2 ^ 63).

Ltac reduced := cbn [fb_ID fb_Name fb_Image fb_State fb_IP fb_AgentState fb_AgentStatus fb_Task fb_Result fb_Updated].
Lemma decode_box b : box_clean b = true -> unmarshal_ignore box_fields (Some (box_json b)) no_box = b.
Proof.
  intros Hc. unfold box_clean in Hc. go_bool. unfold unmarshal_ignore, box_json, no_box.
  rewrite (keep_str box_fields 0 "id" _ _ _ _ eq_refl eq_refl); reduced.
  rewrite (keep_str box_fields 1 "name" _ _ _ _ eq_refl eq_refl); reduced.
  rewrite (keep_oe box_fields 2 "image" _ _ _ _ eq_refl eq_refl eq_refl); reduced.
  rewrite (keep_str box_fields 3 "state" _ _ _ _ eq_refl eq_refl); reduced.
  rewrite (keep_oe box_fields 4 "ip" _ _ _ _ eq_refl eq_refl eq_refl); reduced.
  rewrite (keep_oe box_fields 5 "agent_state" _ _ _ _ eq_refl eq_refl eq_refl); reduced.
  rewrite (keep_oe box_fields 6 "agent_status" _ _ _ _ eq_refl eq_refl eq_refl); reduced.
  rewrite (keep_oe box_fields 7 "task" _ _ _ _ eq_refl eq_refl eq_refl); reduced.
  rewrite (keep_oe box_fields 8 "result" _ _ _ _ eq_refl eq_refl eq_refl); reduced.
  rewrite (keep_int box_fields 9 "updated" _ _ _ eq_refl eq_refl) by (unfold in_int64, int64_min, int64_max; lia). by destruct b.
Qed.
Lemma decode_event_json e : event_clean e = true -> unmarshal_ignore Surface.event_fields (Some (event_json e)) (mkSurfaceEvent "" "" "" 0) = e.
Proof.
  intros Hc. unfold event_clean in Hc. go_bool. unfold unmarshal_ignore, event_json.
  rewrite (keep_str Surface.event_fields 0 "kind" _ _ _ _ eq_refl eq_refl), (keep_oe Surface.event_fields 1 "target" _ _ _ _ eq_refl eq_refl eq_refl),
    (keep_oe Surface.event_fields 2 "value" _ _ _ _ eq_refl eq_refl eq_refl),
    (keep_int Surface.event_fields 3 "at" _ _ _ eq_refl eq_refl) by (unfold in_int64, int64_min, int64_max; lia). by destruct e.
Qed.

Lemma members_ok l1 l2 : forallb (fun '(k, x) => utf8 k && json_ok x) (l1 ++ l2) =
  forallb (fun '(k, x) => utf8 k && json_ok x) l1 && forallb (fun '(k, x) => utf8 k && json_ok x) l2.
Proof. apply forallb_app. Qed.
Lemma oe_ok k s : utf8 k = true -> utf8 s = true -> forallb (fun '(k, x) => utf8 k && json_ok x) (oe_member k s) = true.
Proof. intros Hk Hs. unfold oe_member, omit_empty. case_bool_decide; [done|]. cbn. by rewrite Hk, Hs. Qed.
Lemma str_ok k s : utf8 k = true -> utf8 s = true -> forallb (fun '(k, x) => utf8 k && json_ok x) (str_member k s) = true.
Proof. intros Hk Hs. cbn. by rewrite Hk, Hs. Qed.
Lemma box_json_ok b : box_clean b = true -> json_ok (box_json b) = true.
Proof.
  intros Hc. unfold box_clean in Hc. cbn [forallb] in Hc. go_bool. unfold box_json. cbn [json_ok].
  rewrite !members_ok, !str_ok, !oe_ok by done. cbn. by rewrite itoa_num_ok.
Qed.
Lemma event_json_ok e : event_clean e = true -> json_ok (event_json e) = true.
Proof.
  intros Hc. unfold event_clean in Hc. cbn [forallb] in Hc. go_bool. unfold event_json. cbn [json_ok].
  rewrite !members_ok, !str_ok, !oe_ok by done. cbn. by rewrite itoa_num_ok.
Qed.

(** A slice printed by the server and read by the client. *)
Lemma slice_back {T} (fs : Fields T) zero (enc : T -> json) (l : list T) :
  (forall x, x ∈ l -> json_ok (enc x) = true /\ unmarshal_ignore fs (Some (enc x)) zero = x) ->
  unmarshal_slice fs zero (print (JArr (map enc l))) = l.
Proof.
  intros Hl. unfold unmarshal_slice. rewrite parse_print.
  - rewrite map_map. rewrite <- (map_id l) at 2. apply map_ext_in. intros x Hx. by apply Hl, list_elem_of_In.
  - cbn [json_ok]. apply forallb_forall. intros j (x & <- & Hx)%in_map_iff. by apply Hl, list_elem_of_In.
Qed.

Lemma fleet_back id uri fl : forallb box_clean fl = true ->
  fleetFrom (Some (respond (Some id) ("result"%string, contents uri (print (JArr (map box_json fl)))))) = fl.
Proof.
  intros Hc. change (unmarshal_slice box_fields no_box (print (JArr (map box_json fl))) = fl). apply slice_back.
  intros b Hb. apply list_elem_of_In in Hb. rewrite forallb_forall in Hc. split; [by apply box_json_ok, Hc|by apply decode_box, Hc].
Qed.
Lemma events_back id uri evs : forallb event_clean evs = true ->
  eventsFrom (Some (respond (Some id) ("result"%string, contents uri (print (nil_slice (map event_json evs)))))) = evs.
Proof.
  intros Hc. change (unmarshal_slice Surface.event_fields (mkSurfaceEvent "" "" "" 0) (print (nil_slice (map event_json evs))) = evs).
  destruct evs as [|e evs]; [done|]. change (nil_slice (map event_json (e :: evs))) with (JArr (map event_json (e :: evs))).
  apply slice_back. intros x Hx. apply list_elem_of_In in Hx. rewrite forallb_forall in Hc.
  split; [by apply event_json_ok, Hc|by apply decode_event_json, Hc].
Qed.

(** * Lemmas: ids *)
Fixpoint plain_id (id : string) : bool :=
  match id with
  | EmptyString => true
  | String c id' => negb (is_space c) && negb (bool_decide (c = ")"%char)) && negb (bool_decide (c = ";"%char)) && plain_id id'
  end.
Lemma fields_word w rest : w <> ""%string -> plain_id w = true ->
  string_Fields (w +:+ String ")" (String ";" (String " " rest))) = (w +:+ ");") :: string_Fields (String " " rest).
Proof.
  unfold string_Fields. induction w as [|c w IH]; [done|]. intros _ Hp. cbn [plain_id] in Hp. go_bool. rewrite !string_app_cons.
  destruct w as [|d w].
  - rewrite !string_app_nil_l. cbn [fields_func]. match goal with Hc : is_space c = false |- _ => by rewrite Hc end.
  - specialize (IH ltac:(done) ltac:(done)). rewrite !string_app_cons in *. cbn [plain_id] in *. go_bool.
    set (tail := fields_func is_space (String " " rest)) in *. cbn [fields_func] in IH |- *.
    match goal with Hc : is_space c = false, Hd : is_space d = false |- _ => rewrite Hc; rewrite Hd in IH |- * end. by rewrite IH.
Qed.
Lemma trim_marks_plain w : plain_id w = true -> trim_marks (w +:+ ");") = w.
Proof.
  induction w as [|c w IH]; intros Hp; [done|]. cbn [plain_id] in Hp. go_bool. rewrite string_app_cons. cbn [trim_marks]. rewrite IH by done.
  destruct w; [|done]. by rewrite !bool_decide_eq_false_2.
Qed.
Lemma id_back id : id <> ""%string -> plain_id id = true -> idFrom ("delegated (box " +:+ id +:+ "); watch hopbox://fleet") = id.
Proof.
  intros Hid Hp. unfold idFrom. change (after_sub "box " ("delegated (box " +:+ id +:+ "); watch hopbox://fleet")) with
    (Some (id +:+ String ")" (String ";" (String " " "watch hopbox://fleet")))).
  cbv beta iota. rewrite fields_word by done. by apply trim_marks_plain.
Qed.

(** * The fleet and the ids a client works with are the server's *)
Section client.
Context {S C H B : Type} `{BoxStore S} `{ExecHub B}.
Notation P := (Plane S C H B).
Variable newID : nat -> string.
Variable wake : string -> string -> M (World S C H) unit.
Variable cfg : EngineConfig.
Variable range : gset string -> list string.
Hypothesis range_all : forall X, range X ≡ₚ elements X.
Notation handle := (Mcp.handle newID wake cfg range).

Lemma read_fleet n id (p : P) :
  handle n (read_request id "hopbox://fleet") p =
  (fl ← Fleet cfg; reply n (Some id) (contents "hopbox://fleet" (print (JArr (map box_json fl))))) p.
Proof.
  unfold Mcp.handle, read_request. cbn [rq_Method rq_Params rq_ID].
  change (unmarshal_ignore uri_fields _ _) with (mkUriParams "hopbox://fleet"). cbv zeta. cbn [up_URI].
  repeat (rewrite (bool_decide_eq_false_2 ("resources/read"%string = _)) by done).
  rewrite (bool_decide_eq_true_2 ("resources/read"%string = _)) by done.
  rewrite (bool_decide_eq_false_2 ("hopbox://fleet"%string = ""%string)), (bool_decide_eq_false_2 ("hopbox://fleet"%string = _)) by done.
  change (readResource cfg "hopbox://fleet") with (fleetJSON cfg : M P string). unfold fleetJSON, mbind, M_bind.
  by destruct (Fleet cfg p) as [p1 [fl|e]].
Qed.
(** What the demo's [delegate] sends. *)
Definition delegate_request (id : json) (task : string) : req :=
  mkReq (Some id) "tools/call" (Some (JObj [("arguments", JObj [("task", JStr task)]); ("name", JStr "box.delegate")]))%string.
Lemma call_delegate n id task (p : P) :
  handle n (delegate_request id task) p =
  (x ← try (Delegate newID wake cfg range task);
   match x with
   | Err e => reply n (Some id) (content (Error e) true)
   | Ok bid => reply n (Some id) (content ("delegated (box " +:+ bid +:+ "); watch hopbox://fleet") false)
   end) p.
Proof. reflexivity. Qed.

Lemma Fleet_sessions (p p1 : P) r : Fleet cfg p = (p1, r) -> pl_sessions p1 = pl_sessions p.
Proof.
  intros Hf. refine (wp_all _ (fun p1 _ => pl_sessions p1 = pl_sessions p) _ _ _ Hf _). unfold Fleet.
  apply wp_bind, wp_try. unfold wp, on_engine, zoom. destruct (Engine.List cfg (pl_world p)). done.
Qed.

(** C36. The client works with what the server has.  Asked for the fleet, the
    server's one answer decodes to exactly its fleet, for boxes whose texts are
    valid UTF-8; asked for a surface's events, to exactly the recorded ones; and
    the id the client reads out of the answer to a delegation is the id of the
    box that was made. *)
Theorem client_reads_back n id (p p' : P) s res :
  pl_sessions p !! n = Some s ->
  (forall p1 fl, handle n (read_request id "hopbox://fleet") p = (p', res) -> Fleet cfg p = (p1, Ok fl) -> forallb box_clean fl = true ->
     exists m, pl_sessions p' !! n = Some (write_out [m] s) /\ fleetFrom (Some m) = fl) /\
  (forall name, handle n (read_request id (surface_uri name)) p = (p', res) ->
     forallb event_clean (Surface.Events (pl_surfaces p) name) = true ->
     exists m, pl_sessions p' !! n = Some (write_out [m] s) /\ eventsFrom (Some m) = Surface.Events (pl_surfaces p) name) /\
  (forall task p1 bid, handle n (delegate_request id task) p = (p', res) ->
     Delegate newID wake cfg range task p = (p1, Ok bid) -> bid <> ""%string -> plain_id bid = true ->
     exists notes m, pl_sessions p' !! n = Some (write_out (map updated notes ++ [m]) s) /\ idFrom (toolText (Some m)) = bid).
Proof.
  intros Hs. split_and!.
  - intros p1 fl Hh Hf Hc. rewrite read_fleet, (bind_eq_ok _ _ _ _ _ Hf) in Hh. injection Hh as <- _. cbn.
    rewrite lookup_alter_eq, (Fleet_sessions _ _ _ Hf), Hs. eexists. split; [reflexivity|]. by apply fleet_back.
  - intros name Hh Hc. rewrite read_surface in Hh. injection Hh as <- _. cbn.
    rewrite lookup_alter_eq, Hs. eexists. split; [reflexivity|]. by apply events_back.
  - intros task p1 bid Hh Hd Hid Hp. rewrite call_delegate in Hh.
    rewrite (bind_eq_ok (try (Delegate newID wake cfg range task)) _ p p1 (Ok bid)) in Hh by (unfold try; by rewrite Hd).
    injection Hh as <- _. cbn. rewrite lookup_alter_eq.
    pose proof (wp_all _ _ _ _ _ Hd (calm_Delegate newID wake cfg range range_all task p)) as Hn. cbn in Hn. specialize (Hn n). rewrite Hs in Hn.
    destruct (pl_sessions p1 !! n) as [s1|]; [|done]. destruct Hn as (notes & _ & ->). exists notes. eexists. split.
    { cbn. unfold write_out. cbn. by rewrite <- app_assoc. }
    change (idFrom ("delegated (box " +:+ bid +:+ "); watch hopbox://fleet") = bid). by apply id_back.
Qed.
End client.

(** * Calls and their answers *)
Lemma updated_notif u : is_notif (updated u) = true /\ into_map (updated u) = true.
Proof. done. Qed.
Lemma respond_answer id body : body.1 = "result"%string \/ body.1 = "error"%string ->
  is_notif (respond id body) = false /\ into_map (respond id body) = true.
Proof. destruct body as [k v]. cbn. intros [->| ->]; by destruct id. Qed.

Lemma route_notes us docs : route (map updated us ++ docs) = ((route docs).1, map updated us ++ (route docs).2).
Proof.
  induction us as [|u us IH]; [cbn [map app]; by destruct (route docs)|]. cbn [map app route]. rewrite IH.
  by destruct (updated_notif u) as [-> ->].
Qed.
Lemma route_answer id body docs : body.1 = "result"%string \/ body.1 = "error"%string ->
  route (respond id body :: docs) = (respond id body :: (route docs).1, (route docs).2).
Proof. intros Hb. destruct (respond_answer id body Hb) as [Hn Hi]. cbn [route]. rewrite Hn, Hi. by destruct (route docs). Qed.

(** A call while [queued] notifications wait, and [us] come before its answer. *)
Lemma await_notes room notifs us docs :
  await room notifs (map updated us ++ docs) =
  if (length us <=? room)%nat then await (room - length us) (notifs ++ map updated us) docs else Stuck.
Proof.
  revert room notifs. induction us as [|u us IH]; intros room notifs.
  - cbn [map app length]. by rewrite Nat.sub_0_r, app_nil_r.
  - cbn [map app await]. destruct (updated_notif u) as [-> ->]. cbn [negb]. destruct room as [|room]; [done|]. rewrite IH.
    cbn [length]. change (S (length us) <=? S room)%nat with (length us <=? room)%nat. by rewrite <- app_assoc.
Qed.
(** A call gets the next answer if the channel has room for the notifications
    before it, and waits forever if it has not: what reads the channel is the
    caller. *)
Theorem call_answered queued us id body docs : body.1 = "result"%string \/ body.1 = "error"%string ->
  call queued (map updated us ++ respond id body :: docs) =
  if (length us <=? chan_cap - length queued)%nat then Answered (Some (respond id body)) (queued ++ map updated us) docs else Stuck.
Proof.
  intros Hb. unfold call. rewrite await_notes. destruct (respond_answer id body Hb) as [Hn Hi]. case_match; [|done].
  cbn [await]. by rewrite Hi, Hn.
Qed.

Section session.
Context {St C Hy B : Type} `{BoxStore St} `{ExecHub B}.
Notation P := (Plane St C Hy B).
Variable newID : nat -> string.
Variable wake : string -> string -> M (World St C Hy) unit.
Variable cfg : EngineConfig.
Variable range : gset string -> list string.
Hypothesis range_all : forall X, range X ≡ₚ elements X.

(** A message as the loop reads it, with what happens before it comes. *)
Definition heard (x : (P -> P) * json) (r : req) : Prop :=
  decode_struct req_fields x.2 (mkReq None "" None) = Ok r /\ forall p : P, notes_only p (x.1 p).
Definition answer_to (r : req) (m : json) : Prop :=
  exists body, (body.1 = "result"%string \/ body.1 = "error"%string) /\ m = respond (rq_ID r) body.

(** Calls and answers stay paired.  A client never looks at the id of an
    answer: its nth call takes the nth response.  Whatever the session's
    requests are and whatever other sessions and tasks do in between, the
    responses routed from the session's output are the answers to its requests
    that ask for one, one each, in their order; the rest of the output is
    notifications. *)
Theorem calls_paired n docs reqs (p p' : P) s res :
  Forall2 heard docs reqs -> pl_sessions p !! n = Some s ->
  serve_loop newID wake cfg range n docs p = (p', res) ->
  res = Ok tt /\ exists s' out, pl_sessions p' !! n = Some s' /\ ss_out s' = ss_out s ++ out /\
    Forall2 answer_to (filter (fun r => silent r = false) reqs) (route out).1 /\
    Forall (fun m => exists u, m = updated u) (route out).2.
Proof.
  intros Hd. revert p s. induction Hd as [|[others doc] r docs reqs [Hdec Hoth] _ IH]; intros p s Hs Hrun.
  { injection Hrun as <- <-. split; [done|]. exists s, []. rewrite app_nil_r. by repeat constructor. }
  cbn [serve_loop] in Hrun. rewrite (bind_eq_ok _ _ p (others p) tt) in Hrun by done. cbn in Hdec. rewrite Hdec in Hrun.
  pose proof (Hoth p n) as Hn. cbn in Hn. rewrite Hs in Hn. destruct (pl_sessions (others p) !! n) as [s1|] eqn:Hs1; [|done].
  destruct Hn as (us & _ & ->).
  destruct (handle newID wake cfg range n r (others p)) as [p2 r2] eqn:Hh.
  pose proof (wp_all _ _ _ _ _ Hh (handle_handled newID wake cfg range range_all n r (others p))) as [-> Hsess].
  rewrite (bind_eq_ok _ _ _ _ _ Hh) in Hrun. rewrite filter_cons.
  destruct (silent r) eqn:Hsil.
  - rewrite decide_False by done. rewrite <- Hsess in Hs1.
    destruct (IH p2 _ Hs1 Hrun) as (-> & s' & out & Hs' & Hout & Hrs & Hns). split; [done|]. exists s', (map updated us ++ out).
    rewrite route_notes. split_and!; [done| |done|].
    + rewrite Hout. cbn. by rewrite <- app_assoc.
    + apply Forall_app. split; [|done]. apply Forall_map, Forall_true. eauto.
  - rewrite decide_True by done. destruct Hsess as (p3 & body & Hn3 & Hb & He). specialize (Hn3 n). rewrite Hs1 in Hn3.
    destruct (pl_sessions p3 !! n) as [s3|] eqn:Hs3; [|done]. destruct Hn3 as (vs & _ & ->).
    assert (Hs2 : exists X, pl_sessions p2 !! n = Some (mkSession X (ss_out s ++ map updated us ++ map updated vs ++ [respond (rq_ID r) body]))).
    { rewrite He, lookup_alter_eq, Hs3. cbn. unfold write_out. cbn. rewrite <- !app_assoc. by eexists. }
    destruct Hs2 as [X Hs2]. destruct (IH p2 _ Hs2 Hrun) as (-> & s' & out & Hs' & Hout & Hrs & Hns). split; [done|].
    exists s', (map updated us ++ map updated vs ++ respond (rq_ID r) body :: out).
    rewrite !route_notes, route_answer by done. cbn [fst snd]. split_and!; [done| | |].
    + rewrite Hout. cbn. by rewrite <- !app_assoc.
    + constructor; [by exists body|done].
    + rewrite !Forall_app. split_and!; [apply Forall_map, Forall_true; eauto..|done].
Qed.
End session.

(** * Runs *)
#[local] Existing Instance Net.net.
Notation fleet_plane := apply2.1.
Notation reading := (handle hex_id System.wake ecfg order 7 (read_request (JNum "3") "hopbox://fleet") fleet_plane).

Lemma client_reads_back_witness :
  exists m fl, written reading = Some (ss_out (default watching (pl_sessions fleet_plane !! 7%nat)) ++ [m]) /\
    fleetFrom (Some m) = fl /\ map fb_ID fl = ["id-0"; "id-1"]%string.
Proof.
  destruct (Fleet ecfg fleet_plane) as [p1 r] eqn:Hf.
  assert (Hr : map fb_ID <$> match r with Ok fl => Some fl | Err _ => None end = Some ["id-0"; "id-1"]%string).
  { change r with (p1, r).2. rewrite <- Hf. vm_compute. reflexivity. }
  assert (Hc : match r with Ok fl => forallb box_clean fl | Err _ => true end = true).
  { change r with (p1, r).2. rewrite <- Hf. vm_compute. reflexivity. }
  destruct r as [fl|e]; [|discriminate Hr].
  destruct (pl_sessions fleet_plane !! 7%nat) as [s|] eqn:Hs; [|vm_compute in Hs; discriminate Hs].
  destruct (client_reads_back hex_id System.wake ecfg order (fun X => reflexivity _) 7 (JNum "3") fleet_plane reading.1 s reading.2 Hs) as (Hfl & _ & _).
  destruct (Hfl p1 fl (surjective_pairing _) Hf Hc) as (m & Hm & He). exists m, fl.
  split; [exact (f_equal (fmap ss_out) Hm)|]. split; [exact He|]. injection Hr as ->. reflexivity.
Defined.

Definition doc_of (r : req) : json :=
  JObj ([("jsonrpc"%string, JStr "2.0")] ++ id_member (rq_ID r) ++ [("method"%string, JStr (rq_Method r))] ++
        match rq_Params r with Some p => [("params"%string, p)] | None => [] end).
Definition first_calls : list req :=
  [mkReq (Some (JNum "1")) "initialize" (Some (JObj []));
   mkReq None "notifications/initialized" None;
   mkReq (Some (JNum "2")) "resources/subscribe" (Some (JObj [("uri", JStr "hopbox://fleet")]));
   delegate_request (JNum "3") "make";
   read_request (JNum "4") "hopbox://fleet"]%string.
Notation served := (serve_loop hex_id System.wake ecfg order 7 (map (fun r => (fun p : plane => p, doc_of r)) first_calls) plane0).

Lemma calls_paired_witness :
  served.2 = Ok tt /\ exists s', pl_sessions served.1 !! 7%nat = Some s' /\
    map (fun m => at_key "id" (Some m)) (route (ss_out s')).1 = map (fun n => Some (JNum n)) ["1"; "2"; "3"; "4"]%string.
Proof.
  destruct (calls_paired hex_id System.wake ecfg order (fun X => reflexivity _) 7
    (map (fun r => (fun p : plane => p, doc_of r)) first_calls) first_calls plane0 served.1 watching served.2) as (Hr & s' & out & Hs' & Hout & Hall & _).
  - repeat (apply List.Forall2_cons; [split; [vm_compute; reflexivity|exact notes_refl]|]). apply List.Forall2_nil.
  - reflexivity.
  - exact (surjective_pairing _).
  - split; [exact Hr|]. exists s'. split; [exact Hs'|]. rewrite Hout. cbn [watching ss_out app].
    assert (Hf : filter (fun r => silent r = false) first_calls = [mkReq (Some (JNum "1")) "initialize" (Some (JObj []));
      mkReq (Some (JNum "2")) "resources/subscribe" (Some (JObj [("uri", JStr "hopbox://fleet")]));
      delegate_request (JNum "3") "make"; read_request (JNum "4") "hopbox://fleet"]%string) by (vm_compute; reflexivity).
    rewrite Hf in Hall. clear -Hall. repeat match goal with
    | H : Forall2 _ (_ :: _) _ |- _ => inversion H as [|? ? ? ? ([? ?] & [Hb|Hb] & ->)]; clear H; cbn in Hb; subst
    | H : Forall2 _ [] _ |- _ => inversion H; clear H; subst
    end; vm_compute; reflexivity.
Defined.

(** The answer behind 65 notifications never arrives: [watch] and [ps] read no
    notifications while they wait for an answer. *)
Example watch_hangs us m rest : length us = 65%nat -> call [] (map updated us ++ m :: rest) = Stuck.
Proof. intros Hl. unfold call. by rewrite await_notes, Hl. Qed.
(** [watch] panics when the connection is lost under a pending notification: the
    call answers nothing, and no events are fewer than those already shown. *)
Example watch_panics : eventsFrom None = [] /\ show 3 [] = None.
Proof. done. Qed.
Example id_from : idFrom "delegated (box 0a1b2c3d); watch hopbox://fleet" = "0a1b2c3d"%string /\ idFrom "Delegate: no such image" = ""%string.
Proof. vm_compute. auto. Qed.
Example ps_row_cases : ps_row (mkFleetBox "0123456789" "web" "" "running" "" "" "" "" "" 0) = ["01234567"; "web"; "-"; "running"; "-"; "-"]%string.
Proof. vm_compute. reflexivity. Qed.
