(* ===== verification/Mcpssh.v ===== *)
(** The standalone control plane ([cmd/hopbox-mcp/ssh_backend.go]): a fleet kept
    in memory whose tasks run in boxes reached over [ssh <name>@<host>].

    The state is [sshBackend] with the goroutines in flight.  Every operation
    holds the lock where it reads and writes, and only finished tasks come in
    between: they write the state and result of one box, so an operation is a
    step, and so is the end of a task with what ssh printed.  The callbacks are
    counted.  Key generation and the temporary directory are not modelled. *)
From stdpp Require Import base option list strings gmap.
From Stdlib Require Import Ascii ZArith Lia.
From S2P Require Import Prelude GoStrings GoTime Mcp.
Local Open Scope Z_scope.

Record Backend : Type := mkBackend {
  sb_order : list string;
  sb_boxes : gmap string FleetBox;
  sb_keys : gmap string string;
  sb_surfaces : Surfaces;
  sb_subs : gmap nat nat;                            (* calls made to each callback *)
  sb_nextSub : nat;
  sb_seq : Z;
  sb_running : list (string * (string * string))     (* go run(name, cmd), by box *)
}.
#[export] Instance set_sb_order : Setter sb_order := fun f s => mkBackend (f (sb_order s)) (sb_boxes s) (sb_keys s) (sb_surfaces s) (sb_subs s) (sb_nextSub s) (sb_seq s) (sb_running s).
#[export] Instance set_sb_boxes : Setter sb_boxes := fun f s => mkBackend (sb_order s) (f (sb_boxes s)) (sb_keys s) (sb_surfaces s) (sb_subs s) (sb_nextSub s) (sb_seq s) (sb_running s).
#[export] Instance set_sb_keys : Setter sb_keys := fun f s => mkBackend (sb_order s) (sb_boxes s) (f (sb_keys s)) (sb_surfaces s) (sb_subs s) (sb_nextSub s) (sb_seq s) (sb_running s).
#[export] Instance set_sb_surfaces : Setter sb_surfaces := fun f s => mkBackend (sb_order s) (sb_boxes s) (sb_keys s) (f (sb_surfaces s)) (sb_subs s) (sb_nextSub s) (sb_seq s) (sb_running s).
#[export] Instance set_sb_subs : Setter sb_subs := fun f s => mkBackend (sb_order s) (sb_boxes s) (sb_keys s) (sb_surfaces s) (f (sb_subs s)) (sb_nextSub s) (sb_seq s) (sb_running s).
#[export] Instance set_sb_nextSub : Setter sb_nextSub := fun f s => mkBackend (sb_order s) (sb_boxes s) (sb_keys s) (sb_surfaces s) (sb_subs s) (f (sb_nextSub s)) (sb_seq s) (sb_running s).
#[export] Instance set_sb_seq : Setter sb_seq := fun f s => mkBackend (sb_order s) (sb_boxes s) (sb_keys s) (sb_surfaces s) (sb_subs s) (sb_nextSub s) (f (sb_seq s)) (sb_running s).
#[export] Instance set_sb_running : Setter sb_running := fun f s => mkBackend (sb_order s) (sb_boxes s) (sb_keys s) (sb_surfaces s) (sb_subs s) (sb_nextSub s) (sb_seq s) (f (sb_running s)).
Notation B := (M Backend).

Definition newSSHBackend : Backend := mkBackend [] ∅ ∅ (Surface.New "http://localhost") ∅ 0 0 [].

Definition sb_notify : B unit := modify (fun s => s <| sb_subs := fmap S (sb_subs s) |>).
Definition OnChange : B nat := fun s =>
  (s <| sb_subs := <[sb_nextSub s := 0%nat]> (sb_subs s) |> <| sb_nextSub := S (sb_nextSub s) |>, Ok (sb_nextSub s)).
Definition cancel (id : nat) : B unit := modify (fun s => s <| sb_subs := delete id (sb_subs s) |>).
(** [surfaces.Render] calls no callback. *)
Definition RenderSurface (name html : string) : B string := fun s =>
  let '(sf, url) := Surface.Render name html (sb_surfaces s) in (s <| sb_surfaces := sf |>, Ok url).
Definition SurfaceEvents (name : string) : B (list SurfaceEvent) := gets (fun s => Surface.Events (sb_surfaces s) name).

(** [fmt.Sprintf("%03d", n)] *)
Definition pad3 (n : Z) : string :=
  let digits w n := pad_dec (Nat.max w (ndigits (Z.to_nat (Z.log2 n)) n)) n in
  if n <? 0 then String "-" (digits 2%nat (- n)) else digits 3%nat n.
Definition box_id (seq : Z) : string := "b" +:+ pad3 seq.

(** Reading the fleet dereferences every box of the order. *)
Definition Fleet (s : Backend) : option (list FleetBox) := mapM (fun id => sb_boxes s !! id) (sb_order s).

Section ops.
Variable now : Z.        (* time.Now().Unix() *)

Definition newBox (name taskCmd : string) : B (string * string) :=
  modify (fun s => s <| sb_seq := wrap64 (sb_seq s + 1) |>) ;;
  id ← gets (fun s => box_id (sb_seq s));
  let name := if bool_decide (name = ""%string) then "mcp-" +:+ id else name in
  modify (fun s => s <| sb_boxes := <[id := mkFleetBox id name "" "working" "" "" "" taskCmd "" now]> (sb_boxes s) |>
                     <| sb_order := sb_order s ++ [id] |>) ;;
  sb_notify ;;
  mret (id, name).
Definition set (id state result : string) : B unit :=
  modify (fun s => s <| sb_boxes := alter (fun bx => mkFleetBox (fb_ID bx) (fb_Name bx) (fb_Image bx) state (fb_IP bx)
    (fb_AgentState bx) (fb_AgentStatus bx) (fb_Task bx) result now) id (sb_boxes s) |>) ;;
  sb_notify.
(** The goroutine [runAsync] starts; [run] of its box and command is ssh's. *)
Definition runAsync (id name taskCmd : string) : B unit :=
  modify (fun s => s <| sb_running := sb_running s ++ [(id, (name, taskCmd))] |>).

Definition Spawn (_name : string) : B string :=
  b ← newBox "" "";
  set b.1 "done" "spawned" ;;
  mret b.1.
Definition Delegate (taskCmd : string) : B string :=
  b ← newBox "" taskCmd;
  runAsync b.1 b.2 taskCmd ;;
  mret b.1.

Fixpoint apply_loop (live : gset string) (spec : list SpecBox) (created : list string) : B (list string) :=
  match spec with
  | [] => mret created
  | sx :: spec' =>
      if bool_decide (sx_Key sx = ""%string) then apply_loop live spec' created
      else
        existing ← gets (fun s => sb_keys s !! sx_Key sx);
        if match existing with Some id => bool_decide (id ∈ live) | None => false end then apply_loop live spec' created
        else
          b ← newBox ("fleet-" +:+ sx_Key sx) (sx_Task sx);
          runAsync b.1 b.2 (sx_Task sx) ;;
          modify (fun s => s <| sb_keys := <[sx_Key sx := b.1]> (sb_keys s) |>) ;;
          apply_loop live spec' (created ++ [b.1])
  end.
Definition Apply (spec : list SpecBox) : B (list string) :=
  live ← gets (fun s => list_to_set (sb_order s) : gset string);
  apply_loop live spec [].

(** The end of the [i]th goroutine in flight, with [run]'s output. *)
Definition finish (i : nat) (out : string) (err : option error) : B unit :=
  task ← gets (fun s => sb_running s !! i);
  match task with
  | None => mret tt
  | Some (id, _) =>
      modify (fun s => s <| sb_running := delete i (sb_running s) |>) ;;
      match err with
      | Some e => set id "failed" (trim_space (out +:+ " " +:+ Error e))
      | None => set id "done" (trim_space out)
      end
  end.
End ops.

(** The ssh command of a task. *)
Definition ssh_command (keyFile host name taskCmd : string) : list string :=
  ["-i"; keyFile; "-o"; "IdentitiesOnly=yes"; "-o"; "StrictHostKeyChecking=accept-new"; "-o"; "UserKnownHostsFile=/dev/null";
   "-o"; "ConnectTimeout=90"; "-o"; "LogLevel=ERROR"; name +:+ "@" +:+ host; taskCmd]%string.

Inductive sop : Type :=
| OpSpawn (name : string)
| OpDelegate (taskCmd : string)
| OpApply (spec : list SpecBox)
| OpFinish (i : nat) (out : string) (err : option error)
| OpRender (name html : string)
| OpSubscribe
| OpCancel (id : nat).
Definition run_sop (s : Backend) (x : Z * sop) : Backend :=
  let now := x.1 in
  match x.2 with
  | OpSpawn n => fst (Spawn now n s)
  | OpDelegate t => fst (Delegate now t s)
  | OpApply spec => fst (Apply now spec s)
  | OpFinish i out err => fst (finish now i out err s)
  | OpRender n h => fst (RenderSurface n h s)
  | OpSubscribe => fst (OnChange s)
  | OpCancel id => fst (cancel id s)
  end.
(** The boxes an operation can make. *)
Definition sop_size (o : sop) : Z :=
  match o with OpSpawn _ | OpDelegate _ => 1 | OpApply spec => Z.of_nat (length spec) | _ => 0 end.

(** * Lemmas *)
Lemma pad3_inj m n : 0 <= m -> 0 <= n -> pad3 m = pad3 n -> m = n.
Proof.
  intros Hm Hn He. unfold pad3 in He. rewrite (proj2 (Z.ltb_ge _ _)), (proj2 (Z.ltb_ge _ _)) in He by done.
  assert (Hback : forall z, 0 <= z -> take_digits 0 (pad_dec (Nat.max 3 (ndigits (Z.to_nat (Z.log2 z)) z)) z +:+ "") = (z, ""%string)).
  { intros z Hz. rewrite take_digits_pad by done. rewrite Z.mod_small; [done|]. split; [done|].
    eapply Z.lt_le_trans; [by apply itoa_width|]. apply Z.pow_le_mono_r; lia. }
  pose proof (Hback m Hm) as Bm. rewrite He, (Hback n Hn) in Bm. congruence.
Qed.
Lemma box_id_inj m n : 0 <= m -> 0 <= n -> box_id m = box_id n -> m = n.
Proof. intros Hm Hn He. apply pad3_inj; [done..|]. unfold box_id in He. rewrite !string_app_cons, !string_app_nil_l in He. congruence. Qed.

Definition ids (n : Z) : list string := map box_id (seqZ 1 n).
Lemma ids_succ n : 0 <= n -> ids (n + 1) = ids n ++ [box_id (n + 1)].
Proof. intros Hn. unfold ids. rewrite seqZ_app, map_app by lia. cbn. by rewrite (Z.add_comm 1 n). Qed.
Lemma ids_new n : 0 <= n -> box_id (n + 1) ∉ ids n.
Proof.
  intros Hn (k & Hk & Hin)%list_elem_of_fmap. apply elem_of_seqZ in Hin. apply box_id_inj in Hk; lia.
Qed.
Lemma ids_nodup n : NoDup (ids n).
Proof.
  apply NoDup_fmap_2_strong; [|apply NoDup_seqZ]. intros x y Hx%elem_of_seqZ Hy%elem_of_seqZ. apply box_id_inj; lia.
Qed.

(** Well-formed states. *)
Record wf (s : Backend) : Prop := mkWf {
  wf_seq : 0 <= sb_seq s;
  wf_order : sb_order s = ids (sb_seq s);
  wf_dom : forall id, is_Some (sb_boxes s !! id) <-> id ∈ sb_order s;
  wf_box : forall id b, sb_boxes s !! id = Some b -> fb_ID b = id /\ fb_State b ∈ ["working"; "done"; "failed"]%string;
  wf_keys : forall k id, sb_keys s !! k = Some id -> id ∈ sb_order s;
  wf_once : NoDup (map fst (sb_running s));
  wf_working : forall id b, sb_boxes s !! id = Some b -> (fb_State b = "working"%string <-> id ∈ map fst (sb_running s));
  wf_running : forall id, id ∈ map fst (sb_running s) -> id ∈ sb_order s
}.

(** A state with one more box. *)
Definition with_box (s : Backend) (b : FleetBox) (task : list (string * (string * string))) (s' : Backend) : Prop :=
  sb_seq s' = sb_seq s + 1 /\ sb_order s' = sb_order s ++ [box_id (sb_seq s + 1)] /\
  sb_boxes s' = <[box_id (sb_seq s + 1) := b]> (sb_boxes s) /\ sb_running s' = sb_running s ++ task.

Lemma fresh_id s : wf s -> box_id (sb_seq s + 1) ∉ sb_order s.
Proof. intros Hw. rewrite (wf_order _ Hw). by apply ids_new, wf_seq. Qed.

Lemma wf_with_box s b task s' : wf s -> with_box s b task s' -> fb_ID b = box_id (sb_seq s + 1) ->
  (fb_State b = "working"%string /\ map fst task = [box_id (sb_seq s + 1)] \/ fb_State b = "done"%string /\ task = []) ->
  (forall k id, sb_keys s' !! k = Some id -> sb_keys s !! k = Some id \/ id = box_id (sb_seq s + 1)) -> wf s'.
Proof.
  intros Hw (Hq & Ho & Hb & Hr) Hid Hst Hk. pose proof (fresh_id s Hw) as Hf. pose proof (wf_seq _ Hw) as Hs0. set (id := box_id (sb_seq s + 1)) in *.
  assert (Hnone : sb_boxes s !! id = None) by (apply eq_None_not_Some; by rewrite (wf_dom _ Hw)).
  assert (Hnr : id ∉ map fst (sb_running s)) by (intros Hx; by apply Hf, (wf_running _ Hw)).
  split.
  - lia.
  - rewrite Ho, Hq, ids_succ, (wf_order _ Hw) by done. done.
  - intros i. rewrite Hb, Ho, elem_of_app, list_elem_of_singleton, <- (wf_dom _ Hw), lookup_insert_is_Some.
    destruct (decide (id = i)) as [->|Hne]; [by split; auto|]. split; [intros [?|[_ ?]]; [done|by left]|intros [?| ->]; [by right|done]].
  - intros i c. rewrite Hb, lookup_insert_Some. intros [[<- <-]|[_ Hc]]; [|by apply (wf_box _ Hw)]. split; [done|].
    destruct Hst as [[-> _]|[-> _]]; set_solver.
  - intros k i Hi. rewrite Ho, elem_of_app, list_elem_of_singleton. destruct (Hk k i Hi) as [Ho'| ->]; [left; by apply (wf_keys _ Hw k)|by right].
  - rewrite Hr, map_app. destruct Hst as [[_ ->]|[_ ->]]; [|rewrite app_nil_r; apply (wf_once _ Hw)].
    apply NoDup_app. split_and!; [apply (wf_once _ Hw)| |apply NoDup_singleton]. intros x Hx ->%list_elem_of_singleton. done.
  - intros i c. rewrite Hb, Hr, map_app, elem_of_app, lookup_insert_Some. intros [[<- <-]|[Hne Hc]].
    + destruct Hst as [[-> ->]|[-> ->]]; [rewrite list_elem_of_singleton; tauto|]. split; [done|]. intros [?|Hx]; [done|by apply not_elem_of_nil in Hx].
    + rewrite (wf_working _ Hw i c Hc). split; [by left|]. intros [?|Hx]; [done|]. destruct Hst as [[_ Ht]|[_ ->]].
      * rewrite Ht, list_elem_of_singleton in Hx. congruence.
      * by apply not_elem_of_nil in Hx.
  - intros i. rewrite Hr, map_app, Ho, !elem_of_app. intros [?|Hx]; [left; by apply (wf_running _ Hw)|right].
    destruct Hst as [[_ Ht]|[_ ->]]; [by rewrite Ht in Hx|by apply not_elem_of_nil in Hx].
Qed.

(** What is not the fleet, the keys and the tasks does not matter. *)
Lemma wf_same s s' : sb_seq s' = sb_seq s -> sb_order s' = sb_order s -> sb_boxes s' = sb_boxes s -> sb_keys s' = sb_keys s ->
  sb_running s' = sb_running s -> wf s -> wf s'.
Proof. intros H1 H2 H3 H4 H5 []. split; rewrite ?H1, ?H2, ?H3, ?H4, ?H5; done. Qed.

Definition room (s : Backend) (n : Z) : Prop := sb_seq s + n < 2 ^ 63.

Lemma newBox_eq now name t s : wf s -> room s 1 ->
  let id := box_id (sb_seq s + 1) in
  let nm := if bool_decide (name = ""%string) then "mcp-" +:+ id else name in
  exists s', newBox now name t s = (s', Ok (id, nm)) /\ with_box s (mkFleetBox id nm "" "working" "" "" "" t "" now) [] s' /\
    sb_keys s' = sb_keys s /\ sb_surfaces s' = sb_surfaces s.
Proof.
  intros Hw Hr id nm. pose proof (wf_seq _ Hw). unfold room in Hr.
  assert (E : wrap64 (sb_seq s + 1) = sb_seq s + 1) by (apply wrap64_id; unfold in_int64, int64_min, int64_max; lia).
  eexists. split.
  - unfold newBox, mbind, M_bind, modify, gets, sb_notify, mret, M_ret. cbn. rewrite E. reflexivity.
  - unfold with_box. cbn. rewrite app_nil_r. by split_and!.
Qed.

(** A box with a task in flight. *)
Lemma launched now name t s : wf s -> room s 1 ->
  let id := box_id (sb_seq s + 1) in
  exists nm s1 s', newBox now name t s = (s1, Ok (id, nm)) /\ runAsync id nm t s1 = (s', Ok tt) /\ wf s' /\ sb_seq s' = sb_seq s + 1 /\
    sb_keys s' = sb_keys s /\ sb_order s' = sb_order s ++ [id].
Proof.
  intros Hw Hr id. destruct (newBox_eq now name t s Hw Hr) as (s1 & E & (Hq & Ho & Hb & Hrun) & Hk & _). rewrite app_nil_r in Hrun.
  eexists _, s1, _. split_and!; [exact E|reflexivity| |done..].
  eapply (wf_with_box s _ [(id, (_, t))]); [done|split_and!; cbn; [done|done|exact Hb|by rewrite Hrun]|done|by left|].
  cbn. rewrite Hk. by left.
Qed.
Lemma Delegate_ok now t s : wf s -> room s 1 ->
  exists s', Delegate now t s = (s', Ok (box_id (sb_seq s + 1))) /\ wf s' /\ sb_seq s' = sb_seq s + 1 /\ sb_keys s' = sb_keys s /\
    sb_order s' = sb_order s ++ [box_id (sb_seq s + 1)].
Proof.
  intros Hw Hr. destruct (launched now "" t s Hw Hr) as (nm & s1 & s' & E1 & E2 & H). exists s'. split; [|done].
  unfold Delegate. rewrite (bind_eq_ok _ _ _ _ _ E1). cbn [fst snd]. by rewrite (bind_eq_ok _ _ _ _ _ E2).
Qed.
Lemma Spawn_ok now name s : wf s -> room s 1 ->
  exists s', Spawn now name s = (s', Ok (box_id (sb_seq s + 1))) /\ wf s' /\ sb_seq s' = sb_seq s + 1 /\ sb_keys s' = sb_keys s /\
    sb_order s' = sb_order s ++ [box_id (sb_seq s + 1)].
Proof.
  intros Hw Hr. destruct (newBox_eq now "" "" s Hw Hr) as (s1 & E & (Hq & Ho & Hb & Hrun) & Hk & _). set (id := box_id (sb_seq s + 1)) in *.
  unfold Spawn. rewrite (bind_eq_ok _ _ _ _ _ E). cbn [fst snd]. eexists. split; [reflexivity|]. cbn. split_and!; [|done..].
  eapply (wf_with_box s (mkFleetBox id _ "" "done" "" "" "" "" "spawned" now) []); [done| |done|by right|cbn; rewrite Hk; by left].
  split_and!; cbn; [done|done| |done]. by rewrite Hb, alter_insert_eq.
Qed.
Lemma apply_loop_ok now live spec s created : wf s -> room s (Z.of_nat (length spec)) ->
  exists s' more, apply_loop now live spec created s = (s', Ok (created ++ more)) /\ wf s' /\
    sb_seq s <= sb_seq s' <= sb_seq s + Z.of_nat (length spec) /\
    (forall k id, sb_keys s !! k = Some id -> exists id', sb_keys s' !! k = Some id') /\
    (forall id, id ∈ sb_order s -> id ∈ sb_order s') /\
    (forall sx, sx ∈ spec -> sx_Key sx <> ""%string -> is_Some (sb_keys s' !! sx_Key sx)).
Proof.
  revert s created. induction spec as [|sx spec IH]; intros s created Hw Hr.
  { exists s, []. rewrite app_nil_r. split_and!; [done|done|cbn; lia..|eauto|done|]. by intros sx ?%not_elem_of_nil. }
  cbn [apply_loop]. assert (Hr' : room s (Z.of_nat (length spec))) by (unfold room in *; cbn [length] in Hr; lia).
  assert (Hskip : is_Some (sb_keys s !! sx_Key sx) \/ sx_Key sx = ""%string ->
    exists s' more, apply_loop now live spec created s = (s', Ok (created ++ more)) /\ wf s' /\
      sb_seq s <= sb_seq s' <= sb_seq s + Z.of_nat (length (sx :: spec)) /\
      (forall k id, sb_keys s !! k = Some id -> exists id', sb_keys s' !! k = Some id') /\
      (forall id, id ∈ sb_order s -> id ∈ sb_order s') /\
      (forall sx', sx' ∈ sx :: spec -> sx_Key sx' <> ""%string -> is_Some (sb_keys s' !! sx_Key sx'))).
  { intros Hs. destruct (IH s created Hw Hr') as (s' & more & E & Hw' & Hq & Hk & Ho & Hall). exists s', more. split_and!; try done; [lia|cbn [length]; lia|].
    intros sx' [->|Hin]%elem_of_cons Hne; [|by apply Hall]. destruct Hs as [[id Hid]|?]; [by destruct (Hk _ _ Hid)|done]. }
  case_bool_decide as Hkey; [apply Hskip; by right|].
  rewrite (bind_eq_ok _ _ s s (sb_keys s !! sx_Key sx)) by done.
  destruct (match sb_keys s !! sx_Key sx with Some id => _ | None => false end) eqn:Hlive.
  { apply Hskip. left. by destruct (sb_keys s !! sx_Key sx). }
  destruct (launched now ("fleet-" +:+ sx_Key sx) (sx_Task sx) s Hw) as (nm & s1 & s2 & E1 & E2 & Hw2 & Hq2 & Hk2 & Ho2).
  { unfold room in *. cbn [length] in Hr. lia. }
  set (id := box_id (sb_seq s + 1)) in *. set (s3 := s2 <| sb_keys := <[sx_Key sx := id]> (sb_keys s2) |>).
  assert (Hw3 : wf s3).
  { destruct Hw2. split; cbn; try done. intros k i [[<- <-]|[_ Hi]]%lookup_insert_Some; [|by eapply wf_keys0]. rewrite Ho2. set_solver. }
  destruct (IH s3 (created ++ [id]) Hw3) as (s' & more & E & Hw' & Hq & Hk & Ho & Hall).
  { unfold room in *. cbn [length] in Hr. cbn. lia. }
  exists s', (id :: more). split_and!; try done.
  - rewrite (bind_eq_ok _ _ _ _ _ E1). cbn [fst snd]. rewrite (bind_eq_ok _ _ _ _ _ E2). rewrite (bind_eq_ok _ _ s2 s3 tt) by done.
    by rewrite E, <- app_assoc.
  - cbn in Hq. lia.
  - cbn in Hq. cbn [length]. lia.
  - intros k i Hi. destruct (decide (k = sx_Key sx)) as [->|Hne]; [apply (Hk _ id); cbn; by rewrite lookup_insert_eq|].
    apply (Hk k i). cbn. by rewrite lookup_insert_ne, Hk2 by congruence.
  - intros i Hi. apply Ho. cbn. rewrite Ho2. set_solver.
  - intros sx' [->|Hin]%elem_of_cons Hne; [|by apply Hall]. destruct (Hk (sx_Key sx) id) as [i ->]; [cbn; by rewrite lookup_insert_eq|done].
Qed.

(** What an operation leaves. *)
Definition kept_all (s s' : Backend) : Prop := sb_seq s' = sb_seq s /\ sb_keys s' = sb_keys s /\ sb_order s' = sb_order s.

Lemma finish_ok now i out err s : wf s -> exists s', finish now i out err s = (s', Ok tt) /\ wf s' /\ kept_all s s' /\
  forall id nc, sb_running s !! i = Some (id, nc) -> exists b, sb_boxes s !! id = Some b /\
    sb_boxes s' = <[id := mkFleetBox id (fb_Name b) (fb_Image b) (match err with Some _ => "failed" | None => "done" end)%string (fb_IP b) (fb_AgentState b) (fb_AgentStatus b)
      (fb_Task b) (trim_space (out +:+ match err with Some e => " " +:+ Error e | None => "" end)) now]> (sb_boxes s).
Proof.
  intros Hw. unfold finish. rewrite (bind_eq_ok _ _ s s (sb_running s !! i)) by done.
  destruct (sb_running s !! i) as [[id nc]|] eqn:Hi; [|by exists s; split_and!].
  set (st := match err with Some _ => "failed"%string | None => "done"%string end).
  set (res := trim_space (out +:+ match err with Some e => " " +:+ Error e | None => "" end)).
  assert (Hrun : id ∈ map fst (sb_running s)) by (apply list_elem_of_fmap; exists (id, nc); split; [done|by eapply list_elem_of_lookup_2]).
  destruct (proj2 (wf_dom _ Hw id) (wf_running _ Hw id Hrun)) as [b Hb]. destruct (wf_box _ Hw id b Hb) as [Hid _].
  set (b' := mkFleetBox id (fb_Name b) (fb_Image b) st (fb_IP b) (fb_AgentState b) (fb_AgentStatus b) (fb_Task b) res now).
  assert (E : exists s', (modify (fun s => s <| sb_running := delete i (sb_running s) |>) ;;
      match err with
      | Some e => set now id "failed" (trim_space (out +:+ " " +:+ Error e))
      | None => set now id "done" (trim_space out)
      end) s = (s', Ok tt) /\ sb_boxes s' = <[id := b']> (sb_boxes s) /\ sb_running s' = delete i (sb_running s) /\ kept_all s s').
  { unfold b', res, st, set. destruct err as [e|]; (eexists; split; [reflexivity|]; cbn; split_and!; [|done..]);
      rewrite ?string_app_nil_r; apply map_eq; intros j; (destruct (decide (j = id)) as [->|Hne];
        [rewrite lookup_alter_eq, lookup_insert_eq, Hb; cbn; by rewrite Hid|by rewrite lookup_alter_ne, lookup_insert_ne]). }
  destruct E as (s' & E & Hbx & Hr & Hk). exists s'. split; [exact E|]. split; [|split; [done|]; intros id' nc' [= <- <-]; by exists b].
  destruct Hk as (Hq & Hkeys & Ho).
  assert (Hperm : map fst (sb_running s) ≡ₚ id :: map fst (delete i (sb_running s))).
  { rewrite delete_take_drop, <- (take_drop_middle _ _ _ Hi) at 1. rewrite !map_app. cbn. by rewrite Permutation_middle. }
  assert (Hnd : id ∉ map fst (delete i (sb_running s)) /\ NoDup (map fst (delete i (sb_running s)))).
  { apply NoDup_cons. rewrite <- Hperm. apply (wf_once _ Hw). }
  split.
  - rewrite Hq. apply (wf_seq _ Hw).
  - rewrite Ho, Hq. apply (wf_order _ Hw).
  - intros j. rewrite Hbx, Ho, <- (wf_dom _ Hw), lookup_insert_is_Some. destruct (decide (id = j)) as [->|]; [split; eauto|tauto].
  - intros j c. rewrite Hbx, lookup_insert_Some. intros [[<- <-]|[_ Hc]]; [|by apply (wf_box _ Hw)]. split; [done|].
    unfold b', st. cbn. destruct err; set_solver.
  - intros k j. rewrite Hkeys, Ho. apply (wf_keys _ Hw).
  - rewrite Hr. apply Hnd.
  - intros j c. rewrite Hbx, Hr, lookup_insert_Some. intros [[<- <-]|[Hne Hc]].
    + unfold b', st. cbn. destruct err; (split; [done|intros Hx; by destruct Hnd]).
    + rewrite (wf_working _ Hw j c Hc), Hperm, elem_of_cons. split; [intros [?|?]; [congruence|done]|by right].
  - intros j. rewrite Hr, Ho. intros Hj. apply (wf_running _ Hw). rewrite Hperm. by right.
Qed.

(** ** Histories *)
Definition sizes (l : list (Z * sop)) : Z := foldr (fun x n => sop_size x.2 + n) 0 l.
Lemma sizes_cons x l : sizes (x :: l) = sop_size x.2 + sizes l.
Proof. done. Qed.
Lemma sizes_pos l : 0 <= sizes l.
Proof. induction l as [|[t o] l IH]; [done|]. rewrite sizes_cons. cbn [snd]. destruct o; cbn [sop_size]; lia. Qed.

Lemma run_sop_ok s x : wf s -> room s (sop_size x.2) ->
  wf (run_sop s x) /\ sb_seq s <= sb_seq (run_sop s x) <= sb_seq s + sop_size x.2 /\
  (forall k id, sb_keys s !! k = Some id -> exists id', sb_keys (run_sop s x) !! k = Some id').
Proof.
  intros Hw Hr. destruct x as [now o]. unfold run_sop. cbn [fst snd] in *. destruct o as [n|t|spec|i out err|n h| |id]; cbn [sop_size] in *.
  - destruct (Spawn_ok now n s Hw Hr) as (s' & -> & Hw' & Hq & Hk & _). cbn [fst]. rewrite Hk. split; [done|]. split; [lia|eauto].
  - destruct (Delegate_ok now t s Hw Hr) as (s' & -> & Hw' & Hq & Hk & _). cbn [fst]. rewrite Hk. split; [done|]. split; [lia|eauto].
  - unfold Apply. rewrite (bind_eq_ok _ _ s s (list_to_set (sb_order s))) by done.
    destruct (apply_loop_ok now (list_to_set (sb_order s)) spec s [] Hw Hr) as (s' & more & -> & Hw' & Hq & Hk & _). done.
  - destruct (finish_ok now i out err s Hw) as (s' & -> & Hw' & (Hq & Hk & _) & _). cbn [fst]. rewrite Hk. split; [done|]. split; [lia|eauto].
  - unfold RenderSurface. destruct (Surface.Render _ _ _). cbn. split; [by apply (wf_same s)|]. split; [lia|eauto].
  - cbn. split; [by apply (wf_same s)|]. split; [lia|eauto].
  - cbn. split; [by apply (wf_same s)|]. split; [lia|eauto].
Qed.
Lemma run_sops_ok l s : wf s -> room s (sizes l) ->
  wf (foldl run_sop s l) /\ (forall k id, sb_keys s !! k = Some id -> exists id', sb_keys (foldl run_sop s l) !! k = Some id') /\
  sb_seq (foldl run_sop s l) <= sb_seq s + sizes l.
Proof.
  revert s. induction l as [|x l IH]; intros s Hw Hr; [split_and!; [done|eauto|cbn; lia]|]. rewrite sizes_cons in *. cbn [foldl].
  pose proof (sizes_pos l) as Hp. unfold room in *. destruct (run_sop_ok s x Hw) as (Hw' & Hq & Hk); [unfold room; lia|].
  destruct (IH (run_sop s x) Hw') as (H1 & H2 & H3); [lia|].
  split_and!; [done| |lia]. intros k id Hi. destruct (Hk _ _ Hi) as [id' Hi']. by apply (H2 k id').
Qed.
Lemma wf_new_backend : wf newSSHBackend.
Proof.
  split; cbn; [done|done| |by intros *; rewrite lookup_empty|by intros *; rewrite lookup_empty|constructor|by intros *; rewrite lookup_empty|done].
  intros id. rewrite lookup_empty. split; [by intros [? ?]|by intros ?%not_elem_of_nil].
Qed.

Lemma Fleet_total s : wf s -> exists fl, Fleet s = Some fl /\ map fb_ID fl = sb_order s.
Proof.
  intros Hw. unfold Fleet. assert (Hall : forall id, id ∈ sb_order s -> exists b, sb_boxes s !! id = Some b /\ fb_ID b = id).
  { intros id Hid. apply (wf_dom _ Hw) in Hid as [b Hb]. exists b. split; [done|]. by apply (wf_box _ Hw). }
  revert Hall. generalize (sb_order s) as l. induction l as [|id l IH]; intros Hall; [by exists []|].
  destruct (Hall id ltac:(left)) as (b & Hb & Hid). destruct (IH ltac:(intros; apply Hall; by right)) as (fl & Hfl & Hm).
  exists (b :: fl). cbn. rewrite Hb. cbn in Hfl |- *. rewrite Hfl. cbn. by rewrite Hid, Hm.
Qed.

(** C35. The standalone fleet is well formed, whatever is asked of it and
    whenever its tasks end.  Its boxes are numbered in the order they were made,
    no id twice; reading the fleet finds every one of them; each is working,
    done or failed, and working exactly while a task of its own runs in it, one
    at most; and every key names a box of the fleet. *)
Theorem standalone_wf l : sizes l < 2 ^ 63 ->
  let s := foldl run_sop newSSHBackend l in
  wf s /\ NoDup (sb_order s) /\ exists fl, Fleet s = Some fl /\ map fb_ID fl = sb_order s.
Proof.
  intros Hl s. destruct (run_sops_ok l newSSHBackend wf_new_backend) as [Hw _]. { unfold room. cbn. lia. }
  split; [done|]. split; [|by apply Fleet_total]. rewrite (wf_order s Hw). apply ids_nodup.
Qed.

(** Declaring a fleet again, after whatever else happened, makes nothing: the
    keys are there and their boxes never leave. *)
Theorem standalone_apply_once l now now' spec s s' l' :
  sizes l + Z.of_nat (length spec) + sizes l' < 2 ^ 63 ->
  s = foldl run_sop newSSHBackend l -> s' = foldl run_sop (fst (Apply now spec s)) l' ->
  Apply now' spec s' = (s', Ok []).
Proof.
  intros Hl -> ->. pose proof (sizes_pos l). pose proof (sizes_pos l').
  destruct (run_sops_ok l newSSHBackend wf_new_backend) as (Hw & _ & Hq). { unfold room. cbn. lia. }
  set (s := foldl run_sop newSSHBackend l) in *. cbn in Hq.
  destruct (apply_loop_ok now (list_to_set (sb_order s)) spec s [] Hw) as (s1 & more & E & Hw1 & Hq1 & _ & _ & Hall). { unfold room. lia. }
  assert (E' : Apply now spec s = (s1, Ok ([] ++ more))) by (unfold Apply; by rewrite (bind_eq_ok _ _ s s (list_to_set (sb_order s)))). rewrite E'.
  cbn [fst]. destruct (run_sops_ok l' s1 Hw1) as (Hw2 & Hk & _). { unfold room. lia. }
  set (s2 := foldl run_sop s1 l') in *. assert (Hall2 : forall sx, sx ∈ spec -> sx_Key sx <> ""%string -> is_Some (sb_keys s2 !! sx_Key sx)).
  { intros sx Hsx Hne. destruct (Hall sx Hsx Hne) as [id Hid]. destruct (Hk _ _ Hid) as [id' ->]. done. }
  unfold Apply. rewrite (bind_eq_ok _ _ s2 s2 (list_to_set (sb_order s2))) by done. clear -Hw2 Hall2.
  induction spec as [|sx spec IH]; [done|]. cbn [apply_loop]. assert (IH' := IH ltac:(intros; apply Hall2; [by right|done])).
  case_bool_decide as Hkey; [done|]. rewrite (bind_eq_ok _ _ s2 s2 (sb_keys s2 !! sx_Key sx)) by done.
  destruct (Hall2 sx ltac:(left) Hkey) as [id Hid]. rewrite Hid, bool_decide_eq_true_2; [done|].
  apply elem_of_list_to_set. by apply (wf_keys _ Hw2 (sx_Key sx)).
Qed.

Lemma standalone_wf_witness :
  let s := foldl run_sop newSSHBackend
    [(10, OpApply [mkSpecBox "web" "" "make"; mkSpecBox "db" "" "initdb"]%string); (11, OpSpawn "x"%string); (12, OpFinish 1 "up"%string None)] in
  map fb_State <$> Fleet s = Some ["working"; "done"; "done"]%string /\ sb_order s = ["b001"; "b002"; "b003"]%string /\ NoDup (sb_order s).
Proof.
  intros s. split; [vm_compute; reflexivity|]. split; [vm_compute; reflexivity|].
  exact (proj1 (proj2 (standalone_wf _ (eq_refl : sizes [(10, OpApply [mkSpecBox "web" "" "make"; mkSpecBox "db" "" "initdb"]%string); (11, OpSpawn "x"%string); (12, OpFinish 1 "up"%string None)] < 2 ^ 63)))).
Defined.

(** A key named twice in one call is not among the boxes the call began with:
    its task runs twice. *)
Example standalone_duplicate_key :
  (Apply 10 [mkSpecBox "web" "" "make"; mkSpecBox "web" "" "make"]%string newSSHBackend).2 = Ok ["b001"; "b002"]%string.
Proof. vm_compute. reflexivity. Qed.
(** A surface's address leads nowhere: nothing serves it. *)
Example standalone_surface : (RenderSurface "approve" "<b>ok?</b>" newSSHBackend).2 = Ok "http://localhost/s/approve"%string.
Proof. vm_compute. reflexivity. Qed.
Example pad3_cases : map box_id [1; 42; 999; 1000] = ["b001"; "b042"; "b999"; "b1000"]%string.
Proof. vm_compute. reflexivity. Qed.
