(* ===== verification/Guest.v ===== *)
(** The in-box client of the metadata API ([cmd/box-guest]): the command line
    ([main.go]) and the tool server for an agent in the box ([mcp.go]), with
    the metadata API of [Boxmeta] behind them.

    Requests are sent by the argument [do_request], the environment is the
    argument [env], and the characters above ASCII that Go prints as they are
    the argument [IsPrint].  [tty] says that standard input is a terminal. *)
From stdpp Require Import base option list strings gmap.
From Stdlib Require Import Ascii ZArith Lia.
From S2P Require Import Prelude GoStrings GoTime GoNet GoEncoding Json Agentproto Box Store World Boxmeta.
Local Open Scope string_scope.
Local Open Scope list_scope.
Local Open Scope Z_scope.

(** * [strconv.Quote] on whole runes *)

(** The code point of the rune of [n] bytes at the head. *)
Definition rune_value (n : nat) (s : string) : Z :=
  match n, s with
  | 2%nat, String a (String b _) => (byte_val a - 192) * 64 + (byte_val b - 128)
  | 3%nat, String a (String b (String c _)) => (byte_val a - 224) * 4096 + (byte_val b - 128) * 64 + (byte_val c - 128)
  | 4%nat, String a (String b (String c (String d _))) =>
      (byte_val a - 240) * 262144 + (byte_val b - 128) * 4096 + (byte_val c - 128) * 64 + (byte_val d - 128)
  | _, String a _ => byte_val a
  | _, EmptyString => 0
  end.

Section quoting.
Variable IsPrint : Z -> bool.

Definition escape_rune (r : Z) : string :=
  if r <? 65536 then "\u" +:+ hex4_text r else "\U" +:+ hex4_text (r / 65536) +:+ hex4_text (r mod 65536).

(** [copy] bytes of a rune are still to be copied, or [drop] skipped. *)
Fixpoint quote_runes (copy drop : nat) (s : string) : string :=
  match s with
  | EmptyString => EmptyString
  | String c s' =>
      match drop, copy with
      | S d, _ => quote_runes 0 d s'
      | O, S k => String c (quote_runes k 0 s')
      | O, O =>
          if byte_val c <? 128 then quote_byte c +:+ quote_runes 0 0 s'
          else match rune_len s with
          | None => quote_byte c +:+ quote_runes 0 0 s'
          | Some n =>
              let r := rune_value n s in
              if IsPrint r then String c (quote_runes (n - 1) 0 s')
              else escape_rune r +:+ quote_runes 0 (n - 1) s'
          end
      end
  end.
Definition Quote (s : string) : string := String dquote (quote_runes 0 0 s +:+ String dquote EmptyString).

(** The texts whose Go quotation is also a JSON string: no bell, vertical tab,
    delete or other control that Go writes as [\x..], no invalid UTF-8, and no
    unprintable rune beyond the basic plane. *)
Definition json_byte (c : ascii) : bool :=
  let v := byte_val c in
  (v =? 8) || (v =? 9) || (v =? 10) || (v =? 12) || (v =? 13) || ((32 <=? v) && (v <=? 126)).
Fixpoint safe_from (skip : nat) (s : string) : bool :=
  match s with
  | EmptyString => true
  | String c s' =>
      match skip with
      | S k => safe_from k s'
      | O =>
          if byte_val c <? 128 then json_byte c && safe_from 0 s'
          else match rune_len s with
               | None => false
               | Some n => let r := rune_value n s in (IsPrint r || (r <? 65536)) && safe_from (n - 1) s'
               end
      end
  end.
Definition json_safe (s : string) : bool := safe_from 0 s.
End quoting.

(** * Requests *)
Record HTTPResponse : Type := mkHTTPResponse {
  ht_StatusCode : Z;
  ht_Status : string;
  ht_Body : string
}.
(** Standard output, standard error and the exit status. *)
Record Exit : Type := mkExit {
  ex_stdout : string;
  ex_stderr : string;
  ex_code : Z
}.

Definition newline : string := String (byte_of 10) EmptyString.
Definition usage : string := "box-guest — in-box client for the box metadata API.

Usage:
  box-guest info                         Show this box's metadata (GET /v1/me).
  box-guest time                         Print the control plane's wall clock.
  box-guest keep-alive [DURATION]        Pin the box alive (no suspend) for DURATION (default 5m).
  box-guest auto-suspend on|off|status   Toggle / show auto-suspend.
  box-guest idle [DURATION]              Set this box's idle timeout (empty = back to default).
  box-guest status STATE [MESSAGE]       Report agent state (working|blocked|done) + a status line.
  box-guest mcp                          Run an MCP server (stdio) exposing the above as tools.

Durations are Go-style: 30s, 5m, 1h30m. Reads $BOX_META (default http://169.254.169.254).".

Definition arg (args : list string) (i : nat) : string := nth i args "".

(** [emit]: print a result, or fail with the error. *)
Definition emit (r : result string) : Exit :=
  match r with
  | Err e => mkExit "" ("box-guest: " +:+ Error e +:+ newline) 1
  | Ok out => mkExit out "" 0
  end.

(** [%t] *)
Definition format_bool (b : bool) : string := if b then "true" else "false".

Section client.
Context {W : Type}.
Variable IsPrint : Z -> bool.
Variable do_request : string -> string -> option string -> M W HTTPResponse.
Variable env : string -> string.

Definition base : string :=
  if bool_decide (env "BOX_META" = ""%string) then "http://169.254.169.254" else env "BOX_META".

Definition doGet (url : string) : M W string :=
  resp ← do_request "GET" url None;
  if 300 <=? ht_StatusCode resp then throw (Errorf (ht_Status resp)) else mret (ht_Body resp).
Definition doPost (url body : string) : M W unit :=
  resp ← do_request "POST" url (Some body);
  if 300 <=? ht_StatusCode resp then throw (Errorf (ht_Status resp)) else mret tt.

(** The bodies, as [Sprintf] builds them. *)
Definition field1 (k v : string) : string := "{" +:+ String dquote k +:+ String dquote ":" +:+ v +:+ "}".
Definition keep_alive_body (dur : string) : string :=
  if bool_decide (dur = ""%string) then "{}" else field1 "duration" (Quote IsPrint dur).
Definition auto_suspend_body (on : bool) : string := field1 "enabled" (format_bool on).
Definition idle_request (timeout : string) : string := field1 "timeout" (Quote IsPrint timeout).
Definition status_request (state status : string) : string :=
  "{" +:+ String dquote "state" +:+ String dquote ":" +:+ Quote IsPrint state +:+ "," +:+
  String dquote "status" +:+ String dquote ":" +:+ Quote IsPrint status +:+ "}".

Definition keepAlive (dur : string) : M W unit := doPost (base +:+ "/v1/me/keep-alive") (keep_alive_body dur).
Definition autoSuspend (on : bool) : M W unit := doPost (base +:+ "/v1/me/auto-suspend") (auto_suspend_body on).
Definition setIdle (timeout : string) : M W unit := doPost (base +:+ "/v1/me/idle") (idle_request timeout).
Definition setStatus (state status : string) : M W unit :=
  doPost (base +:+ "/v1/me/status") (status_request state status).

(** [emit(out, err)] and [emit("", err)] *)
Definition emit_get (m : M W string) : M W Exit := r ← try m; mret (emit r).
Definition emit_post (m : M W unit) : M W Exit := r ← try m; mret (emit (match r with Ok _ => Ok "" | Err e => Err e end)).

(** * The tool server *)
Definition mcpProtocol : string := "2024-11-05".
Record rpcRequest : Type := mkRpcRequest {
  rr_JSONRPC : string;
  rr_ID : option json;
  rr_Method : string;
  rr_Params : option json
}.
Record rpcError : Type := mkRpcError {
  re_Code : Z;
  re_Message : string
}.
Record rpcResponse : Type := mkRpcResponse {
  rs_ID : option json;
  rs_Result : option json;
  rs_Error : option rpcError
}.
Definition rpc_fields : Fields rpcRequest :=
  [("jsonrpc", str_field (fun s r => mkRpcRequest s (rr_ID r) (rr_Method r) (rr_Params r)));
   ("id", raw_field (fun j r => mkRpcRequest (rr_JSONRPC r) (Some j) (rr_Method r) (rr_Params r)));
   ("method", str_field (fun s r => mkRpcRequest (rr_JSONRPC r) (rr_ID r) s (rr_Params r)));
   ("params", raw_field (fun j r => mkRpcRequest (rr_JSONRPC r) (rr_ID r) (rr_Method r) (Some j)))]%string.
Definition response_json (r : rpcResponse) : json :=
  JObj ([("jsonrpc", JStr "2.0"); ("id", default JNull (rs_ID r))] ++
        match rs_Result r with Some v => [("result", v)] | None => [] end ++
        match rs_Error r with
        | Some e => [("error", JObj [("code", JNum (itoa (re_Code e))); ("message", JStr (re_Message e))])]
        | None => []
        end).

(** Arguments of a call: a map of JSON values, or none. *)
Definition Args : Type := list (string * json).
Definition arg_of (a : Args) (k : string) : option json := snd <$> find (fun e => bool_decide (e.1 = k)) (rev a).
Definition str (a : Args) (k : string) : string := match arg_of a k with Some (JStr v) => v | _ => "" end.
Definition bool_arg (a : Args) (k : string) : bool := match arg_of a k with Some (JBool v) => v | _ => false end.

Record tool : Type := mkTool {
  tl_Name : string;
  tl_Description : string;
  tl_InputSchema : json;
  tl_run : Args -> M W string
}.
Definition schema (props : list (string * json)) : json :=
  JObj [("properties", JObj props); ("type", JStr "object")]%string.
Definition typed (t : string) : json := JObj [("type", JStr t)]%string.
Definition tool_json (t : tool) : json :=
  JObj [("name", JStr (tl_Name t)); ("description", JStr (tl_Description t)); ("inputSchema", tl_InputSchema t)]%string.

Definition tools (b : string) : list tool :=
  [mkTool "box_info" "Show this box's metadata (load, idle, suspend settings, resources)."
     (schema []) (fun _ => doGet (b +:+ "/v1/me"));
   mkTool "box_keep_alive" "Pin the box alive (prevent auto-suspend) for a Go duration like 30m (default 5m)."
     (schema [("duration", typed "string")]) (fun a => keepAlive (str a "duration") ;; mret "kept alive"%string);
   mkTool "box_auto_suspend" "Enable or disable auto-suspend on idle."
     (schema [("enabled", typed "boolean")])
     (fun a => let on := bool_arg a "enabled" in
               autoSuspend on ;; mret ("auto-suspend=" +:+ format_bool on));
   mkTool "box_set_idle" "Set this box's idle timeout (Go duration; empty resets to the daemon default)."
     (schema [("timeout", typed "string")]) (fun a => setIdle (str a "timeout") ;; mret "idle timeout set"%string);
   mkTool "box_set_status" "Report what this agent is doing (state: working|blocked|done, plus a status line) — shown in the fleet at-a-glance view."
     (schema [("state", typed "string"); ("status", typed "string")])
     (fun a => setStatus (str a "state") (str a "status") ;; mret "status set"%string)]%string.

Definition toolResult (text : string) (isErr : bool) : json :=
  JObj [("content", JArr [JObj [("text", JStr text); ("type", JStr "text")]]); ("isError", JBool isErr)]%string.

Record call : Type := mkCall {
  cl_Name : string;
  cl_Arguments : Args
}.
(** A second [arguments] object is merged into the first; [null] makes the map
    nil. *)
Definition args_field (j : json) (c : call) : result call :=
  match j with
  | JObj l => Ok (mkCall (cl_Name c) (cl_Arguments c ++ l))
  | JNull => Ok (mkCall (cl_Name c) [])
  | _ => Err (type_error "arguments")
  end.
Definition guest_call_fields : Fields call :=
  [("name", str_field (fun s c => mkCall s (cl_Arguments c))); ("arguments", args_field)]%string.

Definition callTool (params : option json) (ts : list tool) : M W json :=
  let p := unmarshal_ignore guest_call_fields params (mkCall "" []) in
  match find (fun t => bool_decide (tl_Name t = cl_Name p)) ts with
  | None => mret (toolResult ("unknown tool: " +:+ cl_Name p) true)
  | Some t =>
      r ← try (tl_run t (cl_Arguments p));
      mret (match r with
            | Err e => toolResult (cl_Name p +:+ ": " +:+ Error e) true
            | Ok text => toolResult text false
            end)
  end.

Definition server_info : json :=
  JObj [("capabilities", JObj [("tools", JObj [])]); ("protocolVersion", JStr mcpProtocol);
        ("serverInfo", JObj [("name", JStr "box-guest"); ("version", JStr "1")])]%string.

Definition dispatch (req : rpcRequest) (ts : list tool) : M W rpcResponse :=
  let ok v := mkRpcResponse (rr_ID req) (Some v) None in
  if bool_decide (rr_Method req = "initialize"%string) then mret (ok server_info)
  else if bool_decide (rr_Method req = "tools/list"%string) then mret (ok (JObj [("tools"%string, JArr (map tool_json ts))]))
  else if bool_decide (rr_Method req = "tools/call"%string) then r ← callTool (rr_Params req) ts; mret (ok r)
  else mret (mkRpcResponse (rr_ID req) None (Some (mkRpcError (-32601) ("method not found: " +:+ rr_Method req)))).

(** One line: what is answered, if anything. *)
Definition serve_line (ts : list tool) (line : string) : M W (option rpcResponse) :=
  match unmarshal rpc_fields line (mkRpcRequest "" None "" None) with
  | Err _ => mret None
  | Ok req =>
      match rr_ID req with
      | None => mret None
      | Some _ => r ← dispatch req ts; mret (Some r)
      end
  end.
(** [in.Buffer(..., 4*1024*1024)]: a longer line ends the scan. *)
Definition max_line : Z := 4 * 1024 * 1024.
Fixpoint serve (ts : list tool) (lines : list string) : M W (list rpcResponse) :=
  match lines with
  | [] => mret []
  | line :: lines' =>
      if max_line <=? Z.of_nat (slen line) then mret []
      else
      r ← serve_line ts line;
      rs ← serve ts lines';
      mret (match r with Some x => x :: rs | None => rs end)
  end.

Definition mcp_banner : string :=
  "box-guest mcp: MCP server on stdio — waiting for JSON-RPC. Spawn me from an MCP client; Ctrl-C to exit." +:+ newline.
Definition encode_line (r : rpcResponse) : string := print (response_json r) +:+ newline.

(** [runMCP] on the lines of standard input. *)
Definition runMCP (tty : bool) (b : string) (lines : list string) : M W Exit :=
  rs ← serve (tools b) lines;
  mret (mkExit (join "" (map encode_line rs)) (if tty then mcp_banner else "") 0).

(** * [main] *)
Definition main (tty : bool) (stdin : list string) (args : list string) : M W Exit :=
  let cmd := arg args 0 in
  let cmd_is c := bool_decide (cmd = c) in
  if cmd_is "info"%string then emit_get (doGet (base +:+ "/v1/me"))
  else if cmd_is "time"%string then emit_get (doGet (base +:+ "/v1/me/time"))
  else if cmd_is "keep-alive"%string then emit_post (keepAlive (arg args 1))
  else if cmd_is "auto-suspend"%string then
    let a := arg args 1 in
    if bool_decide (a = "on"%string) then emit_post (autoSuspend true)
    else if bool_decide (a = "off"%string) then emit_post (autoSuspend false)
    else if bool_decide (a = "status"%string) || bool_decide (a = ""%string) then emit_get (doGet (base +:+ "/v1/me"))
    else mret (mkExit "" ("box-guest: auto-suspend on|off|status" +:+ newline) 2)
  else if cmd_is "idle"%string then emit_post (setIdle (arg args 1))
  else if cmd_is "status"%string then emit_post (setStatus (arg args 1) (arg args 2))
  else if cmd_is "mcp"%string then runMCP tty base stdin
  else mret (mkExit (usage +:+ newline) ""
         (if cmd_is ""%string || cmd_is "help"%string || cmd_is "-h"%string || cmd_is "--help"%string then 0 else 2)).
End client.

(** * Lemmas: Go's quotation read as JSON *)
Lemma hex_val_digit n : 0 <= n < 16 -> hex_val (hex_digit n) = Some n.
Proof.
  intros Hn. assert (Hc : In n [0;1;2;3;4;5;6;7;8;9;10;11;12;13;14;15]) by (simpl; lia).
  simpl in Hc. repeat (destruct Hc as [<-|Hc]; [reflexivity|]). done.
Qed.

Lemma hex4_text_read r t :
  0 <= r < 65536 ->
  exists h1 h2 h3 h4, hex4_text r +:+ t = String h1 (String h2 (String h3 (String h4 t))) /\ hex4 h1 h2 h3 h4 = Some r.
Proof.
  intros Hr. unfold hex4_text, hex_byte. eexists _, _, _, _. split; [reflexivity|]. unfold hex4.
  rewrite !hex_val_digit by (Z.to_euclidean_division_equations; lia). simpl. f_equal.
  Z.to_euclidean_division_equations; lia.
Qed.

Lemma unq_quote_byte a t :
  byte_val a <? 128 = true ->
  unq 0 (quote_byte a +:+ t) = if json_byte a then prepend (String a EmptyString) (unq 0 t) else None.
Proof.
  intros Ha. destruct a as [[] [] [] [] [] [] [] []]; vm_compute in Ha; try discriminate Ha; reflexivity.
Qed.

Lemma unq_quote_high a t : byte_val a <? 128 = false -> unq 0 (quote_byte a +:+ t) = None.
Proof.
  intros Ha. destruct a as [[] [] [] [] [] [] [] []]; vm_compute in Ha; try discriminate Ha; reflexivity.
Qed.

(** The value of a rune encodes back to it, and is no surrogate. *)
Lemma rune_value_encode p :
  is_rune p -> in_b 0 127 (default zero (String.get 0 p)) = false ->
  encode_rune (rune_value (slen p) p) = p /\ 128 <= rune_value (slen p) p < 1114112 /\
  is_surrogate (rune_value (slen p) p) = false.
Proof.
  intros Hp Ha.
  assert (Hb : forall x v, v = byte_val x -> byte_of v = x) by (intros x v ->; apply byte_of_val).
  unfold is_rune in Hp. destruct p as [|a [|b [|c [|d [|? ?]]]]]; cbn [rune_len] in Hp; simpl in Ha;
    rewrite ?Ha in Hp; try done; destruct (in_b 194 223 a) eqn:E2; try (repeat case_match; done).
  - destruct (cont b) eqn:Eb; [|done]. unfold cont in Eb. rewrite in_b_byte in Eb, E2. cbn [slen rune_value].
    set (r := _ + _). assert (128 <= r < 2048) by lia. unfold encode_rune, is_surrogate.
    rewrite (proj2 (Z.ltb_ge r 128)), (proj2 (Z.ltb_lt r 2048)) by lia. split_and!; [|lia..|].
    + f_equal; [|f_equal]; apply Hb; subst r; Z.to_euclidean_division_equations; lia.
    + rewrite (proj2 (Z.leb_gt 55296 r)) by lia. done.
  - set (lo := if _ =? 224 then _ else _) in *. set (hi := if _ =? 237 then _ else _) in *.
    destruct (negb (_ && _)) eqn:Eab; [done|]. destruct (negb (cont c)) eqn:Ec; [done|].
    destruct (in_b 224 239 a) eqn:E3; [|done]. apply negb_false_iff in Eab, Ec. unfold cont in Ec.
    apply andb_true_iff in Eab as [_ Eb]. rewrite in_b_byte in Eb, Ec, E3. cbn [slen rune_value].
    assert (Hlo : 128 <= lo /\ (byte_val a = 224 -> lo = 160)) by (subst lo; repeat case_match; go_bool; lia).
    assert (Hhi : hi <= 191 /\ (byte_val a = 237 -> hi = 159)) by (subst hi; repeat case_match; go_bool; lia).
    set (r := _ + _ + _). assert (2048 <= r < 65536) by lia.
    assert (r < 55296 \/ 57344 <= r) by (subst r; lia). unfold encode_rune, is_surrogate.
    rewrite (proj2 (Z.ltb_ge r 128)), (proj2 (Z.ltb_ge r 2048)), (proj2 (Z.ltb_lt r 65536)) by lia. split_and!; [|lia..|].
    + f_equal; [|f_equal; [|f_equal]]; apply Hb; subst r; clear -E3 Eb Ec Hlo Hhi; Z.to_euclidean_division_equations; lia.
    + destruct (Z.leb_spec 55296 r), (Z.ltb_spec r 57344); simpl; lia || done.
  - set (lo := if _ =? 224 then _ else _) in *. set (hi := if _ =? 237 then _ else _) in *.
    destruct (negb (_ && _)) eqn:Eab; [done|]. destruct (negb (cont c)) eqn:Ec; [done|].
    destruct (in_b 224 239 a) eqn:E3; [done|]. destruct (cont d) eqn:Ed; [|done]. apply negb_false_iff in Eab, Ec.
    unfold cont in Ec, Ed. apply andb_true_iff in Eab as [Ea Eb]. rewrite in_b_byte in Ea, Eb, Ec, Ed.
    apply not_true_iff_false in E3. rewrite in_b_byte in E3. cbn [slen rune_value].
    assert (Hlo : 128 <= lo /\ (byte_val a = 240 -> lo = 144)) by (subst lo; repeat case_match; go_bool; lia).
    assert (Hhi : hi <= 191 /\ (byte_val a = 244 -> hi = 143)) by (subst hi; repeat case_match; go_bool; lia).
    set (r := _ + _ + _ + _). assert (65536 <= r < 1114112) by lia. unfold encode_rune, is_surrogate.
    rewrite (proj2 (Z.ltb_ge r 128)), (proj2 (Z.ltb_ge r 2048)), (proj2 (Z.ltb_ge r 65536)) by lia. split_and!; [|lia..|].
    + f_equal; [|f_equal; [|f_equal; [|f_equal]]]; apply Hb; subst r; clear -Ea E3 Eb Ec Ed Hlo Hhi; Z.to_euclidean_division_equations; lia.
    + rewrite (proj2 (Z.ltb_ge r 57344)), andb_false_r by lia. done.
Qed.

Section quotation.
Variable IsPrint : Z -> bool.

Lemma quote_copy p t : quote_runes IsPrint (slen p) 0 (p +:+ t) = p +:+ quote_runes IsPrint 0 0 t.
Proof. induction p as [|a p IH]; [done|]. rewrite string_app_cons. cbn [slen quote_runes]. by rewrite IH. Qed.
Lemma quote_drop p t : quote_runes IsPrint 0 (slen p) (p +:+ t) = quote_runes IsPrint 0 0 t.
Proof. induction p as [|a p IH]; [done|]. rewrite string_app_cons. cbn [slen quote_runes]. by rewrite IH. Qed.
Lemma safe_skip p t : safe_from IsPrint (slen p) (p +:+ t) = safe_from IsPrint 0 t.
Proof. induction p as [|a p IH]; [done|]. rewrite string_app_cons. by cbn [slen safe_from]. Qed.

Lemma rune_value_app p t : is_rune p -> in_b 0 127 (default zero (String.get 0 p)) = false ->
  rune_value (slen p) (p +:+ t) = rune_value (slen p) p.
Proof.
  intros Hp Ha. destruct (is_rune_cases p Hp) as [(a & -> & Ha')|(_ & [(a & b & ->)|[(a & b & c & ->)|(a & b & c & d & ->)]])]; try done.
Qed.

Lemma unq_escape_rune r t :
  128 <= r < 1114112 -> is_surrogate r = false ->
  unq 0 (escape_rune r +:+ t) = if r <? 65536 then prepend (encode_rune r) (unq 0 t) else None.
Proof.
  intros Hr Hs. unfold escape_rune. destruct (Z.ltb_spec r 65536) as [Hb|Hb]; [|done].
  destruct (hex4_text_read r t ltac:(lia)) as (h1 & h2 & h3 & h4 & He & Hh).
  rewrite <- string_app_assoc, He, !string_app_cons, string_app_nil_l. cbn -[hex4 is_surrogate encode_rune prepend]. by rewrite Hh, Hs.
Qed.

(** A quotation reads back exactly when the text is safe. *)
Lemma unq_Quote s rest :
  unq 0 (quote_runes IsPrint 0 0 s +:+ String dquote rest) = if json_safe IsPrint s then Some (s, rest) else None.
Proof.
  unfold json_safe. remember (slen s) as n eqn:Hn. revert s Hn. induction (lt_wf n) as [n _ IH]. intros s ->.
  destruct s as [|a s]; [done|]. cbn [quote_runes safe_from]. destruct (byte_val a <? 128) eqn:Ha.
  - rewrite <- string_app_assoc, unq_quote_byte by done. destruct (json_byte a); [|done]. simpl.
    rewrite (IH (slen s)) by (simpl; lia || done). by destruct (safe_from _ 0 s).
  - assert (Ha' : in_b 0 127 a = false).
    { apply not_true_iff_false. rewrite in_b_byte. apply Z.ltb_ge in Ha. lia. }
    destruct (rune_len (String a s)) as [n|] eqn:Hr.
    2:{ rewrite <- string_app_assoc. by apply unq_quote_high. }
    destruct (rune_len_split _ _ Hr) as (p & t & Heq & Hp & <-). destruct p as [|a' p]; [discriminate Hp|].
    rewrite string_app_cons in Heq. injection Heq as <- ->. cbn [slen]. rewrite Nat.sub_succ, Nat.sub_0_r.
    change (String a (p +:+ t)) with (String a p +:+ t). change (S (slen p)) with (slen (String a p)).
    rewrite rune_value_app by done. destruct (rune_value_encode (String a p) Hp Ha') as (He & Hrange & Hsur).
    set (r := rune_value _ _) in *.
    assert (IHt : unq 0 (quote_runes IsPrint 0 0 t +:+ String dquote rest) = if safe_from IsPrint 0 t then Some (t, rest) else None).
    { apply (IH (slen t)); [simpl; rewrite slen_app; lia|done]. }
    rewrite safe_skip. destruct (IsPrint r); cbn [orb andb].
    + rewrite quote_copy. rewrite string_app_cons, <- string_app_assoc, <- string_app_cons, unq_rune, IHt by done. by destruct (safe_from _ 0 t).
    + rewrite quote_drop, <- string_app_assoc, unq_escape_rune by done. destruct (r <? 65536); [|done].
      cbn [andb]. rewrite He, IHt. by destruct (safe_from _ 0 t).
Qed.
End quotation.

(** * Lemmas: the bodies as the metadata API reads them *)
Section bodies.
Variable IsPrint : Z -> bool.

Lemma starts_byte v c s : byte_val c = v -> starts v (String c s) = Some s.
Proof. intros <-. unfold starts. by rewrite Z.eqb_refl. Qed.

(** A member whose value is a quotation. *)
Lemma parse_members_string f k s tl :
  (forall x, unq 0 (k +:+ String dquote x) = Some (k, x)) ->
  parse_members (S (S f)) (String dquote (k +:+ String dquote (String ":" (Quote IsPrint s +:+ tl)))) =
  if json_safe IsPrint s then
    match starts 44 (skip_ws tl) with
    | Some r => '(l, r') ← parse_members (S f) r; Some ((k, JStr s) :: l, r')
    | None => r ← starts 125 (skip_ws tl); Some ([(k, JStr s)], r)
    end
  else None.
Proof.
  intros Hk. set (f' := S f). unfold Quote. rewrite string_app_cons, <- string_app_assoc, string_app_cons, string_app_nil_l.
  cbn [parse_members skip_ws]. change (is_ws dquote) with false. cbn iota. rewrite starts_byte by done.
  unfold mbind at 1, option_bind at 1. rewrite Hk. unfold mbind at 1, option_bind at 1.
  cbn [skip_ws]. change (is_ws ":") with false. cbn iota. rewrite starts_byte by done.
  unfold mbind at 1, option_bind at 1. subst f'. cbn [parse_value skip_ws]. change (is_ws dquote) with false. cbn iota.
  change (byte_val dquote =? 34) with true. cbn iota. rewrite unq_Quote. by destruct (json_safe IsPrint s).
Qed.

Ltac read_member f k s tl :=
  let H := fresh in
  pose proof (parse_members_string f k s tl (fun x => eq_refl)) as H;
  rewrite ?string_app_cons, ?string_app_nil_l in H; rewrite H; clear H.

Lemma parse_object f x :
  parse_value (S f) (String "{" (String dquote x)) = '(l, r) ← parse_members f (String dquote x); Some (JObj l, r).
Proof. reflexivity. Qed.

Lemma decode_keep_alive dur :
  (slen (keep_alive_body IsPrint dur) <= max_body)%nat ->
  decode_body keepalive_fields (mkKeepAliveBody "") (keep_alive_body IsPrint dur) =
  if json_safe IsPrint dur then Ok (mkKeepAliveBody dur) else Err syntax_error.
Proof.
  intros Hl. unfold decode_body. rewrite stake_all by done. unfold keep_alive_body.
  destruct (bool_decide_reflect (dur = ""%string)) as [->|]; [reflexivity|].
  unfold field1. rewrite ?string_app_cons, ?string_app_nil_l.
  rewrite parse_object. change max_body with (S (S 1022)). read_member 1022%nat "duration"%string dur "}"%string.
  by destruct (json_safe IsPrint dur).
Qed.
Lemma decode_idle timeout :
  (slen (idle_request IsPrint timeout) <= max_body)%nat ->
  decode_body idle_fields (mkIdleBody "") (idle_request IsPrint timeout) =
  if json_safe IsPrint timeout then Ok (mkIdleBody timeout) else Err syntax_error.
Proof.
  intros Hl. unfold decode_body. rewrite stake_all by done. unfold idle_request, field1.
  rewrite ?string_app_cons, ?string_app_nil_l.
  rewrite parse_object. change max_body with (S (S 1022)). read_member 1022%nat "timeout"%string timeout "}"%string.
  by destruct (json_safe IsPrint timeout).
Qed.
Lemma decode_status state status :
  (slen (status_request IsPrint state status) <= max_body)%nat ->
  decode_body status_fields (mkStatusBody "" "") (status_request IsPrint state status) =
  if json_safe IsPrint state && json_safe IsPrint status then Ok (mkStatusBody state status) else Err syntax_error.
Proof.
  intros Hl. unfold decode_body. rewrite stake_all by done. unfold status_request.
  rewrite ?string_app_cons, ?string_app_nil_l.
  rewrite parse_object. change max_body with (S (S 1022)).
  read_member 1022%nat "state"%string state
    ("," +:+ String dquote "status" +:+ String dquote ":" +:+ Quote IsPrint status +:+ "}")%string.
  destruct (json_safe IsPrint state); [|done]. cbn [skip_ws]. change (is_ws ",") with false. cbn iota.
  rewrite starts_byte by done. read_member 1021%nat "status"%string status "}"%string.
  by destruct (json_safe IsPrint status).
Qed.
Lemma decode_auto_suspend on :
  decode_body autosuspend_fields (mkAutoSuspendBody false) (auto_suspend_body on) = Ok (mkAutoSuspendBody on).
Proof. by destruct on. Qed.
End bodies.

(** * The client against the metadata API *)
Section meta.
Context {W : Type}.
Variable IsPrint : Z -> bool.
Variable env : string -> string.
Variable fmt_float : float64 -> string.
(** The daemon: its table, its idle policy and its clock; how a response's
    body is laid out as text; the address the box's requests come from. *)
Variable resolve : string -> M W Box.
Variable mutate : string -> (Box -> Box) -> M W unit.
Variable idleCfg : IdleConfig.
Variable now : time.
Variable body_text : Body -> string.
Variable addr : string.

(** [http.StatusText] after the code, for the codes the API answers with. *)
Definition status_line (code : Z) : string :=
  itoa code +:+
  (if code =? StatusOK then " OK" else if code =? StatusNoContent then " No Content"
   else if code =? StatusBadRequest then " Bad Request" else if code =? StatusNotFound then " Not Found" else "").

(** A request of the box, as the daemon's listener serves it. *)
Definition box_request (method url : string) (body : option string) : M W HTTPResponse :=
  let b := default "" body in
  match Handler fmt_float resolve (Some mutate) idleCfg now method (trim_prefix (base env) url) with
  | None => mret (mkHTTPResponse StatusNotFound (status_line StatusNotFound) "404 page not found")
  | Some h =>
      r ← h (mkRequest addr (Z.of_nat (slen b)) b);
      mret (mkHTTPResponse (rs_Status r) (status_line (rs_Status r)) (body_text (Boxmeta.rs_Body r)))
  end.

(** The owner command a command line asks for, whether its texts survive the
    quotation, and the request body it is sent in. *)
Definition asks (args : list string) : option (Command * bool * string) :=
  let cmd := arg args 0 in let a1 := arg args 1 in let a2 := arg args 2 in
  if bool_decide (cmd = "keep-alive"%string)
  then Some (CKeepAlive (mkKeepAliveBody a1), json_safe IsPrint a1, keep_alive_body IsPrint a1)
  else if bool_decide (cmd = "auto-suspend"%string) then
    if bool_decide (a1 = "on"%string) then Some (CAutoSuspend (mkAutoSuspendBody true), true, auto_suspend_body true)
    else if bool_decide (a1 = "off"%string) then Some (CAutoSuspend (mkAutoSuspendBody false), true, auto_suspend_body false)
    else None
  else if bool_decide (cmd = "idle"%string)
  then Some (CIdle (mkIdleBody a1), json_safe IsPrint a1, idle_request IsPrint a1)
  else if bool_decide (cmd = "status"%string)
  then Some (CStatus (mkStatusBody a1 a2), json_safe IsPrint a1 && json_safe IsPrint a2, status_request IsPrint a1 a2)
  else None.

Definition failed (status : string) : Exit := mkExit "" ("box-guest: " +:+ status +:+ newline) 1.

(** The outcome of a command: carried out on the box the requests come from,
    or refused with nothing changed. *)
Definition carried_out (cmd : Command) (safe : bool) (w w' : W) (res : result Exit) : Prop :=
  if safe then
    exists r, mutate (host_of addr) (run_command (idle_policy idleCfg) now cmd) w = (w', r) /\
              res = Ok (if is_ok r then mkExit "" "" 0 else failed "404 Not Found")
  else w' = w /\ res = Ok (failed "400 Bad Request").

Lemma trim_prefix_app p s : trim_prefix p (p +:+ s) = s.
Proof. unfold trim_prefix. by rewrite cut_prefix_app. Qed.

Lemma posted {T} (fs : Fields T) zero fn path body (cmd : Command) (req : T) safe w w' res :
  Handler fmt_float resolve (Some mutate) idleCfg now "POST" path = Some (apply (Some mutate) fs zero fn) ->
  (0 < slen body)%nat ->
  decode_body fs zero body = (if safe : bool then Ok req else Err syntax_error) ->
  (fun b => fn b req) = run_command (idle_policy idleCfg) now cmd ->
  emit_post (doPost box_request (base env +:+ path) body) w = (w', res) ->
  carried_out cmd safe w w' res.
Proof.
  intros Hh Hl Hd Hfn. unfold emit_post, doPost, box_request, carried_out. rewrite trim_prefix_app, Hh.
  cbn [default from_option id]. unfold apply. cbn [rq_ContentLength rq_Body rq_RemoteAddr].
  rewrite (proj2 (Z.eqb_neq (Z.of_nat (slen body)) 0)) by lia. rewrite Hd.
  unfold mbind, M_bind, try. destruct safe; [|cbn; by intros [= -> <-]].
  rewrite Hfn. destruct (mutate (host_of addr) _ w) as [w1 r] eqn:Hm. cbn. intros Hres.
  exists r. destruct r; cbn in Hres; unfold mret, M_ret in Hres; injection Hres as <- <-; by split.
Qed.

(** C29. What [box-guest] asks for is what is done.  Each of its owner commands
    (keep-alive, auto-suspend, idle, status), sent to the daemon's metadata API
    in at most 1024 bytes, runs exactly that command once on the box its
    requests come from, with the texts given on the command line, and exits 0
    or (when there is no such box) reports 404 and exits 1 -- provided Go's
    quotation of those texts is a JSON string.  When it is not (a bell, a
    vertical tab, a delete, another control byte, invalid UTF-8, an unprintable
    rune beyond the basic plane), nothing is changed and it exits 1 with 400. *)
Theorem guest_commands tty stdin args cmd safe body w w' res :
  asks args = Some (cmd, safe, body) -> (slen body <= max_body)%nat ->
  main IsPrint box_request env tty stdin args w = (w', res) ->
  carried_out cmd safe w w' res.
Proof.
  intros Ha Hl. unfold main, asks in *. set (a0 := arg args 0) in *. set (a1 := arg args 1) in *. set (a2 := arg args 2) in *.
  rewrite (bool_decide_eq_false_2 (a0 = "info"%string)), (bool_decide_eq_false_2 (a0 = "time"%string));
    [|intros E; rewrite E in Ha; discriminate Ha..].
  destruct (bool_decide (a0 = "keep-alive"%string)).
  { injection Ha as <- <- <-. eapply (posted keepalive_fields _ _ _ _ _ (mkKeepAliveBody a1)); [reflexivity| |by apply decode_keep_alive|done].
    unfold keep_alive_body. case_bool_decide; simpl; lia. }
  destruct (bool_decide (a0 = "auto-suspend"%string)).
  { destruct (bool_decide (a1 = "on"%string)); [|destruct (bool_decide (a1 = "off"%string)); [|done]]; injection Ha as <- <- <-;
      (eapply (posted autosuspend_fields _ _ _ _ _ (mkAutoSuspendBody _)); [reflexivity|simpl; lia|apply decode_auto_suspend|reflexivity]). }
  destruct (bool_decide (a0 = "idle"%string)).
  { injection Ha as <- <- <-. eapply (posted idle_fields _ _ _ _ _ (mkIdleBody a1)); [reflexivity|simpl; lia|by apply decode_idle|done]. }
  destruct (bool_decide (a0 = "status"%string)); [|done]. injection Ha as <- <- <-.
  eapply (posted status_fields _ _ _ _ _ (mkStatusBody a1 a2)); [reflexivity|simpl; lia|by apply decode_status|done].
Qed.
End meta.

(** * The tool server answers each request once *)
Section replies.
Context {W : Type}.
Variable do_request : string -> string -> option string -> M W HTTPResponse.
Notation tool := (@tool W).

(** A line that is a request: it decodes and carries an id. *)
Definition request_of (line : string) : option rpcRequest :=
  match unmarshal rpc_fields line (mkRpcRequest "" None "" None) with
  | Ok req => if rr_ID req then Some req else None
  | Err _ => None
  end.
Fixpoint readable (lines : list string) : list string :=
  match lines with
  | [] => []
  | l :: ls => if max_line <=? Z.of_nat (slen l) then [] else l :: readable ls
  end.

Lemma callTool_total params (ts : list tool) w : exists w' v, callTool params ts w = (w', Ok v).
Proof.
  unfold callTool. destruct (find _ ts) as [t|]; [|by do 2 eexists].
  unfold mbind, M_bind, try. destruct (tl_run t _ w) as [w1 r]. by do 2 eexists.
Qed.
Lemma dispatch_total req (ts : list tool) w : exists w' v, dispatch req ts w = (w', Ok v) /\ rs_ID v = rr_ID req /\
  (is_Some (rs_Result v) <-> rs_Error v = None).
Proof.
  unfold dispatch. repeat case_match; try (do 2 eexists; split; [done|]; split; [done|]; split; simpl; eauto; fail).
  - destruct (callTool_total (rr_Params req) ts w) as (w' & v & Hc). unfold mbind, M_bind. rewrite Hc.
    do 2 eexists. split; [done|]. split; [done|]. split; simpl; by eauto.
  - do 2 eexists. split; [done|]. split; [done|]. split; simpl; [by intros []|done].
Qed.

(** Every request line that fits the buffer is answered exactly once, in order,
    under its own id; notifications and lines that do not decode are not. *)
Theorem serve_replies (ts : list tool) lines w :
  exists w' rs, serve ts lines w = (w', Ok rs) /\
    map rs_ID rs = map rr_ID (omap request_of (readable lines)).
Proof.
  revert w. induction lines as [|l ls IH]; intros w; [by do 2 eexists|]. cbn [serve readable].
  destruct (max_line <=? _); [by do 2 eexists|]. cbn [omap list_omap]. unfold serve_line, request_of at 1.
  destruct (unmarshal rpc_fields l _) as [req|e].
  - destruct (rr_ID req) as [i|] eqn:Hi.
    + destruct (dispatch_total req ts w) as (w1 & v & Hd & Hid & _). destruct (IH w1) as (w2 & rs & Hs & Hm).
      do 2 eexists. unfold mbind, M_bind. rewrite Hd. cbn. rewrite Hs. split; [done|]. simpl. by rewrite Hid, Hm.
    + destruct (IH w) as (w2 & rs & Hs & Hm). do 2 eexists. unfold mbind, M_bind. cbn. by rewrite Hs.
  - destruct (IH w) as (w2 & rs & Hs & Hm). do 2 eexists. unfold mbind, M_bind. cbn. by rewrite Hs.
Qed.
End replies.

(** * A daemon of one box *)
Definition guest_box : Box := Box.New "id-1" 0 "default" "alice" "work" "ubuntu".
Definition table : Type := gmap string Box.
Definition table_resolve (ip : string) : M table Box := fun m =>
  (m, match m !! ip with Some b => Ok b | None => Err ErrNotFound end).
Definition table_mutate (ip : string) (fn : Box -> Box) : M table unit := fun m =>
  match m !! ip with Some b => (<[ip := fn b]> m, Ok tt) | None => (m, Err ErrNotFound) end.
Definition one_box : table := {["10.0.0.5"%string := guest_box]}.
Definition latin1 (r : Z) : bool := r <? 256.
Definition no_env (k : string) : string := "".
Definition in_box (stdin args : list string) : M table Exit :=
  main latin1 (box_request no_env (fun _ => "0"%string) table_resolve table_mutate DefaultIdle 0 (fun _ => ""%string) "10.0.0.5:4455")
    no_env false stdin args.

Lemma guest_commands_witness :
  let args := ["status"; "working"; "tests green"]%string in
  exists w', in_box [] args one_box = (w', Ok (mkExit "" "" 0)) /\
    (b_AgentState <$> w' !! "10.0.0.5"%string) = Some "working"%string.
Proof.
  intros args.
  pose proof (guest_commands latin1 no_env (fun _ => "0"%string) table_resolve table_mutate DefaultIdle 0 (fun _ => ""%string)
    "10.0.0.5:4455" false [] args (CStatus (mkStatusBody "working" "tests green")) true
    (status_request latin1 "working" "tests green") one_box _ _ eq_refl ltac:(apply Nat.leb_le; vm_compute; reflexivity)
    (surjective_pairing _)) as (r & Hm & Hr).
  assert (Ht : is_ok r = true) by (apply (f_equal snd) in Hm; cbn [snd] in Hm; rewrite <- Hm; vm_compute; reflexivity).
  rewrite Ht in Hr. eexists. split.
  - unfold in_box. rewrite (surjective_pairing (main _ _ _ _ _ _ _)), Hr. reflexivity.
  - vm_compute. reflexivity.
Defined.

(** A bell in the status line, and a status line that does not fit. *)
Example bell_refused : in_box [] ["status"; "working"; String (byte_of 7) EmptyString]%string one_box =
  (one_box, Ok (failed "400 Bad Request")).
Proof. vm_compute. reflexivity. Qed.
Fixpoint repeat_a (n : nat) : string := match n with O => "" | S n => String "a" (repeat_a n) end.
Example long_status_refused : (in_box [] ["status"; "working"; repeat_a 1000]%string one_box).2 = Ok (failed "400 Bad Request").
Proof. vm_compute. reflexivity. Qed.

(** The same command through the tool server. *)
Example tool_call :
  let request := JObj [("id", JNum "7"); ("method", JStr "tools/call");
    ("params", JObj [("name", JStr "box_set_status"); ("arguments", JObj [("state", JStr "done"); ("status", JStr "ok")])])]%string in
  let '(w, r) := in_box [print request]
                   ["mcp"%string] one_box in
  (b_AgentState <$> w !! "10.0.0.5"%string) = Some "done"%string /\ (ex_code <$> r) = Ok 0.
Proof. vm_compute. split; reflexivity. Qed.
