(* ===== verification/Cli.v ===== *)
(** The user's command line ([cmd/hopbox]): workspaces, commands and shells over
    the API, the SSH identity in [~/.hopbox], and the OpenSSH configuration.

    Files are a map from paths to contents; [unreadable] and [unwritable] are
    the paths the system refuses.  Standard input arrives in the pieces its
    reads return.  A command's outcome is its exit status, or the error [main]
    reports before it exits 1.  Cobra's flag parsing and its own messages, and
    the alignment of the table [ls] prints, are not modelled. *)
From stdpp Require Import base option list strings gmap.
From Stdlib Require Import Ascii ZArith Lia.
From S2P Require Import Prelude GoStrings GoTime GoEncoding GoPath Json Box Ports Store Agentproto Agenthub Agentssh Agent Workspace Api.
Local Open Scope string_scope.
Local Open Scope list_scope.
Local Open Scope Z_scope.

Record Run : Type := mkRun {
  rn_stdout : string;
  rn_stderr : string;
  rn_outcome : result Z
}.
(** The status given to [os.Exit] (the system keeps its low eight bits). *)
Definition exit_status (r : Run) : Z := match rn_outcome r with Ok c => c | Err _ => 1 end.

(** * Creating, listing and removing workspaces ([main.go]) *)
Definition lf : string := String (byte_of 10) EmptyString.
Definition parseExpose (s : string) : result (string * Z) :=
  let '(name, portStr, ok) := cut ":" s in
  if negb ok || bool_decide (name = ""%string) || bool_decide (portStr = ""%string)
  then Err (Errorf ("invalid --expose " +:+ quote s +:+ ", want name:port (e.g. app:3000)"))
  else match Atoi portStr with
       | Some port => if port <=? 0 then Err (Errorf ("invalid port in --expose " +:+ quote s)) else Ok (name, int32 port)
       | None => Err (Errorf ("invalid port in --expose " +:+ quote s))
       end.
Fixpoint parse_all (expose : list string) : result (list (string * Z)) :=
  match expose with
  | [] => Ok []
  | e :: es => ip ← parseExpose e; ips ← parse_all es; Ok (ip :: ips)
  end.
(** The request [hopbox create] sends. *)
Definition create_request (name image : string) (mem : Z) (expose : list string) : result CreateWorkspaceRequest :=
  ingress ← parse_all expose; Ok (mkCreate name image mem ingress).
(** [hopbox create] and [hopbox rm]; the API is a parameter. *)
Definition cli_create (api : CreateWorkspaceRequest -> result WorkspaceMsg) (name image : string) (mem : Z) (expose : list string) : Run :=
  match (r ← create_request name image mem expose; api r) with
  | Ok w => mkRun ("created " +:+ wm_Name w +:+ " (" +:+ wm_Id w +:+ ") phase=" +:+ wm_Phase w +:+ lf) "" (Ok 0)
  | Err e => mkRun "" "" (Err e)
  end.
Definition cli_rm (api : string -> result unit) (nameOrId : string) : Run :=
  match api nameOrId with
  | Ok _ => mkRun ("destroying " +:+ nameOrId +:+ lf) "" (Ok 0)
  | Err e => mkRun "" "" (Err e)
  end.
(** [hopbox ls]: the cells of the table, before [tabwriter] aligns them. *)
Definition ls_header : list string := ["NAME"; "PHASE"; "AGENT"; "IMAGE"; "ENDPOINTS"; "ID"]%string.
Definition ls_row (w : WorkspaceMsg) : list string :=
  let eps := join "," (map em_Url (wm_Endpoints w)) in
  [wm_Name w; wm_Phase w; (if wm_AgentConnected w then "true" else "false")%string; wm_ImageRef w;
   (if bool_decide (eps = ""%string) then "-"%string else eps); wm_Id w].
Definition cli_ls (api : result (list WorkspaceMsg)) : result (list (list string)) :=
  ws ← api; Ok (ls_header :: map ls_row ws).

(** * Commands ([exec.go]) *)

(** [args] after the workspace name, without the separator. *)
Definition exec_command (args : list string) : result (string * list string) :=
  match args with
  | name :: command =>
      if (length args <? 2)%nat then Err (Errorf "requires at least 2 arg(s)")
      else
        let command := match command with c :: cs => if bool_decide (c = "--"%string) then cs else command | [] => [] end in
        match command with [] => Err (Errorf "a command is required") | _ => Ok (name, command) end
  | [] => Err (Errorf "requires at least 2 arg(s)")
  end.

(** The stdin pump: every piece read, in order; empty reads send nothing. *)
Definition stdin_msgs (ins : list string) : list ExecClientMsg :=
  omap (fun d => if bool_decide (d = ""%string) then None else Some (ExecStdinMsg d)) ins.

(** The receive loop: what it prints, and the last exit code. *)
Fixpoint exec_recv (msgs : list ExecServerMsg) (out err : string) (code : Z) : string * string * Z :=
  match msgs with
  | [] => (out, err, code)
  | ExecStdoutMsg d :: l => exec_recv l (out +:+ d) err code
  | ExecStderrMsg d :: l => exec_recv l out (err +:+ d) code
  | ExecExitCode c :: l => exec_recv l out err c
  end.
(** [api] is the call: the messages it answers and how the stream ends. *)
Definition cli_exec (api : list ExecClientMsg -> list ExecServerMsg * result unit) (args : list string) (ins : list string) : Run :=
  match exec_command args with
  | Err e => mkRun "" "" (Err e)
  | Ok (name, command) =>
      let '(msgs, fin) := api (ExecOpen name command :: stdin_msgs ins) in
      let '(out, err, code) := exec_recv msgs "" "" 0 in
      mkRun out err (match fin with Ok _ => Ok code | Err e => Err e end)
  end.

(** * Shells ([shell.go]) *)
Inductive ShellServerMsg : Type :=
| ShellOut (data : string)
| ShellExit (code : Z).
(** The receiving half of [pump]. *)
Fixpoint shell_recv (msgs : list ShellServerMsg) (out : string) (code : Z) : string * Z :=
  match msgs with
  | [] => (out, code)
  | ShellOut d :: l => shell_recv l (out +:+ d) code
  | ShellExit c :: l => shell_recv l out c
  end.
Definition shell_result (code : Z) : result Z := if code =? 0 then Ok 0 else Err (Errorf "shell exited non-zero").
(** [shell]: how the stream ends is not looked at. *)
Definition cli_shell (api : list ShellClientMsg -> list ShellServerMsg * result unit) (name : string) (cols rows : Z)
  (ins : list string) : Run :=
  let datas := omap (fun d => if bool_decide (d = ""%string) then None else Some (ShellData d)) ins in
  let '(msgs, _) := api (ShellOpen name "" (uint32 cols) (uint32 rows) :: datas) in
  let '(out, code) := shell_recv msgs "" 0 in
  mkRun out "" (shell_result code).

(** * The SSH transport ([proxy.go]): the first direction to fail ends it. *)
Definition proxy_result (first : error) : result Z := if errors_Is first io_EOF then Ok 0 else Err first.

(** * The identity ([login.go]) and the OpenSSH files ([sshconfig.go]) *)
Section files.
Variables unreadable unwritable : string -> bool.
Variable home : result string.          (* os.UserHomeDir *)
Variable executable : result string.    (* os.Executable *)
Variable apiAddr : string.
Notation Files := (gmap string string).

Definition ErrNotExist : error := Sentinel "os" "file does not exist".
Definition ErrPermission : error := Sentinel "os" "permission denied".
Definition ReadFile (path : string) : M Files string := fun fs =>
  (fs, if unreadable path then Err ErrPermission else match fs !! path with Some b => Ok b | None => Err ErrNotExist end).
Definition WriteFile (path data : string) : M Files unit := fun fs =>
  if unwritable path then (fs, Err ErrPermission) else (<[path := data]> fs, Ok tt).
Definition MkdirAll (path : string) : M Files unit := fun fs => (fs, if unwritable path then Err ErrPermission else Ok tt).

Definition hopboxDir : M Files string :=
  h ← of_result home;
  let d := Join [h; ".hopbox"%string] in
  MkdirAll d ;; mret d.
Definition identityKeyPath : M Files string := d ← hopboxDir; mret (Join [d; "id_ed25519"%string]).
(** A file of [~/.hopbox], trimmed; empty when there is none. *)
Definition read_saved (name : string) : M Files string :=
  d ← try hopboxDir;
  match d with
  | Err _ => mret ""%string
  | Ok d => b ← try (ReadFile (Join [d; name])); mret (trim_space (match b with Ok b => b | Err _ => ""%string end))
  end.
Definition readPrincipal : M Files string := read_saved "principal".
Definition readToken : M Files string := read_saved "token".

(** What a call carries: [tokenCreds] when a token is saved. *)
Definition request_metadata (token : string) : option (string -> list string) :=
  Some (fun k => if negb (bool_decide (token = ""%string)) && bool_decide (k = "authorization"%string)
                 then ["Bearer " +:+ token] else []).

Definition generateIdentity (fresh : result (string * string)) (path : string) : M Files unit :=
  kp ← of_result fresh;
  WriteFile path kp.1 ;;
  WriteFile (path +:+ ".pub") kp.2.

(** [login]; [issue] is the IssueSSHCert call: the certificate and the
    principal. *)
Definition login (fresh : result (string * string)) (issue : string -> result (string * string)) (token : string) : M Files string :=
  (if bool_decide (token = ""%string) then mret tt
   else d ← hopboxDir; WriteFile (Join [d; "token"%string]) token) ;;
  keyPath ← identityKeyPath;
  k ← gets (fun fs => fs !! keyPath);
  match k with
  | None => generateIdentity fresh keyPath
  | Some _ => mret tt
  end ;;
  pubLine ← wrapping "read public key" (ReadFile (keyPath +:+ ".pub"));
  resp ← of_result (issue pubLine);
  WriteFile (keyPath +:+ "-cert.pub") resp.1 ;;
  d ← try hopboxDir;
  ignore (WriteFile (Join [match d with Ok d => d | Err _ => ""%string end; "principal"%string]) resp.2) ;;
  mret resp.2.

Definition include_line : string := "Include hopbox/*.config".
Definition ensureInclude (configPath : string) : M Files unit :=
  r ← try (ReadFile configPath);
  existing ← match r with
             | Ok b => mret b
             | Err e => if errors_Is e ErrNotExist then mret ""%string else throw e
             end;
  if contains_sub include_line existing then mret tt
  else WriteFile configPath (include_line +:+ lf +:+ lf +:+ existing).

Definition default_user (user : string) : M Files string :=
  if negb (bool_decide (user = ""%string)) then mret user
  else p ← readPrincipal; mret (if bool_decide (p = ""%string) then "dev"%string else p).
Definition self : string :=
  match executable with Ok s => if bool_decide (s = ""%string) then "hopbox" else s | Err _ => "hopbox" end.

Definition host_block (name alias user idPath : string) : string :=
  "# managed by hopbox — workspace " +:+ quote name +:+ " (regenerate with: hopbox ssh-config " +:+ name +:+ ")" +:+ lf +:+
  "Host " +:+ alias +:+ lf +:+
  "    User " +:+ user +:+ lf +:+
  "    IdentityFile " +:+ idPath +:+ lf +:+
  "    IdentitiesOnly yes" +:+ lf +:+
  "    ProxyCommand " +:+ quote self +:+ " proxy " +:+ name +:+ " --addr " +:+ apiAddr +:+ lf +:+
  "    StrictHostKeyChecking accept-new" +:+ lf +:+
  "    UserKnownHostsFile ~/.ssh/known_hosts" +:+ lf.

(** [ssh-config], up to the path it prints. *)
Definition ssh_config (alias user name : string) : M Files string :=
  let alias := if bool_decide (alias = ""%string) then name else alias in
  user ← default_user user;
  idPath ← identityKeyPath;
  h ← of_result home;
  let sshDir := Join [h; ".ssh"%string] in
  MkdirAll (Join [sshDir; "hopbox"%string]) ;;
  ensureInclude (Join [sshDir; "config"%string]) ;;
  let path := Join [sshDir; "hopbox"%string; alias +:+ ".config"] in
  WriteFile path (host_block name alias user idPath) ;;
  mret path.

(** [ssh]: the arguments, with [--user x] taken out wherever it stands. *)
Fixpoint ssh_user (args : list string) (user : string) : string * list string :=
  match args with
  | [] => (user, [])
  | a :: args' =>
      match args' with
      | u :: args'' =>
          if bool_decide (a = "--user"%string) then ssh_user args'' u
          else let '(user', rest) := ssh_user args' user in (user', a :: rest)
      | [] => (user, [a])
      end
  end.
Definition ssh_args (args : list string) : M Files (list string) :=
  let '(user, rest) := ssh_user args "" in
  user ← default_user user;
  match rest with
  | [] => throw (Errorf "a workspace name is required")
  | name :: extra =>
      idPath ← try identityKeyPath;
      let idPath := match idPath with Ok p => p | Err _ => ""%string end in
      mret (["-o"; "ProxyCommand=" +:+ quote self +:+ " proxy " +:+ name +:+ " --addr " +:+ apiAddr;
             "-o"; "StrictHostKeyChecking=accept-new"]%string ++
            (if bool_decide (idPath = ""%string) then [] else ["-o"; "IdentityFile=" +:+ idPath; "-o"; "IdentitiesOnly=yes"]%string) ++
            [user +:+ "@" +:+ name] ++ extra)
  end.
End files.

(** * Lemmas *)

(** What a command wrote on one of its streams. *)
Definition written (typ : ascii) (writes : list (ascii * string)) : string :=
  join "" (map snd (filter (fun wr => wr.1 = typ) writes)).

Lemma exec_recv_app l1 l2 out err code :
  exec_recv (l1 ++ l2) out err code = let '(o, e, c) := exec_recv l1 out err code in exec_recv l2 o e c.
Proof. revert out err code. induction l1 as [|[d|d|c] l1 IH]; intros out err code; simpl; [done|apply IH..]. Qed.

Lemma exec_recv_stdout ds out err code : exec_recv (map ExecStdoutMsg ds) out err code = (out +:+ join "" ds, err, code).
Proof.
  revert out. induction ds as [|d ds IH]; intros out; [by rewrite string_app_nil_r|]. cbn [map exec_recv].
  by rewrite IH, join_nil_cons, string_app_assoc.
Qed.
Lemma exec_recv_stderr ds out err code : exec_recv (map ExecStderrMsg ds) out err code = (out, err +:+ join "" ds, code).
Proof.
  revert err. induction ds as [|d ds IH]; intros err; [by rewrite string_app_nil_r|]. cbn [map exec_recv].
  by rewrite IH, join_nil_cons, string_app_assoc.
Qed.

Lemma written_cons wr writes typ :
  written typ (wr :: writes) = (if bool_decide (wr.1 = typ) then wr.2 else "") +:+ written typ writes.
Proof.
  unfold written. rewrite filter_cons. case_bool_decide as Hw.
  - rewrite decide_True by done. cbn [map]. by rewrite join_nil_cons.
  - by rewrite decide_False by done.
Qed.

(** The output of a served command, printed. *)
Lemma exec_recv_writes writes out err code pieces msg :
  Forall (fun wr : ascii * string => wr.1 = ExecStdout \/ wr.1 = ExecStderr) writes ->
  (forall wr, wr ∈ writes -> join "" (pieces wr) = wr.2) ->
  (forall typ d, msg typ d = if bool_decide (typ = ExecStdout) then ExecStdoutMsg d else ExecStderrMsg d) ->
  exec_recv (concat (map (fun wr => map (msg wr.1) (pieces wr)) writes)) out err code =
  (out +:+ written ExecStdout writes, err +:+ written ExecStderr writes, code).
Proof.
  intros Ht Hp Hm. revert out err. induction Ht as [|wr writes Hwr _ IH]; intros out err.
  { simpl. by rewrite !string_app_nil_r. }
  cbn [map concat]. rewrite exec_recv_app, !written_cons. specialize (IH (fun x Hx => Hp x (list_elem_of_further _ _ _ Hx))).
  pose proof (Hp wr (list_elem_of_here _ _)) as Hj.
  assert (H1 : bool_decide (ExecStderr = ExecStdout) = false) by reflexivity.
  assert (H2 : bool_decide (ExecStdout = ExecStderr) = false) by reflexivity.
  destruct Hwr as [Hw|Hw]; rewrite Hw.
  - rewrite (map_ext (msg ExecStdout) ExecStdoutMsg) by (intros d; by rewrite Hm, bool_decide_eq_true_2).
    rewrite exec_recv_stdout, IH, Hj, H2, bool_decide_eq_true_2, string_app_nil_l, string_app_assoc by done. done.
  - rewrite (map_ext (msg ExecStderr) ExecStderrMsg) by (intros d; by rewrite Hm, H1).
    rewrite exec_recv_stderr, IH, Hj, H1, bool_decide_eq_true_2, string_app_nil_l, string_app_assoc by done. done.
Qed.

Lemma stdin_msgs_text ins : stdin_text (stdin_msgs ins) = join "" ins.
Proof.
  unfold stdin_text, stdin_msgs. induction ins as [|d ins IH]; [done|]. rewrite join_nil_cons, <- IH. cbn [omap list_omap].
  case_bool_decide as Hd; [by subst d|]. cbn [omap list_omap]. by rewrite join_nil_cons.
Qed.
Lemma stdin_msgs_ok ins :
  Forall (fun d => zlen d <= 32 * 1024) ins -> forallb stdin_ok (stdin_msgs ins) = true.
Proof.
  intros Hi. unfold stdin_msgs. induction Hi as [|d ins Hd _ IH]; [done|]. cbn [omap list_omap].
  case_bool_decide; [done|]. cbn [forallb stdin_ok]. rewrite IH, andb_true_r. apply Z.leb_le. unfold maxFrame. lia.
Qed.

Lemma has_prefix_app p s : has_prefix p (p +:+ s) = true.
Proof.
  unfold has_prefix. enough (cut_prefix p (p +:+ s) = Some s) as -> by done.
  induction p as [|c p IH]; [by destruct s|]. rewrite string_app_cons. cbn [cut_prefix]. unfold ascii_eqb.
  by rewrite ?Ascii.eqb_refl, ?bool_decide_eq_true_2.
Qed.
Lemma contains_prefix p s : contains_sub p (p +:+ s) = true.
Proof. pose proof (has_prefix_app p s) as H. destruct (p +:+ s); cbn [contains_sub]; by rewrite H. Qed.

(** The prepended text, or nothing to do. *)
Lemma ensureInclude_eq unreadable unwritable path fs :
  let old := default "" (fs !! path) in
  ensureInclude unreadable unwritable path fs =
  if unreadable path then (fs, Err ErrPermission)
  else if contains_sub include_line old then (fs, Ok tt)
  else if unwritable path then (fs, Err ErrPermission)
  else (<[path := include_line +:+ lf +:+ lf +:+ old]> fs, Ok tt).
Proof.
  unfold ensureInclude, ReadFile, WriteFile, try, mbind, M_bind. destruct (unreadable path); [done|].
  destruct (fs !! path) as [text|]; [|done]. cbn [default from_option id mret M_ret]. by destruct (contains_sub include_line text).
Qed.

(** Configuring OpenSSH keeps the user's own configuration, behind the include
    line, and configuring it again changes nothing. *)
Theorem ensureInclude_once unreadable unwritable path fs fs' :
  ensureInclude unreadable unwritable path fs = (fs', Ok tt) ->
  let text := default "" (fs' !! path) in
  contains_sub include_line text = true /\
  (fs' = fs \/ text = include_line +:+ lf +:+ lf +:+ default "" (fs !! path)) /\
  (forall q, q <> path -> fs' !! q = fs !! q) /\
  ensureInclude unreadable unwritable path fs' = (fs', Ok tt).
Proof.
  rewrite !ensureInclude_eq. destruct (unreadable path); [done|].
  destruct (contains_sub include_line (default "" (fs !! path))) eqn:Hc; [intros [= <-]; rewrite Hc; auto|].
  destruct (unwritable path); [done|]. intros [= <-]. rewrite lookup_insert_eq. cbn [default from_option id].
  rewrite contains_prefix. split_and!; [done|auto| |done]. intros q Hq. by apply lookup_insert_ne.
Qed.

(** * A command, from the terminal to the workspace and back *)
Section exec_local.
Context `{AgentOS} {Y S K T : Type} `{Yamux Y} `{StateSink S} `{WorkspaceStore T}.
Notation W := (ApiWorld T (Hub Y S)).
Hypothesis fresh_stream : forall s y y' st, ym_OpenStream s y = (y', Ok st) -> sm_w st = mkWriter "" None.
Variable srv : Server K.
Variable ctx : Context.
Variable w : W.

(** The call as the server runs it; stdin's end half-closes the stream. *)
Definition exec_api (msgs : list ExecClientMsg) : list ExecServerMsg * result unit :=
  match Exec srv agent_side ctx msgs io_EOF w [] with
  | Some (_, got, r) => (got, r)
  | None => ([], Err (Errorf "no answer"))
  end.

(** C33. [hopbox exec] runs a command in a workspace as if it ran locally.  The
    command line with or without its [--], carried over the API to the
    workspace's agent and back: the command gets exactly the bytes of the
    terminal's input, whatever pieces they were read in; its output appears on
    standard output and its errors on standard error, complete and in order;
    and the process exits with the command's own exit code. *)
Theorem exec_local args name cmd ins w' st writes err :
  exec_command args = Ok (name, cmd) -> forallb utf8 cmd = true -> Forall (fun d => zlen d <= 32 * 1024) ins ->
  open_agent srv ctx name "exec" (fun id => hub_OpenExec id cmd) w = (w', Ok st) ->
  ao_exec (mkCmd cmd "" (ao_environ ++ ["TERM=dumb"%string])) (join "" ins) = Ran writes err ->
  Forall (fun wr => wr.1 = ExecStdout \/ wr.1 = ExecStderr) writes -> in_int32 (wait_code err true) ->
  let run := cli_exec exec_api args ins in
  rn_stdout run = written ExecStdout writes /\ rn_stderr run = written ExecStderr writes /\ exit_status run = wait_code err true.
Proof.
  intros Hargs Hu Hins Hopen Hrun Hw Hcode.
  assert (Hcmd : cmd <> []).
  { intros ->. unfold exec_command in Hargs. destruct args as [|n command]; [done|]. destruct (_ <? _)%nat; [done|].
    destruct (match command with c :: cs => _ | [] => [] end); simplify_eq. }
  rewrite <- (stdin_msgs_text ins) in Hrun.
  destruct (api_exec_served fresh_stream srv ctx name cmd (stdin_msgs ins) io_EOF w w' st writes err [] Hcmd Hu
    (stdin_msgs_ok _ Hins) Hopen Hrun Hw Hcode) as [He Hp].
  unfold cli_exec. rewrite Hargs. unfold exec_api. rewrite He. rewrite app_nil_l, exec_recv_app.
  pose proof (exec_recv_writes writes "" "" 0 (fun wr => chunk_list execChunk wr.2)
    (fun typ d => if bool_decide (typ = ExecStdout) then ExecStdoutMsg d else ExecStderrMsg d) Hw Hp (fun _ _ => eq_refl)) as Hr.
  match goal with |- context [exec_recv (concat ?l) "" "" 0] => assert (Hx : exec_recv (concat l) "" "" 0 = _) by exact Hr; rewrite Hx end.
  cbn. by rewrite !string_app_nil_l.
Qed.
End exec_local.

(** * Shells over the API *)
Section shell_outcome.
Context `{AgentOS} {Y S K T : Type} `{Yamux Y} `{StateSink S} `{WorkspaceStore T}.
Notation W := (ApiWorld T (Hub Y S)).
Variable srv : Server K.
Variable ctx : Context.
Variable w : W.

(** The call as the server runs it, when the agent's bytes arrive as [reads],
    its stream ends in [rerr], and [first] is the first failure of the two
    directions. *)
Definition shell_api (reads : list string) (rerr first : error) (msgs : list ShellClientMsg) : list ShellServerMsg * result unit :=
  match Shell srv ctx msgs io_EOF w with
  | (_, Ok _) => ((agent_to_client ShellOut reads rerr []).1, bridge_result first)
  | (_, Err e) => ([], Err e)
  end.

Lemma agent_to_client_out reads rerr got out code :
  shell_recv (agent_to_client ShellOut reads rerr got).1 out code =
  let '(out', code') := shell_recv got out code in (out' +:+ join "" reads, code').
Proof.
  revert got. induction reads as [|d reads IH]; intros got; cbn [agent_to_client].
  { cbn [fst]. destruct (shell_recv got out code). by rewrite string_app_nil_r. }
  case_bool_decide as Hd; [subst d; rewrite IH; by rewrite join_nil_cons|]. cbn [Send record modify]. rewrite IH.
  assert (Happ : forall l o c, shell_recv (l ++ [ShellOut d]) o c = let '(o', c') := shell_recv l o c in (o' +:+ d, c')).
  { induction l as [|[x|x] l IHl]; intros o c; cbn [shell_recv app]; [done|apply IHl..]. }
  rewrite Happ. destruct (shell_recv got out code) as [o c]. by rewrite join_nil_cons, string_app_assoc.
Qed.

(** [hopbox shell] prints all the workspace sends, and always succeeds: neither
    the shell's own exit code nor the refusal of the call reaches its caller. *)
Theorem shell_reports_nothing name cols rows ins reads rerr first :
  let run := cli_shell (shell_api reads rerr first) name cols rows ins in
  exit_status run = 0 /\
  (rn_stdout run = join "" reads \/
   rn_stdout run = ""%string /\ is_ok (open_agent srv ctx name "shell" (fun id => hub_OpenShell id (mkShellHeader "" (uint16 (uint32 cols)) (uint16 (uint32 rows)))) w).2 = false).
Proof.
  unfold cli_shell, shell_api, Shell.
  destruct (open_agent _ _ _ _ _ w) as [w' [st|e]]; [|by split; [|right]].
  destruct (shell_recv _ "" 0) as [out code] eqn:Hr. rewrite agent_to_client_out in Hr. cbn in Hr. injection Hr as <- <-.
  split; [done|left]. by rewrite string_app_nil_l.
Qed.
End shell_outcome.
