(* ===== verification/CliConcrete.v ===== *)
(** The command line at work: [cat] run over the API of [ApiConcrete], and the
    corners of the arguments and files the CLI accepts. *)
From stdpp Require Import base option list strings gmap.
From Stdlib Require Import Ascii ZArith Lia.
From S2P Require Import Prelude GoStrings GoTime Json Box Ports Store Sql Agentproto Agenthub Agentssh Agent Sshca Workspace WorkspaceSqlite Api DevEnv ApiConcrete Cli.
Import Workspace.
Local Open Scope Z_scope.

#[local] Existing Instance Net.net.
#[local] Existing Instance Demo.os.
#[local] Existing Instance api_store.

Definition typed_pieces : list string := ["hello "%string; EmptyString; "world"%string].

(** [hopbox exec proj -- cat]. *)
Lemma exec_local_witness :
  let run := cli_exec (exec_api open_server (as_user "alice") api_world) ["proj"; "--"; "cat"]%string typed_pieces in
  rn_stdout run = "hello world"%string /\ rn_stderr run = ""%string /\ exit_status run = 0.
Proof.
  destruct (open_agent open_server (as_user "alice") "proj" "exec" (fun id => hub_OpenExec id ["cat"%string]) api_world)
    as [w' r] eqn:Ho.
  assert (is_ok r = true) as Hr by (change (is_ok (w', r).2 = true); rewrite <- Ho; vm_compute; reflexivity).
  destruct r as [st|e]; [|discriminate Hr].
  refine (exec_local _ open_server (as_user "alice") api_world ["proj"; "--"; "cat"]%string "proj" ["cat"%string] typed_pieces w' st
    [(ExecStdout, "hello world"%string)] WaitNil eq_refl eq_refl _ Ho eq_refl _ _).
  - intros s y y' st' Hs. injection Hs as _ <-. reflexivity.
  - repeat constructor; vm_compute; discriminate.
  - constructor; [left; reflexivity|constructor].
  - unfold in_int32, wait_code. lia.
Defined.

(** ** Arguments *)
Example parseExpose_cases :
  map parseExpose ["app:3000"; "app"; ":80"; "app:"; "app:0"; "app:x"]%string =
  [Ok ("app"%string, 3000)] ++
  map (fun s => Err (Errorf ("invalid --expose " +:+ quote s +:+ ", want name:port (e.g. app:3000)"))) ["app"; ":80"; "app:"]%string ++
  map (fun s => Err (Errorf ("invalid port in --expose " +:+ quote s))) ["app:0"; "app:x"]%string.
Proof. vm_compute. reflexivity. Qed.

(** A port beyond 32 bits is not refused: it is the number modulo 2^32. *)
Example parseExpose_wraps : parseExpose "app:4294967376" = Ok ("app"%string, 80).
Proof. vm_compute. reflexivity. Qed.

(** Only one separator is dropped, and only in front. *)
Example exec_command_cases :
  exec_command ["w"; "--"; "ls"; "--"; "x"]%string = Ok ("w"%string, ["ls"; "--"; "x"]%string) /\
  exec_command ["w"; "--"]%string = Err (Errorf "a command is required") /\
  exec_command ["w"%string] = Err (Errorf "requires at least 2 arg(s)").
Proof. vm_compute. auto. Qed.

(** [hopbox ssh] takes every [--user x] for its own, the remote command's too. *)
Example ssh_user_swallows :
  ssh_user ["proj"; "git"; "config"; "--user"; "bob"; "-l"]%string "" = ("bob"%string, ["proj"; "git"; "config"; "-l"]%string).
Proof. vm_compute. reflexivity. Qed.

(** A commented include line counts as one: nothing is prepended, and OpenSSH
    never reads the generated files. *)
Example commented_include :
  let fs := {["c"%string := ("# Include hopbox/*.config" +:+ lf)%string]} in
  ensureInclude (fun _ => false) (fun _ => false) "c" fs = (fs, Ok tt).
Proof. vm_compute. reflexivity. Qed.

(** A stream that ends without an exit code is a success. *)
Example no_code_is_success :
  exit_status (cli_exec (fun _ => ([ExecStdoutMsg "partial"], Ok tt)) ["w"; "make"]%string []) = 0.
Proof. vm_compute. reflexivity. Qed.

(** A shell in a workspace that does not exist. *)
Example shell_in_nothing :
  is_ok (shell_api open_server (as_user "alice") api_world [] io_EOF io_EOF [ShellOpen "nope" "" 80 24]).2 = false /\
  exit_status (cli_shell (shell_api open_server (as_user "alice") api_world [] io_EOF io_EOF) "nope" 80 24 []) = 0.
Proof. vm_compute. auto. Qed.
