(* ===== verification/Kubernetes.v ===== *)
(** The Kubernetes providers: a box as a bare pod
    ([providers/compute/kubernetes/kubernetes.go]) and a workspace home as a
    persistent volume claim ([providers/storage/kubernetes/k8spvc.go]).

    The cluster's API server is the class [Cluster]; what Kubernetes documents
    of its pods and claims is the class [ClusterSpec], over maps from namespace
    and name.  Deleting a pod that still runs only marks it: it keeps its name
    until its containers have stopped. *)
From stdpp Require Import base option list strings gmap fin_maps.
From Stdlib Require Import Ascii ZArith Lia.
From S2P Require Import Prelude GoStrings GoPath Ports.
Local Open Scope Z_scope.

(** * Objects *)
Inductive VolumeSource : Type :=
| EmptyDir
| PersistentVolumeClaim (ClaimName : string).
Record Volume : Type := mkVolume {
  vo_Name : string;
  vo_Source : VolumeSource
}.
Record VolumeMount : Type := mkVolumeMount {
  vm_Name : string;
  vm_MountPath : string;
  vm_ReadOnly : bool
}.
Record KContainer : Type := mkKContainer {
  kc_Name : string;
  kc_Image : string;
  kc_Command : list string;
  kc_Env : list (string * string);
  kc_VolumeMounts : list VolumeMount;
  kc_MemoryLimit : option Z
}.
Record Pod : Type := mkPod {
  pd_Name : string;
  pd_Labels : list (string * string);
  pd_RestartPolicy : string;
  pd_Volumes : list Volume;
  pd_InitContainers : list KContainer;
  pd_Containers : list KContainer
}.
Record Claim : Type := mkClaim {
  cm_Name : string;
  cm_Labels : list (string * string);
  cm_AccessModes : list string;
  cm_Storage : Z;
  cm_StorageClassName : option string
}.

(** [kubernetes.Interface], as far as the providers use it. *)
Class Cluster (D : Type) : Type := {
  kb_IsNotFound : error -> bool;
  kb_IsAlreadyExists : error -> bool;
  kb_pods_Get : string -> string -> M D string;              (* the pod's phase *)
  kb_pods_Delete : string -> string -> M D unit;
  kb_pods_Create : string -> Pod -> M D unit;
  kb_claims_Get : string -> string -> M D unit;
  kb_claims_Create : string -> Claim -> M D unit;
  kb_claims_Delete : string -> string -> M D unit
}.

(** * Pods *)
Definition k8s_labelWorkspace : string := "hopbox.workspace_id".
Definition agentVolume : string := "hopbox-agent".
Definition defaultTarget : string := "/hopbox/hopbox-agent".
Definition default_namespace (ns : string) : string := if bool_decide (ns = ""%string) then "hopbox-workspaces" else ns.

Definition podName (wsID : string) : string := "hopbox-" +:+ wsID.
Definition splitRef (ref : string) : string * string :=
  let '(ns, name, found) := cut "/" ref in if found : bool then (ns, name) else (""%string, ref).

(** [path.Dir] *)
Definition path_Dir (p : string) : string :=
  Clean (match cut_last "/" p with Some (d, _) => d +:+ "/" | None => "" end).

Section compute.
Context {D : Type} `{Cluster D}.
Variable ns : string.        (* p.ns, as [New] leaves it *)
(** The order in which [range] visits a map. *)
Variable range : gmap string string -> list (string * string).

Definition pod_ref (name : string) : string := ns +:+ "/" +:+ name.

Definition target_path (r : ProvisionRequest) : string :=
  if bool_decide (ai_TargetPath (pr_Agent r) = ""%string) then defaultTarget else ai_TargetPath (pr_Agent r).
Definition mount_name (i : nat) : string := "hopbox-mount-" +:+ itoa (Z.of_nat i).
(** The pod [Provision] asks for. *)
Definition box_volumes (r : ProvisionRequest) : list Volume :=
  mkVolume agentVolume EmptyDir :: imap (fun i m => mkVolume (mount_name i) (PersistentVolumeClaim (mt_Source m))) (pr_Mounts r).
Definition workspace_container (r : ProvisionRequest) : KContainer :=
  mkKContainer "workspace" (pr_ImageRef r) [target_path r] (range (pr_Env r))
    (mkVolumeMount agentVolume (path_Dir (target_path r)) true ::
     imap (fun i m => mkVolumeMount (mount_name i) (mt_Target m) (mt_ReadOnly m)) (pr_Mounts r))
    (if 0 <? pr_MemMB r then Some (wrap64 (pr_MemMB r * 1024 * 1024)) else None).
Definition agent_init (r : ProvisionRequest) : KContainer :=
  mkKContainer "hopbox-agent-init" (ai_ImageRef (pr_Agent r)) ["cp"%string; ai_BinaryPath (pr_Agent r); target_path r] []
    [mkVolumeMount agentVolume (path_Dir (target_path r)) false] None.
Definition box_pod (r : ProvisionRequest) : Pod :=
  mkPod (podName (pr_WorkspaceID r)) [(k8s_labelWorkspace, pr_WorkspaceID r)] "Never" (box_volumes r)
    [agent_init r] [workspace_container r].

Definition k8s_Provision (r : ProvisionRequest) : M D BoxInstance :=
  if bool_decide (ai_ImageRef (pr_Agent r) = ""%string) || bool_decide (ai_BinaryPath (pr_Agent r) = ""%string)
  then throw (Errorf "kubernetes: Agent needs ImageRef+BinaryPath (HostBinaryPath is docker-only)")
  else
    let name := podName (pr_WorkspaceID r) in
    d ← try (kb_pods_Delete ns name);
    match d with
    | Err e => if kb_IsNotFound e then mret tt else throw (ErrWrap ("kubernetes: remove stale pod " +:+ quote name) e)
    | Ok _ => mret tt
    end ;;
    wrapping ("kubernetes: create pod " +:+ quote name) (kb_pods_Create ns (box_pod r)) ;;
    mret (mkInstance (pod_ref name) InstanceRunning "").

Definition ref_pod (ref : string) : string * string :=
  let '(n, name) := splitRef ref in (if bool_decide (n = ""%string) then ns else n, name).

Definition phase_of_pod (phase : string) : InstancePhase :=
  if bool_decide (phase = "Running"%string) then InstanceRunning
  else if bool_decide (phase = "Succeeded"%string) then InstanceGone
  else if bool_decide (phase = "Failed"%string) then InstanceFailed
  else InstanceStopped.
Definition k8s_Status (ref : string) : M D BoxInstance :=
  let '(n, name) := ref_pod ref in
  p ← try (kb_pods_Get n name);
  match p with
  | Err e => if kb_IsNotFound e then mret (mkInstance ref InstanceGone "")
             else throw (ErrWrap ("kubernetes: get pod " +:+ quote ref) e)
  | Ok phase => mret (mkInstance ref (phase_of_pod phase) "")
  end.

Definition delete_pod (ref : string) : M D unit :=
  let '(n, name) := ref_pod ref in
  r ← try (kb_pods_Delete n name);
  match r with
  | Err e => if kb_IsNotFound e then mret tt else throw (ErrWrap ("kubernetes: delete pod " +:+ quote ref) e)
  | Ok _ => mret tt
  end.
Definition k8s_Stop : string -> M D unit := delete_pod.
Definition k8s_Destroy : string -> M D unit := delete_pod.

Definition k8s_compute : Compute D := {|
  cp_Provision := k8s_Provision; cp_Status := k8s_Status; cp_Stop := k8s_Stop; cp_Destroy := k8s_Destroy;
  cp_suspender := None
|}.
End compute.

(** * Homes *)
Definition homeTarget : string := "/home/dev".
Definition labelTenant : string := "hopbox.tenant".
Definition pvcName (wsID : string) : string := "hopbox-home-" +:+ wsID.

Record PVCProvider : Type := mkPVCProvider {
  pvc_ns : string;
  pvc_storageClass : string;
  pvc_size : Z
}.
(** [New]; [parse] is [resource.ParseQuantity]. *)
Definition PVCNew (parse : string -> result Z) (namespace storageClass size : string) : result PVCProvider :=
  let size := if bool_decide (size = ""%string) then "1Gi"%string else size in
  q ← map_err (ErrWrap ("k8spvc: bad home size " +:+ quote size)) (parse size);
  Ok (mkPVCProvider (default_namespace namespace) storageClass q).

Section storage.
Context {D : Type} `{Cluster D}.
Variable p : PVCProvider.

Definition home_mount (name : string) : Mount := mkMount name homeTarget false false.
Definition home_claim (r : HomeRequest) : Claim :=
  mkClaim (pvcName (hr_WorkspaceID r)) [(k8s_labelWorkspace, hr_WorkspaceID r); (labelTenant, hr_TenantID r)]
    ["ReadWriteOnce"%string] (pvc_size p)
    (if bool_decide (pvc_storageClass p = ""%string) then None else Some (pvc_storageClass p)).

Definition k8s_EnsureHome (r : HomeRequest) : M D Mount :=
  if bool_decide (hr_WorkspaceID r = ""%string) then throw (Errorf "k8spvc: empty workspace id")
  else
    let name := pvcName (hr_WorkspaceID r) in
    g ← try (kb_claims_Get (pvc_ns p) name);
    match g with
    | Ok _ => mret (home_mount name)
    | Err e =>
        if negb (kb_IsNotFound e) then throw (ErrWrap ("k8spvc: get pvc " +:+ quote name) e)
        else
          c ← try (kb_claims_Create (pvc_ns p) (home_claim r));
          match c with
          | Ok _ => mret (home_mount name)
          | Err e =>
              if kb_IsAlreadyExists e then mret (home_mount name)
              else throw (ErrWrap ("k8spvc: create pvc " +:+ quote name) e)
          end
    end.

Definition k8s_DeleteHome (homeRef : string) : M D unit :=
  r ← try (kb_claims_Delete (pvc_ns p) homeRef);
  match r with
  | Err e => if kb_IsNotFound e then mret tt else throw (ErrWrap ("k8spvc: delete pvc " +:+ quote homeRef) e)
  | Ok _ => mret tt
  end.

Definition k8s_storage : Storage D := {| sg_EnsureHome := k8s_EnsureHome; sg_Delete := k8s_DeleteHome |}.
End storage.

(** * What Kubernetes documents *)

(** A pod as the API server holds it. *)
Record PodObject : Type := mkPodObject {
  po_Spec : Pod;
  po_Phase : string;
  po_Terminating : bool           (* deletionTimestamp is set *)
}.
Definition created (p : Pod) : PodObject := mkPodObject p "Pending" false.
Definition terminating (o : PodObject) : PodObject := mkPodObject (po_Spec o) (po_Phase o) true.
Definition finished (o : PodObject) : bool :=
  bool_decide (po_Phase o = "Succeeded"%string) || bool_decide (po_Phase o = "Failed"%string).

(** An object is addressed by namespace and name.  A get reads.  A create fails
    when the name is taken, also by an object that is being deleted.  Deleting a
    pod removes it if it is finished, and else may leave it terminating; a
    failed call changes nothing. *)
Class ClusterSpec (D : Type) `{Cluster D} : Type := {
  kb_pods : D -> gmap (string * string) PodObject;
  kb_claims : D -> gmap (string * string) Claim;
  kb_pods_Get_law ns name d :
    wp (kb_pods_Get ns name) (fun d' r => d' = d /\
      match r with
      | Ok phase => po_Phase <$> kb_pods d !! (ns, name) = Some phase
      | Err e => kb_IsNotFound e = true -> kb_pods d !! (ns, name) = None
      end) d;
  kb_pods_Delete_law ns name d :
    wp (kb_pods_Delete ns name) (fun d' r => kb_claims d' = kb_claims d /\
      match r with
      | Ok _ => exists o, kb_pods d !! (ns, name) = Some o /\
                (kb_pods d' = delete (ns, name) (kb_pods d) \/
                 finished o = false /\ kb_pods d' = <[(ns, name) := terminating o]> (kb_pods d))
      | Err e => kb_pods d' = kb_pods d /\ (kb_IsNotFound e = true -> kb_pods d !! (ns, name) = None)
      end) d;
  kb_pods_Create_law ns p d :
    wp (kb_pods_Create ns p) (fun d' r => kb_claims d' = kb_claims d /\
      match r with
      | Ok _ => kb_pods d !! (ns, pd_Name p) = None /\ kb_pods d' = <[(ns, pd_Name p) := created p]> (kb_pods d)
      | Err e => kb_pods d' = kb_pods d
      end) d;
  kb_claims_Get_law ns name d :
    wp (kb_claims_Get ns name) (fun d' r => d' = d /\
      match r with
      | Ok _ => is_Some (kb_claims d !! (ns, name))
      | Err e => kb_IsNotFound e = true -> kb_claims d !! (ns, name) = None
      end) d;
  kb_claims_Create_law ns c d :
    wp (kb_claims_Create ns c) (fun d' r => kb_pods d' = kb_pods d /\
      match r with
      | Ok _ => kb_claims d !! (ns, cm_Name c) = None /\ kb_claims d' = <[(ns, cm_Name c) := c]> (kb_claims d)
      | Err e => kb_claims d' = kb_claims d /\ (kb_IsAlreadyExists e = true -> is_Some (kb_claims d !! (ns, cm_Name c)))
      end) d;
  kb_claims_Delete_law ns name d :
    wp (kb_claims_Delete ns name) (fun d' r => kb_pods d' = kb_pods d /\
      match r with
      | Ok _ => kb_claims d' = delete (ns, name) (kb_claims d)
      | Err e => kb_claims d' = kb_claims d /\ (kb_IsNotFound e = true -> kb_claims d !! (ns, name) = None)
      end) d
}.

(** * What the providers do to a cluster *)
Section spec.
Context {D : Type} `{ClusterSpec D}.
Variable ns : string.
Variable range : gmap string string -> list (string * string).
Variable p : PVCProvider.

Lemma ref_pod_roundtrip name :
  ns <> ""%string -> contains_byte "/" ns = false -> ref_pod ns (pod_ref ns name) = (ns, name).
Proof.
  intros Hn Hs. unfold ref_pod, splitRef, pod_ref. change (ns +:+ "/" +:+ name) with (ns +:+ String "/" name).
  rewrite cut_found by done. by rewrite bool_decide_eq_false_2.
Qed.

(** What [m] leaves alone: every claim, and every pod but the one named [k]. *)
Definition only_pod {A} (k : string * string) (m : M D A) (Q : D -> result A -> Prop) : Prop :=
  forall d, wp m (fun d' res => (kb_claims d' = kb_claims d /\ forall k', k' <> k -> kb_pods d' !! k' = kb_pods d !! k') /\
    Q d' res) d.

Lemma Provision_pod r :
  only_pod (ns, podName (pr_WorkspaceID r)) (k8s_Provision ns range r) (fun d' res =>
    forall inst, res = Ok inst ->
      inst = mkInstance (pod_ref ns (podName (pr_WorkspaceID r))) InstanceRunning "" /\
      kb_pods d' !! (ns, podName (pr_WorkspaceID r)) = Some (created (box_pod range r))).
Proof.
  intros d. unfold k8s_Provision. set (key := (ns, podName (pr_WorkspaceID r))).
  destruct (_ || _); [apply wp_throw; repeat split; by intros|]. cbv zeta.
  apply wp_bind, wp_try. eapply wp_mono; [apply kb_pods_Delete_law|]. intros d1 dr [Hc1 Hd].
  assert (Hf1 : forall k', k' <> key -> kb_pods d1 !! k' = kb_pods d !! k').
  { intros k' Hk. destruct dr as [[]|e].
    - destruct Hd as (o & _ & [->|[_ ->]]); [by rewrite lookup_delete_ne|by rewrite lookup_insert_ne].
    - by destruct Hd as [-> _]. }
  apply wp_bind. apply wp_mono with (P := fun d2 (_ : result unit) => d2 = d1).
  { destruct dr as [[]|e]; [done|]. by destruct (kb_IsNotFound e). }
  intros d2 [[]|e] ->; [|repeat split; by auto].
  apply wp_bind, wp_wrapping. eapply wp_mono; [apply kb_pods_Create_law|]. intros d3 [[]|e] [Hc3 Hcr]; cbn [map_err].
  - destruct Hcr as [_ Hp]. change (ns, pd_Name (box_pod range r)) with key in Hp. apply wp_ret. split_and!; [congruence| |].
    + intros k' Hk. rewrite Hp, lookup_insert_ne by done. by apply Hf1.
    + intros inst [= <-]. split; [done|]. by rewrite Hp, lookup_insert_eq.
  - split; [|done]. split; [congruence|]. intros k' Hk. rewrite Hcr. by apply Hf1.
Qed.

Lemma delete_pod_law ref :
  only_pod (ref_pod ns ref) (delete_pod ns ref) (fun d' res =>
    res = Ok tt -> forall o, kb_pods d' !! ref_pod ns ref = Some o -> po_Terminating o = true).
Proof.
  intros d. unfold delete_pod. destruct (ref_pod ns ref) as [n name]. set (key := (n, name)).
  apply wp_bind, wp_try. eapply wp_mono; [apply kb_pods_Delete_law|]. fold key. intros d1 [[]|e] [Hc1 Hd].
  - destruct Hd as (o & Ho & [Hp|[_ Hp]]); apply wp_ret; (split; [split; [done|]; intros k' Hk; rewrite Hp|intros _ o'; rewrite Hp]).
    + by rewrite lookup_delete_ne.
    + by rewrite lookup_delete_eq.
    + by rewrite lookup_insert_ne.
    + rewrite lookup_insert_eq. by intros [= <-].
  - destruct Hd as [Hp Hn]. destruct (kb_IsNotFound e).
    + apply wp_ret. rewrite Hp. split; [done|]. intros _ o. by rewrite Hn.
    + apply wp_throw. by rewrite Hp.
Qed.

Lemma Status_reads ref d :
  wp (k8s_Status ns ref) (fun d' res => d' = d /\ forall inst, res = Ok inst -> in_Ref inst = ref /\
    in_Phase inst = match kb_pods d !! ref_pod ns ref with Some o => phase_of_pod (po_Phase o) | None => InstanceGone end) d.
Proof.
  unfold k8s_Status. destruct (ref_pod ns ref) as [n name]. apply wp_bind, wp_try.
  eapply wp_mono; [apply kb_pods_Get_law|]. intros d1 [phase|e] [-> Hg].
  - apply wp_ret. split; [done|]. intros inst [= <-]. split; [done|]. by destruct (kb_pods d !! _); simplify_eq/=.
  - destruct (kb_IsNotFound e); [|by apply wp_throw]. apply wp_ret. split; [done|]. intros inst [= <-].
    split; [done|]. by rewrite Hg.
Qed.

(** ** Claims *)
Lemma EnsureHome_law r d :
  wp (k8s_EnsureHome p r) (fun d' res => kb_pods d' = kb_pods d /\
    (forall k c, kb_claims d !! k = Some c -> kb_claims d' !! k = Some c) /\
    (forall k c, kb_claims d' !! k = Some c -> kb_claims d !! k = Some c \/ k = (pvc_ns p, pvcName (hr_WorkspaceID r)) /\ c = home_claim p r) /\
    forall m, res = Ok m -> m = home_mount (pvcName (hr_WorkspaceID r)) /\ is_Some (kb_claims d' !! (pvc_ns p, mt_Source m))) d.
Proof.
  unfold k8s_EnsureHome. case_bool_decide; [apply wp_throw; split_and!; auto; by intros|]. cbv zeta.
  apply wp_bind, wp_try. eapply wp_mono; [apply kb_claims_Get_law|]. intros d1 [[]|e] [-> Hg].
  { apply wp_ret. split_and!; auto. by intros m [= <-]. }
  destruct (kb_IsNotFound e); simpl; [|apply wp_throw; split_and!; auto; by intros]. specialize (Hg eq_refl).
  apply wp_bind, wp_try. eapply wp_mono; [apply kb_claims_Create_law|].
  change (cm_Name (home_claim p r)) with (pvcName (hr_WorkspaceID r)). intros d2 [[]|e'] [Hp Hc].
  - destruct Hc as [_ Hc]. apply wp_ret. rewrite Hc. split_and!; [done|..].
    + intros k c Hk. rewrite lookup_insert_ne; [done|]. intros <-. congruence.
    + intros k c. destruct (decide (k = (pvc_ns p, pvcName (hr_WorkspaceID r)))) as [->|Hk].
      * rewrite lookup_insert_eq. intros [= <-]. by right.
      * rewrite lookup_insert_ne by done. auto.
    + intros m [= <-]. split; [done|]. simpl. by rewrite lookup_insert_eq.
  - destruct Hc as [Hc He]. destruct (kb_IsAlreadyExists e'); [apply wp_ret|apply wp_throw];
      rewrite Hc; split_and!; auto; [|by intros]. intros m [= <-]. split; [done|]. by apply He.
Qed.

Lemma DeleteHome_law ref d :
  wp (k8s_DeleteHome p ref) (fun d' res => kb_pods d' = kb_pods d /\
    (forall k, k <> (pvc_ns p, ref) -> kb_claims d' !! k = kb_claims d !! k) /\
    (res = Ok tt -> kb_claims d' !! (pvc_ns p, ref) = None)) d.
Proof.
  unfold k8s_DeleteHome. apply wp_bind, wp_try. eapply wp_mono; [apply kb_claims_Delete_law|]. intros d1 [[]|e] [Hp Hc].
  - apply wp_ret. rewrite Hc. split_and!; [done|intros k Hk; by rewrite lookup_delete_ne|intros _; by rewrite lookup_delete_eq].
  - destruct Hc as [Hc Hn]. destruct (kb_IsNotFound e).
    + apply wp_ret. rewrite Hc. split_and!; [done|done|]. intros _. by apply Hn.
    + apply wp_throw. rewrite Hc. by split_and!.
Qed.

(** ** Any sequence of operations of the two providers *)
Inductive kop : Type :=
| KProvision (r : ProvisionRequest)
| KStatus (ref : string)
| KStop (ref : string)
| KDestroy (ref : string)
| KEnsureHome (r : HomeRequest)
| KDeleteHome (ref : string).
Definition run_kop (d : D) (o : kop) : D :=
  match o with
  | KProvision r => fst (k8s_Provision ns range r d)
  | KStatus ref => fst (k8s_Status ns ref d)
  | KStop ref => fst (k8s_Stop ns ref d)
  | KDestroy ref => fst (k8s_Destroy ns ref d)
  | KEnsureHome r => fst (k8s_EnsureHome p r d)
  | KDeleteHome ref => fst (k8s_DeleteHome p ref d)
  end.
(** The pod and the claim an operation is about. *)
Definition pod_of (o : kop) : option (string * string) :=
  match o with
  | KProvision r => Some (ns, podName (pr_WorkspaceID r))
  | KStop ref | KDestroy ref => Some (ref_pod ns ref)
  | _ => None
  end.
Definition deletes_claim (o : kop) (k : string * string) : bool :=
  match o with KDeleteHome ref => bool_decide (k = (pvc_ns p, ref)) | _ => false end.

Lemma wp_fst {A} (m : M D A) (Q : D -> Prop) d : wp m (fun d' _ => Q d') d -> Q (fst (m d)).
Proof. unfold wp. by destruct (m d). Qed.

Lemma run_kop_pods d o k : pod_of o <> Some k -> kb_pods (run_kop d o) !! k = kb_pods d !! k.
Proof.
  intros Hk. destruct o; simpl in *; apply (wp_fst _ (fun d' => kb_pods d' !! k = kb_pods d !! k)).
  - eapply wp_mono; [apply Provision_pod|]. intros d' res [[_ Hf] _]. apply Hf. congruence.
  - eapply wp_mono; [apply Status_reads|]. by intros d' res [-> _].
  - eapply wp_mono; [apply delete_pod_law|]. intros d' res [[_ Hf] _]. apply Hf. congruence.
  - eapply wp_mono; [apply delete_pod_law|]. intros d' res [[_ Hf] _]. apply Hf. congruence.
  - eapply wp_mono; [apply EnsureHome_law|]. by intros d' res [-> _].
  - eapply wp_mono; [apply DeleteHome_law|]. by intros d' res [-> _].
Qed.
Lemma run_kop_claims d o k c :
  deletes_claim o k = false -> kb_claims d !! k = Some c -> kb_claims (run_kop d o) !! k = Some c.
Proof.
  intros Hk Hc. destruct o; simpl in *; apply (wp_fst _ (fun d' => kb_claims d' !! k = Some c)).
  - eapply wp_mono; [apply Provision_pod|]. by intros d' res [[-> _] _].
  - eapply wp_mono; [apply Status_reads|]. by intros d' res [-> _].
  - eapply wp_mono; [apply delete_pod_law|]. by intros d' res [[-> _] _].
  - eapply wp_mono; [apply delete_pod_law|]. by intros d' res [[-> _] _].
  - eapply wp_mono; [apply EnsureHome_law|]. intros d' res (_ & Hf & _). by apply Hf.
  - eapply wp_mono; [apply DeleteHome_law|]. intros d' res (_ & Hf & _). rewrite Hf; [done|]. by go_bool.
Qed.

End spec.

(** * A cluster with graceful deletion *)
Record KState : Type := mkKState {
  ks_pods : gmap (string * string) PodObject;
  ks_claims : gmap (string * string) Claim
}.
Definition NotFound_err : error := Sentinel "apierrors" "not found".
Definition AlreadyExists_err : error := Sentinel "apierrors" "already exists".
Definition pods_Get (ns name : string) : M KState string := fun d =>
  (d, match ks_pods d !! (ns, name) with Some o => Ok (po_Phase o) | None => Err NotFound_err end).
Definition pods_Delete (ns name : string) : M KState unit := fun d =>
  match ks_pods d !! (ns, name) with
  | None => (d, Err NotFound_err)
  | Some o => (mkKState (if finished o then delete (ns, name) (ks_pods d) else <[(ns, name) := terminating o]> (ks_pods d)) (ks_claims d), Ok tt)
  end.
Definition pods_Create (ns : string) (p : Pod) : M KState unit := fun d =>
  match ks_pods d !! (ns, pd_Name p) with
  | Some _ => (d, Err AlreadyExists_err)
  | None => (mkKState (<[(ns, pd_Name p) := created p]> (ks_pods d)) (ks_claims d), Ok tt)
  end.
Definition claims_Get (ns name : string) : M KState unit := fun d =>
  (d, match ks_claims d !! (ns, name) with Some _ => Ok tt | None => Err NotFound_err end).
Definition claims_Create (ns : string) (c : Claim) : M KState unit := fun d =>
  match ks_claims d !! (ns, cm_Name c) with
  | Some _ => (d, Err AlreadyExists_err)
  | None => (mkKState (ks_pods d) (<[(ns, cm_Name c) := c]> (ks_claims d)), Ok tt)
  end.
Definition claims_Delete (ns name : string) : M KState unit := fun d =>
  match ks_claims d !! (ns, name) with
  | None => (d, Err NotFound_err)
  | Some _ => (mkKState (ks_pods d) (delete (ns, name) (ks_claims d)), Ok tt)
  end.
#[export] Instance graceful : Cluster KState := {|
  kb_IsNotFound e := bool_decide (e = NotFound_err); kb_IsAlreadyExists e := bool_decide (e = AlreadyExists_err);
  kb_pods_Get := pods_Get; kb_pods_Delete := pods_Delete; kb_pods_Create := pods_Create;
  kb_claims_Get := claims_Get; kb_claims_Create := claims_Create; kb_claims_Delete := claims_Delete
|}.
#[local] Obligation Tactic := idtac.
#[export] Program Instance graceful_spec : ClusterSpec KState := {| kb_pods := ks_pods; kb_claims := ks_claims |}.
Next Obligation. intros ns name d. unfold wp. simpl. unfold pods_Get. destruct (ks_pods d !! _); by split. Qed.
Next Obligation.
  intros ns name d. unfold wp. simpl. unfold pods_Delete. destruct (ks_pods d !! _) as [o|] eqn:Ho; [|by auto].
  split; [done|]. exists o. split; [done|]. simpl. destruct (finished o) eqn:Hf; auto.
Qed.
Next Obligation. intros ns p d. unfold wp. simpl. unfold pods_Create. destruct (ks_pods d !! _) eqn:Ho; by auto. Qed.
Next Obligation. intros ns name d. unfold wp. simpl. unfold claims_Get. destruct (ks_claims d !! _); split; eauto; done. Qed.
Next Obligation.
  intros ns c d. unfold wp. simpl. unfold claims_Create. destruct (ks_claims d !! _) eqn:Ho; split; eauto.
Qed.
Next Obligation.
  intros ns name d. unfold wp. simpl. unfold claims_Delete. destruct (ks_claims d !! _) eqn:Ho; by auto.
Qed.

Definition no_pods : KState := mkKState ∅ ∅.
Definition k_ns : string := "hopbox-workspaces".
Definition pvc1 : PVCProvider := mkPVCProvider k_ns "" 1073741824.
Definition home1 : HomeRequest := mkHomeRequest "w1" "default" "dev".
Definition box1 : ProvisionRequest :=
  mkProvisionRequest "w1" "ubuntu" 512 0 "" [home_mount "hopbox-home-w1"] ∅ (mkAgentImage "hopbox/agent" "/hopbox-agent" "" "").
Definition first_home : KState := fst (k8s_EnsureHome pvc1 home1 no_pods).
Definition used : list kop := [KProvision box1; KStatus "hopbox-workspaces/hopbox-w1"; KDestroy "hopbox-workspaces/hopbox-w1"; KDeleteHome "hopbox-home-w2"].


(** Provisioning over a pod that still runs fails: the deleted pod keeps its
    name while it terminates.  Over a failed pod it succeeds. *)
Definition set_pod_phase (phase : string) (d : KState) : KState :=
  mkKState (fmap (fun o => mkPodObject (po_Spec o) phase (po_Terminating o)) (ks_pods d)) (ks_claims d).
Definition provisioned (phase : string) : KState := set_pod_phase phase (fst (k8s_Provision k_ns map_to_list box1 no_pods)).
Example reprovision_running :
  snd (k8s_Provision k_ns map_to_list box1 (provisioned "Running")) =
  Err (ErrWrap ("kubernetes: create pod " +:+ quote "hopbox-w1") AlreadyExists_err).
Proof. vm_compute. reflexivity. Qed.
Example reprovision_failed : is_ok (snd (k8s_Provision k_ns map_to_list box1 (provisioned "Failed"))) = true.
Proof. vm_compute. reflexivity. Qed.
