(* ===== verification/Conformance.v ===== *)
(** The provider contracts as batteries ([test/conformance]): the checks every
    provider of a contract has to pass, third-party ones included.

    A battery is a list of named cases over a provider's class.  A case runs on
    the provider its factory makes, in the world it left to the case before it;
    [t.Fatalf] throws, and a [t.Cleanup] runs when its case ends and cannot fail
    it.  The theorems: the providers of the repository pass, and putting a
    provider behind gRPC changes no verdict. *)
From stdpp Require Import base option list strings gmap.
From Stdlib Require Import ZArith Lia.
From S2P Require Import Prelude GoStrings GoPath Box Microvm Ports Providers Plugin Docker Kubernetes.
Local Open Scope Z_scope.

(** * Running cases *)
Section runner.
Context {C : Type}.

(** The body of a case after the registration of [cleanup]. *)
Definition Cleanup (cleanup body : M C unit) : M C unit := fun c =>
  let '(c1, r) := body c in (fst (cleanup c1), r).
Definition Fatalf (what : string) : M C unit := throw (Errorf what).
(** [if bad { t.Fatalf(what) }] *)
Definition refuse (bad : bool) (what : string) : M C unit := if bad then Fatalf what else mret tt.
Definition is_empty (s : string) : bool := bool_decide (s = ""%string).

(** [t.Run] of each case: its name and whether it passed. *)
Fixpoint run_cases (cases : list (string * M C unit)) : C -> C * list (string * bool) := fun c =>
  match cases with
  | [] => (c, [])
  | (name, case) :: rest =>
      let '(c1, r) := case c in
      let '(c2, vs) := run_cases rest c1 in
      (c2, (name, is_ok r) :: vs)
  end.
Definition passes (cases : list (string * M C unit)) (c : C) : bool := forallb snd (run_cases cases c).2.
End runner.

(** * The batteries; [factory] replaces the provider by a new one. *)
Section batteries.
Context {C : Type}.
Variable factory : M C unit.

Definition RunComputeConformance `{Compute C} (req : ProvisionRequest) : list (string * M C unit) :=
  [("ProvisionReturnsRunningRef"%string,
     factory ;;
     inst ← wrapping "provision" (cp_Provision req);
     refuse (is_empty (in_Ref inst)) "instance ref empty" ;;
     Cleanup (cp_Destroy (in_Ref inst)) (mret tt));
   ("StatusAfterProvision"%string,
     factory ;;
     inst ← cp_Provision req;
     Cleanup (cp_Destroy (in_Ref inst))
       (st ← wrapping "status" (cp_Status (in_Ref inst));
        refuse (negb (bool_decide (in_Phase st = InstanceRunning)) && negb (bool_decide (in_Phase st = InstanceStopped)))
          "unexpected phase after provision"));
   ("StopIsNotAnError"%string,
     factory ;;
     inst ← cp_Provision req;
     Cleanup (cp_Destroy (in_Ref inst)) (wrapping "stop" (cp_Stop (in_Ref inst))));
   ("DestroyThenGone"%string,
     factory ;;
     inst ← cp_Provision req;
     wrapping "destroy" (cp_Destroy (in_Ref inst)) ;;
     st ← wrapping "status after destroy" (cp_Status (in_Ref inst));
     refuse (negb (bool_decide (in_Phase st = InstanceGone))) "phase after destroy, want gone");
   ("DestroyIsIdempotent"%string,
     factory ;;
     inst ← cp_Provision req;
     wrapping "first destroy" (cp_Destroy (in_Ref inst)) ;;
     wrapping "second destroy (must be idempotent)" (cp_Destroy (in_Ref inst)))].

Definition RunStorageConformance `{Storage C} : list (string * M C unit) :=
  let alices := mkHomeRequest "w1" "default" "alice" in
  let w1 := mkHomeRequest "w1" "" "" in
  [("EnsureHomeReturnsMount"%string,
     factory ;;
     m ← wrapping "ensurehome" (sg_EnsureHome alices);
     refuse (is_empty (mt_Source m) || is_empty (mt_Target m)) "mount must have source+target");
   ("EnsureHomeIdempotent"%string,
     factory ;;
     m1 ← sg_EnsureHome w1;
     m2 ← wrapping "second ensure" (sg_EnsureHome w1);
     refuse (negb (bool_decide (mt_Source m1 = mt_Source m2))) "idempotent ensure changed source");
   ("DeleteRemoves"%string,
     factory ;;
     m ← sg_EnsureHome w1;
     wrapping "delete" (sg_Delete (mt_Source m)))].

Definition RunIdentityConformance `{Identity C} (valid invalid : Credential) : list (string * M C unit) :=
  let action p := mkAccessRequest p "workspace.create" "default" in
  [("AuthenticateValidReturnsPrincipal"%string,
     factory ;;
     p ← wrapping "authenticate valid" (id_Authenticate valid);
     refuse (is_empty (pp_ID p) || is_empty (pp_TenantID p)) "principal must carry id+tenant");
   ("AuthenticateInvalidErrors"%string,
     factory ;;
     r ← try (id_Authenticate invalid);
     refuse (is_ok r) "expected error authenticating an invalid credential");
   ("AuthorizeSystemAllowed"%string,
     factory ;;
     d ← wrapping "authorize" (id_Authorize (action (mkPrincipal "sys" "default" "" ["system"%string])));
     refuse (negb (de_Allow d)) "system principal must be allowed");
   ("AuthorizeNoRoleDenied"%string,
     factory ;;
     d ← wrapping "authorize" (id_Authorize (action (mkPrincipal "nobody" "default" "" [])));
     refuse (de_Allow d) "role-less principal must be denied" ;;
     refuse (is_empty (de_Reason d)) "a deny must carry a reason")].

Definition RunIngressConformance `{Ingress C} : list (string * M C unit) :=
  let req := mkExposeRequest "w1" "app" 3000 "subdomain" "default" in
  [("ExposeReturnsEndpoint"%string,
     factory ;;
     ep ← wrapping "expose" (ig_Expose req);
     refuse (is_empty (pe_Ref ep) || is_empty (pe_URL ep)) "endpoint must have ref+url" ;;
     refuse (negb (pe_Port ep =? er_Port req)) "endpoint port");
   ("ExposeIsIdempotent"%string,
     factory ;;
     e1 ← ig_Expose req;
     e2 ← wrapping "second expose" (ig_Expose req);
     refuse (negb (bool_decide (pe_Ref e1 = pe_Ref e2))) "idempotent expose changed ref");
   ("UnexposeRemovesAndIsIdempotent"%string,
     factory ;;
     ep ← ig_Expose req;
     wrapping "unexpose" (ig_Unexpose (pe_Ref ep)) ;;
     wrapping "second unexpose (must be idempotent)" (ig_Unexpose (pe_Ref ep)))].

Definition RunMeteringConformance `{Metering C} : list (string * M C unit) :=
  [("EmitAccepted"%string,
     factory ;; wrapping "emit" (mr_Emit (mkUsageEvent "default" "alice" "w1" "workspace.start" 1 1)));
   ("QuotaWellFormed"%string,
     factory ;;
     q ← wrapping "quota" (mr_Quota (mkPrincipalRef "alice" "default"));
     refuse (qs_WorkspacesLimit q <? 0) "limit must be >= 0" ;;
     refuse (negb (qs_Allowed q) && is_empty (qs_Reason q)) "a denial must carry a reason")].

Definition RunBuildConformance `{Build C} (req : BuildRequest) : list (string * M C unit) :=
  [("ResolveReturnsImageRef"%string,
     factory ;;
     img ← wrapping "resolve" (bd_Resolve req);
     refuse (is_empty (ir_Ref img)) "resolved image ref must be non-empty");
   ("StatusReturnsPhase"%string,
     factory ;;
     img ← bd_Resolve req;
     let ref := if is_empty (ir_BuildRef img) then ir_Ref img else ir_BuildRef img in
     st ← wrapping "status" (bd_Status ref);
     refuse (is_empty (bs_Phase st)) "status must report a phase")].
End batteries.

(** * Verdicts and the wire *)

(** Two operations that do the same to the provider and answer the same, the
    wording of their errors aside. *)
Definition forget {C A} (x : C * result A) : C * option A := (x.1, match x.2 with Ok a => Some a | Err _ => None end).
Record agree {C A} (m n : M C A) : Prop := mkAgree { agree_at : forall c, forget (m c) = forget (n c) }.
Infix "≃" := agree (at level 70).

#[export] Instance agree_equiv {C A} : Equivalence (@agree C A).
Proof. split; [done|by intros m n [E]; split|intros m n o [E] [F]; split; intros c; by rewrite E]. Qed.

Section agree.
Context {C : Type}.

Lemma agree_inv {A} (m n : M C A) c : m ≃ n ->
  (exists c' a, m c = (c', Ok a) /\ n c = (c', Ok a)) \/ (exists c' e e', m c = (c', Err e) /\ n c = (c', Err e')).
Proof.
  intros [E]. specialize (E c). destruct (m c) as [c1 [a|e]], (n c) as [c2 [a'|e']]; cbn in E; simplify_eq; [left|right]; by repeat eexists.
Qed.

#[export] Instance bind_agree {A B} : Proper (pointwise_relation A agree ==> agree ==> agree) (@mbind (M C) _ A B).
Proof.
  intros f g Hfg m n E. split. intros c. unfold mbind, M_bind.
  destruct (agree_inv m n c E) as [(c' & a & -> & ->)|(c' & e & e' & -> & ->)]; [apply (Hfg a)|done].
Qed.
#[export] Instance wrapping_agree {A} s : Proper (agree ==> agree) (@wrapping C A s).
Proof. intros m n E. split. intros c. unfold wrapping. by destruct (agree_inv m n c E) as [(c' & a & -> & ->)|(c' & e & e' & -> & ->)]. Qed.
#[export] Instance Cleanup_agree : Proper (agree ==> agree ==> agree) (@Cleanup C).
Proof.
  intros u v [Hu] m n E. split. intros c. unfold Cleanup.
  assert (Hf : forall c, (u c).1 = (v c).1) by (intros x; by specialize (Hu x) as [= ->]).
  destruct (agree_inv m n c E) as [(c' & a & -> & ->)|(c' & e & e' & -> & ->)]; cbn; by rewrite Hf.
Qed.

Lemma wrapping_id {A} s (m : M C A) : wrapping s m ≃ m.
Proof. split. intros c. unfold wrapping. by destruct (m c) as [c' [a|e]]. Qed.
Lemma bind_map {A A' B} (h : A -> A') (m : M C A) (f : A' -> M C B) :
  (a' ← (a ← m; mret (h a)); f a') ≃ (a ← m; f (h a)).
Proof. split. intros c. unfold mbind, M_bind. by destruct (m c) as [c' [a|e]]. Qed.
Lemma tried {A B} (m n : M C A) (f : bool -> M C B) : m ≃ n -> (r ← try m; f (is_ok r)) ≃ (r ← try n; f (is_ok r)).
Proof. intros E. split. intros c. unfold mbind, M_bind, try. by destruct (agree_inv m n c E) as [(c' & a & -> & ->)|(c' & e & e' & -> & ->)]. Qed.

Definition same_cases (cs ds : list (string * M C unit)) : Prop := Forall2 (fun x y => x.1 = y.1 /\ x.2 ≃ y.2) cs ds.
Lemma run_cases_agree cs ds c : same_cases cs ds -> run_cases cs c = run_cases ds c.
Proof.
  intros E. revert c. induction E as [|[n m] [n' m'] cs ds [Hn Hm] _ IH]; intros c; [done|]. cbn in Hn, Hm. subst n'. cbn [run_cases].
  destruct (agree_inv m m' c Hm) as [(c' & a & -> & ->)|(c' & e & e' & -> & ->)]; by rewrite IH.
Qed.
End agree.

Section wire.
Context {C : Type} `{Link C}.
Hypothesis up : link_up.

Lemma statuses_agree {A} (m : M C A) : statuses m ≃ m.
Proof. split. intros c. unfold statuses. by destruct (m c) as [c' [a|e]]. Qed.
Lemma over_wire {A} (remote local : M C A) : (forall c, remote c = statuses local c) -> remote ≃ local.
Proof. intros E. split. intros c. rewrite E. apply statuses_agree. Qed.

Lemma remote_compute_agrees `{Compute C} :
  (forall r, @cp_Provision _ (NewRemoteCompute compute_client) r ≃ (i ← cp_Provision (wire_request r); mret (wire_instance i))) /\
  (forall s, @cp_Status _ (NewRemoteCompute compute_client) s ≃ (i ← cp_Status s; mret (wire_instance i))) /\
  (forall s, @cp_Stop _ (NewRemoteCompute compute_client) s ≃ cp_Stop s) /\
  (forall s, @cp_Destroy _ (NewRemoteCompute compute_client) s ≃ cp_Destroy s).
Proof.
  set (r0 := mkProvisionRequest "" "" 0 0 "" [] ∅ no_agent).
  split_and!; intros x; apply over_wire; intros c.
  - exact (proj1 (remote_compute_lossy x c up)).
  - exact (proj1 (proj2 (remote_compute_lossy r0 c up)) x).
  - exact (proj1 (proj2 (proj2 (remote_compute_lossy r0 c up))) x).
  - exact (proj1 (proj2 (proj2 (proj2 (remote_compute_lossy r0 c up)))) x).
Qed.

(** Case by case. *)
Ltac each_case :=
  apply run_cases_agree; unfold same_cases;
  repeat first [apply List.Forall2_nil | apply List.Forall2_cons; [split; [reflexivity|cbn [fst snd]]|]].

(** The tests on a phase do not see what the wire does to it. *)
Lemma after_provision p what :
  @refuse C (negb (bool_decide (wire_phase p = InstanceRunning)) && negb (bool_decide (wire_phase p = InstanceStopped))) what ≃
  refuse (negb (bool_decide (p = InstanceRunning)) && negb (bool_decide (p = InstanceStopped))) what.
Proof. by destruct p. Qed.
Lemma after_destroy p what :
  @refuse C (negb (bool_decide (wire_phase p = InstanceGone))) what ≃ refuse (negb (bool_decide (p = InstanceGone))) what.
Proof. by destruct p. Qed.

Lemma remote_storage_agrees `{Storage C} :
  (forall r, @sg_EnsureHome _ (NewRemoteStorage storage_client) r ≃ (m ← sg_EnsureHome r; mret (wire_mount m))) /\
  (forall s, @sg_Delete _ (NewRemoteStorage storage_client) s ≃ sg_Delete s).
Proof. split; intros x; apply over_wire; intros c; by apply (remote_storage_ops c up). Qed.
Lemma remote_identity_agrees `{Identity C} :
  (forall x, @id_Authenticate _ (NewRemoteIdentity identity_client) x ≃ id_Authenticate x) /\
  (forall r, @id_Authorize _ (NewRemoteIdentity identity_client) r ≃ id_Authorize r).
Proof. split; intros x; apply over_wire; intros c; by apply (remote_identity_ops c up). Qed.
Lemma remote_ingress_agrees `{Ingress C} :
  (forall r, @ig_Expose _ (NewRemoteIngress ingress_client) r ≃ ig_Expose r) /\
  (forall s, @ig_Unexpose _ (NewRemoteIngress ingress_client) s ≃ ig_Unexpose s).
Proof. split; intros x; apply over_wire; intros c; by apply (remote_ingress_ops c up). Qed.
Lemma remote_metering_agrees `{Metering C} :
  (forall e, @mr_Emit _ (NewRemoteMetering metering_client) e ≃ mr_Emit e) /\
  (forall r, @mr_Quota _ (NewRemoteMetering metering_client) r ≃ mr_Quota r).
Proof. split; intros x; apply over_wire; intros c; by apply (remote_metering_ops c up). Qed.
Lemma remote_build_agrees `{Build C} :
  (forall r, @bd_Resolve _ (NewRemoteBuild build_client) r ≃ bd_Resolve r) /\
  (forall s, @bd_Status _ (NewRemoteBuild build_client) s ≃ bd_Status s).
Proof. split; intros x; apply over_wire; intros c; by apply (remote_build_ops c up). Qed.

(** Putting a provider behind gRPC changes no verdict of its contract's
    battery and leaves the provider in the same state.  A compute provider is
    asked what the wire can carry of the request. *)
Theorem battery_remote `{Compute C} `{Storage C} `{Identity C} `{Ingress C} `{Metering C} `{Build C} factory c :
  (forall req, run_cases (@RunComputeConformance _ factory (NewRemoteCompute compute_client) req) c =
               run_cases (RunComputeConformance factory (wire_request req)) c) /\
  run_cases (@RunStorageConformance _ factory (NewRemoteStorage storage_client)) c = run_cases (RunStorageConformance factory) c /\
  (forall valid invalid, run_cases (@RunIdentityConformance _ factory (NewRemoteIdentity identity_client) valid invalid) c =
                         run_cases (RunIdentityConformance factory valid invalid) c) /\
  run_cases (@RunIngressConformance _ factory (NewRemoteIngress ingress_client)) c = run_cases (RunIngressConformance factory) c /\
  run_cases (@RunMeteringConformance _ factory (NewRemoteMetering metering_client)) c = run_cases (RunMeteringConformance factory) c /\
  (forall req, run_cases (@RunBuildConformance _ factory (NewRemoteBuild build_client) req) c =
               run_cases (RunBuildConformance factory req) c).
Proof.
  destruct remote_compute_agrees as (Pv & St & Sp & De). destruct remote_storage_agrees as [En Dh].
  destruct remote_identity_agrees as [Au Az]. destruct remote_ingress_agrees as [Ex Un].
  destruct remote_metering_agrees as [Em Qu]. destruct remote_build_agrees as [Re Bs].
  split_and!.
  - intros req. each_case; setoid_rewrite wrapping_id; setoid_rewrite Pv; setoid_rewrite bind_map; setoid_rewrite De; try done.
    + setoid_rewrite St. setoid_rewrite bind_map. cbn. by setoid_rewrite after_provision.
    + by setoid_rewrite Sp.
    + setoid_rewrite St. setoid_rewrite bind_map. cbn. by setoid_rewrite after_destroy.
  - each_case; setoid_rewrite wrapping_id; setoid_rewrite En; do 2 try setoid_rewrite bind_map; try done. by setoid_rewrite Dh.
  - intros valid invalid. each_case.
    + by setoid_rewrite Au.
    + f_equiv. intros []. apply (tried _ _ (fun b => refuse b _)), Au.
    + by setoid_rewrite Az.
    + by setoid_rewrite Az.
  - each_case; setoid_rewrite wrapping_id; setoid_rewrite Ex; try done. by setoid_rewrite Un.
  - each_case; [by setoid_rewrite Em|by setoid_rewrite Qu].
  - intros req. each_case; setoid_rewrite Re; try done. by setoid_rewrite Bs.
Qed.
End wire.

(** * The providers of the repository *)
Definition fresh {C} (c : C) : M C unit := fun _ => (c, Ok tt).

(** A host whose file operations all succeed. *)
Definition working (F : Type) `{LocalFS.Host F} : Prop :=
  (forall d f, is_ok (LocalFS.os_MkdirAll d f).2 = true) /\ (forall d f, is_ok (LocalFS.os_Exists d f).2 = true) /\
  (forall d f, is_ok (LocalFS.os_Create d f).2 = true) /\ (forall d n f, is_ok (LocalFS.os_Truncate d n f).2 = true) /\
  (forall d f, is_ok (LocalFS.os_RemoveAll d f).2 = true) /\ (forall d f, is_ok (LocalFS.exec_mkfs d f).2 = true).

(** A verdict by what the case's runs satisfy. *)
Lemma passes_all {C} (cases : list (string * M C unit)) :
  Forall (fun nc => forall c, is_ok (nc.2 c).2 = true) cases -> forall c, passes cases c = true.
Proof.
  intros Hall. unfold passes. induction Hall as [|[n m] cases Hm _ IH]; intros c; [done|]. cbn [run_cases].
  specialize (Hm c). cbn in Hm. destruct (m c) as [c1 r] eqn:E. specialize (IH c1). destruct (run_cases cases c1) as [c2 vs].
  cbn in *. by rewrite Hm, IH.
Qed.
Lemma wp_ok {C A} (m : M C A) c : wp m (fun _ r => is_ok r = true) c -> is_ok (m c).2 = true.
Proof. unfold wp. by destruct (m c). Qed.
Lemma ok_wp {C A} (m : M C A) (Q : C -> result A -> Prop) c :
  is_ok (m c).2 = true -> (forall c' a, m c = (c', Ok a) -> Q c' (Ok a)) -> wp m Q c.
Proof. unfold wp. destruct (m c) as [c' [a|e]]; cbn; [by auto|done]. Qed.

Lemma ensured `{Hh : LocalFS.Host F} p r f : working F -> hr_WorkspaceID r <> ""%string -> LocalFS.bad_id (hr_WorkspaceID r) = false ->
  is_ok (LocalFS.EnsureHome p r f).2 = true.
Proof.
  intros (Hm & Hx & Hc & Ht & Hr & Hk) Hid Hb. apply wp_ok. unfold LocalFS.EnsureHome. rewrite bool_decide_eq_false_2, Hb by done.
  destruct (LocalFS.lf_block p).
  - unfold LocalFS.ensureBlock. apply wp_bind, wp_wrapping. apply ok_wp; [apply Hm|]. intros f1 a1 _. cbn [map_err]. cbv zeta.
    apply wp_bind. apply ok_wp; [apply Hx|]. intros f2 [] _; apply wp_bind; [by repeat apply wp_ret|].
    apply wp_bind, wp_wrapping. apply ok_wp; [apply Hc|]. intros f3 a3 _. cbn [map_err].
    apply wp_bind, wp_try. apply ok_wp; [apply Ht|]. intros f4 a4 _. apply wp_bind, wp_try. apply ok_wp; [apply Hk|].
    intros f5 a5 _. by repeat apply wp_ret.
  - apply wp_bind, wp_wrapping. apply ok_wp; [apply Hm|]. intros f1 a1 _. by apply wp_ret.
Qed.

(** A case that stops at nothing passes. *)
Lemma wp_refuse {C} (b : bool) what (Q : C -> result unit -> Prop) c : b = false -> Q c (Ok tt) -> wp (refuse b what) Q c.
Proof. by intros ->. Qed.

Ltac all_cases := apply passes_all; repeat first [apply List.Forall_nil | apply List.Forall_cons]; cbn [fst snd].

Lemma homes_pass `{Hh : LocalFS.Host F} root block size : working F -> LocalFS.proper_root (LocalFS.mkProvider root block size) ->
  let p := LocalFS.mkProvider root block size in
  forall f, passes (@RunStorageConformance F (mret tt) (LocalFS.localfs_storage p)) f = true.
Proof.
  intros Hw Hr p. pose proof Hw as (_ & _ & _ & _ & Hrm & _).
  assert (He : forall t o f (Q : F -> result Mount -> Prop),
    (forall f' m, mt_Source m = Join [root; LocalFS.home_name p "w1"] -> mt_Target m = LocalFS.homeTarget -> Q f' (Ok m)) ->
    wp (LocalFS.EnsureHome p (mkHomeRequest "w1" t o)) Q f).
  { intros t o f Q HQ. apply ok_wp; [by apply ensured|]. intros f' m Hm.
    apply LocalFS.EnsureHome_mount in Hm as [_ ->]. by apply HQ. }
  assert (Hel : element "w1") by done.
  assert (Hne : Join [root; LocalFS.home_name p "w1"] <> ""%string).
  { change root with (LocalFS.lf_root p). rewrite LocalFS.home_path by done. by destruct (Clean (LocalFS.lf_root p)). }
  all_cases; intros f; apply wp_ok; apply wp_bind, wp_ret; apply wp_bind.
  - apply wp_wrapping, He. intros f' m Hs Ht. cbn [map_err]. apply wp_refuse; [|done]. unfold is_empty.
    rewrite Hs, Ht. apply orb_false_iff. split; by apply bool_decide_eq_false_2.
  - apply He. intros f' m Hs _. apply wp_bind, wp_wrapping, He. intros f2 m2 Hs2 _. cbn [map_err]. apply wp_refuse; [|done].
    by rewrite Hs, Hs2, bool_decide_eq_true_2.
  - apply He. intros f' m Hs _. apply wp_wrapping. cbn [sg_Delete LocalFS.localfs_storage]. rewrite Hs. apply wp_intro.
    intros f2 r. change root with (LocalFS.lf_root p). rewrite LocalFS.Delete_home by done.
    specialize (Hrm (Join [LocalFS.lf_root p; LocalFS.home_name p "w1"]) f'). intros E. rewrite E in Hrm. by destruct r.
Qed.

(** ** The batteries of the small providers *)
Lemma wp_fresh {C} (c0 : C) (Q : C -> result unit -> Prop) c : Q c0 (Ok tt) -> wp (fresh c0) Q c.
Proof. done. Qed.
Lemma wp_eq {C A} (m : M C A) (Q : C -> result A -> Prop) c c' r : m c = (c', r) -> Q c' r -> wp m Q c.
Proof. unfold wp. by intros ->. Qed.
Lemma complete_principal p : pp_ID p <> ""%string -> pp_TenantID p <> ""%string -> is_empty (pp_ID p) || is_empty (pp_TenantID p) = false.
Proof. intros. unfold is_empty. by rewrite !bool_decide_eq_false_2. Qed.


(** Identity providers differ in how they authenticate only. *)
Lemma identity_passes {C} (factory : M C unit) (I : Identity C) valid invalid pr c :
  (forall c, wp factory (fun c0 r => r = Ok tt /\ (exists c1, id_Authenticate valid c0 = (c1, Ok pr)) /\
                                     is_ok (id_Authenticate invalid c0).2 = false) c) ->
  pp_ID pr <> ""%string -> pp_TenantID pr <> ""%string ->
  (exists reason, reason <> ""%string /\ forall req c, id_Authorize req c =
     (c, Ok (if existsb Static.privileged (pp_Roles (ar_Principal req)) then mkDecision true "" else mkDecision false reason))) ->
  passes (RunIdentityConformance factory valid invalid) c = true.
Proof.
  intros Hf Hid Ht (reason & Hr & Ha). all_cases; intros c'; apply wp_ok, wp_bind; (eapply wp_mono; [apply Hf|]);
    intros c0 r (-> & (c1 & Hv) & Hi).
  - apply wp_bind, wp_wrapping. eapply wp_eq; [exact Hv|]. apply wp_refuse; [by apply complete_principal|done].
  - apply wp_bind, wp_try, wp_intro. intros c2 r E. rewrite E in Hi. by apply wp_refuse.
  - apply wp_bind, wp_wrapping. eapply wp_eq; [apply Ha|]. by apply wp_refuse.
  - apply wp_bind, wp_wrapping. eapply wp_eq; [apply Ha|]. apply wp_bind. apply wp_refuse; [done|]. apply wp_refuse; [|done].
    unfold is_empty. by apply bool_decide_eq_false_2.
Qed.
Lemma authorize_decision (req : AccessRequest) {W} reason (w : W) :
  (if existsb Static.privileged (pp_Roles (ar_Principal req)) then mret (mkDecision true "") else mret (mkDecision false reason) : M W AccessDecision) w =
  (w, Ok (if existsb Static.privileged (pp_Roles (ar_Principal req)) then mkDecision true "" else mkDecision false reason)).
Proof. by destruct (existsb _ _). Qed.

Lemma static_known (keys : gmap string Principal) key : key <> ""%string ->
  Static.Authenticate (mkCredential "api-key" key) keys =
  (keys, match keys !! key with Some pr => Ok pr | None => Err (Errorf "static: unknown api key") end).
Proof.
  intros Hk. unfold Static.Authenticate. cbn [cr_Scheme cr_Value]. rewrite (bool_decide_eq_false_2 (key = _)) by done.
  unfold mbind, M_bind, gets. simpl. by destruct (keys !! key).
Qed.

Section oidc.
Context {W : Type} (verify : string -> M W Oidc.Claims) (cfg : Oidc.Config).
Definition claimed (claims : Oidc.Claims) : string :=
  if bool_decide (Oidc.principal_claim cfg = "email"%string) then Oidc.cl_Email claims else Oidc.cl_Subject claims.
Lemma oidc_verifies tok : tok <> ""%string ->
  Oidc.Authenticate verify cfg (mkCredential "oidc-token" tok) =
  (claims ← wrapping "oidc" (verify tok);
   if bool_decide (claimed claims = ""%string) then throw (Errorf ("oidc: token missing " +:+ quote (Oidc.principal_claim cfg) +:+ " claim"))
   else mret (mkPrincipal (claimed claims) (Oidc.oc_TenantID cfg) (Oidc.cl_Email claims)
          (["owner"%string] ++ if Oidc.groupsIntersect (Oidc.cl_Groups claims) (Oidc.oc_AdminGroups cfg) then ["tenant-admin"%string] else []))).
Proof.
  intros Ht. unfold Oidc.Authenticate. cbn [cr_Scheme cr_Value]. rewrite (bool_decide_eq_false_2 (tok = _)) by done.
  by rewrite (bool_decide_eq_true_2 ("oidc-token"%string = "oidc-token"%string)), andb_false_r.
Qed.
Lemma oidc_accepts tok claims w : tok <> ""%string -> claimed claims <> ""%string -> (verify tok w).2 = Ok claims ->
  exists w', Oidc.Authenticate verify cfg (mkCredential "oidc-token" tok) w =
    (w', Ok (mkPrincipal (claimed claims) (Oidc.oc_TenantID cfg) (Oidc.cl_Email claims)
      (["owner"%string] ++ if Oidc.groupsIntersect (Oidc.cl_Groups claims) (Oidc.oc_AdminGroups cfg) then ["tenant-admin"%string] else []))).
Proof.
  intros Ht Hc Hv. rewrite oidc_verifies by done.
  destruct (verify tok w) as [w1 r] eqn:E. cbn in Hv. subst r. exists w1.
  rewrite (bind_eq_ok _ _ w w1 claims) by (unfold wrapping; by rewrite E). by rewrite bool_decide_eq_false_2.
Qed.
Lemma oidc_refuses tok w : is_ok (verify tok w).2 = false -> is_ok (Oidc.Authenticate verify cfg (mkCredential "oidc-token" tok) w).2 = false.
Proof.
  intros Hv. destruct (decide (tok = ""%string)) as [->|Ht]; [done|]. rewrite oidc_verifies by done.
  destruct (verify tok w) as [w1 [a|e]] eqn:E; [done|]. by rewrite (bind_eq_err _ _ w w1 (ErrWrap "oidc" e)) by (unfold wrapping; by rewrite E).
Qed.
End oidc.

Lemma app_exposed zone p :
  let h := Subdomain.host zone "w1" "app" in
  @ig_Expose _ (Subdomain.subdomain_ingress zone) (mkExposeRequest "w1" "app" 3000 "subdomain" "default") p =
  (<[h := Subdomain.mkRoute h "w1" 3000 "app"]> p, Ok (mkPortEndpoint h ("https://" +:+ h) "app" 3000)).
Proof. reflexivity. Qed.


(** * Runs *)
#[local] Existing Instance LocalFS.null_host.
Lemma null_host_works : working (gset string).
Proof. by split_and!. Qed.
Definition staticKeys : gmap string Principal := {["secret-key-1"%string := mkPrincipal "alice" "default" "Alice" ["owner"%string]]}.


(** A provider whose boxes are never gone fails the same case on both sides of
    the wire. *)
Lemma battery_remote_witness :
  run_cases (@RunComputeConformance nat (fresh 0%nat) (NewRemoteCompute (@compute_client nat DemoLink.link DemoLink.compute)) DemoLink.request) 7%nat =
  (1%nat, [("ProvisionReturnsRunningRef"%string, true); ("StatusAfterProvision"%string, true); ("StopIsNotAnError"%string, true);
           ("DestroyThenGone"%string, false); ("DestroyIsIdempotent"%string, true)]).
Proof.
  refine (eq_trans (proj1 (@battery_remote nat DemoLink.link DemoLink.up DemoLink.compute DemoLink.storage DemoLink.identity DemoLink.ingress
    DemoLink.metering DemoLink.builder (fresh 0%nat) 7%nat) DemoLink.request) _). vm_compute. reflexivity.
Defined.

(** The reference provider of the batteries ([memCompute]). *)
Module MemCompute.
Definition Provision (r : ProvisionRequest) : M (gset string) BoxInstance :=
  let ref := "mem-" +:+ pr_WorkspaceID r in
  modify (fun live => {[ref]} ∪ live) ;; mret (mkInstance ref InstanceRunning "").
Definition Status (ref : string) : M (gset string) BoxInstance :=
  live ← gets (fun live => bool_decide (ref ∈ live));
  mret (mkInstance ref (if live : bool then InstanceRunning else InstanceGone) "").
Definition Stop (ref : string) : M (gset string) unit := modify (fun live => live ∖ {[ref]}).
Definition Destroy (ref : string) : M (gset string) unit := modify (fun live => live ∖ {[ref]}).
#[export] Instance memCompute : Compute (gset string) := {|
  cp_Provision := Provision; cp_Status := Status; cp_Stop := Stop; cp_Destroy := Destroy; cp_suspender := None
|}.
End MemCompute.
Example memCompute_conforms :
  passes (@RunComputeConformance _ (fresh ∅) MemCompute.memCompute (mkProvisionRequest "w1" "ubuntu:24.04" 0 0 "" [] ∅ no_agent)) ∅ = true.
Proof. vm_compute. reflexivity. Qed.

#[local] Existing Instances DemoDocker.docker DemoHost.host.

(** The Docker provider, with a network of its own, on a daemon that works. *)
Example docker_conforms :
  passes (@RunComputeConformance _ (mret tt) (docker_compute DemoDocker.provider map_to_list) DemoDocker.request) (DemoDocker.mkDaemon ∅ 0) = true.
Proof. vm_compute. reflexivity. Qed.

(** The microVM provider, on a host where every command succeeds. *)
Example microvm_conforms :
  passes (@RunComputeConformance _ (fresh DemoHost.empty) (Microvm.microvm_compute DemoHost.fleet) (DemoHost.request "a")) DemoHost.empty = true.
Proof. vm_compute. reflexivity. Qed.

(** The Kubernetes provider passes where deletion is immediate, as in the
    client's fake, and fails where it is graceful: a destroyed pod terminates
    under its name, [Status] reports its phase instead of gone, and the next
    case cannot provision. *)
Definition immediate_Delete (ns name : string) : M KState unit := fun d =>
  match ks_pods d !! (ns, name) with
  | None => (d, Err NotFound_err)
  | Some _ => (mkKState (delete (ns, name) (ks_pods d)) (ks_claims d), Ok tt)
  end.
Definition immediate : Cluster KState := {|
  kb_IsNotFound e := bool_decide (e = NotFound_err); kb_IsAlreadyExists e := bool_decide (e = AlreadyExists_err);
  kb_pods_Get := pods_Get; kb_pods_Delete := immediate_Delete; kb_pods_Create := pods_Create;
  kb_claims_Get := claims_Get; kb_claims_Create := claims_Create; kb_claims_Delete := claims_Delete
|}.
Example k8s_conforms_immediate :
  passes (@RunComputeConformance _ (mret tt) (@k8s_compute _ immediate k_ns map_to_list) box1) no_pods = true /\
  passes (@RunStorageConformance _ (mret tt) (@k8s_storage _ immediate pvc1)) no_pods = true.
Proof. vm_compute. auto. Qed.
Example k8s_fails_graceful :
  (run_cases (@RunComputeConformance _ (mret tt) (@k8s_compute _ graceful k_ns map_to_list) box1) no_pods).2 =
  [("ProvisionReturnsRunningRef"%string, true); ("StatusAfterProvision"%string, false); ("StopIsNotAnError"%string, false);
   ("DestroyThenGone"%string, false); ("DestroyIsIdempotent"%string, false)].
Proof. vm_compute. reflexivity. Qed.
Example k8s_destroyed_not_gone :
  (run_cases (drop 3 (@RunComputeConformance _ (mret tt) (@k8s_compute _ graceful k_ns map_to_list) box1)) no_pods).2 =
  [("DestroyThenGone"%string, false); ("DestroyIsIdempotent"%string, false)].
Proof. vm_compute. reflexivity. Qed.
