(* ===== verification/Events.v ===== *)
(** Reconcile wake-ups ([internal/events], [cmd/hopboxd/eventbus.go]): the
    in-process bus, which calls its handlers inline, and the NATS bus, which
    carries the same wake-ups as messages between nodes.

    A handler is a function on the state it acts on.  The broker's connection
    to one subscriber is a queue of message bodies: messages arrive in the order
    they were published, may be lost, and other programs may publish too. *)
From stdpp Require Import base option list strings gmap.
From Stdlib Require Import Ascii ZArith Lia.
From S2P Require Import Prelude GoStrings Json.
Local Open Scope Z_scope.

Definition Handler (W : Type) : Type := string -> string -> W -> W.

(** * In process *)
Record InProc (W : Type) : Type := mkInProc { ip_handlers : list (Handler W) }.
Arguments mkInProc {W}.
Arguments ip_handlers {W}.

Section inproc.
Context {W : Type}.
Definition NewInProc : InProc W := mkInProc [].
Definition inproc_Subscribe (h : Handler W) (b : InProc W) : InProc W := mkInProc (ip_handlers b ++ [h]).
Definition inproc_Publish (b : InProc W) (workspaceID tenant : string) (w : W) : W :=
  foldl (fun w h => h workspaceID tenant w) w (ip_handlers b).
End inproc.

(** * Over NATS *)
Definition Subject : string := "hopbox.reconcile".
Record wakeup : Type := mkWakeup {
  wk_ID : string;
  wk_Tenant : string
}.
Definition wakeup_json (w : wakeup) : json := JObj [("id", JStr (wk_ID w)); ("tenant", JStr (wk_Tenant w))]%string.
Definition wakeup_fields : Fields wakeup :=
  [("id", str_field (fun s w => mkWakeup s (wk_Tenant w))); ("tenant", str_field (fun s w => mkWakeup (wk_ID w) s))]%string.

(** The message [Publish] sends, and the call a received one leads to. *)
Definition encode_wakeup (workspaceID tenant : string) : string := print (wakeup_json (mkWakeup workspaceID tenant)).
Definition decode_wakeup (data : string) : option (string * string) :=
  match unmarshal wakeup_fields data (mkWakeup "" "") with
  | Err _ => None
  | Ok w => if bool_decide (wk_ID w = ""%string) then None else Some (wk_ID w, wk_Tenant w)
  end.
(** The callback [Subscribe] registers for [h]. *)
Definition on_message {W} (h : Handler W) (data : string) (w : W) : W :=
  match decode_wakeup data with Some (id, tenant) => h id tenant w | None => w end.

(** [newEventBus]: which bus the configuration names; [connect] is
    [events.Connect]. *)
Inductive Bus : Type :=
| BusInProc
| BusNATS (url : string).
Definition newEventBus (connect : string -> result unit) (kind url : string) : result Bus :=
  if bool_decide (kind = ""%string) || bool_decide (kind = "inproc"%string) then Ok BusInProc
  else if bool_decide (kind = "nats"%string) then
    match connect url with
    | Ok _ => Ok (BusNATS url)
    | Err e => Err (ErrWrap ("connect nats " +:+ url) e)
    end
  else Err (Errorf ("unknown --events " +:+ quote kind +:+ " (want inproc|nats)")).

(** * Delivery *)
Record Net (W : Type) : Type := mkNet {
  nt_world : W;                  (* the subscriber's node *)
  nt_queue : list string
}.
Arguments mkNet {W}.
Arguments nt_world {W}.
Arguments nt_queue {W}.

Inductive label : Type :=
| LPublish (workspaceID tenant : string)
| LForeign (data : string)
| LDeliver
| LLose.

Section net.
Context {W : Type}.
Variable h : Handler W.

Inductive net_step : label -> Net W -> Net W -> Prop :=
| StepPublish id tenant w q : net_step (LPublish id tenant) (mkNet w q) (mkNet w (q ++ [encode_wakeup id tenant]))
| StepForeign data w q : net_step (LForeign data) (mkNet w q) (mkNet w (q ++ [data]))
| StepDeliver data w q : net_step LDeliver (mkNet w (data :: q)) (mkNet (on_message h data w) q)
| StepLose data w q1 q2 : net_step LLose (mkNet w (q1 ++ data :: q2)) (mkNet w (q1 ++ q2)).

Inductive net_run : list label -> Net W -> Net W -> Prop :=
| RunNil n : net_run [] n n
| RunSnoc tr l n n1 n2 : net_run tr n n1 -> net_step l n1 n2 -> net_run (tr ++ [l]) n n2.

(** The wake-ups a run published, as the handlers of an in-process bus would
    have seen them. *)
Definition published (tr : list label) : list (string * string) :=
  omap (fun l => match l with LPublish id tenant => Some (id, tenant) | _ => None end) tr.
Definition wakes (l : list (string * string)) : list (string * string) := filter (fun c => c.1 <> ""%string) l.
Definition call_all (calls : list (string * string)) (w : W) : W := foldl (fun w c => h c.1 c.2 w) w calls.

(** Runs of UTF-8 texts, with nothing but junk from elsewhere. *)
Definition clean_label (l : label) : Prop :=
  match l with
  | LPublish id tenant => utf8 id = true /\ utf8 tenant = true
  | LForeign data => decode_wakeup data = None
  | _ => True
  end.

Lemma decode_encode id tenant :
  utf8 id = true -> utf8 tenant = true ->
  decode_wakeup (encode_wakeup id tenant) = if bool_decide (id = ""%string) then None else Some (id, tenant).
Proof.
  intros Hi Ht. unfold decode_wakeup, encode_wakeup, unmarshal. rewrite parse_print; [|by simpl; rewrite Hi, Ht].
  reflexivity.
Qed.

Lemma wakes_app l1 l2 : wakes (l1 ++ l2) = wakes l1 ++ wakes l2.
Proof. apply filter_app. Qed.
Lemma published_snoc tr l : published (tr ++ [l]) = published tr ++ published [l].
Proof. apply omap_app. Qed.
Lemma call_all_snoc calls c w : call_all (calls ++ [c]) w = h c.1 c.2 (call_all calls w).
Proof. unfold call_all. by rewrite foldl_app. Qed.

Lemma decoded_publish id tenant :
  utf8 id = true -> utf8 tenant = true -> omap decode_wakeup [encode_wakeup id tenant] = wakes (published [LPublish id tenant]).
Proof.
  intros Hi Ht. simpl. rewrite decode_encode by done. unfold wakes. rewrite filter_cons. simpl.
  case_bool_decide as Hid; destruct (decide _); done || by destruct Hid.
Qed.

(** What was called and what is still queued is, in order, a part of what was
    published, and all of it when nothing was lost. *)
Lemma net_invariant tr w0 n :
  net_run tr (mkNet w0 []) n -> Forall clean_label tr ->
  exists calls, nt_world n = call_all calls w0 /\
    calls ++ omap decode_wakeup (nt_queue n) `sublist_of` wakes (published tr) /\
    (LLose ∉ tr -> calls ++ omap decode_wakeup (nt_queue n) = wakes (published tr)).
Proof.
  remember (mkNet w0 []) as n0 eqn:Hn0. intros Hr. induction Hr as [n|tr l n n1 n2 _ IH Hs]; intros Hc; subst n.
  { exists []. done. }
  apply Forall_app in Hc as [Hc Hl]. apply Forall_cons_1 in Hl as [Hl _].
  destruct (IH eq_refl Hc) as (calls & Hw & Hsub & Hall). rewrite published_snoc, wakes_app.
  assert (Hlose : LLose ∉ tr ++ [l] -> LLose ∉ tr) by set_solver.
  destruct Hs as [id tenant w q|data w q|data w q|data w q1 q2]; simpl in Hw, Hsub, Hall, Hl |- *.
  - destruct Hl as [Hi Ht]. exists calls. split; [done|]. rewrite omap_app, (decoded_publish id tenant), app_assoc by done.
    split; [by apply sublist_app|]. intros Hn. by rewrite Hall by auto.
  - exists calls. split; [done|]. rewrite omap_app. simpl. rewrite Hl, !app_nil_r. auto.
  - unfold on_message. rewrite !app_nil_r. destruct (decode_wakeup data) as [[id tenant]|]; [|by exists calls; auto].
    exists (calls ++ [(id, tenant)]). rewrite call_all_snoc, <- app_assoc. simpl. split; [by rewrite Hw|auto].
  - exists calls. split; [done|]. rewrite !app_nil_r. split; [|set_solver]. etrans; [|apply Hsub].
    apply sublist_app; [done|]. rewrite !omap_app. apply sublist_app; [done|]. simpl.
    destruct (decode_wakeup data); [by apply sublist_cons|done].
Qed.
End net.

(** A wake-up carried by NATS is the wake-up published.  In any run of the
    bus, whatever is delivered, delayed, lost or published by others in between,
    the subscriber's handler has been called on a part of the published
    wake-ups, in their order and with their texts; and when nothing was lost and
    everything has arrived, the subscriber is in the state the in-process bus
    would have left it in.  Only a wake-up without a workspace is dropped. *)
Theorem nats_is_inproc {W} (h : Handler W) tr w0 n :
  net_run h tr (mkNet w0 []) n -> Forall clean_label tr ->
  (exists calls, nt_world n = call_all h calls w0 /\ calls `sublist_of` wakes (published tr)) /\
  (LLose ∉ tr -> nt_queue n = [] ->
   nt_world n = foldl (fun w c => inproc_Publish (inproc_Subscribe h NewInProc) c.1 c.2 w) w0 (wakes (published tr))).
Proof.
  intros Hr Hc. destruct (net_invariant h tr w0 n Hr Hc) as (calls & Hw & Hsub & Hall). split.
  - exists calls. split; [done|]. etrans; [|apply Hsub]. by apply sublist_inserts_r.
  - intros Hl Hq. specialize (Hall Hl). rewrite Hq, app_nil_r in Hall. rewrite Hw, Hall. unfold call_all. reflexivity.
Qed.

(** A run that publishes two wake-ups and a junk message and delivers them. *)
Definition log_call : Handler (list (string * string)) := fun id tenant l => l ++ [(id, tenant)].
Definition two_wakes : list label :=
  [LPublish "w1" "default"; LForeign "{"; LPublish "" "default"; LPublish "w2" "default"; LDeliver; LDeliver; LDeliver; LDeliver]%string.

Definition delivered : list (string * string) := [("w1", "default"); ("w2", "default")]%string.
Lemma two_wakes_run : net_run log_call two_wakes (mkNet [] []) (mkNet delivered []).
Proof.
  change two_wakes with ([] ++ [LPublish "w1" "default"] ++ [LForeign "{"] ++ [LPublish "" "default"] ++
    [LPublish "w2" "default"] ++ [LDeliver] ++ [LDeliver] ++ [LDeliver] ++ [LDeliver]).
  rewrite !app_assoc.
  replace delivered with (foldl (fun w d => on_message log_call d w) []
    [encode_wakeup "w1" "default"; "{"%string; encode_wakeup "" "default"; encode_wakeup "w2" "default"]) by (vm_compute; reflexivity).
  cbn [foldl]. do 4 (eapply RunSnoc; [|apply StepDeliver]).
  match goal with |- net_run _ _ _ (mkNet _ [?a; ?b; ?c; ?d]) => change [a; b; c; d] with (((([] ++ [a]) ++ [b]) ++ [c]) ++ [d]) end.
  do 4 (eapply RunSnoc; [|constructor]). apply RunNil.
Qed.

Lemma nats_is_inproc_witness :
  delivered = foldl (fun w c => inproc_Publish (inproc_Subscribe log_call NewInProc) c.1 c.2 w) [] (wakes (published two_wakes)).
Proof.
  apply (nats_is_inproc log_call two_wakes [] (mkNet delivered []) two_wakes_run).
  - repeat constructor.
  - rewrite list_elem_of_In. simpl. intuition discriminate.
  - done.
Defined.
