(* ===== verification/GoFlag.v ===== *)
(** Go's [flag] package as far as the daemons use it: the argument syntax, the
    kinds of flags and what each accepts.  Parsing yields the last text given
    for each flag, all of them valid, and what follows the flags.

    [strconv.ParseFloat] is the argument [ParseFloat]. *)
From stdpp Require Import base option list strings gmap.
From Stdlib Require Import Ascii ZArith Lia.
From S2P Require Import Prelude GoStrings GoTime.
Local Open Scope Z_scope.

Inductive kind : Type :=
| KString
| KInt64
| KFloat64
| KBool
| KDuration.
#[export] Instance kind_eq_dec : EqDecision kind.
Proof. solve_decision. Defined.

(** * [strconv.ParseInt(s, 0, 64)] *)
Definition underscore (c : ascii) : bool := byte_val c =? 95.
(** The value of a digit or letter in any base. *)
Definition any_digit (c : ascii) : option Z :=
  let v := byte_val (lower_byte c) in
  if is_digit c then Some (digit_val c) else if (97 <=? v) && (v <=? 122) then Some (v - 87) else None.

(** The base a literal is in, and its digits. *)
Definition split_base (s : string) : Z * string :=
  match s with
  | String "0" (String p (String d s')) =>
      let v := byte_val (lower_byte p) in
      if v =? 98 then (2, String d s') else if v =? 111 then (8, String d s') else if v =? 120 then (16, String d s')
      else (8, String p (String d s'))
  | String "0" s' => (8, s')
  | _ => (10, s)
  end.

(** [underscoreOK] after the sign: [i] is the class of the previous byte, [Some
    true] a digit or base prefix, [Some false] an underscore. *)
Fixpoint underscore_ok (hex : bool) (i : option bool) (s : string) : bool :=
  match s with
  | EmptyString => match i with Some false => false | _ => true end
  | String c s' =>
      let v := byte_val (lower_byte c) in
      if is_digit c || (hex && (97 <=? v) && (v <=? 102)) then underscore_ok hex (Some true) s'
      else if underscore c then match i with Some true => underscore_ok hex (Some false) s' | _ => false end
      else match i with Some false => false | _ => underscore_ok hex None s' end
  end.
Definition underscoreOK (s : string) : bool :=
  match s with
  | String "0" (String p s') =>
      let v := byte_val (lower_byte p) in
      if (v =? 98) || (v =? 111) || (v =? 120) then underscore_ok (v =? 120) (Some true) s' else underscore_ok false None s
  | _ => underscore_ok false None s
  end.

Inductive num_error : Type :=
| ErrSyntax
| ErrRange.
(** The digit loop of [ParseUint]. *)
Fixpoint uint_digits (base acc : Z) (s : string) : Z + num_error :=
  match s with
  | EmptyString => inl acc
  | String c s' =>
      if underscore c then uint_digits base acc s'
      else match any_digit c with
           | None => inr ErrSyntax
           | Some d =>
               if base <=? d then inr ErrSyntax
               else if 2 ^ 64 <=? acc * base + d then inr ErrRange
               else uint_digits base (acc * base + d) s'
           end
  end.
Definition ParseUint0 (s : string) : Z + num_error :=
  match s with
  | EmptyString => inr ErrSyntax
  | _ =>
      let '(base, digits) := split_base s in
      match uint_digits base 0 digits with
      | inl n => if contains_byte "_" digits && negb (underscoreOK s) then inr ErrSyntax else inl n
      | e => e
      end
  end.
Definition ParseInt0 (s : string) : Z + num_error :=
  let '(neg, u) := match s with
                   | String "-" s' => (true, s') | String "+" s' => (false, s') | _ => (false, s)
                   end in
  match ParseUint0 u with
  | inl n =>
      if neg : bool then (if 2 ^ 63 <? n then inr ErrRange else inl (- n))
      else (if 2 ^ 63 <=? n then inr ErrRange else inl n)
  | inr e => inr e
  end.

(** [strconv.ParseBool] *)
Definition ParseBool (s : string) : option bool :=
  if bool_decide (s ∈ ["1"; "t"; "T"; "TRUE"; "true"; "True"]%string) then Some true
  else if bool_decide (s ∈ ["0"; "f"; "F"; "FALSE"; "false"; "False"]%string) then Some false else None.

(** * Parsing *)
Definition ErrHelp : error := Sentinel "flag" "flag: help requested".

Section flags.
Context {X : Type}.
Variable ParseFloat : string -> X + num_error.

Definition num_error_text (e : num_error) : string :=
  match e with ErrSyntax => "parse error" | ErrRange => "value out of range" end.
(** [Value.Set]: whether a text is a value of the kind, or why not. *)
Definition set_error (k : kind) (v : string) : option string :=
  match k with
  | KString => None
  | KInt64 => match ParseInt0 v with inl _ => None | inr e => Some (num_error_text e) end
  | KFloat64 => match ParseFloat v with inl _ => None | inr e => Some (num_error_text e) end
  | KBool => match ParseBool v with Some _ => None | None => Some "parse error"%string end
  | KDuration => match ParseDuration v with Ok _ => None | Err _ => Some "parse error"%string end
  end.

Variable formal : gmap string kind.

Definition Values : Type := gmap string string.
Definition set_flag (name v : string) (k : kind) (vs : Values) : result Values :=
  match set_error k v with
  | None => Ok (<[name := v]> vs)
  | Some why =>
      Err (Errorf ((if bool_decide (k = KBool) then "invalid boolean value " +:+ quote v +:+ " for -" +:+ name
                    else "invalid value " +:+ quote v +:+ " for flag -" +:+ name) +:+ ": " +:+ why))
  end.

(** The name and the value of an argument's text after its dashes. *)
Definition split_flag (s : string) : string * option string :=
  match s with
  | String c s' => let '(n, v, found) := cut "=" s' in (String c n, if found : bool then Some v else None)
  | EmptyString => (EmptyString, None)
  end.

Inductive shape : Type :=
| NotFlag                       (* the first argument that is not a flag *)
| EndOfFlags                    (* "--" *)
| Flag (body : string).
Definition shape_of (s : string) : shape :=
  match s with
  | String "-" (String "-" EmptyString) => EndOfFlags
  | String "-" (String "-" b) => Flag b
  | String "-" (String c b) => Flag (String c b)
  | _ => NotFlag
  end.
Definition bad_body (b : string) : bool :=
  match b with EmptyString => true | String c _ => ascii_eqb c "-" || ascii_eqb c "=" end.

(** [FlagSet.Parse] *)
Fixpoint parse_args (args : list string) (vs : Values) : result (Values * list string) :=
  match args with
  | [] => Ok (vs, [])
  | s :: args' =>
      match shape_of s with
      | NotFlag => Ok (vs, args)
      | EndOfFlags => Ok (vs, args')
      | Flag body =>
          if bad_body body then Err (Errorf ("bad flag syntax: " +:+ s))
          else
            let '(name, value) := split_flag body in
            match formal !! name with
            | None =>
                if bool_decide (name = "help"%string) || bool_decide (name = "h"%string) then Err ErrHelp
                else Err (Errorf ("flag provided but not defined: -" +:+ name))
            | Some KBool =>
                vs ← set_flag name (default "true"%string value) KBool vs;
                parse_args args' vs
            | Some k =>
                match value with
                | Some v => vs ← set_flag name v k vs; parse_args args' vs
                | None =>
                    match args' with
                    | v :: args'' => vs ← set_flag name v k vs; parse_args args'' vs
                    | [] => Err (Errorf ("flag needs an argument: -" +:+ name))
                    end
                end
            end
      end
  end.
End flags.

(** * A flag set by [--name=value] *)
Definition flag_arg (nv : string * string) : string := "--" +:+ nv.1 +:+ "=" +:+ nv.2.
(** Names a flag can have: no dash or equals sign first, no equals sign. *)
Definition flag_name (name : string) : bool := negb (bad_body name) && negb (contains_byte "=" name).

Lemma shape_flag_arg name v : flag_name name = true -> shape_of (flag_arg (name, v)) = Flag (name +:+ "=" +:+ v).
Proof.
  intros Hn. unfold flag_arg. simpl. destruct name as [|c name]; [done|]. rewrite !string_app_cons, string_app_nil_l. reflexivity.
Qed.
Lemma split_flag_arg name v : flag_name name = true -> split_flag (name +:+ "=" +:+ v) = (name, Some v).
Proof.
  unfold flag_name. intros [Hb Hc]%andb_true_iff. go_bool. destruct name as [|c name]; [done|]. rewrite string_app_cons. simpl.
  simpl in Hc. apply orb_false_iff in Hc as [_ Hc].
  change (name +:+ "=" +:+ v) with (name +:+ String "=" v). by rewrite cut_found.
Qed.

(** Flags given as [--name=value], each defined and valid, are all stored, the
    last one of a name wins, and what follows them is left. *)
Lemma parse_flag_args {X} (ParseFloat : string -> X + num_error) formal nvs vs rest :
  Forall (fun nv => flag_name nv.1 = true /\ exists k, formal !! nv.1 = Some k /\ set_error ParseFloat k nv.2 = None) nvs ->
  parse_args ParseFloat formal (map flag_arg nvs ++ rest) vs =
  parse_args ParseFloat formal rest (foldl (fun vs nv => <[nv.1 := nv.2]> vs) vs nvs).
Proof.
  intros Hnv. revert vs. induction Hnv as [|[name v] nvs (Hn & k & Hk & Hv) _ IH]; intros vs; [done|].
  cbn [map app parse_args foldl fst snd] in *. rewrite shape_flag_arg by done.
  assert (Hb : bad_body (name +:+ "=" +:+ v) = false).
  { unfold flag_name in Hn. apply andb_true_iff in Hn as [Hn _]. go_bool. by destruct name. }
  rewrite Hb, split_flag_arg by done. rewrite Hk.
  assert (Hs : set_flag ParseFloat name v k vs = Ok (<[name := v]> vs)) by (unfold set_flag; by rewrite Hv).
  destruct k; cbn [default from_option id]; rewrite Hs; apply IH.
Qed.
