(* ===== verification/Config.v ===== *)
(** The configuration of hopboxd ([internal/config/config.go]): its flags, their
    defaults, and the record they are parsed into.  [goarch] is
    [runtime.GOARCH]. *)
From stdpp Require Import base option list strings gmap.
From Stdlib Require Import Ascii ZArith Lia Floats.SpecFloat.
From S2P Require Import Prelude GoStrings GoTime GoFlag.
Local Open Scope string_scope.
Local Open Scope list_scope.
Local Open Scope Z_scope.

Record Config : Type := mkConfig {
  cg_APIAddr : string;
  cg_AgentListen : string;
  cg_AgentAdvertise : string;
  cg_DBPath : string;
  cg_AgentBin : string;
  cg_Tenant : string;
  cg_Owner : string;
  cg_UsersFile : string;
  cg_SSHCAPath : string;
  cg_SSHCAPubFile : string;
  cg_AuthorizedKeysFile : string;
  cg_OIDCIssuer : string;
  cg_OIDCAudience : string;
  cg_OIDCPrincipalClaim : string;
  cg_OIDCAdminGroups : string;
  cg_AgentImageRef : string;
  cg_AgentBinaryPath : string;
  cg_AgentTargetPath : string;
  cg_ComputeKind : string;
  cg_ComputeTransport : string;
  cg_ComputeRemote : string;
  cg_ComputeNetwork : string;
  cg_FCBin : string;
  cg_FCKernel : string;
  cg_FCImagesDir : string;
  cg_FCRunDir : string;
  cg_FCBridge : string;
  cg_FCSubnet : string;
  cg_HomeSizeMB : Z;
  cg_StorageKind : string;
  cg_StorageTransport : string;
  cg_StorageRemote : string;
  cg_KubeNamespace : string;
  cg_Kubeconfig : string;
  cg_KubeStorageClass : string;
  cg_KubeHomeSize : string;
  cg_GatewayAddr : string;
  cg_GatewayZone : string;
  cg_TunnelAddr : string;
  cg_EventsKind : string;
  cg_NATSURL : string;
  cg_SSHAddr : string;
  cg_SSHHostKeyPath : string;
  cg_SSHDefaultImage : string;
  cg_SSHDefaultMemMB : Z;
  cg_SSHDefaultCPUs : spec_float;
  cg_AccountsFile : string;
  cg_MetaAddr : string;
  cg_GuestBin : string
}.

(** * The flags *)
Definition string_flags : list string :=
  ["api-addr"; "agent-listen"; "agent-advertise"; "db"; "agent-bin"; "tenant"; "owner"; "users"; "ssh-ca";
   "ssh-ca-pub"; "oidc-issuer"; "oidc-audience"; "oidc-principal-claim"; "oidc-admin-groups"; "authorized-keys";
   "agent-image"; "agent-binary-path"; "agent-target-path"; "compute"; "fc-bin"; "fc-kernel"; "fc-images-dir";
   "fc-rundir"; "fc-bridge"; "fc-subnet"; "compute-network"; "compute-transport"; "compute-remote"; "storage";
   "storage-transport"; "storage-remote"; "kube-namespace"; "kubeconfig"; "kube-storageclass"; "kube-home-size";
   "gateway-addr"; "gateway-zone"; "tunnel-addr"; "events"; "nats-url"; "ssh-addr"; "ssh-host-key";
   "ssh-default-image"; "accounts"; "meta-addr"; "guest-bin"]%string.
Definition int_flags : list string := ["home-size-mb"; "ssh-default-mem-mb"]%string.
Definition float_flags : list string := ["ssh-default-cpus"]%string.
Definition formal : gmap string kind :=
  list_to_map (map (fun n => (n, KString)) string_flags ++ map (fun n => (n, KInt64)) int_flags ++
               map (fun n => (n, KFloat64)) float_flags).

(** [float64(2)] *)
Definition f64_2 : spec_float := S754_finite false 4503599627370496 (-51).

Section parse.
Variable ParseFloat : string -> spec_float + num_error.
Variable goarch : string.

(** The configuration of the values given, with the defaults of the others. *)
Definition config_of (vs : Values) : Config :=
  let str n def := default def (vs !! n) in
  let int n (def : Z) := match vs !! n with Some v => match ParseInt0 v with inl z => z | inr _ => def end | None => def end in
  let flt n def := match vs !! n with Some v => match ParseFloat v with inl x => x | inr _ => def end | None => def end in
  mkConfig
    (str "api-addr" ":7700")
    (str "agent-listen" ":7777")
    (str "agent-advertise" "host.docker.internal:7777")
    (str "db" "./hopbox.db")
    (str "agent-bin" ("./bin/hopbox-agent-linux-" +:+ goarch))
    (str "tenant" "default")
    (str "owner" "dev")
    (str "users" "")
    (str "ssh-ca" "./hopbox-ssh-ca")
    (str "ssh-ca-pub" "")
    (str "authorized-keys" "")
    (str "oidc-issuer" "")
    (str "oidc-audience" "")
    (str "oidc-principal-claim" "sub")
    (str "oidc-admin-groups" "")
    (str "agent-image" "")
    (str "agent-binary-path" "/hopbox-agent")
    (str "agent-target-path" "/hopbox/hopbox-agent")
    (str "compute" "docker")
    (str "compute-transport" "inproc")
    (str "compute-remote" "")
    (str "compute-network" "")
    (str "fc-bin" "/usr/local/bin/firecracker")
    (str "fc-kernel" "/opt/hopbox-microvm/vmlinux")
    (str "fc-images-dir" "/opt/hopbox-microvm/images")
    (str "fc-rundir" "/var/lib/hopbox/microvm")
    (str "fc-bridge" "")
    (str "fc-subnet" "")
    (int "home-size-mb" 2048)
    (str "storage" "localfs")
    (str "storage-transport" "inproc")
    (str "storage-remote" "")
    (str "kube-namespace" "hopbox-workspaces")
    (str "kubeconfig" "")
    (str "kube-storageclass" "")
    (str "kube-home-size" "1Gi")
    (str "gateway-addr" ":8088")
    (str "gateway-zone" "gw.example.com")
    (str "tunnel-addr" ":7701")
    (str "events" "inproc")
    (str "nats-url" "nats://127.0.0.1:4222")
    (str "ssh-addr" "")
    (str "ssh-host-key" "./hopbox-ssh-front-key")
    (str "ssh-default-image" "alpine")
    (int "ssh-default-mem-mb" 2048)
    (flt "ssh-default-cpus" f64_2)
    (str "accounts" "")
    (str "meta-addr" "")
    (str "guest-bin" "").

Definition Parse (args : list string) : result Config :=
  '(vs, _) ← parse_args ParseFloat formal args ∅;
  Ok (config_of vs).

(** Flags given as [--name=value] set what they name, the last one of a name
    winning; all others keep their defaults. *)
Theorem Parse_flags nvs :
  Forall (fun nv => flag_name nv.1 = true /\ exists k, formal !! nv.1 = Some k /\ set_error ParseFloat k nv.2 = None) nvs ->
  Parse (map flag_arg nvs) = Ok (config_of (foldl (fun vs nv => <[nv.1 := nv.2]> vs) ∅ nvs)).
Proof.
  intros Hn. unfold Parse. rewrite <- (app_nil_r (map flag_arg nvs)), parse_flag_args by done. reflexivity.
Qed.
End parse.

Definition no_float (s : string) : spec_float + num_error := inr ErrSyntax.
Example zone_and_size :
  match Parse no_float "amd64" ["--gateway-zone=gw.test"; "-home-size-mb"; "0x1000"; "--"; "-x"] with
  | Ok c => (cg_GatewayZone c, cg_HomeSizeMB c, cg_AgentBin c) = ("gw.test", 4096, "./bin/hopbox-agent-linux-amd64")
  | Err _ => False
  end.
Proof. vm_compute. reflexivity. Qed.
Example bad_size : Parse no_float "amd64" ["-home-size-mb=2_"] =
  Err (Errorf ("invalid value " +:+ quote "2_" +:+ " for flag -home-size-mb: parse error")).
Proof. vm_compute. reflexivity. Qed.
