(* ===== verification/Daemon.v ===== *)
(** How the daemons put their parts together ([cmd/boxd], [cmd/hopboxd]): the
    addresses boxes are given, the compute backend and storage chosen and the
    host ports its fence leaves open, the SSH CA workspaces trust, and who may
    call the API.

    [has_docker] and [has_firecracker] are the build tags.  Files are read by
    the argument [read]; opening a file to scan it yields its contents and the
    error that cut them short, if any. *)
From stdpp Require Import base option list strings gmap.
From Stdlib Require Import Ascii ZArith Lia Floats.SpecFloat.
From S2P Require Import Prelude GoStrings GoTime GoNet GoPath GoFlag Config Box Ports Engine Reconcile Boxd Providers Sshca Agentssh Api Docker Microvm Kubernetes Sshfront.
Local Open Scope Z_scope.

(** [int64(cpus * 1000)] *)
Definition cpu_millis (cpus : float64) : Z := f64_to_int (f64_mul cpus (f64_of_Z 1000)).

(** * Compute backends *)
Inductive Backend : Type :=
| BDocker (p : DProvider)
| BMicrovm (bin kernel imagesDir runDir : string) (allow : list string) (net : NetConfig).

(** The host ports a backend's fence leaves open to boxes; no fence on Docker's
    default bridge. *)
Definition host_ports (b : Backend) : option (list string) :=
  match b with
  | BDocker p => if bool_decide (dp_network p = ""%string) then None else Some (docker_ports p)
  | BMicrovm _ _ _ _ allow _ => Some allow
  end.
Definition fence_of (b : Backend) (ports : list string) : list (list string) :=
  match b with BDocker _ => (fenceRules ports).1 | BMicrovm _ _ _ _ _ _ => (vmFenceRules ports).1 end.

(** The port of an address, if it has one. *)
Definition port_in (addr : string) : list string :=
  match SplitHostPort addr with
  | Ok (_, p) => if bool_decide (p = ""%string) then [] else [p]
  | Err _ => []
  end.

Section builds.
Variables has_docker has_firecracker : bool.

(** ** boxd *)
Record boxd_cfg : Type := mkBoxdCfg {
  bc_sshAddr : string;
  bc_agentListen : string;
  bc_advertise : string;
  bc_agentBin : string;
  bc_hostKeyPath : string;
  bc_image : string;
  bc_cpus : float64;
  bc_memMB : Z;
  bc_db : string;
  bc_metaAddr : string;
  bc_guestBin : string;
  bc_compute : string;
  bc_fcBin : string;
  bc_fcKernel : string;
  bc_fcImagesDir : string;
  bc_fcRunDir : string;
  bc_fcBridge : string;
  bc_fcSubnet : string;
  bc_autoSuspend : bool;
  bc_idleTimeout : duration;
  bc_grace : duration;
  bc_mcpAddr : string;
  bc_surfaceAddr : string;
  bc_surfaceURL : string
}.

Definition boxd_formal : gmap string kind := list_to_map
  [("ssh-addr", KString); ("agent-listen", KString); ("advertise", KString); ("agent-bin", KString);
   ("host-key", KString); ("default-image", KString); ("default-cpus", KFloat64); ("default-mem-mb", KInt64);
   ("db", KString); ("meta-addr", KString); ("guest-bin", KString); ("compute", KString); ("fc-bin", KString);
   ("fc-kernel", KString); ("fc-images-dir", KString); ("fc-rundir", KString); ("fc-bridge", KString);
   ("fc-subnet", KString); ("auto-suspend", KBool); ("idle-timeout", KDuration); ("grace", KDuration);
   ("mcp-addr", KString); ("surface-addr", KString); ("surface-url", KString)]%string.
Section flags.
Variable ParseFloat : string -> float64 + num_error.
(** The configuration of the flag values given. *)
Definition boxd_config_of (vs : Values) : boxd_cfg :=
  let str n def := default def (vs !! n) in
  let int n (def : Z) := match vs !! n with Some v => match ParseInt0 v with inl z => z | inr _ => def end | None => def end in
  let flt n def := match vs !! n with Some v => match ParseFloat v with inl x => x | inr _ => def end | None => def end in
  let bln n def := match vs !! n with Some v => default def (ParseBool v) | None => def end in
  let dur n def := match vs !! n with Some v => match ParseDuration v with Ok x => x | Err _ => def end | None => def end in
  mkBoxdCfg
    (str "ssh-addr"%string ":2222"%string)
    (str "agent-listen"%string ":7777"%string)
    (str "advertise"%string ""%string)
    (str "agent-bin"%string ""%string)
    (str "host-key"%string "./boxd-ssh-host-key"%string)
    (str "default-image"%string "alpine"%string)
    (flt "default-cpus"%string f64_2)
    (int "default-mem-mb"%string 2048)
    (str "db"%string "./boxd.db"%string)
    (str "meta-addr"%string ":8090"%string)
    (str "guest-bin"%string ""%string)
    (str "compute"%string "docker"%string)
    (str "fc-bin"%string "/usr/local/bin/firecracker"%string)
    (str "fc-kernel"%string "/opt/hopbox-microvm/vmlinux"%string)
    (str "fc-images-dir"%string "/opt/hopbox-microvm/images"%string)
    (str "fc-rundir"%string "/var/lib/hopbox/microvm"%string)
    (str "fc-bridge"%string ""%string)
    (str "fc-subnet"%string ""%string)
    (bln "auto-suspend"%string false)
    (dur "idle-timeout"%string (5 * Minute))
    (dur "grace"%string (2 * Minute))
    (str "mcp-addr"%string ""%string)
    (str "surface-addr"%string ""%string)
    (str "surface-url"%string ""%string).
(** The command line of boxd. *)
Definition boxd_flags (args : list string) : result boxd_cfg :=
  '(vs, _) ← parse_args ParseFloat boxd_formal args ∅;
  Ok (boxd_config_of vs).
End flags.

Definition gatewayHost (c : boxd_cfg) : string :=
  if bool_decide (bc_compute c = "microvm"%string)
  then (if bool_decide (bc_fcSubnet c = ""%string) then "10.0.0" else bc_fcSubnet c) +:+ ".1"
  else "host.docker.internal".
Definition boxd_advertise (c : boxd_cfg) : string :=
  if bool_decide (bc_advertise c = ""%string)
  then JoinHostPort (gatewayHost c) (portOf (bc_agentListen c) "7777") else bc_advertise c.
Definition boxd_metaPort (c : boxd_cfg) : string := portOf (bc_metaAddr c) "8090".
Definition boxd_metaURL (c : boxd_cfg) : string := "http://" +:+ JoinHostPort (gatewayHost c) (boxd_metaPort c).

Definition boxd_newDocker (advertise metaPort : string) : result Backend :=
  if has_docker then Ok (BDocker (DockerNew advertise [WithNetwork "boxd-net"; WithMetaPort metaPort]))
  else Err (Errorf "boxd built without docker; rebuild with -tags docker").
Definition boxd_newMicrovm (c : boxd_cfg) (advertise metaPort : string) : result Backend :=
  if has_firecracker
  then Ok (BMicrovm (bc_fcBin c) (bc_fcKernel c) (bc_fcImagesDir c) (bc_fcRunDir c) (metaPort :: port_in advertise)
             (withDefaults (mkNetConfig (bc_fcBridge c) (bc_fcSubnet c) "" "")))
  else Err (Errorf "boxd built without microvm; rebuild with -tags firecracker").
Definition boxd_newCompute (c : boxd_cfg) (advertise metaPort : string) : result Backend :=
  if bool_decide (bc_compute c = "microvm"%string) then boxd_newMicrovm c advertise metaPort
  else if bool_decide (bc_compute c = "docker"%string) || bool_decide (bc_compute c = ""%string)
  then boxd_newDocker advertise metaPort
  else Err (Errorf ("unknown --compute " +:+ quote (bc_compute c) +:+ " (want docker|microvm)")).

Definition boxd_idle (c : boxd_cfg) : IdleConfig := mkIdleConfig (bc_idleTimeout c) (ic_LoadThreshold DefaultIdle).
Definition boxd_reconcile {S H} (c : boxd_cfg) : ReconcileConfig S H :=
  mkReconcileConfig (boxd_advertise c) (mkAgentImage "" "" "/hopbox/hopbox-agent" (bc_agentBin c)) (boxd_metaURL c)
    (bc_guestBin c) (boxd_idle c) 0 None true.
Definition boxd_engine (c : boxd_cfg) : EngineConfig :=
  mkEngineConfig engineTenant (bc_image c) ["docker"%string] "" (mkFlavor (cpu_millis (bc_cpus c)) (bc_memMB c))
    (Some (fun _ => bc_autoSuspend c)) (bc_grace c).
Definition boxd_surfaceURL (c : boxd_cfg) : string :=
  if bool_decide (bc_surfaceURL c = ""%string) && negb (bool_decide (bc_surfaceAddr c = ""%string))
  then "http://" +:+ bc_surfaceAddr c else bc_surfaceURL c.
(** The network and address of the control-plane listener, from [--mcp-addr]. *)
Definition mcp_listen (addr : string) : string * string :=
  match cut_prefix "unix:" addr with Some s => ("unix"%string, s) | None => ("tcp"%string, addr) end.

(** ** hopboxd *)
Definition hopboxd_newDocker (cfg : Config.Config) : result Backend :=
  if has_docker then Ok (BDocker (DockerNew (cg_AgentAdvertise cfg) [WithNetwork (cg_ComputeNetwork cfg)]))
  else Err (Errorf "hopboxd built without the docker backend; rebuild with -tags docker").
Definition hopboxd_newMicrovm (cfg : Config.Config) : result Backend :=
  if has_firecracker
  then Ok (BMicrovm (cg_FCBin cfg) (cg_FCKernel cfg) (cg_FCImagesDir cfg) (cg_FCRunDir cfg)
             (port_in (cg_AgentListen cfg) ++ port_in (cg_MetaAddr cfg))
             (withDefaults (mkNetConfig (cg_FCBridge cfg) (cg_FCSubnet cfg) "" "")))
  else Err (Errorf "hopboxd built without the microvm backend; rebuild with -tags firecracker").
Definition hopboxd_newCompute (cfg : Config.Config) : result Backend :=
  if bool_decide (cg_ComputeKind cfg = "microvm"%string) then hopboxd_newMicrovm cfg
  else if bool_decide (cg_ComputeKind cfg = "docker"%string) || bool_decide (cg_ComputeKind cfg = ""%string)
  then hopboxd_newDocker cfg
  else Err (Errorf ("unknown --compute " +:+ quote (cg_ComputeKind cfg) +:+ " (want docker|microvm|kubernetes)")).

(** [newStorage] *)
Definition hopboxd_storage (cfg : Config.Config) : LocalFS.Provider :=
  let root := Join [path_Dir (cg_DBPath cfg); "homes"%string] in
  if bool_decide (cg_ComputeKind cfg = "microvm"%string) then LocalFS.NewBlock root (cg_HomeSizeMB cfg) else LocalFS.New root.

Definition hopboxd_metaURL (cfg : Config.Config) : string :=
  if bool_decide (cg_MetaAddr cfg = ""%string) then ""
  else "http://" +:+ JoinHostPort (host_of (cg_AgentAdvertise cfg)) (portOf (cg_MetaAddr cfg) "8090").

Definition hopboxd_reconcile {S H} (cfg : Config.Config) (hooks : Hooks S H) : ReconcileConfig S H :=
  mkReconcileConfig (cg_AgentAdvertise cfg)
    (mkAgentImage (cg_AgentImageRef cfg) (cg_AgentBinaryPath cfg) (cg_AgentTargetPath cfg) (cg_AgentBin cfg))
    (hopboxd_metaURL cfg) (cg_GuestBin cfg) (mkIdleConfig 0 (S754_zero false)) 0 (Some hooks) false.
Definition hopboxd_engine (cfg : Config.Config) (persistentTier : option (string -> bool)) : EngineConfig :=
  mkEngineConfig (cg_Tenant cfg) (cg_SSHDefaultImage cfg) [cg_ComputeKind cfg] ""
    (mkFlavor (cpu_millis (cg_SSHDefaultCPUs cfg)) (cg_SSHDefaultMemMB cfg)) persistentTier 0.
End builds.

Fixpoint split_comma (parts : list string) : list string :=
  match parts with
  | [] => []
  | p :: ps => let p := trim_space p in if bool_decide (p = ""%string) then split_comma ps else p :: split_comma ps
  end.
Definition splitComma (s : string) : list string := split_comma (split "," s).

(** * Trust and access *)
Section access.
Variable read : string -> result string.

Definition loadAuthorizedKeys (env file : string) : string :=
  if negb (bool_decide (file = ""%string)) then match read file with Ok b => b | Err _ => "" end else env.

(** The CA workspaces trust, and the signer issuing certificates: an external
    CA's public key, or the daemon's own CA. *)
Definition ca_trust {K} (load_ca : string -> result K) (authorized_key : K -> string) (cfg : Config.Config) : result (option K * string) :=
  if negb (bool_decide (cg_SSHCAPubFile cfg = ""%string)) then
    match read (cg_SSHCAPubFile cfg) with
    | Err e => Err (ErrWrap "ssh-ca-pub" e)
    | Ok b => Ok (None, trim_space b)
    end
  else
    match load_ca (cg_SSHCAPath cfg) with
    | Err e => Err (ErrWrap "ssh ca" e)
    | Ok signer => Ok (Some signer, authorized_key signer)
    end.

(** ** Users *)

(** A line of the users file: the token and its principal. *)
Definition user_line (text : string) : option (string * string) :=
  let line := trim_space text in
  if bool_decide (line = ""%string) || has_prefix "#" line then None
  else match string_Fields line with tok :: id :: _ => Some (tok, id) | _ => None end.
Definition owner_principal (tenant id : string) : Principal := mkPrincipal id tenant "" ["owner"%string].

(** [loadUsers]; [open] is [os.Open].  A scan that fails keeps the users read
    so far. *)
Definition loadUsers (open : string -> result (string * option error)) (file tenant : string) : gmap string Principal :=
  if bool_decide (file = ""%string) then ∅
  else match open file with
  | Err _ => ∅
  | Ok (contents, cause) =>
      foldl (fun users line => match user_line line with
                               | Some (tok, id) => <[tok := owner_principal tenant id]> users
                               | None => users
                               end) ∅ (Account.scan_lines contents cause).1
  end.

(** ** The identity provider of the API *)
Inductive Idp : Type :=
| IdpNone
| IdpStatic (users : gmap string Principal)
| IdpOidc (cfg : Oidc.Config).

(** [newVerifier] is the outcome of [oidc.NewVerifier]. *)
Definition select_idp (newVerifier : result unit) (cfg : Config.Config) (users : gmap string Principal) : result Idp :=
  if negb (bool_decide (cg_OIDCIssuer cfg = ""%string)) then
    match newVerifier with
    | Err e => Err e
    | Ok _ => Ok (IdpOidc (Oidc.mkConfig (cg_Tenant cfg) (cg_OIDCPrincipalClaim cfg) (splitComma (cg_OIDCAdminGroups cfg))))
    end
  else if bool_decide (users = ∅) then Ok IdpNone else Ok (IdpStatic users).

(** A call of the gRPC server: with an identity provider the interceptor goes
    before the handler. *)
Section serving.
Context {V W A : Type}.
Variable Verify : string -> M V Oidc.Claims.
Definition serve_call (idp : Idp) (handler : Context -> M W A) (ctx : Context) : M (V * W) A :=
  match idp with
  | IdpNone => zoom snd (fun w s => (s.1, w)) (handler ctx)
  | IdpStatic users => fun s =>
      let '((_, w), r) := @AuthInterceptor _ _ _ Static.static_identity handler ctx (users, s.2) in ((s.1, w), r)
  | IdpOidc c => @AuthInterceptor _ _ _ (Oidc.oidc_identity Verify c) handler ctx
  end.
End serving.
End access.

(** * What the fences let through to the host *)
Lemma port_in_elem addr x : x ∈ port_in addr <-> port_in addr = [x].
Proof.
  unfold port_in. destruct (SplitHostPort addr) as [[h q]|]; [case_bool_decide|]; split; intros Hx; try done;
    rewrite ?list_elem_of_singleton in *; set_solver || congruence.
Qed.

Lemma DockerNew_agentPort adv opts :
  Forall (fun o => forall p, dp_agentPort (o p) = dp_agentPort p) opts ->
  dp_agentPort (DockerNew adv opts) = portOf adv "7777".
Proof.
  intros Ho. unfold DockerNew, portOf. set (p0 := match SplitHostPort adv with Ok _ => _ | Err _ => _ end).
  assert (Hp0 : dp_agentPort p0 = match SplitHostPort adv with Ok (_, p) => if bool_decide (p = ""%string) then "7777"%string else p | Err _ => "7777"%string end).
  { subst p0. destruct (SplitHostPort adv) as [[h q]|]; [by case_bool_decide|done]. }
  rewrite <- Hp0. clearbody p0. clear Hp0. revert p0. induction Ho as [|o opts Ho _ IH]; intros p0; [done|]. simpl. by rewrite IH, Ho.
Qed.

Lemma portOf_nonempty addr def : def <> ""%string -> portOf addr def <> ""%string.
Proof. unfold portOf. intros Hd. destruct (SplitHostPort addr) as [[h q]|]; [by case_bool_decide|done]. Qed.

(** The host ports a box may open connections to. *)
Definition boxd_open (c : boxd_cfg) : list string :=
  boxd_metaPort c ::
  (if bool_decide (bc_compute c = "microvm"%string) then port_in (boxd_advertise c) else [portOf (boxd_advertise c) "7777"]).
Definition hopboxd_open (cfg : Config.Config) : list string :=
  if bool_decide (cg_ComputeKind cfg = "microvm"%string) then port_in (cg_AgentListen cfg) ++ port_in (cg_MetaAddr cfg)
  else [portOf (cg_AgentAdvertise cfg) "7777"].

Lemma fence_verdict b ports k :
  Fence.pk_established k = false ->
  Fence.chain_verdict (fence_of b ports) k =
  if bool_decide (Fence.pk_proto k = "tcp"%string) && bool_decide (Fence.pk_dport k ∈ ports) then Fence.RETURN else Fence.DROP.
Proof. intros Hk. destruct b; by apply port_rules. Qed.

Lemma boxd_ports dt ft c b :
  boxd_newCompute dt ft c (boxd_advertise c) (boxd_metaPort c) = Ok b ->
  exists ports, host_ports b = Some ports /\ forall x, x ∈ ports <-> x ∈ boxd_open c.
Proof.
  unfold boxd_newCompute, boxd_open. case_bool_decide as Hc.
  - unfold boxd_newMicrovm. destruct ft; [|done]. intros [= <-]. by eexists.
  - destruct (_ || _); [|done]. unfold boxd_newDocker. destruct dt; [|done]. intros [= <-]. eexists. split; [done|].
    unfold docker_ports. rewrite DockerNew_agentPort by (repeat constructor). cbn [dp_metaPort DockerNew foldl WithMetaPort].
    rewrite bool_decide_eq_false_2 by (by apply portOf_nonempty). set_solver.
Qed.
Lemma hopboxd_ports dt ft cfg b :
  hopboxd_newCompute dt ft cfg = Ok b ->
  host_ports b = (if bool_decide (cg_ComputeKind cfg = "microvm"%string) || negb (bool_decide (cg_ComputeNetwork cfg = ""%string))
                  then Some (hopboxd_open cfg) else None).
Proof.
  unfold hopboxd_newCompute, hopboxd_open. case_bool_decide as Hc.
  - unfold hopboxd_newMicrovm. destruct ft; [|done]. by intros [= <-].
  - destruct (_ || _); [|done]. unfold hopboxd_newDocker. destruct dt; [|done]. intros [= <-]. cbn [host_ports].
    unfold docker_ports. rewrite DockerNew_agentPort by (repeat constructor).
    assert (Hm : dp_metaPort (DockerNew (cg_AgentAdvertise cfg) [WithNetwork (cg_ComputeNetwork cfg)]) = ""%string).
    { unfold DockerNew. cbn. destruct (SplitHostPort _) as [[h q]|]; [by case_bool_decide|done]. }
    rewrite Hm. cbn. by destruct (bool_decide (cg_ComputeNetwork cfg = ""%string)).
Qed.


(** Under hopboxd with Docker on its own network, the agent's port is the only
    one let through: the metadata address it hands to boxes ([hopboxd_metaURL])
    is cut off, unless both services share a port. *)
Theorem hopboxd_metadata_fenced dt ft cfg b k :
  hopboxd_newCompute dt ft cfg = Ok b ->
  cg_ComputeKind cfg = "docker"%string -> cg_ComputeNetwork cfg <> ""%string ->
  portOf (cg_MetaAddr cfg) "8090" <> portOf (cg_AgentAdvertise cfg) "7777" ->
  Fence.pk_established k = false -> Fence.pk_dport k = portOf (cg_MetaAddr cfg) "8090" ->
  exists ports, host_ports b = Some ports /\ Fence.chain_verdict (fence_of b ports) k = Fence.DROP.
Proof.
  intros Hb Hkind Hnet Hne Hk Hd. rewrite (hopboxd_ports _ _ _ _ Hb), Hkind.
  rewrite (bool_decide_eq_false_2 (cg_ComputeNetwork cfg = _)) by done. simpl. eexists. split; [done|].
  rewrite fence_verdict by done. unfold hopboxd_open. rewrite Hkind. simpl.
  rewrite (bool_decide_eq_false_2 (Fence.pk_dport k ∈ _)); [by rewrite andb_false_r|]. rewrite Hd. set_solver.
Qed.

(** * Who may call *)
Lemma fields_nonempty s : Forall (fun f => f <> ""%string) (string_Fields s).
Proof.
  unfold string_Fields. induction s as [|c s IH]; simpl; [constructor|]. destruct (is_space c); [done|].
  destruct s as [|d s]; [by repeat constructor|]. destruct (is_space d); [by constructor|].
  destruct (fields_func _ _); [by repeat constructor|]. inversion IH. by constructor.
Qed.

Section users.
Variable tenant : string.
Definition add_user (users : gmap string Principal) (line : string) : gmap string Principal :=
  match user_line line with
  | Some (tok, id) => <[tok := owner_principal tenant id]> users
  | None => users
  end.
(** The last registration of a token. *)
Definition registered (tok : string) (lines : list string) : option string :=
  snd <$> last (filter (fun r => r.1 = tok) (omap user_line lines)).

Lemma users_lookup lines users tok :
  foldl add_user users lines !! tok =
  match registered tok lines with Some id => Some (owner_principal tenant id) | None => users !! tok end.
Proof.
  revert users. induction lines as [|line lines IH] using rev_ind; intros users; [done|].
  rewrite foldl_app. simpl. unfold registered in *. rewrite omap_app, filter_app. simpl. unfold add_user at 1.
  destruct (user_line line) as [[t id]|]; simpl.
  - rewrite filter_cons, filter_nil. simpl. destruct (decide (t = tok)) as [->|Ht].
    + rewrite last_snoc. simpl. by rewrite lookup_insert_eq.
    + rewrite app_nil_r, lookup_insert_ne by done. apply IH.
  - rewrite app_nil_r. apply IH.
Qed.

Lemma registered_nonempty tok lines : tok = ""%string -> registered tok lines = None.
Proof.
  intros ->. unfold registered. destruct (last _) as [[t id]|] eqn:Hl; [|done]. exfalso.
  apply last_Some_elem_of, list_elem_of_filter in Hl as [Ht Hin]. simpl in Ht. subst t.
  apply list_elem_of_omap in Hin as (line & _ & Hu). unfold user_line in Hu. destruct (_ || _); [done|].
  pose proof (fields_nonempty (trim_space line)) as Hf. destruct (string_Fields _) as [|t [|i fs]]; [done..|].
  simplify_eq. by inversion Hf.
Qed.
End users.

Lemma static_call {V W A} (v : V) users (handler : Context -> M W A) ctx w :
  tokenFromCtx ctx <> ""%string ->
  (let '((_, w'), r) := @AuthInterceptor _ _ _ Static.static_identity handler ctx (users, w) in ((v, w'), r)) =
  match users !! tokenFromCtx ctx with
  | Some pr => let '(w', r) := handler (withPrincipal ctx pr) w in ((v, w'), r)
  | None => ((v, w), Err invalid_token)
  end.
Proof.
  intros Ht. unfold AuthInterceptor, authenticate. set (tok := tokenFromCtx ctx) in *. clearbody tok.
  rewrite (bool_decide_eq_false_2 (tok = ""%string)) by done.
  assert (Ha : forall u : gmap string Principal, Static.Authenticate (mkCredential "api-key" tok) u =
    (u, match u !! tok with Some pr => Ok pr | None => Err (Errorf "static: unknown api key") end)).
  { intros u. unfold Static.Authenticate. cbn [cr_Value cr_Scheme]. rewrite (bool_decide_eq_false_2 (tok = ""%string)) by done.
    rewrite (bool_decide_eq_true_2 ("api-key" = "api-key")%string) by done. cbn [negb]. rewrite andb_false_r.
    unfold gets, mbind, M_bind. cbv beta iota. destruct (u !! tok); reflexivity. }
  unfold zoom, mbind, M_bind, try. cbn [fst snd id_Authenticate Static.static_identity]. rewrite Ha.
  destruct (users !! tok) as [pr|]; cbn; [|done]. by destruct (handler _ w) as [w' r].
Qed.

(** C32. The users file decides who may call.  When the daemon authenticates with
    a users file that names at least one user, a call is handled exactly when it
    carries a registered token, and then as the principal of the last line
    registering it, an owner of the daemon's tenant; any other call is refused
    as unauthenticated and touches nothing.  A file that cannot be opened, or
    whose readable lines register nobody, leaves the API open: every call is
    handled, as the daemon's default owner. *)
Theorem users_file_guards {V W A} Verify open cfg idp (handler : Context -> M W A) ctx (s : V * W) :
  cg_OIDCIssuer cfg = ""%string ->
  select_idp (Ok tt) cfg (loadUsers open (cg_UsersFile cfg) (cg_Tenant cfg)) = Ok idp ->
  let lines := match open (cg_UsersFile cfg) with
               | Ok (contents, cause) => if bool_decide (cg_UsersFile cfg = ""%string) then [] else (Account.scan_lines contents cause).1
               | Err _ => []
               end in
  let handled ctx' := let '(w, r) := handler ctx' s.2 in ((s.1, w), r) in
  serve_call Verify idp handler ctx s =
  if bool_decide (omap user_line lines = []) then handled ctx
  else match registered (tokenFromCtx ctx) lines with
       | Some id => handled (withPrincipal ctx (owner_principal (cg_Tenant cfg) id))
       | None => (s, Err (if bool_decide (tokenFromCtx ctx = ""%string) then missing_token else invalid_token))
       end.
Proof.
  intros Hoidc Hsel lines handled.
  assert (Hu : loadUsers open (cg_UsersFile cfg) (cg_Tenant cfg) = foldl (add_user (cg_Tenant cfg)) ∅ lines).
  { unfold loadUsers, lines. case_bool_decide; [by destruct (open _) as [[]|]|]. by destruct (open _) as [[]|]. }
  rewrite Hu in Hsel. set (users := foldl _ ∅ lines) in *. unfold select_idp in Hsel.
  rewrite (bool_decide_eq_true_2 (cg_OIDCIssuer cfg = _)) in Hsel by done. cbn [negb] in Hsel.
  assert (Hempty : users = ∅ <-> omap user_line lines = []).
  { split; intros He.
    - destruct (omap user_line lines) as [|[t id] l] eqn:Ho; [done|]. exfalso.
      pose proof (users_lookup (cg_Tenant cfg) lines ∅ t) as Hl. fold users in Hl. rewrite He, !lookup_empty in Hl.
      unfold registered in Hl. rewrite Ho, filter_cons in Hl. simpl in Hl. rewrite decide_True in Hl by done.
      destruct (filter _ l) as [|x l'] eqn:Hf; [done|]. rewrite last_cons_cons in Hl.
      by destruct (last (x :: l')) eqn:Hx; [|apply last_None in Hx].
    - apply map_eq. intros t. unfold users. rewrite users_lookup. unfold registered. by rewrite He. }
  case_bool_decide as Hl.
  - injection Hsel as <-. by rewrite bool_decide_eq_true_2 by by apply Hempty.
  - injection Hsel as <-. rewrite bool_decide_eq_false_2 by by rewrite <- Hempty.
    unfold serve_call. destruct s as [v w]. cbn [fst snd].
    case_bool_decide as Ht.
    + rewrite registered_nonempty by done. unfold AuthInterceptor, authenticate. rewrite bool_decide_eq_true_2 by done. reflexivity.
    + rewrite static_call by done. unfold users. rewrite users_lookup. destruct (registered _ lines) as [id|]; done.
Qed.

(** * Examples *)
Definition cfg0 : Config.Config :=
  config_of no_float "amd64" (list_to_map [("users", "users"); ("compute-network", "hopbox-net"); ("meta-addr", ":8090")]%string).
Definition line_feed : string := String (byte_of 10) EmptyString.
Definition users_text : string :=
  "# team" +:+ line_feed +:+ "t0k alice" +:+ line_feed +:+ "bob" +:+ line_feed +:+ "t0k  carol x" +:+ line_feed.
Definition users_at (file : string) : result (string * option error) :=
  if bool_decide (file = "users"%string) then Ok (users_text, None) else Err (Errorf "no such file").
Definition whoami (ctx : Context) : M unit string :=
  mret (match principalFromCtx ctx with Some pr => pp_ID pr | None => "the default owner"%string end).
Definition call_with (token : string) : Context :=
  mkContext (Some (fun k => if bool_decide (k = "authorization"%string) then ["Bearer " +:+ token] else [])) None.
Definition no_verifier (raw : string) : M unit Oidc.Claims := throw (Errorf "no issuer").
Definition idp0 : Idp := IdpStatic (loadUsers users_at "users" "default").

Lemma users_file_guards_witness :
  serve_call no_verifier idp0 whoami (call_with "t0k") (tt, tt) = ((tt, tt), Ok "carol"%string) /\
  serve_call no_verifier idp0 whoami (call_with "bob") (tt, tt) = ((tt, tt), Err invalid_token).
Proof.
  split.
  - rewrite (users_file_guards no_verifier users_at cfg0 idp0 whoami (call_with "t0k") (tt, tt) eq_refl ltac:(vm_compute; reflexivity)).
    vm_compute. reflexivity.
  - rewrite (users_file_guards no_verifier users_at cfg0 idp0 whoami (call_with "bob") (tt, tt) eq_refl ltac:(vm_compute; reflexivity)).
    vm_compute. reflexivity.
Defined.

(** A users file that cannot be opened leaves the API open. *)
Example unreadable_users_file_opens :
  select_idp (Ok tt) cfg0 (loadUsers (fun _ => Err (Errorf "permission denied")) "users" "default") = Ok IdpNone /\
  serve_call no_verifier IdpNone whoami (call_with "anything") (tt, tt) = ((tt, tt), Ok "the default owner"%string).
Proof. by split. Qed.

Definition boxd0 : boxd_cfg := boxd_config_of no_float ∅.
