(* ===== verification/Mains.v ===== *)
(** The small programs: the gateway's main and its self-signed certificate
    ([cmd/hopbox-gw], [internal/gateway/tls.go]), the modes of hopbox-mcp
    ([cmd/hopbox-mcp/main.go]) and of hopbox-provider, and the two byte bridges
    between standard input and output and a connection, [hopbox proxy] and
    [hopbox-mcp --connect].

    Each program's flags go through [GoFlag]; [flag.ExitOnError] ends the
    program where parsing fails, which is the error here.  A bridge is a step
    relation over what its two copies have moved: the theorems say that nothing
    is reordered or invented, and which end of which direction loses bytes. *)
From stdpp Require Import base option list strings gmap.
From Stdlib Require Import Ascii ZArith Lia.
From S2P Require Import Prelude GoStrings GoTime GoFlag Providers Gateway Cli Mcpclient.
Local Open Scope string_scope.
Local Open Scope list_scope.
Local Open Scope Z_scope.

(** None of these programs has a float flag. *)
Definition no_float (s : string) : unit + num_error := inr ErrSyntax.
Definition str_flag (vs : Values) (n def : string) : string := default def (vs !! n).
Definition bool_flag (vs : Values) (n : string) (def : bool) : bool :=
  match vs !! n with Some v => default def (ParseBool v) | None => def end.

(** * hopbox-gw *)
Record gw_cfg : Type := mkGwCfg {
  gw_listen : string;
  gw_tunnel : string;
  gw_tlsCert : string;
  gw_tlsKey : string;
  gw_selfSigned : bool;
  gw_zone : string;
  gw_redirect : string;
  gw_askAddr : string
}.
Definition gw_formal : gmap string kind := list_to_map
  [("listen", KString); ("tunnel", KString); ("tls-cert", KString); ("tls-key", KString); ("tls-self-signed", KBool);
   ("zone", KString); ("redirect-addr", KString); ("ask-addr", KString)].
Definition gw_config_of (vs : Values) : gw_cfg :=
  mkGwCfg (str_flag vs "listen" ":8088") (str_flag vs "tunnel" "localhost:7701") (str_flag vs "tls-cert" "")
    (str_flag vs "tls-key" "") (bool_flag vs "tls-self-signed" false) (str_flag vs "zone" "gw.example.com")
    (str_flag vs "redirect-addr" "") (str_flag vs "ask-addr" "").
Definition gw_flags (args : list string) : result gw_cfg :=
  '(vs, _) ← parse_args no_float gw_formal args ∅;
  Ok (gw_config_of vs).

(** The template of [SelfSignedCert]; keys, serial number and signature are the
    standard library's. *)
Record Certificate : Type := mkCertificate {
  ct_CommonName : string;
  ct_NotBefore : Z;
  ct_NotAfter : Z;
  ct_DNSNames : list string
}.
Definition SelfSignedCert (now : Z) (zone : string) : Certificate :=
  let zone := trim_prefix "." zone in
  mkCertificate ("*." +:+ zone) (now - Hour) (now + 365 * 24 * Hour) ["*." +:+ zone; zone].

(** How the gateway itself is served. *)
Inductive Serving : Type :=
| HTTPS (cert key : string)            (* from files *)
| HTTPSSelfSigned (cert : Certificate)
| HTTP.
Definition gw_serving (now : Z) (c : gw_cfg) : Serving :=
  if negb (bool_decide (gw_tlsCert c = "")) && negb (bool_decide (gw_tlsKey c = "")) then HTTPS (gw_tlsCert c) (gw_tlsKey c)
  else if gw_selfSigned c then HTTPSSelfSigned (SelfSignedCert now (gw_zone c))
  else HTTP.

(** What listens where: the on-demand-TLS question answers a status to a
    domain, the redirect a location to a host and request URI. *)
Inductive Service : Type :=
| Ask (answer : string -> Z)
| Redirect (location : string -> string -> string)
| Proxy (tunnel : string) (how : Serving).
Definition ask_status (zone domain : string) : Z := if ask zone domain then 200 else 403.
Definition gw_services (now : Z) (c : gw_cfg) : list (string * Service) :=
  (if bool_decide (gw_askAddr c = "") then [] else [(gw_askAddr c, Ask (ask_status (gw_zone c)))]) ++
  (if bool_decide (gw_redirect c = "") then [] else [(gw_redirect c, Redirect redirectToHTTPS)]) ++
  [(gw_listen c, Proxy (gw_tunnel c) (gw_serving now c))].
Definition gw_main (now : Z) (args : list string) : result (list (string * Service)) := gw_services now <$> gw_flags args.

(** ** Which hosts a certificate covers

    A TLS client's host name check: label by label, without regard to case, a
    star standing for the whole first label. *)
Fixpoint labels_match (pattern host : list string) : bool :=
  match pattern, host with
  | [], [] => true
  | p :: ps, h :: hs => EqualFold p h && labels_match ps hs
  | _, _ => false
  end.
Definition name_matches (pattern host : string) : bool :=
  match split "." pattern, split "." host with
  | p :: ps, h :: hs => (bool_decide (p = "*") || EqualFold p h) && labels_match ps hs
  | _, _ => false
  end.
Definition covers (c : Certificate) (host : string) : bool := existsb (fun p => name_matches p host) (ct_DNSNames c).

(** * hopbox-mcp *)
Inductive McpMode : Type :=
| PsMode (connect host : string) (once : bool)
| WatchMode (connect host uri : string)
| DemoMode (connect host : string)
| BridgeMode (network addr : string)
| ServeMode (host : string).
Definition ps_formal : gmap string kind := list_to_map [("connect", KString); ("host", KString); ("once", KBool)].
Definition watch_formal : gmap string kind := list_to_map [("connect", KString); ("host", KString)].
Definition mcp_formal : gmap string kind := list_to_map [("demo", KBool); ("host", KString); ("connect", KString)].
Definition front_door : string := "box.hopbox.dev".
Definition mcp_main (args : list string) : result McpMode :=
  match args with
  | "ps" :: rest =>
      '(vs, _) ← parse_args no_float ps_formal rest ∅;
      Ok (PsMode (str_flag vs "connect" "") (str_flag vs "host" front_door) (bool_flag vs "once" false))
  | "watch" :: rest =>
      '(vs, extra) ← parse_args no_float watch_formal rest ∅;
      Ok (WatchMode (str_flag vs "connect" "") (str_flag vs "host" front_door) (hd "" extra))
  | _ =>
      '(vs, _) ← parse_args no_float mcp_formal args ∅;
      let connect := str_flag vs "connect" "" in let host := str_flag vs "host" front_door in
      Ok (if bool_flag vs "demo" false then DemoMode connect host
          else if bool_decide (connect = "") then ServeMode host
          else BridgeMode (transport_addr connect).1 (transport_addr connect).2)
  end.

(** * hopbox-provider *)
Inductive Build : Type :=
| BuildDocker                 (* -tags docker *)
| BuildK8s                    (* -tags k8s *)
| BuildPlain.
Inductive Provided : Type :=
| DockerCompute (advertise : string)
| KubernetesCompute (kubeconfig namespace : string)
| LocalHomes (dir : string)
| KubernetesHomes (kubeconfig namespace class size : string)
| SubdomainIngress (zone : string).
Section provider_main.
Variable getenv : string -> string.
Definition kubeNamespace : string :=
  let ns := getenv "HOPBOX_K8S_NAMESPACE" in if bool_decide (ns = "") then "hopbox-workspaces" else ns.
Definition newCompute (b : Build) (advertise : string) : result Provided :=
  match b with
  | BuildDocker => Ok (DockerCompute advertise)
  | BuildK8s => Ok (KubernetesCompute (getenv "KUBECONFIG") kubeNamespace)
  | BuildPlain => Err (Errorf "hopbox-provider built without a compute provider; rebuild with -tags docker")
  end.
Definition newStorage (b : Build) : Provided :=
  match b with
  | BuildK8s => KubernetesHomes (getenv "KUBECONFIG") kubeNamespace (getenv "HOPBOX_K8S_STORAGECLASS") (getenv "HOPBOX_K8S_HOME_SIZE")
  | _ => LocalHomes "/var/lib/hopbox/homes"
  end.
Definition provider_formal : gmap string kind :=
  list_to_map [("listen", KString); ("serve", KString); ("advertise", KString); ("zone", KString)].
Definition provider_main (b : Build) (args : list string) : result (string * Provided) :=
  '(vs, _) ← parse_args no_float provider_formal args ∅;
  let addr := str_flag vs "listen" ":9090" in
  let serve := str_flag vs "serve" "compute" in
  p ← (if bool_decide (serve = "compute")
       then map_err (ErrWrap "hopbox-provider: compute") (newCompute b (str_flag vs "advertise" ""))
       else if bool_decide (serve = "storage") then Ok (newStorage b)
       else if bool_decide (serve = "ingress") then Ok (SubdomainIngress (Subdomain.New (str_flag vs "zone" "gw.example.com")).1)
       else Err (Errorf ("hopbox-provider: unknown --serve " +:+ quote serve)));
  Ok (addr, p).
End provider_main.

(** * The gateway's certificate *)
Lemma split_append c x s : split c (x +:+ String c s) = split c x ++ split c s.
Proof.
  induction x as [|a x IH]; rewrite ?string_app_cons; simpl; [by rewrite ascii_eqb_refl|].
  rewrite IH. destruct (ascii_eqb a c); [done|].
  destruct (split c x) as [|p ps] eqn:Hs; [by apply split_nonempty in Hs|done].
Qed.
Lemma split_length c x : (2 <=? length (split c x))%nat = contains_byte c x.
Proof.
  induction x as [|a x IH]; simpl; [done|]. pose proof (split_nonempty c x) as Hn.
  destruct (ascii_eqb a c); simpl.
  - by destruct (split c x).
  - rewrite <- IH. by destruct (split c x).
Qed.
Lemma labels_match_refl l : labels_match l l = true.
Proof. induction l as [|x l IH]; simpl; [done|]. rewrite IH, andb_true_r. unfold EqualFold. by rewrite bool_decide_eq_true_2. Qed.
Lemma labels_match_length p h : labels_match p h = true -> length p = length h.
Proof.
  revert h. induction p as [|x p IH]; intros [|y h]; simpl; try done. intros [_ Hm]%andb_true_iff. by rewrite (IH h).
Qed.
Lemma name_matches_length p h : name_matches p h = true -> length (split "." p) = length (split "." h).
Proof.
  unfold name_matches. destruct (split "." p) as [|a l], (split "." h) as [|b k]; try done.
  intros [_ Hm]%andb_true_iff. simpl. f_equal. by apply labels_match_length.
Qed.

(** The self-signed certificate of a zone covers the host of an endpoint,
    as the daemon's ingress names it, exactly when neither the endpoint's name
    nor the workspace's id has a dot; and the on-demand-TLS question says yes to
    every one of them. *)
Theorem self_signed_covers (now : Z) (zone ws name : string) :
  let host := Subdomain.host (Subdomain.New zone).1 ws name in
  covers (SelfSignedCert now zone) host = negb (contains_byte "." (name +:+ "-" +:+ ws)) /\
  ask_status zone host = 200.
Proof.
  intros host. split; [|unfold ask_status, host; by rewrite ask_covers].
  set (z := trim_prefix "." zone). set (x := name +:+ "-" +:+ ws).
  assert (Hhost : host = x +:+ String "." z).
  { unfold host, Subdomain.host, Subdomain.New, x, z. cbn [fst]. fold z. change (String "." z) with ("." +:+ z).
    by rewrite <- !string_app_assoc. }
  rewrite Hhost. unfold covers, SelfSignedCert. fold z. cbn [ct_DNSNames existsb].
  change ("*." +:+ z) with ("*" +:+ String "." z). rewrite orb_false_r.
  pose proof (split_nonempty "." x) as Hx.
  destruct (contains_byte "." x) eqn:Hdot; simpl.
  - pose proof (split_length "." x) as Hl. rewrite Hdot in Hl. apply Nat.leb_le in Hl.
    apply orb_false_iff. split; apply not_true_iff_false; intros Hm%name_matches_length;
      rewrite ?split_append, !length_app in Hm; simpl in Hm; lia.
  - apply orb_true_iff. left. unfold name_matches. rewrite (split_app "." x z Hdot), (split_app "." "*" z) by done.
    by rewrite labels_match_refl, bool_decide_eq_true_2.
Qed.

(** * The bridges *)

(** [hopbox proxy]: two goroutines and the main one, which returns with the
    first error of the channel they share; returning ends the process.  A read
    of standard input and a message of the stream are strings, empty ones
    among them. *)
Module Proxying.
Record State : Type := mkState {
  px_in : list string;          (* what standard input will still give *)
  px_down : list string;        (* the data of the messages still to come *)
  px_sent : list string;        (* data messages sent *)
  px_out : string;              (* written to standard output *)
  px_up : bool;                 (* the goroutine of standard input runs *)
  px_recv : bool;               (* the goroutine of the stream runs *)
  px_closed : bool;             (* CloseSend *)
  px_errc : list error;
  px_ret : option (result Z)
}.
Inductive label : Type :=
| LSend
| LSendFail (e : error)
| LStdinEnd (e : error)
| LRecv
| LWriteFail (e : error)
| LRecvEnd (e : error)
| LReturn.
Definition send (d : string) (sent : list string) : list string := if bool_decide (d = "") then sent else sent ++ [d].
Definition step (l : label) (s : State) : option State :=
  let '(mkState ins down sent out up recv closed errc ret) := s in
  match ret with
  | Some _ => None
  | None =>
      match l, up, recv, ins, down, errc with
      | LSend, true, _, d :: ins', _, _ => Some (mkState ins' down (send d sent) out up recv closed errc ret)
      | LSendFail e, true, _, d :: ins', _, _ =>
          if bool_decide (d = "") then None else Some (mkState ins' down sent out false recv closed (errc ++ [e]) ret)
      | LStdinEnd e, true, _, [], _, _ => Some (mkState [] down sent out false recv true (errc ++ [e]) ret)
      | LRecv, _, true, _, d :: down', _ => Some (mkState ins down' sent (out +:+ d) up recv closed errc ret)
      | LWriteFail e, _, true, _, d :: down', _ =>
          if bool_decide (d = "") then None else Some (mkState ins down' sent out up false closed (errc ++ [e]) ret)
      | LRecvEnd e, _, true, _, [], _ => Some (mkState ins [] sent out up false closed (errc ++ [e]) ret)
      | LReturn, _, _, _, _, e :: errc' => Some (mkState ins down sent out up recv closed errc' (Some (proxy_result e)))
      | _, _, _, _, _, _ => None
      end
  end.
Fixpoint run (ls : list label) (s : State) : option State :=
  match ls with [] => Some s | l :: ls' => s' ← step l s; run ls' s' end.
Definition start (ins down : list string) : State := mkState ins down [] "" true true false [] None.
Definition ends (l : label) : option error :=
  match l with LSendFail e | LStdinEnd e | LWriteFail e | LRecvEnd e => Some e | _ => None end.

(** What holds along a run from [start ins down]. *)
Record good (ins down : list string) (tr : list label) (s : State) : Prop := {
  g_sent : exists taken lost, ins = taken ++ lost ++ px_in s /\ px_sent s = foldl (fun l d => send d l) [] taken /\
             (lost = [] \/ px_up s = false);
  g_out : exists taken lost, down = taken ++ lost ++ px_down s /\ px_out s = join "" taken /\
             (lost = [] \/ px_recv s = false);
  g_errs : px_ret s = None -> px_errc s = omap ends tr;
  g_ret : forall r, px_ret s = Some r -> exists e, hd_error (omap ends tr) = Some e /\ r = proxy_result e;
  g_recv : px_recv s = true \/ (exists e, LWriteFail e ∈ tr) \/
           (exists e, LRecvEnd e ∈ tr) /\ px_out s = join "" down
}.

Lemma run_snoc tr l s : run (tr ++ [l]) s = run tr s ≫= step l.
Proof.
  revert s. induction tr as [|x tr IH]; intros s; simpl; [by destruct (step l s)|].
  destruct (step x s) as [s'|]; simpl; [apply IH|done].
Qed.
Lemma sends_app l d acc : foldl (fun l d => send d l) acc (l ++ [d]) = send d (foldl (fun l d => send d l) acc l).
Proof. by rewrite foldl_app. Qed.
Lemma ends_app tr l : omap ends (tr ++ [l]) = omap ends tr ++ omap ends [l].
Proof. apply omap_app. Qed.

(** How the stream's side ended is not changed by going on. *)
Lemma recv_later tr l down (recv : bool) out :
  recv = true \/ (exists e, LWriteFail e ∈ tr) \/ (exists e, LRecvEnd e ∈ tr) /\ out = join "" down ->
  recv = true \/ (exists e, LWriteFail e ∈ tr ++ [l]) \/ (exists e, LRecvEnd e ∈ tr ++ [l]) /\ out = join "" down.
Proof.
  intros [?|[[e He]|[[e He] ?]]]; [by left|right; left|right; right; split; [|done]];
    exists e; apply elem_of_app; by left.
Qed.
Lemma last_in {A} (tr : list A) (x : A) : x ∈ tr ++ [x].
Proof. apply elem_of_app. right. by left. Qed.
Lemma still_running (l : list string) : l = [] \/ true = false -> l = [].
Proof. by intros [->|?]. Qed.

Lemma good_step ins down tr l s s' : good ins down tr s -> step l s = Some s' -> good ins down (tr ++ [l]) s'.
Proof.
  intros [Hsent Hout Herrs Hret Hrecv] Hst.
  destruct s as [i d sent out up recv closed errc [r|]]; [done|]. simpl in *.
  specialize (Herrs eq_refl). destruct Hsent as (ti & li & Hi & Hs & Hli), Hout as (td & ld & Hd & Ho & Hld).
  destruct l; simpl in Hst; repeat case_match; simplify_eq/=; constructor; simpl.
  all: try (rewrite ends_app; simpl; rewrite ?app_nil_r; first [done|by intros _]).
  all: try (apply recv_later; exact Hrecv).
  all: try (by eexists _, _).
  all: try done.
  - apply still_running in Hli as ->. exists (ti ++ [s]), []. rewrite sends_app, <- app_assoc. by split_and!; [| |left].
  - exists ti, (li ++ [s]). rewrite <- app_assoc. by split_and!; [| |right].
  - exists ti, li. by split_and!; [| |right].
  - apply still_running in Hld as ->. exists (td ++ [s]), []. rewrite join_nil_snoc, <- app_assoc. by split_and!; [| |left].
  - by left.
  - exists td, (ld ++ [s]). rewrite <- app_assoc. by split_and!; [| |right].
  - right. left. eexists. apply last_in.
  - exists td, ld. by split_and!; [| |right].
  - apply still_running in Hld as ->. right. right. split; [eexists; apply last_in|by rewrite !app_nil_r].
  - intros r [= <-]. exists e. split; [|done]. rewrite ends_app. by destruct (omap ends tr); simplify_eq/=.
Qed.

Lemma good_start ins down : good ins down [] (start ins down).
Proof. constructor; simpl; try done; [by exists [], []; auto|by exists [], []; auto|by left]. Qed.
Lemma good_run ins down tr s : run tr (start ins down) = Some s -> good ins down tr s.
Proof.
  revert s. induction tr as [|l tr IH] using rev_ind; intros s Hr.
  - simpl in Hr. simplify_eq. apply good_start.
  - rewrite run_snoc in Hr. destruct (run tr _) as [s1|]; [|done]. by eapply good_step; [apply IH|].
Qed.
Lemma join_send d l : join "" (send d l) = join "" l +:+ d.
Proof. unfold send. case_bool_decide as Hd; [by rewrite Hd, string_app_nil_r|]. apply join_nil_snoc. Qed.
Lemma join_sends ds : join "" (foldl (fun l d => send d l) [] ds) = join "" ds.
Proof. induction ds as [|d ds IH] using rev_ind; [done|]. by rewrite sends_app, join_nil_snoc, join_send, IH. Qed.

(** C40. However its goroutines interleave, [hopbox proxy] sends a prefix of its
    standard input and writes a prefix of what the workspace sent, both in
    order; it returns with the first of its two directions to end, without an
    error when that was an end of file; and when the stream's direction came to
    its end without a write failing, everything the workspace sent was written. *)
Theorem proxy_moves (ins down : list string) (tr : list label) (s : State) :
  run tr (start ins down) = Some s ->
  (exists rest, join "" ins = join "" (px_sent s) +:+ rest) /\
  (exists rest, join "" down = px_out s +:+ rest) /\
  (forall r, px_ret s = Some r -> exists e, hd_error (omap ends tr) = Some e /\
     r = if errors_Is e io_EOF then Ok 0 else Err e) /\
  (px_recv s = false -> (forall e, LWriteFail e ∉ tr) -> px_out s = join "" down).
Proof.
  intros Hr. destruct (good_run _ _ _ _ Hr) as [(ti & li & -> & Hs & _) (td & ld & Hd & Ho & _) _ Hret Hrecv].
  split_and!.
  - exists (join "" (li ++ px_in s)). by rewrite join_nil_app, Hs, join_sends.
  - exists (join "" (ld ++ px_down s)). by rewrite Hd, join_nil_app, Ho.
  - exact Hret.
  - intros Hend Hno. destruct Hrecv as [?|[[e He]|[_ ?]]]; [congruence|by destruct (Hno e)|done].
Qed.
End Proxying.

(** [hopbox-mcp --connect]: the end of standard input closes the connection's
    write side, and the program lasts until the connection has given all. *)
Module Bridging.
Record State : Type := mkState {
  bg_in : list string;          (* not, or not yet, copied *)
  bg_down : list string;
  bg_got : string;              (* written to the connection *)
  bg_out : string;
  bg_up : bool;
  bg_done : bool
}.
Inductive label : Type :=
| LUp
| LUpFail                       (* a chunk the connection did not take *)
| LUpEnd                        (* end or failure of standard input *)
| LDown
| LDownFail
| LDownEnd.
Definition step (l : label) (s : State) : option State :=
  let '(mkState ins down got out up done) := s in
  if (done : bool) then None
  else match l, up, ins, down with
  | LUp, true, c :: ins', _ => Some (mkState ins' down (got +:+ c) out true false)
  | LUpFail, true, _ :: _, _ => Some (mkState ins down got out false false)
  | LUpEnd, true, _, _ => Some (mkState ins down got out false false)
  | LDown, _, _, c :: down' => Some (mkState ins down' got (out +:+ c) up false)
  | LDownFail, _, _, _ :: _ => Some (mkState ins down got out up true)
  | LDownEnd, _, _, [] => Some (mkState ins [] got out up true)
  | _, _, _, _ => None
  end.
Fixpoint run (ls : list label) (s : State) : option State :=
  match ls with [] => Some s | l :: ls' => s' ← step l s; run ls' s' end.
Definition start (ins down : list string) : State := mkState ins down "" "" true false.

Record good (tr : list label) (s s' : State) : Prop := {
  g_in : exists taken, bg_in s = taken ++ bg_in s' /\ bg_got s' = bg_got s +:+ join "" taken;
  g_down : exists taken, bg_down s = taken ++ bg_down s' /\ bg_out s' = bg_out s +:+ join "" taken;
  g_all : bg_done s' = true -> bg_done s = false -> LDownFail ∉ tr -> bg_down s' = []
}.
Lemma run_good tr s s' : run tr s = Some s' -> good tr s s'.
Proof.
  revert s. induction tr as [|l tr IH]; intros s Hr.
  { simpl in Hr. simplify_eq. constructor; [by exists []; rewrite string_app_nil_r|by exists []; rewrite string_app_nil_r|congruence]. }
  simpl in Hr. destruct (step l s) as [s1|] eqn:Hs; [|done]. specialize (IH s1 Hr) as [(ti & Hi & Hg) (td & Hd & Ho) Hall].
  destruct s as [i d got out up [|]]; [done|].
  assert (Hdone : bg_done s1 = true -> s' = s1) by (destruct tr, s1 as [? ? ? ? ? []]; simpl in Hr; by simplify_eq).
  destruct l; simpl in Hs; repeat case_match; simplify_eq/=; constructor; simpl; try (by eexists).
  all: try (intros Hd' _ Hno; by apply Hall; [| |intros Hin; apply Hno; right]).
  - exists (s :: ti). by rewrite join_nil_cons, Hg, string_app_assoc.
  - exists (s :: td). by rewrite join_nil_cons, Ho, string_app_assoc.
  - intros _ _ Hno. destruct Hno. by left.
  - intros _ _ _. by rewrite Hdone.
Qed.

(** However the two copies interleave, the connection gets a prefix of
    standard input and standard output a prefix of what the connection gave;
    and the program ends only when standard output failed or everything the
    connection gave is on it. *)
Theorem stdio_bridge_delivers (ins down : list string) (tr : list label) (s : State) :
  run tr (start ins down) = Some s ->
  (exists rest, join "" ins = bg_got s +:+ rest) /\ (exists rest, join "" down = bg_out s +:+ rest) /\
  (bg_done s = true -> LDownFail ∉ tr -> bg_out s = join "" down).
Proof.
  intros [(ti & Hi & Hg) (td & Hd & Ho) Hall]%run_good. simpl in *. rewrite string_app_nil_l in Hg, Ho. split_and!.
  - exists (join "" (bg_in s)). by rewrite Hi, join_nil_app, Hg.
  - exists (join "" (bg_down s)). by rewrite Hd, join_nil_app, Ho.
  - intros Hdone Hno. rewrite (Hall Hdone eq_refl Hno), app_nil_r in Hd. by rewrite Ho, Hd.
Qed.
End Bridging.

Lemma proxy_moves_witness :
  let tr := [Proxying.LSend; Proxying.LRecv; Proxying.LStdinEnd io_EOF; Proxying.LRecv; Proxying.LRecvEnd io_EOF; Proxying.LReturn] in
  exists s, Proxying.run tr (Proxying.start ["ls"] ["a"; "b"]) = Some s /\ Proxying.px_out s = "ab" /\ Proxying.px_ret s = Some (Ok 0).
Proof.
  eexists. split; [vm_compute; reflexivity|]. split; [|reflexivity].
  refine (proj2 (proj2 (proj2 (Proxying.proxy_moves ["ls"] ["a"; "b"]
    [Proxying.LSend; Proxying.LRecv; Proxying.LStdinEnd io_EOF; Proxying.LRecv; Proxying.LRecvEnd io_EOF; Proxying.LReturn] _ _))) _ _).
  - vm_compute. reflexivity.
  - reflexivity.
  - intros e He. repeat (apply elem_of_cons in He as [He|He]; [discriminate|]). by apply elem_of_nil in He.
Defined.
(** Input that ends first ends it: what the workspace still had to say is lost,
    without an error. *)
Example proxy_loses_answer :
  Proxying.run [Proxying.LSend; Proxying.LStdinEnd io_EOF; Proxying.LReturn] (Proxying.start ["ls"] ["a"; "b"])
  = Some (Proxying.mkState [] ["a"; "b"] ["ls"] "" false true true [] (Some (Ok 0))).
Proof. vm_compute. reflexivity. Qed.
Lemma stdio_bridge_delivers_witness :
  let tr := [Bridging.LUp; Bridging.LUpEnd; Bridging.LDown; Bridging.LDown; Bridging.LDownEnd] in
  exists s, Bridging.run tr (Bridging.start ["ls"] ["a"; "b"]) = Some s /\ Bridging.bg_out s = "ab".
Proof.
  eexists. split; [vm_compute; reflexivity|].
  refine (proj2 (proj2 (Bridging.stdio_bridge_delivers ["ls"] ["a"; "b"]
    [Bridging.LUp; Bridging.LUpEnd; Bridging.LDown; Bridging.LDown; Bridging.LDownEnd] _ _)) _ _).
  - vm_compute. reflexivity.
  - reflexivity.
  - intros He. repeat (apply elem_of_cons in He as [He|He]; [discriminate|]). by apply elem_of_nil in He.
Defined.

(** * Concrete command lines *)
Example gw_tls : option_map (map fst) (match gw_main 0 ["--listen"; ":443"; "--tls-cert=c.pem"; "--tls-key=k.pem"; "--ask-addr"; ":9"] with Ok l => Some l | Err _ => None end)
  = Some [":9"; ":443"].
Proof. vm_compute. reflexivity. Qed.
(** Half of the TLS configuration is plain HTTP, on whatever port was meant for
    HTTPS. *)
Example gw_half_tls : gw_serving 0 <$> gw_flags ["--listen=:443"; "--tls-cert=c.pem"] = Ok HTTP.
Proof. vm_compute. reflexivity. Qed.
(** An approved and routed host the wildcard does not cover. *)
Example dotted_name :
  let host := Subdomain.host (Subdomain.New "gw.test").1 "0a1b" "v1.api" in
  ask_status "gw.test" host = 200 /\ covers (SelfSignedCert 0 "gw.test") host = false.
Proof. vm_compute. by split. Qed.
Example mcp_modes :
  mcp_main ["ps"; "-once"; "--connect"; "unix:/run/m"] = Ok (PsMode "unix:/run/m" front_door true) /\
  mcp_main ["--connect"; "unix:/run/m"; "ps"] = Ok (BridgeMode "unix" "/run/m") /\
  mcp_main ["watch"; "hopbox://surface/x/events"; "--connect"; "h:1"] = Ok (WatchMode "" front_door "hopbox://surface/x/events") /\
  mcp_main [] = Ok (ServeMode front_door).
Proof. vm_compute. by repeat split. Qed.
Example provider_modes :
  provider_main (fun _ => "") BuildK8s ["--serve=storage"] = Ok (":9090", KubernetesHomes "" "hopbox-workspaces" "" "") /\
  provider_main (fun _ => "") BuildPlain ["--serve=ingress"; "--zone=.gw.test"] = Ok (":9090", SubdomainIngress "gw.test") /\
  is_ok (provider_main (fun _ => "") BuildPlain []) = false.
Proof. vm_compute. by repeat split. Qed.
