(* ===== verification/Startup.v ===== *)
(** How the two daemons come up and go down: [run] of [cmd/boxd/main.go] and of
    [cmd/hopboxd/main.go].  Each effect of [run] is an action of a runtime
    ([Runtime]), which may fail; starting a goroutine cannot.  What the actions
    do is modelled where it belongs: [Boxd.resetSessions], [Reconcile.Drain],
    [Migrate], [Daemon] for the configuration they are given, and the component
    behind each service.  [log.Printf] and the panic of a Kubernetes build whose
    storage cannot be made are not modelled.

    The theorems read the sequence of actions, whatever fails: boxd serves
    nothing before it has cleared the stale sessions, drains exactly after its
    front door has served, and releases the backend before the store; hopboxd
    closes its bus and its store, and does neither of the other two. *)
From stdpp Require Import base option list strings gmap.
From Stdlib Require Import Ascii ZArith Lia.
From S2P Require Import Prelude GoStrings Boxd Config Daemon.
Local Open Scope string_scope.
Local Open Scope list_scope.

Inductive Service : Type :=
| SMetadata
| SReconciler
| SAgents
| SFront
| SSurfaces
| SMcp
| SGateway
| STunnel
| SApi.
Inductive Act : Type :=
| OpenStore (path : string)
| ResetSessions
| NewCompute
| NewStorage
| LoadCompute                   (* in process or dialled, by the transport *)
| LoadStorage
| ReadFile (path : string)
| LoadKey (path : string)       (* sshca.LoadOrCreateCA *)
| LoadAccounts (path : string)
| NewBus
| Subscribe
| Discover (issuer : string)    (* oidc.NewVerifier *)
| Remove (path : string)
| Listen (s : Service) (addr : string)
| Go (s : Service)
| Serve (s : Service)
| Drain (tenant : string)
| CloseCompute
| CloseBus
| CloseStore.
Class Runtime (W : Type) : Type := { rt_do : Act -> M W unit }.

(** [defer cleanup()] before the rest. *)
Definition deferring {W A} (cleanup : M W unit) (m : M W A) : M W A := fun w =>
  let '(w', r) := m w in ((cleanup w').1, r).

Section run.
Context {W : Type} `{Runtime W}.
Definition go (s : Service) : M W unit := ignore (rt_do (Go s)).
Definition given (s : string) (m : M W unit) : M W unit := if bool_decide (s = "") then mret tt else m.
Definition listen_go (s : Service) (addr : string) : M W unit := rt_do (Listen s addr) ;; go s.

(** The canvas and the control plane of boxd. *)
Definition boxd_mcp (c : boxd_cfg) : M W unit :=
  given (bc_mcpAddr c) (
    given (bc_surfaceAddr c) (listen_go SSurfaces (bc_surfaceAddr c)) ;;
    let '(network, a) := mcp_listen (bc_mcpAddr c) in
    (if bool_decide (network = "unix") then ignore (rt_do (Remove a)) else mret tt) ;;
    listen_go SMcp a).

(** [closer]: the backend has shared resources to release. *)
Definition boxd_run (closer : bool) (c : boxd_cfg) : M W unit :=
  rt_do (OpenStore (bc_db c)) ;;
  deferring (rt_do CloseStore) (
    ignore (rt_do ResetSessions) ;;
    go SMetadata ;;
    rt_do NewCompute ;;
    deferring (if closer then rt_do CloseCompute else mret tt) (
      go SReconciler ;;
      listen_go SAgents (bc_agentListen c) ;;
      rt_do (LoadKey (bc_hostKeyPath c)) ;;
      rt_do (Listen SFront (bc_sshAddr c)) ;;
      boxd_mcp c ;;
      err ← try (rt_do (Serve SFront));
      ignore (rt_do (Drain "default")) ;;
      of_result err)).

Definition hopboxd_run (cfg : Config.Config) : M W unit :=
  rt_do (OpenStore (cg_DBPath cfg)) ;;
  deferring (rt_do CloseStore) (
    inproc ← try (rt_do NewCompute);
    match inproc with
    | Err e => if negb (bool_decide (cg_ComputeTransport cfg = "remote")) then throw e else mret tt
    | Ok _ => mret tt
    end ;;
    rt_do LoadCompute ;;
    rt_do NewStorage ;;
    rt_do LoadStorage ;;
    (if negb (bool_decide (cg_SSHCAPubFile cfg = "")) then wrapping "ssh-ca-pub" (rt_do (ReadFile (cg_SSHCAPubFile cfg)))
     else wrapping "ssh ca" (rt_do (LoadKey (cg_SSHCAPath cfg)))) ;;
    given (cg_AccountsFile cfg) (wrapping "accounts" (rt_do (LoadAccounts (cg_AccountsFile cfg)))) ;;
    given (cg_AuthorizedKeysFile cfg) (ignore (rt_do (ReadFile (cg_AuthorizedKeysFile cfg)))) ;;
    given (cg_MetaAddr cfg) (wrapping ("metadata listen " +:+ cg_MetaAddr cfg) (rt_do (Listen SMetadata (cg_MetaAddr cfg))) ;; go SMetadata) ;;
    go SReconciler ;;
    rt_do NewBus ;;
    deferring (rt_do CloseBus) (
      wrapping "events subscribe" (rt_do Subscribe) ;;
      listen_go SAgents (cg_AgentListen cfg) ;;
      given (cg_SSHAddr cfg) (
        wrapping "ssh front-door host key" (rt_do (LoadKey (cg_SSHHostKeyPath cfg))) ;;
        listen_go SFront (cg_SSHAddr cfg)) ;;
      given (cg_GatewayAddr cfg) (listen_go SGateway (cg_GatewayAddr cfg)) ;;
      given (cg_TunnelAddr cfg) (listen_go STunnel (cg_TunnelAddr cfg)) ;;
      rt_do (Listen SApi (cg_APIAddr cfg)) ;;
      (if negb (bool_decide (cg_OIDCIssuer cfg = "")) then rt_do (Discover (cg_OIDCIssuer cfg))
       else given (cg_UsersFile cfg) (ignore (rt_do (ReadFile (cg_UsersFile cfg))))) ;;
      rt_do (Serve SApi))).
End run.

(** * The sequences of actions that may be *)

(** A runtime that remembers what was done, and whether it worked. *)
Notation Done := (Act * bool)%type.
#[export] Instance logged_runtime {W} `{Runtime W} : Runtime (W * list Done) := {|
  rt_do a := fun '(w, l) => let '(w', r) := rt_do a w in ((w', l ++ [(a, is_ok r)]), r)
|}.

Inductive Stage : Type :=
| Down
| Opened              (* the store is open *)
| Clean               (* no stale session *)
| Up                  (* with a backend (boxd) or a bus (hopboxd) *)
| Served
| Drained
| Released            (* the backend or the bus is closed *)
| Closed.
Definition setup (a : Act) : bool :=
  match a with
  | Listen _ _ | Go _ | LoadKey _ | Remove _ | ReadFile _ | Subscribe | Discover _ => true
  | _ => false
  end.
Definition boxd_stage (closer : bool) (s : Stage) (d : Done) : option Stage :=
  match s, d with
  | Down, (OpenStore _, ok) => Some (if ok then Opened else Down)
  | Opened, (ResetSessions, _) => Some Clean
  | Clean, (Go SMetadata, _) => Some Clean
  | Clean, (NewCompute, ok) => Some (if ok : bool then Up else Released)
  | Up, (Serve SFront, _) => Some Served
  | Served, (Drain _, _) => Some Drained
  | Up, (CloseCompute, _) | Drained, (CloseCompute, _) => if closer then Some Released else None
  | Up, (CloseStore, _) | Drained, (CloseStore, _) => if closer then None else Some Closed
  | Released, (CloseStore, _) => Some Closed
  | Up, (a, _) => if setup a then Some Up else None
  | _, _ => None
  end.
Definition hopboxd_stage (s : Stage) (d : Done) : option Stage :=
  match s, d with
  | Down, (OpenStore _, ok) => Some (if ok then Opened else Down)
  | Opened, (NewBus, ok) => Some (if ok : bool then Up else Released)
  | Opened, (NewCompute, _) | Opened, (NewStorage, _) | Opened, (LoadCompute, _) | Opened, (LoadStorage, _)
  | Opened, (LoadAccounts _, _) => Some Opened
  | Opened, (CloseStore, _) => Some Closed
  | Up, (Serve SApi, _) => Some Served
  | Up, (CloseBus, _) | Served, (CloseBus, _) => Some Released
  | Released, (CloseStore, _) => Some Closed
  | Opened, (a, _) => if setup a then Some Opened else None
  | Up, (a, _) => if setup a then Some Up else None
  | _, _ => None
  end.
Definition reached (next : Stage -> Done -> option Stage) (l : list Done) : option Stage :=
  foldl (fun s d => s ≫= fun s => next s d) (Some Down) l.

(** * Lemmas *)
Section logged.
Context {W : Type} `{Runtime W}.
Variable next : Stage -> Done -> option Stage.
Notation L := (W * list Done)%type.

(** The stage a run is in, by what it has done. *)
Definition at_stage (s : Stage) (w : L) : Prop := reached next w.2 = Some s.
Lemma reached_snoc l d : reached next (l ++ [d]) = reached next l ≫= fun s => next s d.
Proof. unfold reached. by rewrite foldl_app. Qed.

(** What stays in a stage it is in. *)
Definition stays (s : Stage) (w w' : L) : Prop := at_stage s w -> at_stage s w'.
#[local] Instance stays_preorder s : PreOrder (stays s).
Proof. split; [intros w Hs; exact Hs|]. intros w1 w2 w3 H1 H2 Hs. by apply H2, H1. Qed.

Lemma act_log a (Q : L -> result unit -> Prop) w :
  (forall w' r, w'.2 = w.2 ++ [(a, is_ok r)] -> Q w' r) -> wp (rt_do (W := L) a) Q w.
Proof. intros HQ. destruct w as [w l]. unfold wp, rt_do. simpl. destruct (rt_do a w) as [w' r]. by apply HQ. Qed.
Lemma act_wp a s (Q : L -> result unit -> Prop) w :
  at_stage s w ->
  (forall w' r, (forall s', next s (a, is_ok r) = Some s' -> at_stage s' w') -> Q w' r) -> wp (rt_do (W := L) a) Q w.
Proof.
  intros Hs HQ. apply act_log. intros w' r Hl. apply HQ. intros s' Hn. unfold at_stage in *. by rewrite Hl, reached_snoc, Hs.
Qed.
Lemma act_stays a s : (forall ok, next s (a, ok) = Some s) -> moves (stays s) (rt_do (W := L) a).
Proof.
  intros Hn w. apply wp_intro. intros w' r Hr Hs. apply (wp_elim _ (fun w' _ => at_stage s w') _ _ _) in Hr; [done|].
  apply (act_wp a s); [done|]. intros w2 r2 H2. by apply H2.
Qed.
Lemma go_stays x s : (forall ok, next s (Go x, ok) = Some s) -> moves (stays s) (go (W := L) x).
Proof. intros Hn. apply moves_ignore, act_stays. exact Hn. Qed.
Lemma given_stays s x (m : M L unit) : moves (stays s) m -> moves (stays s) (given x m).
Proof. intros Hm. unfold given. case_bool_decide; [apply moves_ret, _|done]. Qed.
Lemma listen_go_stays s x addr :
  (forall ok, next s (Listen x addr, ok) = Some s) -> (forall ok, next s (Go x, ok) = Some s) -> moves (stays s) (listen_go (W := L) x addr).
Proof. intros H1 H2. apply moves_bind; [apply _|by apply act_stays|]. intros _. by apply go_stays. Qed.

Lemma go_wp x s (Q : L -> result unit -> Prop) w :
  at_stage s w -> (forall ok, next s (Go x, ok) = Some s) -> (forall w', at_stage s w' -> Q w' (Ok tt)) -> wp (go (W := L) x) Q w.
Proof. intros Hs Hn HQ. apply wp_ignore, (act_wp _ s); [done|]. intros w' r Hr. by apply HQ, Hr. Qed.

(** A deferred action ends what it was deferred for. *)
Lemma deferring_wp {A} (cleanup : M L unit) (m : M L A) (Q : L -> result A -> Prop) w :
  wp m (fun w' r => wp cleanup (fun w2 _ => Q w2 r) w') w -> wp (deferring cleanup m) Q w.
Proof. unfold wp, deferring. destruct (m w) as [w' r]. by destruct (cleanup w') as [w2 r2]. Qed.
Lemma stays_wp {A} s (m : M L A) (Q : L -> result A -> Prop) w :
  at_stage s w -> moves (stays s) m -> (forall w' r, at_stage s w' -> Q w' r) -> wp m Q w.
Proof. intros Hs Hm HQ. eapply wp_mono; [apply Hm|]. intros w' r Hst. by apply HQ, Hst. Qed.
End logged.
#[local] Existing Instance stays_preorder.

(** What is between the actions that change the stage. *)
Ltac stays_go :=
  repeat first
    [ apply given_stays
    | apply listen_go_stays; [done|done]
    | apply go_stays; done
    | apply act_stays; done
    | moves_step ].


Lemma hopboxd_stage_only log s d :
  reached hopboxd_stage log = Some s -> d ∈ log -> d.1 <> ResetSessions /\ forall t, d.1 <> Drain t.
Proof.
  revert s. induction log as [|x log IH] using rev_ind; intros s Hs Hd; [by apply not_elem_of_nil in Hd|].
  rewrite reached_snoc in Hs. destruct (reached hopboxd_stage log) as [s0|]; [|done].
  apply elem_of_app in Hd as [Hd|Hd]; [by eapply IH|]. apply list_elem_of_singleton in Hd as ->.
  destruct x as [a ok]. simpl in Hs |- *. by destruct s0, a.
Qed.

(** However the actions of hopboxd's [run] turn out: when its store opens,
    everything up to the bus goes before it, the API serves only when
    everything before it worked, and the bus, if it was made, is closed before
    the store, which is closed last, exactly once.  No sequence clears the
    stale sessions or drains. *)
Theorem hopboxd_run_ordered {W} `{Runtime W} (cfg : Config.Config) (w : W) :
  let '((_, log), r) := hopboxd_run (W := W * list Done) cfg (w, []) in
  (reached hopboxd_stage log = Some Closed \/ log = [(OpenStore (cg_DBPath cfg), false)] /\ is_ok r = false) /\
  forall d, d ∈ log -> d.1 <> ResetSessions /\ forall t, d.1 <> Drain t.
Proof.
  set (next := hopboxd_stage).
  assert (Hwp : wp (hopboxd_run (W := W * list Done) cfg)
    (fun w' r => at_stage next Closed w' \/ w'.2 = [(OpenStore (cg_DBPath cfg), false)] /\ is_ok r = false) (w, [])).
  2: { unfold wp in Hwp. destruct (hopboxd_run cfg (w, [])) as [[w' log] r]. split; [exact Hwp|].
    intros d Hd. destruct Hwp as [Hc|[Hl _]]; [by eapply hopboxd_stage_only|].
    simpl in Hl. rewrite Hl in Hd. by apply list_elem_of_singleton in Hd as ->. }
  unfold hopboxd_run. apply wp_bind, act_log. intros w1 r1 Hl1. destruct r1 as [[]|e]; [|by right].
  assert (H1 : at_stage next Opened w1) by (unfold at_stage; by rewrite Hl1). clear Hl1.
  eapply (wp_mono _ (fun w' _ => at_stage next Closed w')); [|by left].
  apply deferring_wp.
  eapply (wp_mono _ (fun w' _ => exists s, (s = Opened \/ s = Released) /\ at_stage next s w')).
  2: { intros w5 _ (s & Hs & H5). apply (act_wp next CloseStore s); [done|]. intros w6 r6 H6. apply H6. by destruct Hs as [-> | ->]. }
  apply wp_bind, wp_try, (stays_wp next Opened); [done|by stays_go|]. intros w2 inproc H2.
  apply wp_bind, (stays_wp next Opened); [done|by destruct inproc; stays_go|]. intros w3 [[]|e] H3; [|by eauto].
  do 3 (apply wp_bind, (stays_wp next Opened); [done|by stays_go|]; clear w3 H3; intros w3 [[]|e] H3; [|by eauto]).
  do 5 (apply wp_bind, (stays_wp next Opened); [done|by stays_go|]; clear w3 H3; intros w3 [[]|e] H3; [|by eauto]).
  apply wp_bind, (act_wp next NewBus Opened); [done|]. intros w4 r4 H4.
  destruct r4 as [[]|e]; [specialize (H4 Up eq_refl)|exists Released; split; [by right|by apply H4]].
  apply deferring_wp.
  eapply (wp_mono _ (fun w' _ => exists s, (s = Up \/ s = Served) /\ at_stage next s w')).
  2: { intros w5 _ (s & Hs & H5). apply (act_wp next CloseBus s); [done|]. intros w6 r6 H6. exists Released.
    split; [by right|]. apply H6. by destruct Hs as [-> | ->]. }
  do 7 (apply wp_bind, (stays_wp next Up); [done|by stays_go|]; clear w4 H4; intros w4 [[]|e] H4; [|by eauto]).
  apply (act_wp next (Serve SApi) Up); [done|]. intros w5 r5 H5. exists Served. split; [by right|]. by apply H5.
Qed.

(** * Concrete runs *)

(** A machine on which some addresses are taken. *)
Definition taken_runtime (taken : list string) : Runtime unit := {|
  rt_do a w := (w, match a with Listen _ addr => if bool_decide (addr ∈ taken) then Err (Errorf "address already in use") else Ok tt | _ => Ok tt end)
|}.
Definition boxd1 : boxd_cfg := boxd_config_of no_float (list_to_map [("mcp-addr", "unix:/run/boxd.sock")]).
Example boxd_day :
  (map fst (boxd_run (H := logged_runtime (H := taken_runtime [])) true boxd1 (tt, [])).1.2) =
  [OpenStore "./boxd.db"; ResetSessions; Go SMetadata; NewCompute; Go SReconciler; Listen SAgents ":7777"; Go SAgents;
   LoadKey "./boxd-ssh-host-key"; Listen SFront ":2222"; Remove "/run/boxd.sock"; Listen SMcp "/run/boxd.sock"; Go SMcp;
   Serve SFront; Drain "default"; CloseCompute; CloseStore].
Proof. vm_compute. reflexivity. Qed.
(** A front door address in use ends boxd after its agents and its reconciler
    were started, and without a drain. *)
Example boxd_port_taken :
  let '((_, log), r) := boxd_run (H := logged_runtime (H := taken_runtime [":2222"])) false boxd1 (tt, []) in
  map fst (drop 7 log) = [LoadKey "./boxd-ssh-host-key"; Listen SFront ":2222"; CloseStore] /\ is_ok r = false.
Proof. vm_compute. by split. Qed.
